(* ===== verification/_CoqProject ===== *)
-Q . S2P
Prelude.v
Machine.v
Kalloc.v
BlockDev.v
Vm.v
VmFacts.v
Raid.v
RaidFacts.v
RaidParity.v
RaidHeader.v
RaidSpec.v
RaidStripe.v
RaidLevels.v
RaidTrace.v
RaidInit.v
RaidMirror.v
RaidMirrorInit.v
RaidTheorems.v
RaidFindings.v
StringFns.v
Virtio.v
VirtioFacts.v
VirtioProto.v
VirtioRefine.v
VirtioDevice.v
Bio.v
BioFacts.v
BioClient.v
Log.v
LogFacts.v
LogCommit.v
LogCrash.v
LogTxn.v
LogTheorems.v
LogSpace.v
BioTheorems.v
Pipe.v
PipeTheorems.v
Ulib.v
Grep.v
GrepTheorems.v
Printf.v
PrintfTheorems.v
Sh.v
ShLex.v
ShParse.v
ShTheorems.v
Spinlock.v
SpinTheorems.v
Proc.v
ProcFacts.v
ProcTheorems.v
BlockLayer.v
LogLayer.v
Fs.v
FsFacts.v
FsFile.v
FsWrite.v
FsInode.v
FsWritei.v
FsDir.v
FsDirFacts.v
File.v
FileTxn.v
FileTheorems.v
FsTheorems.v
SysFile.v
SysFileFacts.v
SysFileTheorems.v
Ring.v
Console.v
ConsoleTheorems.v
Mkfs.v
MkfsFacts.v
MkfsImage.v
MkfsTheorems.v
Umalloc.v
UmallocFacts.v
UmallocTheorems.v
VmMap.v
