(* ===== verification/Prelude.v ===== *)
(** * Verification of an xv6 kernel with a RAID layer

    The program is the xv6 teaching kernel for RISC-V (src/kernel) with a RAID
    layer added to it, its user programs (src/user) and the tool that makes the
    file-system image (src/mkfs).  This development translates the parts listed
    below into executable definitions and proves what they guarantee.

    ** Modelling conventions

    Stateful C code is a function in the monad [M S] of this file: it runs on an
    explicit state and returns a value ([Done]), calls [panic] ([Panic]), does
    something the machine gives no meaning to ([Fault]: an unmapped address, a
    null pointer, an index outside an array) or uses up the fuel of a loop
    ([OutOfFuel]).  [wp m Q s] is total correctness: [m] returns from [s] and [Q]
    holds of the result.  [wlp] says it only of runs that return, and is used for
    invariants of all reachable states; [wsafe] excludes [Fault] and [OutOfFuel].
    Integers are [Z] with the wrap-around of their C type written out ([u32],
    [s32], [u64], ...).  [zoom] runs a component on the part of a larger state
    that it owns.

    ** Files and the sources they model

    - Machine.v, StringFns.v: physical memory and kernel/string.c.
    - Kalloc.v: kernel/kalloc.c, the page allocator.
    - Vm.v, VmFacts.v, VmMap.v: kernel/vm.c, page tables and user copies; VmMap.v
      has the tree of tables in memory and the map it stands for.
    - BlockDev.v: [read_block] and [write_block] of kernel/virtio_disk.c over the
      interface [BlockDevice].
    - Raid.v: kernel/raid.h, kernel/raid.c, kernel/raid_rw.c, with the metadata
      page at its C layout.  RaidFacts.v, RaidParity.v, RaidHeader.v, RaidSpec.v,
      RaidStripe.v, RaidLevels.v (RAID 4 and RAID 5 behind one class),
      RaidTrace.v, RaidInit.v, RaidMirror.v, RaidMirrorInit.v hold the proofs,
      RaidTheorems.v and RaidFindings.v the results.
    - Virtio.v: the rest of kernel/virtio_disk.c for one disk.  VirtioFacts.v,
      VirtioProto.v and VirtioRefine.v show that it refines a request queue;
      VirtioDevice.v discharges [BlockDevice] with it.
    - Bio.v, BioFacts.v, BioClient.v, BioTheorems.v: kernel/bio.c and
      kernel/sleeplock.c.
    - Log.v, LogFacts.v, LogCommit.v, LogCrash.v, LogTxn.v, LogTheorems.v,
      LogSpace.v: kernel/log.c over the buffer cache.
    - Spinlock.v, SpinTheorems.v: kernel/spinlock.c.
    - Proc.v, ProcFacts.v, ProcTheorems.v: kernel/proc.c over Spinlock.v, Vm.v and
      the class [ProcFiles] for the file layer.
    - Pipe.v, PipeTheorems.v: kernel/pipe.c.
    - BlockLayer.v: what kernel/fs.c needs of the buffer cache and the log, as a
      class of calls and a class of laws; LogLayer.v discharges it with Log.v
      over Bio.v.
    - Fs.v: kernel/fs.c up to [writei], kernel/fs.h and kernel/file.h.
      FsFacts.v: blocks and the bitmap.  FsFile.v: [bmap] and [readi].
      FsInode.v: the inode on disk.  FsWrite.v, FsWritei.v: [writei] as the
      update of a byte array.  FsDir.v, FsDirFacts.v: directories and paths.
    - File.v: kernel/file.c over Fs.v, Log.v and Pipe.v.  FileTxn.v,
      FileTheorems.v, FsTheorems.v: the results of the file system.
    - SysFile.v: kernel/sysfile.c, [pipealloc] and the descriptors of [fork] and
      [exit].  SysFileFacts.v, SysFileTheorems.v: the reference counts.
    - Console.v: kernel/console.c and the transmit ring of kernel/uart.c.  Ring.v:
      ring buffers.  ConsoleTheorems.v: the line editor.
    - Printf.v, PrintfTheorems.v: kernel/printf.c and user/printf.c.
    - Mkfs.v, MkfsFacts.v, MkfsImage.v, MkfsTheorems.v: mkfs/mkfs.c, with the
      on-disk structures of Fs.v.
    - Umalloc.v, UmallocFacts.v, UmallocTheorems.v: user/umalloc.c over the
      [sbrk] of kernel/sysproc.c and kernel/proc.c.
    - Ulib.v: user/ulib.c.  Grep.v, GrepTheorems.v: user/grep.c.  Sh.v, ShLex.v,
      ShParse.v, ShTheorems.v: user/sh.c.

    ** What the theorems show

    - RAID: an array of level 1, 0+1, 4 or 5 created on blank disks refines a
      store of blocks under every sequence of reads, writes and allowed disk
      failures.  RaidFindings.v gives concrete runs in which the code departs
      from its intent: a wrong disk tested, lost data after a cached degraded
      write, repair without rebuild, overstated capacity and others.
    - Driver: every interleaving of submissions, completions and interrupts that
      the request queue allows runs without a panic and has its effect.
    - Buffer cache and log: one buffer per block and recycling in order of use;
      a commit is atomic across a crash at any disk write; admitted operations
      find space in the log when it has LOGSIZE + 1 blocks, and a run that
      panics with the size mkfs chooses.
    - Processes: along every run from boot pids are unique, a process is RUNNING
      exactly when one CPU runs it, parents are live, and nobody sleeps in [wait]
      while a child is a zombie.  Spin locks exclude each other for every
      interleaving of their atomic steps.
    - Pipes: bytes arrive in order and no sleeper misses its condition, unless a
      writer is killed between two bytes.
    - File system: [filewrite] updates a file as a byte array and is atomic
      across crashes; what is written is read back; a directory is a finite map
      to which [dirlink] adds; a path is split at its slashes.
    - System calls: after any sequence of calls, forks and exits the reference
      count of every open file is the number of descriptors that name it.
    - Console: whatever is typed and read, the console refines a line editor.
    - Page tables: from its creation on a table is a finite map, to which
      [mappages] adds, from which [uvmunmap] removes and in which [walkaddr] looks up.
    - mkfs: the image it builds is what kernel/fs.c expects, with the contents of
      every file.
    - User programs: the allocator refines a store of disjoint arrays and loses no
      memory; the shell's parser terminates and inverts printing, and a
      pipeline's descriptors are connected; the matcher of grep decides the
      language of its pattern and grep filters lines; printed numbers read back.

    ** Bounds and fuel

    Loops with a static bound are [for_], [for_exit] and [for_acc].  The others
    carry fuel computed from their arguments: the pages of a range (kalloc.c,
    vm.c), the distance to the end of memory (string.c), the number of buffers
    (bio.c), the bytes or chunks of a transfer (fs.c, file.c, mkfs.c), the
    length of a path (fs.c), a multiple of the length of the line (sh.c, proved sufficient in
    ShLex.v), the length of the input (grep.c).
    The scans of the free list in umalloc.c take their fuel as an argument, and
    twice the number of operations, plus five, is proved to be enough.  [OutOfFuel] also stands for a
    sleep lock that another process holds, where the call does not return.

    ** Parameters

    The virtio device is the class [Backend] with the laws of a block device;
    the addresses the linker chooses are the class [Config]; the file layer that
    proc.c calls is the class [ProcFiles]; the device switch of file.c, user memory
    accesses of pipes and files, the [read] and [open] of grep, the pages the kernel
    has left for [sbrk] and the source files of mkfs are arguments.  Each is instantiated in a
    witness.

    ** Not modelled

    - exec.c: it joins the file system with physical memory, which the development
      models as separate states.
    - syscall.c, sysproc.c but [sys_sbrk], sysraid.c: fetching of arguments and
      dispatch; the calls are modelled with the components that do the work.
    - trap.c and plic.c: control registers and the interrupt controller.
    - kvmmake and the satp register of vm.c, the set-up of uart.c.
    - cat.c, echo.c, init.c, kill.c, ln.c, ls.c, mkdir.c, rm.c, wc.c: sequences of
      system calls.
    - The boot code, trap vectors and context switch in assembly (entry.S,
      kernelvec.S, trampoline.S, swtch.S, initcode.S), start.c and main.c: their
      meaning is that of the processor.
    - ramdisk.c: not part of the kernel image.
    - Test programs (usertests.c, grind.c, forktest.c, stressfs.c, raidtest.c,
      javni_test.c, maxout_vm.c, zombie.c): they have no contract of their own. *)

From stdpp Require Export prelude gmap list strings.
From Stdlib Require Export ZArith Lia.

#[global] Open Scope Z_scope.

(** ** Outcomes and the kernel monad

    A kernel routine runs on an explicit state.  It returns a value and a new
    state, or it calls [panic], or it performs an access the machine model gives
    no meaning to (an unmapped address, an index outside an array that is not
    part of modelled memory, a division by zero), or the fuel of a loop without
    a static bound is exhausted. *)

Inductive outcome (A : Type) : Type :=
  | Done (a : A)
  | Panic (msg : string)
  | Fault
  | OutOfFuel.
Arguments Done {A} a.
Arguments Panic {A} msg.
Arguments Fault {A}.
Arguments OutOfFuel {A}.

Definition M (S A : Type) : Type := S → outcome (A * S).

#[global] Instance M_ret {S} : MRet (M S) := λ A a s, Done (a, s).

#[global] Instance M_bind {S} : MBind (M S) := λ A B k m s,
  match m s with
  | Done (a, s') => k a s'
  | Panic msg => Panic msg
  | Fault => Fault
  | OutOfFuel => OutOfFuel
  end.

Abbreviation ret := mret (only parsing).

Definition panic {S A} (msg : string) : M S A := λ _, Panic msg.
Definition fault {S A} : M S A := λ _, Fault.
Definition out_of_fuel {S A} : M S A := λ _, OutOfFuel.
Definition get {S} : M S S := λ s, Done (s, s).
Definition gets {S A} (f : S → A) : M S A := λ s, Done (f s, s).
Definition modify {S} (f : S → S) : M S unit := λ s, Done (tt, f s).

(** [for(i = lo; i < hi; i++) body] with a bound that the body leaves alone. *)
Fixpoint forN {S} (n : nat) (i : Z) (body : Z → M S unit) : M S unit :=
  match n with
  | O => ret tt
  | S n' => body i;; forN n' (i + 1) body
  end.
Definition for_ {S} (lo hi : Z) (body : Z → M S unit) : M S unit :=
  forN (Z.to_nat (hi - lo)) lo body.

(** The same loop with an early exit: the body returns [Some r] to leave. *)
Fixpoint findN {S R} (n : nat) (i : Z) (body : Z → M S (option R)) : M S (option R) :=
  match n with
  | O => ret None
  | S n' =>
      r ← body i;
      match r with Some _ => ret r | None => findN n' (i + 1) body end
  end.
Definition for_exit {S R} (lo hi : Z) (body : Z → M S (option R)) : M S (option R) :=
  findN (Z.to_nat (hi - lo)) lo body.

(** A loop that updates a local variable [acc]. *)
Fixpoint foldN {S A} (n : nat) (i : Z) (acc : A) (body : Z → A → M S A) : M S A :=
  match n with
  | O => ret acc
  | S n' => acc' ← body i acc; foldN n' (i + 1) acc' body
  end.
Definition for_acc {S A} (lo hi : Z) (acc : A) (body : Z → A → M S A) : M S A :=
  foldN (Z.to_nat (hi - lo)) lo acc body.

(** A routine of a component run on the part of the state that it owns. *)
Definition zoom {S T A} (part : S → T) (upd : T → S → S) (m : M T A) : M S A := λ s,
  match m (part s) with
  | Done (a, t) => Done (a, upd t s)
  | Panic msg => Panic msg
  | Fault => Fault
  | OutOfFuel => OutOfFuel
  end.

Definition when {S} (b : bool) (m : M S unit) : M S unit := if b then m else ret tt.

(** ** Weakest preconditions (total correctness) *)

Definition wp {S A} (m : M S A) (Q : A → S → Prop) (s : S) : Prop :=
  match m s with Done (a, s') => Q a s' | _ => False end.

Section wp.
Context {S : Type}.

Lemma wp_ret {A} (a : A) (Q : A → S → Prop) s : Q a s → wp (ret a) Q s.
Proof. done. Qed.

Lemma wp_bind {A B} (m : M S A) (k : A → M S B) Q s :
  wp m (λ a, wp (k a) Q) s → wp (m ≫= k) Q s.
Proof. unfold wp, mbind, M_bind. destruct (m s) as [[a s']| | |]; done. Qed.

Lemma wp_bind_inv {A B} (m : M S A) (k : A → M S B) Q s :
  wp (m ≫= k) Q s → wp m (λ a, wp (k a) Q) s.
Proof. unfold wp, mbind, M_bind. destruct (m s) as [[a s']| | |]; done. Qed.

Lemma wp_mono {A} (m : M S A) (Q Q' : A → S → Prop) s :
  wp m Q s → (∀ a s', Q a s' → Q' a s') → wp m Q' s.
Proof. unfold wp. destruct (m s) as [[a s']| | |]; naive_solver. Qed.

Lemma wp_get (Q : S → S → Prop) s : Q s s → wp get Q s.
Proof. done. Qed.

Lemma wp_gets {A} (f : S → A) Q s : Q (f s) s → wp (gets f) Q s.
Proof. done. Qed.

Lemma wp_modify (f : S → S) (Q : unit → S → Prop) s : Q tt (f s) → wp (modify f) Q s.
Proof. done. Qed.

Lemma wp_done {A} (m : M S A) (Q : A → S → Prop) s a s' :
  m s = Done (a, s') → Q a s' → wp m Q s.
Proof. unfold wp. by intros ->. Qed.

Lemma wp_inv {A} (m : M S A) (Q : A → S → Prop) s :
  wp m Q s → ∃ a s', m s = Done (a, s') ∧ Q a s'.
Proof. unfold wp. destruct (m s) as [[a s']| | |]; naive_solver. Qed.

Lemma wp_zoom {T A} (part : S → T) upd (m : M T A) (Q : A → S → Prop) s :
  wp m (λ a t, Q a (upd t s)) (part s) → wp (zoom part upd m) Q s.
Proof. unfold wp, zoom. by destruct (m (part s)) as [[a t]| | |]. Qed.

Lemma wp_eq {A} (m m' : M S A) (Q : A → S → Prop) s : m s = m' s → wp m' Q s → wp m Q s.
Proof. unfold wp. by intros ->. Qed.

Lemma wp_ext {A} (m m' : M S A) (Q : A → S → Prop) s : (∀ s, m s = m' s) → wp m Q s → wp m' Q s.
Proof. unfold wp. by intros <-. Qed.

(** Loop rule: an invariant indexed by the loop counter. *)
Lemma wp_for (I : Z → S → Prop) lo hi body s :
  lo ≤ hi →
  I lo s →
  (∀ i s', lo ≤ i < hi → I i s' → wp (body i) (λ _, I (i + 1)) s') →
  wp (for_ lo hi body) (λ _, I hi) s.
Proof.
  unfold for_. intros Hle HI Hbody.
  remember (Z.to_nat (hi - lo)) as n eqn:Hn.
  revert lo s Hle HI Hbody Hn. induction n as [|n IH]; intros lo s Hle HI Hbody Hn.
  - simpl. apply wp_ret. by replace hi with lo by lia.
  - simpl. apply wp_bind. eapply wp_mono; [apply Hbody; [lia|done]|].
    intros u s' HI'. apply IH; [lia|done| |lia].
    intros i s'' Hi. apply Hbody. lia.
Qed.

Lemma wp_for_post (I : Z → S → Prop) (Q : unit → S → Prop) lo hi body s :
  lo ≤ hi →
  I lo s →
  (∀ i s', lo ≤ i < hi → I i s' → wp (body i) (λ _, I (i + 1)) s') →
  (∀ s', I hi s' → Q tt s') →
  wp (for_ lo hi body) Q s.
Proof.
  intros Hle HI Hbody HQ. eapply wp_mono; [by apply (wp_for I)|]. intros []. apply HQ.
Qed.

(** The same with a local variable. *)
Lemma wp_for_acc {A} (I : Z → A → S → Prop) lo hi acc body s :
  lo ≤ hi →
  I lo acc s →
  (∀ i acc s', lo ≤ i < hi → I i acc s' → wp (body i acc) (λ acc', I (i + 1) acc') s') →
  wp (for_acc lo hi acc body) (λ acc', I hi acc') s.
Proof.
  unfold for_acc. intros Hle HI Hbody. remember (Z.to_nat (hi - lo)) as n eqn:Hn.
  revert lo acc s Hle HI Hbody Hn. induction n as [|n IH]; intros lo acc s Hle HI Hbody Hn; simpl.
  - apply wp_ret. by replace hi with lo by lia.
  - apply wp_bind. eapply wp_mono; [apply Hbody; [lia|done]|].
    intros acc' s' HI'. apply IH; [lia|done| |lia]. intros i acc'' s'' Hi. apply Hbody. lia.
Qed.

(** The loop with an early exit. *)
Lemma wp_for_exit {R} (I : Z → S → Prop) (Q : option R → S → Prop) lo hi body s :
  lo ≤ hi →
  I lo s →
  (∀ i s', lo ≤ i < hi → I i s' →
     wp (body i) (λ r s'', match r with Some _ => Q r s'' | None => I (i + 1) s'' end) s') →
  (∀ s', I hi s' → Q None s') →
  wp (for_exit lo hi body) Q s.
Proof.
  unfold for_exit. intros Hle HI Hbody HQ. remember (Z.to_nat (hi - lo)) as n eqn:Hn.
  revert lo s Hle HI Hbody Hn. induction n as [|n IH]; intros lo s Hle HI Hbody Hn; simpl.
  - apply wp_ret, HQ. by replace hi with lo by lia.
  - apply wp_bind. eapply wp_mono; [apply Hbody; [lia|done]|].
    intros [r|] s' HI'; [by apply wp_ret|]. apply IH; [lia|done| |lia].
    intros i s'' Hi. apply Hbody. lia.
Qed.

Lemma bind_done {A B} (m : M S A) (k : A → M S B) s a s' :
  m s = Done (a, s') → (m ≫= k) s = k a s'.
Proof. unfold mbind, M_bind. by intros ->. Qed.

Lemma bind_panic {A B} (m : M S A) (k : A → M S B) s msg :
  m s = Panic msg → (m ≫= k) s = Panic msg.
Proof. unfold mbind, M_bind. by intros ->. Qed.

Lemma bind_ext {A B} (m : M S A) (k k' : A → M S B) s :
  (∀ a s', k a s' = k' a s') → (m ≫= k) s = (m ≫= k') s.
Proof. intros Hk. unfold mbind, M_bind. by destruct (m s) as [[a s']| | |]. Qed.

Lemma bind_assoc {A B C} (m : M S A) (k : A → M S B) (h : B → M S C) s :
  ((m ≫= k) ≫= h) s = (m ≫= λ a, k a ≫= h) s.
Proof. unfold mbind, M_bind. by destruct (m s) as [[a s']| | |]. Qed.
End wp.

(** ** The same for routines that may call [panic] *)

Definition wsafe {S A} (m : M S A) (Q : A → S → Prop) (s : S) : Prop :=
  match m s with Done (a, s') => Q a s' | Panic _ => True | _ => False end.

Section wsafe.
Context {S : Type}.

Lemma wsafe_ret {A} (a : A) (Q : A → S → Prop) s : Q a s → wsafe (ret a) Q s.
Proof. done. Qed.

Lemma wsafe_panic {A} msg (Q : A → S → Prop) s : wsafe (panic msg) Q s.
Proof. done. Qed.

Lemma wsafe_bind {A B} (m : M S A) (k : A → M S B) Q s :
  wsafe m (λ a, wsafe (k a) Q) s → wsafe (m ≫= k) Q s.
Proof. unfold wsafe, mbind, M_bind. destruct (m s) as [[a s']| | |]; done. Qed.

Lemma wsafe_mono {A} (m : M S A) (Q Q' : A → S → Prop) s :
  wsafe m Q s → (∀ a s', Q a s' → Q' a s') → wsafe m Q' s.
Proof. unfold wsafe. destruct (m s) as [[a s']| | |]; naive_solver. Qed.

Lemma wsafe_wp {A} (m : M S A) (Q : A → S → Prop) s : wp m Q s → wsafe m Q s.
Proof. unfold wp, wsafe. by destruct (m s) as [[a s']| | |]. Qed.
End wsafe.

(** ** Partial correctness: what holds if the routine returns *)

Definition wlp {S A} (m : M S A) (Q : A → S → Prop) (s : S) : Prop :=
  ∀ a s', m s = Done (a, s') → Q a s'.

Section wlp.
Context {S : Type}.

Lemma wlp_ret {A} (a : A) (Q : A → S → Prop) s : Q a s → wlp (ret a) Q s.
Proof. by intros HQ a' s' [= <- <-]. Qed.

Lemma wlp_panic {A} msg (Q : A → S → Prop) s : wlp (panic msg) Q s.
Proof. by intros a s'. Qed.

Lemma wlp_bind {A B} (m : M S A) (k : A → M S B) Q s :
  wlp m (λ a, wlp (k a) Q) s → wlp (m ≫= k) Q s.
Proof.
  unfold wlp, mbind, M_bind. intros H b s'. destruct (m s) as [[a s1]| | |]; [|done..]. by apply H.
Qed.

Lemma wlp_mono {A} (m : M S A) (Q Q' : A → S → Prop) s :
  wlp m Q s → (∀ a s', Q a s' → Q' a s') → wlp m Q' s.
Proof. unfold wlp. naive_solver. Qed.

Lemma wlp_gets {A} (f : S → A) (Q : A → S → Prop) s : Q (f s) s → wlp (gets f) Q s.
Proof. by intros HQ a s' [= <- <-]. Qed.

Lemma wlp_get (Q : S → S → Prop) s : Q s s → wlp get Q s.
Proof. by intros HQ a s' [= <- <-]. Qed.

Lemma wlp_modify (f : S → S) (Q : unit → S → Prop) s : Q tt (f s) → wlp (modify f) Q s.
Proof. by intros HQ [] s' [= <-]. Qed.

Lemma wlp_zoom {T A} (part : S → T) upd (m : M T A) (Q : A → S → Prop) s :
  (∀ a t, m (part s) = Done (a, t) → Q a (upd t s)) → wlp (zoom part upd m) Q s.
Proof.
  intros HQ a s'. unfold zoom. destruct (m (part s)) as [[a' t]| | |]; [|done..].
  intros [= <- <-]. by apply HQ.
Qed.

Lemma wlp_for (I : Z → S → Prop) (Q : unit → S → Prop) lo hi body s :
  lo ≤ hi → I lo s →
  (∀ i s', lo ≤ i < hi → I i s' → wlp (body i) (λ _, I (i + 1)) s') →
  (∀ s', I hi s' → Q tt s') → wlp (for_ lo hi body) Q s.
Proof.
  unfold for_. intros Hle HI Hb HQ. remember (Z.to_nat (hi - lo)) as n eqn:Hn.
  revert lo s Hle HI Hb Hn. induction n as [|n IH]; intros lo s Hle HI Hb Hn; cbn [forN].
  - apply wlp_ret, HQ. by replace hi with lo by lia.
  - apply wlp_bind. eapply wlp_mono; [apply Hb; [lia|done]|]. intros ? s' HI'.
    apply (IH (lo + 1)); [lia|done| |lia]. intros i s'' Hi. apply Hb. lia.
Qed.

Lemma wlp_for_exit {R} (I : Z → S → Prop) (Q : option R → S → Prop) lo hi body s :
  lo ≤ hi → I lo s →
  (∀ i s', lo ≤ i < hi → I i s' →
     wlp (body i) (λ r s'', match r with Some _ => Q r s'' | None => I (i + 1) s'' end) s') →
  (∀ s', I hi s' → Q None s') → wlp (for_exit lo hi body) Q s.
Proof.
  unfold for_exit. intros Hle HI Hb HQ. remember (Z.to_nat (hi - lo)) as n eqn:Hn.
  revert lo s Hle HI Hb Hn. induction n as [|n IH]; intros lo s Hle HI Hb Hn; cbn [findN].
  - apply wlp_ret, HQ. by replace hi with lo by lia.
  - apply wlp_bind. eapply wlp_mono; [apply Hb; [lia|done]|]. intros [r|] s' HI'; [by apply wlp_ret|].
    apply (IH (lo + 1)); [lia|done| |lia]. intros i s'' Hi. apply Hb. lia.
Qed.

Lemma wlp_for_acc {A} (I : Z → A → S → Prop) (Q : A → S → Prop) lo hi acc body s :
  lo ≤ hi → I lo acc s →
  (∀ i acc s', lo ≤ i < hi → I i acc s' → wlp (body i acc) (λ acc', I (i + 1) acc') s') →
  (∀ acc' s', I hi acc' s' → Q acc' s') → wlp (for_acc lo hi acc body) Q s.
Proof.
  unfold for_acc. intros Hle HI Hb HQ. remember (Z.to_nat (hi - lo)) as n eqn:Hn.
  revert lo acc s Hle HI Hb Hn. induction n as [|n IH]; intros lo acc s Hle HI Hb Hn; cbn [foldN].
  - apply wlp_ret, HQ. by replace hi with lo by lia.
  - apply wlp_bind. eapply wlp_mono; [apply Hb; [lia|done]|]. intros acc' s' HI'.
    apply (IH (lo + 1)); [lia|done| |lia]. intros i acc'' s'' Hi. apply Hb. lia.
Qed.

End wlp.

(** Step through the head of a monadic program under [wlp]. *)
Ltac wlp_step :=
  lazymatch goal with
  | |- wlp (_ ≫= _) _ _ => apply wlp_bind
  | |- wlp (mret _) _ _ => apply wlp_ret
  | |- wlp (gets _) _ _ => apply wlp_gets
  | |- wlp get _ _ => apply wlp_get
  | |- wlp (modify _) _ _ => apply wlp_modify
  | |- wlp (panic _) _ _ => apply wlp_panic
  end.

(** Step through the head of a monadic program under [wp]. *)
Ltac wp_step :=
  lazymatch goal with
  | |- wp (_ ≫= _) _ _ => apply wp_bind
  | |- wp (mret _) _ _ => apply wp_ret
  | |- wp (gets _) _ _ => apply wp_gets
  | |- wp get _ _ => apply wp_get
  | |- wp (modify _) _ _ => apply wp_modify
  | |- wp (when _ _) _ _ => unfold when
  end.
Ltac wp_steps := repeat (wp_step; cbv beta).

(** [lia] with division and remainder turned into equations. *)
Ltac dlia := Z.to_euclidean_division_equations; lia.

(** ** Lookups after an update *)

Lemma list_insert_lookup {A} `{Inhabited A} (l : list A) i j x :
  (i < length l)%nat → <[i := x]> l !!! j = if decide (j = i) then x else l !!! j.
Proof.
  intros Hi. case_decide as E; [subst; by apply list_lookup_total_insert_eq|].
  by apply list_lookup_total_insert_ne.
Qed.

Lemma map_insert_lookup {A} `{Inhabited A} (m : gmap Z A) i j x :
  <[i := x]> m !!! j = if decide (j = i) then x else m !!! j.
Proof.
  case_decide as E; [subst; by apply lookup_total_insert_eq|]. by apply lookup_total_insert_ne.
Qed.

(** ** Machine integers *)

Definition u8 (z : Z) : Z := z mod 2 ^ 8.
Definition u16 (z : Z) : Z := z mod 2 ^ 16.
Definition u32 (z : Z) : Z := z mod 2 ^ 32.
Definition u64 (z : Z) : Z := z mod 2 ^ 64.

(** Conversion of a 32-bit pattern to [int]. *)
Definition s32 (z : Z) : Z := if u32 z <? 2 ^ 31 then u32 z else u32 z - 2 ^ 32.

Lemma u32_range z : 0 ≤ u32 z < 2 ^ 32.
Proof. apply Z.mod_pos_bound. lia. Qed.

Lemma u32_small z : 0 ≤ z < 2 ^ 32 → u32 z = z.
Proof. apply Z.mod_small. Qed.

Lemma s32_small z : 0 ≤ z < 2 ^ 31 → s32 z = z.
Proof.
  intros Hz. unfold s32. rewrite u32_small by lia.
  destruct (Z.ltb_spec z (2 ^ 31)); lia.
Qed.

Create Rewrite HintDb ints.
#[export] Hint Rewrite u32_small s32_small using lia : ints.
