(* ===== verification/Machine.v ===== *)
(** * The machine: physical memory, kernel globals, and the memory routines

    Physical memory is a finite map from addresses to bytes; the kernel runs on
    a direct map of it (kernel/vm.c, [kvmmake]), so a kernel pointer is a
    physical address.  [Machine] holds the globals that the page allocator, the
    page-table code, the RAID block transfers and the RAID layer share.  The
    memory routines of kernel/string.c are translated byte loop by byte loop and
    shown equal to block reads and writes of the map. *)

From S2P Require Import Prelude.

(** ** Bytes and little-endian words *)

Abbreviation mem := (gmap Z Z).

Fixpoint read_bytes (m : mem) (a : Z) (n : nat) : list Z :=
  match n with
  | O => []
  | S n' => m !!! a :: read_bytes m (a + 1) n'
  end.

Fixpoint write_bytes (m : mem) (a : Z) (l : list Z) : mem :=
  match l with
  | [] => m
  | b :: l' => write_bytes (<[a := b]> m) (a + 1) l'
  end.

Fixpoint le_combine (l : list Z) : Z :=
  match l with
  | [] => 0
  | b :: l' => b + 256 * le_combine l'
  end.

Fixpoint le_split (n : nat) (v : Z) : list Z :=
  match n with
  | O => []
  | S n' => v mod 256 :: le_split n' (v / 256)
  end.

(** Little-endian load and store of [n] bytes. *)
Definition ld (n : nat) (m : mem) (a : Z) : Z := le_combine (read_bytes m a n).
Definition st (n : nat) (m : mem) (a v : Z) : mem := write_bytes m a (le_split n v).

Definition byte (b : Z) : Prop := 0 ≤ b < 256.
Definition bytes (l : list Z) : Prop := Forall byte l.

(** Every address holds a byte. *)
Definition mem_ok (m : mem) : Prop := ∀ a, byte (m !!! a).

Section bytes_facts.
Implicit Types (m : mem) (a b : Z) (l : list Z) (n : nat).

Lemma length_read_bytes m a n : length (read_bytes m a n) = n.
Proof. revert a. induction n; intros a; simpl; auto. Qed.

Lemma length_le_split n v : length (le_split n v) = n.
Proof. revert v. induction n; intros v; simpl; auto. Qed.

Lemma lookup_write_bytes m a l x :
  write_bytes m a l !! x =
    if decide (a ≤ x < a + Z.of_nat (length l)) then l !! Z.to_nat (x - a) else m !! x.
Proof.
  revert m a. induction l as [|b l IH]; intros m a; simpl.
  - rewrite decide_False by lia. done.
  - rewrite IH. destruct (decide (x = a)) as [->|Hne].
    + rewrite decide_False, decide_True by lia.
      rewrite lookup_insert_eq, Z.sub_diag. done.
    + rewrite lookup_insert_ne by done. repeat case_decide; try lia; [|done].
      by replace (Z.to_nat (x - a)) with (S (Z.to_nat (x - (a + 1)))) by lia.
Qed.

Lemma lookup_total_write_bytes m a l x :
  write_bytes m a l !!! x =
    if decide (a ≤ x < a + Z.of_nat (length l)) then l !!! Z.to_nat (x - a) else m !!! x.
Proof.
  rewrite !lookup_total_alt, lookup_write_bytes, list_lookup_total_alt. by case_decide.
Qed.

Lemma lookup_read_bytes m a n (i : nat) :
  (i < n)%nat → read_bytes m a n !! i = Some (m !!! (a + Z.of_nat i)).
Proof.
  revert a i. induction n as [|n IH]; intros a i Hi; [lia|].
  destruct i as [|i]; simpl.
  - by rewrite Z.add_0_r.
  - rewrite IH by lia. do 2 f_equal. lia.
Qed.

Lemma lookup_total_read_bytes m a n (i : nat) :
  (i < n)%nat → read_bytes m a n !!! i = m !!! (a + Z.of_nat i).
Proof. intros. by apply list_lookup_total_correct, lookup_read_bytes. Qed.

(** Two memories that agree on a range read the same bytes there. *)
Lemma read_bytes_ext m m' a n :
  (∀ x, a ≤ x < a + Z.of_nat n → m !!! x = m' !!! x) →
  read_bytes m a n = read_bytes m' a n.
Proof.
  revert a. induction n as [|n IH]; intros a Hx; simpl; [done|].
  rewrite (Hx a) by lia. f_equal. apply IH. intros x ?. apply Hx. lia.
Qed.

Lemma read_write_bytes_ne m a l b n :
  b + Z.of_nat n ≤ a ∨ a + Z.of_nat (length l) ≤ b →
  read_bytes (write_bytes m a l) b n = read_bytes m b n.
Proof.
  intros Hd. apply read_bytes_ext. intros x Hx.
  rewrite lookup_total_write_bytes, decide_False by lia. done.
Qed.

Lemma read_write_bytes_sub m a l b n :
  a ≤ b → b + Z.of_nat n ≤ a + Z.of_nat (length l) →
  read_bytes (write_bytes m a l) b n = take n (drop (Z.to_nat (b - a)) l).
Proof.
  intros Hab Hn. apply list_eq. intros i.
  destruct (decide (i < n)%nat) as [Hi|Hi].
  - rewrite lookup_read_bytes by done.
    rewrite lookup_take_lt, lookup_drop by done.
    rewrite lookup_total_write_bytes, decide_True by lia.
    replace (Z.to_nat (b + Z.of_nat i - a)) with (Z.to_nat (b - a) + i)%nat by lia.
    symmetry. apply list_lookup_lookup_total_lt. lia.
  - rewrite !lookup_ge_None_2; [done| |].
    + rewrite length_take. lia.
    + rewrite length_read_bytes. lia.
Qed.

Lemma read_write_bytes_eq m a l n :
  n = length l → read_bytes (write_bytes m a l) a n = l.
Proof.
  intros ->. rewrite read_write_bytes_sub by lia.
  rewrite Z.sub_diag, drop_0. by apply take_ge.
Qed.

Lemma read_bytes_app m a n1 n2 :
  read_bytes m a (n1 + n2) = read_bytes m a n1 ++ read_bytes m (a + Z.of_nat n1) n2.
Proof.
  revert a. induction n1 as [|n1 IH]; intros a; simpl.
  - by rewrite Z.add_0_r.
  - rewrite IH. do 3 f_equal. lia.
Qed.

Lemma write_bytes_app m a l1 l2 :
  write_bytes m a (l1 ++ l2) = write_bytes (write_bytes m a l1) (a + Z.of_nat (length l1)) l2.
Proof.
  revert m a. induction l1 as [|b l1 IH]; intros m a; simpl.
  - by rewrite Z.add_0_r.
  - rewrite IH. f_equal. lia.
Qed.

(** Writes to disjoint ranges commute. *)
Lemma write_bytes_comm m a1 l1 a2 l2 :
  a1 + Z.of_nat (length l1) ≤ a2 ∨ a2 + Z.of_nat (length l2) ≤ a1 →
  write_bytes (write_bytes m a1 l1) a2 l2 = write_bytes (write_bytes m a2 l2) a1 l1.
Proof.
  intros Hd. apply map_eq. intros x. rewrite !lookup_write_bytes.
  repeat case_decide; done || lia.
Qed.

Lemma le_combine_split n v : le_combine (le_split n v) = v mod 2 ^ (8 * Z.of_nat n).
Proof.
  revert v. induction n as [|n IH]; intros v; simpl.
  - by rewrite Z.mod_1_r.
  - rewrite IH. replace (8 * Z.of_nat (S n)) with (8 + 8 * Z.of_nat n) by lia.
    rewrite Z.pow_add_r by lia. change (2 ^ 8) with 256.
    rewrite Z.rem_mul_r by lia. lia.
Qed.

Lemma bytes_le_split n v : bytes (le_split n v).
Proof.
  unfold bytes, byte. revert v. induction n as [|n IH]; intros v; simpl; constructor; [|done].
  apply Z.mod_pos_bound. lia.
Qed.

Lemma le_combine_range l : bytes l → 0 ≤ le_combine l < 2 ^ (8 * Z.of_nat (length l)).
Proof.
  induction 1 as [|b l Hb Hl IH]; simpl length; simpl le_combine; [lia|].
  replace (8 * Z.of_nat (S (length l))) with (8 + 8 * Z.of_nat (length l)) by lia.
  rewrite Z.pow_add_r by lia. change (2 ^ 8) with 256. unfold byte in Hb. lia.
Qed.

Lemma le_split_combine l n : bytes l → n = length l → le_split n (le_combine l) = l.
Proof.
  intros Hl ->. induction Hl as [|b l Hb Hl IH]; simpl; [done|]. unfold byte in Hb.
  rewrite (Z.mul_comm 256), Z.mod_add, Z.div_add by lia.
  rewrite Z.mod_small, (Z.div_small b), Z.add_0_l, IH by lia. done.
Qed.

Lemma bytes_read_bytes m a n : mem_ok m → bytes (read_bytes m a n).
Proof.
  intros Hm. unfold bytes. revert a. induction n; intros a; simpl; constructor; auto.
Qed.

Lemma mem_ok_write_bytes m a l : mem_ok m → bytes l → mem_ok (write_bytes m a l).
Proof.
  intros Hm Hl x. rewrite lookup_total_write_bytes. case_decide; [|apply Hm].
  unfold bytes in Hl. rewrite Forall_lookup in Hl. eapply Hl, list_lookup_lookup_total_lt. lia.
Qed.

Lemma ld_range n m a : mem_ok m → 0 ≤ ld n m a < 2 ^ (8 * Z.of_nat n).
Proof.
  intros Hm. unfold ld. pose proof (le_combine_range _ (bytes_read_bytes m a n Hm)) as H.
  by rewrite length_read_bytes in H.
Qed.

Lemma ld_st_eq n m a v : ld n (st n m a v) a = v mod 2 ^ (8 * Z.of_nat n).
Proof.
  unfold ld, st. rewrite read_write_bytes_eq by by rewrite length_le_split.
  apply le_combine_split.
Qed.

(** Storing what is there changes nothing. *)
Lemma st_ld_same n m a x : mem_ok m → st n m a (ld n m a) !!! x = m !!! x.
Proof.
  intros Hm. unfold st, ld.
  rewrite le_split_combine; [|by apply bytes_read_bytes|by rewrite length_read_bytes].
  rewrite lookup_total_write_bytes, length_read_bytes.
  case_decide; [|done]. rewrite lookup_total_read_bytes by lia. f_equal. lia.
Qed.

Lemma ld_write_bytes_ne n m a l b :
  b + Z.of_nat n ≤ a ∨ a + Z.of_nat (length l) ≤ b →
  ld n (write_bytes m a l) b = ld n m b.
Proof. intros. unfold ld. by rewrite read_write_bytes_ne. Qed.

Lemma ld_st_ne n k m a v b :
  b + Z.of_nat n ≤ a ∨ a + Z.of_nat k ≤ b → ld n (st k m a v) b = ld n m b.
Proof. intros. unfold st. rewrite ld_write_bytes_ne; [done|]. by rewrite length_le_split. Qed.

Lemma mem_ok_st n m a v : mem_ok m → mem_ok (st n m a v).
Proof. intros. by apply mem_ok_write_bytes, bytes_le_split. Qed.
End bytes_facts.

(** ** Build configuration and memory layout

    [DISKS] and [DISK_SIZE] come from the Makefile ([-DDISKS], [-DDISK_SIZE]);
    [etext] and [end] are set by kernel.ld. *)

Class Config := {
  DISKS : Z;
  DISK_SIZE : Z;
  etext : Z;
  kend : Z;
}.

Definition KERNBASE : Z := 0x80000000.
Definition PHYSTOP : Z := KERNBASE + 32 * 1024 * 1024.
Definition PGSIZE : Z := 4096.
Definition BSIZE : Z := 1024.

(** kernel/riscv.h, on 64-bit values. *)
Definition PGROUNDUP (sz : Z) : Z := Z.land (u64 (sz + PGSIZE - 1)) (u64 (Z.lnot (PGSIZE - 1))).
Definition PGROUNDDOWN (a : Z) : Z := Z.land a (u64 (Z.lnot (PGSIZE - 1))).

Class ConfigOk (C : Config) : Prop := {
  DISKS_pos : 1 ≤ DISKS;
  etext_ge : KERNBASE ≤ etext;
  kend_ge : etext ≤ kend;
  kend_le : kend ≤ PHYSTOP;
}.

(** The Makefile's defaults: four disks of 128 MB. *)
Definition default_config : Config :=
  {| DISKS := 4; DISK_SIZE := 128 * 1024 * 1024;
     etext := KERNBASE + 0x8000; kend := KERNBASE + 0x22000 |}.

#[export] Instance default_config_ok : ConfigOk default_config.
Proof. by split; vm_compute. Qed.

Lemma PGROUNDDOWN_eq a : 0 ≤ a < 2 ^ 64 → PGROUNDDOWN a = a / PGSIZE * PGSIZE.
Proof.
  intros Ha. unfold PGROUNDDOWN.
  change (u64 (Z.lnot (PGSIZE - 1))) with (Z.shiftl (Z.ones 52) 12).
  change (a / PGSIZE * PGSIZE) with (a / 2 ^ 12 * 2 ^ 12).
  rewrite <- Z.shiftr_div_pow2, <- Z.shiftl_mul_pow2 by lia.
  apply Z.bits_inj'. intros i Hi. rewrite Z.land_spec, !Z.shiftl_spec by lia.
  destruct (Z.ltb_spec i 12).
  - rewrite !(Z.testbit_neg_r _ (i - 12)) by lia. apply andb_false_r.
  - rewrite Z.shiftr_spec by lia. replace (i - 12 + 12) with i by lia.
    destruct (Z.ltb_spec i 64).
    + rewrite Z.ones_spec_low by lia. apply andb_true_r.
    + rewrite Z.ones_spec_high by lia. rewrite andb_false_r. symmetry.
      apply (Z.bits_above_log2 a i); [lia|].
      destruct (decide (a = 0)) as [->|]; [simpl; lia|].
      apply Z.lt_le_trans with 64; [apply Z.log2_lt_pow2|]; lia.
Qed.

Lemma PGROUNDUP_eq a : 0 ≤ a → a + PGSIZE ≤ 2 ^ 64 →
  PGROUNDUP a = (a + (PGSIZE - 1)) / PGSIZE * PGSIZE.
Proof.
  intros Ha Hb. unfold PGROUNDUP. unfold u64 at 1.
  assert (PGSIZE = 4096) by done. rewrite Z.mod_small by lia.
  fold (PGROUNDDOWN (a + PGSIZE - 1)). rewrite PGROUNDDOWN_eq by lia.
  by rewrite Z.add_sub_assoc.
Qed.

(** ** Kernel globals *)

Record machine (D : Type) := Machine {
  phys : mem;                  (* physical memory *)
  freelist : Z;                (* kmem.freelist, kernel/kalloc.c *)
  raid_metadata : Z;           (* struct raid pointer, kernel/raid.c *)
  transfer_buffer : gmap Z Z;  (* struct buf pointers, kernel/virtio_disk.c *)
  vdisk : D;                   (* the block devices *)
}.
Arguments Machine {D} _ _ _ _ _.
Arguments phys {D} _.
Arguments freelist {D} _.
Arguments raid_metadata {D} _.
Arguments transfer_buffer {D} _.
Arguments vdisk {D} _.

Section machine.
Context {D : Type} `{C : Config}.
Implicit Types (s : machine D) (a v n : Z).

Definition set_phys (m : mem) s : machine D :=
  Machine m (freelist s) (raid_metadata s) (transfer_buffer s) (vdisk s).
Definition set_freelist (p : Z) s : machine D :=
  Machine (phys s) p (raid_metadata s) (transfer_buffer s) (vdisk s).
Definition set_raid_metadata (p : Z) s : machine D :=
  Machine (phys s) (freelist s) p (transfer_buffer s) (vdisk s).
Definition set_transfer_buffer (t : gmap Z Z) s : machine D :=
  Machine (phys s) (freelist s) (raid_metadata s) t (vdisk s).
Definition set_vdisk (d : D) s : machine D :=
  Machine (phys s) (freelist s) (raid_metadata s) (transfer_buffer s) d.

(** The kernel page table maps RAM readable; kernel text is not writable. *)
Definition readable (a n : Z) : bool := (KERNBASE <=? a) && (a + n <=? PHYSTOP).
Definition writable (a n : Z) : bool := (etext <=? a) && (a + n <=? PHYSTOP).

(** Loads and stores of [k] bytes; an unmapped address traps. *)
Definition load (k : nat) (a : Z) : M (machine D) Z := λ s,
  if readable a (Z.of_nat k) then Done (ld k (phys s) a, s) else Fault.
Definition store (k : nat) (a v : Z) : M (machine D) unit := λ s,
  if writable a (Z.of_nat k) then Done (tt, set_phys (st k (phys s) a v) s) else Fault.

(** *** kernel/string.c: memory routines *)

Definition memset (dst c n : Z) : M (machine D) Z :=
  for_ 0 n (λ i, store 1 (dst + i) c);;
  ret dst.

(** [while(n-- > 0) *--d = *--s;] *)
Fixpoint copy_down (n : nat) (d s : Z) : M (machine D) unit :=
  match n with
  | O => ret tt
  | S n' =>
      b ← load 1 (s - 1);
      store 1 (d - 1) b;;
      copy_down n' (d - 1) (s - 1)
  end.

(** [while(n-- > 0) *d++ = *s++;] *)
Fixpoint copy_up (n : nat) (d s : Z) : M (machine D) unit :=
  match n with
  | O => ret tt
  | S n' =>
      b ← load 1 s;
      store 1 d b;;
      copy_up n' (d + 1) (s + 1)
  end.

Definition memmove (dst src n : Z) : M (machine D) Z :=
  if n =? 0 then ret dst
  else
    (if (src <? dst) && (src + n >? dst)
     then copy_down (Z.to_nat n) (dst + n) (src + n)
     else copy_up (Z.to_nat n) dst src);;
    ret dst.

Definition memcpy (dst src n : Z) : M (machine D) Z := memmove dst src n.

Fixpoint memcmp_loop (n : nat) (s1 s2 : Z) : M (machine D) Z :=
  match n with
  | O => ret 0
  | S n' =>
      b1 ← load 1 s1;
      b2 ← load 1 s2;
      if b1 =? b2 then memcmp_loop n' (s1 + 1) (s2 + 1) else ret (b1 - b2)
  end.
Definition memcmp (v1 v2 n : Z) : M (machine D) Z := memcmp_loop (Z.to_nat n) v1 v2.
End machine.

Ltac ranges := unfold readable, writable, KERNBASE, PHYSTOP, PGSIZE, BSIZE in *.

Section machine_facts.
Context {D : Type} `{COK : ConfigOk}.
Implicit Types (s : machine D) (a b v n : Z).

Lemma writable_iff a n : writable a n = true ↔ etext ≤ a ∧ a + n ≤ PHYSTOP.
Proof. unfold writable. by rewrite andb_true_iff, !Z.leb_le. Qed.

Lemma readable_iff a n : readable a n = true ↔ KERNBASE ≤ a ∧ a + n ≤ PHYSTOP.
Proof. unfold readable. by rewrite andb_true_iff, !Z.leb_le. Qed.

Lemma writable_true a n : etext ≤ a → a + n ≤ PHYSTOP → writable a n = true.
Proof. by rewrite writable_iff. Qed.

Lemma readable_true a n : KERNBASE ≤ a → a + n ≤ PHYSTOP → readable a n = true.
Proof. by rewrite readable_iff. Qed.

Lemma writable_readable a n : writable a n = true → readable a n = true.
Proof. rewrite writable_iff, readable_iff. pose proof etext_ge. lia. Qed.

Lemma load_eq k a s : readable a (Z.of_nat k) = true → load k a s = Done (ld k (phys s) a, s).
Proof. unfold load. by intros ->. Qed.

Lemma store_eq k a v s :
  writable a (Z.of_nat k) = true → store k a v s = Done (tt, set_phys (st k (phys s) a v) s).
Proof. unfold store. by intros ->. Qed.

Lemma ld_1 m a : ld 1 m a = m !!! a.
Proof. unfold ld. simpl. lia. Qed.

Lemma set_phys_phys m m' s : set_phys m (set_phys m' s) = set_phys m s.
Proof. done. Qed.

Lemma set_phys_id s : set_phys (phys s) s = s.
Proof. by destruct s. Qed.

Lemma memset_loop (k : nat) a i v s :
  writable (a + i) (Z.of_nat k) = true ∨ k = O →
  forN k i (λ i, store 1 (a + i) v) s
    = Done (tt, set_phys (write_bytes (phys s) (a + i) (replicate k (u8 v))) s).
Proof.
  revert i s. induction k as [|k IH]; intros i s Hw; simpl.
  - by rewrite set_phys_id.
  - destruct Hw as [Hw|?]; [|lia]. rewrite writable_iff in Hw.
    erewrite bind_done by (apply store_eq, writable_true; lia).
    rewrite IH by (left; apply writable_true; lia).
    by rewrite set_phys_phys, Z.add_assoc.
Qed.

(** [memset] stores [n] copies of the low byte of [c]. *)
Lemma memset_eq dst c n s :
  writable dst n = true → 0 ≤ n →
  memset dst c n s
    = Done (dst, set_phys (write_bytes (phys s) dst (replicate (Z.to_nat n) (u8 c))) s).
Proof.
  intros Hw Hn. unfold memset, for_.
  erewrite bind_done; [|apply memset_loop; left; rewrite Z.sub_0_r, Z2Nat.id by lia;
                        by rewrite Z.add_0_r].
  by rewrite Z.sub_0_r, Z.add_0_r.
Qed.

Lemma st_1 m a v : st 1 m a v = <[a := u8 v]> m.
Proof. done. Qed.

Lemma write_bytes_insert m a x v (l : list Z) :
  x < a ∨ a + Z.of_nat (length l) ≤ x →
  write_bytes (<[x := v]> m) a l = <[x := v]> (write_bytes m a l).
Proof. intros. apply (write_bytes_comm m x [v]). simpl. lia. Qed.

Lemma read_bytes_insert m x v b (k : nat) :
  x < b ∨ b + Z.of_nat k ≤ x → read_bytes (<[x := v]> m) b k = read_bytes m b k.
Proof. intros. apply (read_write_bytes_ne m x [v]). simpl. lia. Qed.

Lemma u8_byte b : byte b → u8 b = b.
Proof. apply Z.mod_small. Qed.

Lemma copy_up_eq (k : nat) d a s :
  mem_ok (phys s) →
  readable a (Z.of_nat k) = true → writable d (Z.of_nat k) = true →
  ¬ (a < d < a + Z.of_nat k) →
  copy_up k d a s = Done (tt, set_phys (write_bytes (phys s) d (read_bytes (phys s) a k)) s).
Proof.
  revert d a s. induction k as [|k IH]; intros d a s Hm Hr Hw Hov; simpl copy_up.
  - simpl. by rewrite set_phys_id.
  - rewrite readable_iff in Hr. rewrite writable_iff in Hw.
    erewrite bind_done by (apply load_eq, readable_true; lia).
    erewrite bind_done by (apply store_eq, writable_true; lia).
    rewrite st_1, ld_1, u8_byte by apply Hm.
    rewrite IH.
    + rewrite set_phys_phys. simpl. do 3 f_equal.
      rewrite read_bytes_insert by lia. done.
    + apply (mem_ok_write_bytes _ d [phys s !!! a]); [done|by repeat constructor; apply Hm].
    + apply readable_true; lia.
    + apply writable_true; lia.
    + lia.
Qed.

Lemma read_bytes_snoc m a (k : nat) :
  read_bytes m a (S k) = read_bytes m a k ++ [m !!! (a + Z.of_nat k)].
Proof. replace (S k) with (k + 1)%nat by lia. by rewrite read_bytes_app. Qed.

Lemma copy_down_eq (k : nat) d a s :
  mem_ok (phys s) →
  readable a (Z.of_nat k) = true → writable d (Z.of_nat k) = true →
  a < d →
  copy_down k (d + Z.of_nat k) (a + Z.of_nat k) s
    = Done (tt, set_phys (write_bytes (phys s) d (read_bytes (phys s) a k)) s).
Proof.
  revert s. induction k as [|k IH]; intros s Hm Hr Hw Hov; simpl copy_down.
  - simpl. by rewrite set_phys_id.
  - rewrite readable_iff in Hr. rewrite writable_iff in Hw.
    replace (a + Z.of_nat (S k) - 1) with (a + Z.of_nat k) by lia.
    replace (d + Z.of_nat (S k) - 1) with (d + Z.of_nat k) by lia.
    erewrite bind_done by (apply load_eq, readable_true; lia).
    erewrite bind_done by (apply store_eq, writable_true; lia).
    rewrite st_1, ld_1, u8_byte by apply Hm.
    rewrite IH.
    + rewrite set_phys_phys. do 3 f_equal. rewrite read_bytes_snoc, write_bytes_app.
      cbn [phys set_phys]. rewrite read_bytes_insert by lia.
      rewrite write_bytes_insert by (rewrite length_read_bytes; lia).
      by rewrite length_read_bytes.
    + apply (mem_ok_write_bytes _ (d + Z.of_nat k) [phys s !!! (a + Z.of_nat k)]);
        [done|by repeat constructor; apply Hm].
    + apply readable_true; lia.
    + apply writable_true; lia.
    + lia.
Qed.

(** [memmove] copies the source range as it was before the call, also when
    the two ranges overlap in either direction. *)
Lemma memmove_eq dst src n s :
  mem_ok (phys s) → 0 ≤ n →
  readable src n = true → writable dst n = true →
  memmove dst src n s
    = Done (dst, set_phys (write_bytes (phys s) dst (read_bytes (phys s) src (Z.to_nat n))) s).
Proof.
  intros Hm Hn Hr Hw. unfold memmove. destruct (Z.eqb_spec n 0) as [->|Hne].
  { simpl. by rewrite set_phys_id. }
  assert (Hk : Z.of_nat (Z.to_nat n) = n) by lia.
  destruct ((src <? dst) && (src + n >? dst)) eqn:Hov.
  - apply andb_true_iff in Hov as [Hlt%Z.ltb_lt Hgt%Z.gtb_lt].
    pose proof (copy_down_eq (Z.to_nat n) dst src s Hm) as Hc. rewrite !Hk in Hc.
    erewrite bind_done by by apply Hc. done.
  - erewrite bind_done; [done|]. apply copy_up_eq; rewrite ?Hk; try done.
    intros [H1 H2]. rewrite (proj2 (Z.ltb_lt _ _) H1) in Hov.
    simpl in Hov. rewrite Z.gtb_ltb, Z.ltb_ge in Hov. lia.
Qed.

Lemma wp_load k a Q s :
  readable a (Z.of_nat k) = true → Q (ld k (phys s) a) s → wp (load k a) Q s.
Proof. intros Hr HQ. eapply wp_done; [by apply load_eq|done]. Qed.

Lemma wp_store k a v (Q : unit → machine D → Prop) s :
  writable a (Z.of_nat k) = true → Q tt (set_phys (st k (phys s) a v) s) → wp (store k a v) Q s.
Proof. intros Hr HQ. eapply wp_done; [by apply store_eq|done]. Qed.

Lemma wp_memset dst c n (Q : Z → machine D → Prop) s :
  writable dst n = true → 0 ≤ n →
  Q dst (set_phys (write_bytes (phys s) dst (replicate (Z.to_nat n) (u8 c))) s) →
  wp (memset dst c n) Q s.
Proof. intros Hw Hn HQ. eapply wp_done; [by apply memset_eq|done]. Qed.

Lemma wp_memmove dst src n (Q : Z → machine D → Prop) s :
  mem_ok (phys s) → 0 ≤ n → readable src n = true → writable dst n = true →
  Q dst (set_phys (write_bytes (phys s) dst (read_bytes (phys s) src (Z.to_nat n))) s) →
  wp (memmove dst src n) Q s.
Proof. intros Hm Hn Hr Hw HQ. eapply wp_done; [by apply memmove_eq|done]. Qed.

(** [memcmp] is zero exactly on equal ranges. *)
Lemma memcmp_loop_eq (k : nat) a b s :
  readable a (Z.of_nat k) = true → readable b (Z.of_nat k) = true →
  ∃ r, memcmp_loop k a b s = Done (r, s)
       ∧ (r = 0 ↔ read_bytes (phys s) a k = read_bytes (phys s) b k).
Proof.
  revert a b. induction k as [|k IH]; intros a b Ha Hb; simpl memcmp_loop.
  { by exists 0. }
  rewrite readable_iff in Ha, Hb.
  erewrite bind_done by (apply load_eq, readable_true; lia).
  erewrite bind_done by (apply load_eq, readable_true; lia).
  rewrite !ld_1. simpl read_bytes. destruct (Z.eqb_spec (phys s !!! a) (phys s !!! b)) as [E|E].
  - destruct (IH (a + 1) (b + 1)) as (r & -> & Hr); [apply readable_true; lia..|].
    exists r. rewrite E, Hr. split; [done|]. split; [by intros ->|by intros [=]].
  - eexists. split; [done|]. split; [lia|congruence].
Qed.
End machine_facts.

(** Discharge [readable]/[writable] side conditions from linear facts. *)
Ltac solve_range :=
  lazymatch goal with
  | |- readable _ _ = true => apply readable_true; unfold PGSIZE, BSIZE in *; lia
  | |- writable _ _ = true => apply writable_true; unfold PGSIZE, BSIZE in *; lia
  end.

#[global] Arguments read_bytes : simpl never.
#[global] Arguments write_bytes : simpl never.
#[global] Arguments le_split : simpl never.
#[global] Arguments le_combine : simpl never.
#[global] Arguments ld : simpl never.
#[global] Arguments st : simpl never.

#[export] Hint Resolve mem_ok_write_bytes mem_ok_st bytes_le_split bytes_read_bytes : core.
