(* ===== verification/Kalloc.v ===== *)
(** * kernel/kalloc.c: the physical page allocator

    The free list threads through the free pages themselves: the first eight
    bytes of a free page are [r->next].  [kmem_ok s L] says that following the
    links from [kmem.freelist] visits exactly the pages [L].  The spinlock
    around the list is not represented: each routine runs as one step. *)

From S2P Require Import Prelude Machine.

Section kalloc.
Context `{C : Config} {D : Type}.
Implicit Types (s : machine D) (L : list Z).

Definition kfree (pa : Z) : M (machine D) unit :=
  if negb (pa mod PGSIZE =? 0) || (pa <? kend) || (pa >=? PHYSTOP) then panic "kfree"
  else
    memset pa 1 PGSIZE;;
    next ← gets freelist;
    store 8 pa next;;
    modify (set_freelist pa).

Definition kalloc : M (machine D) Z :=
  r ← gets freelist;
  (if r =? 0 then ret tt
   else next ← load 8 r; modify (set_freelist next));;
  (if r =? 0 then ret tt else memset r 5 PGSIZE;; ret tt);;
  ret r.

(** [for(; p + PGSIZE <= pa_end; p += PGSIZE) kfree(p);] *)
Fixpoint freerange_loop (n : nat) (p pa_end : Z) : M (machine D) unit :=
  if p + PGSIZE <=? pa_end then
    match n with
    | O => out_of_fuel
    | S n' => kfree p;; freerange_loop n' (p + PGSIZE) pa_end
    end
  else ret tt.

Definition freerange (pa_start pa_end : Z) : M (machine D) unit :=
  let p := PGROUNDUP pa_start in
  freerange_loop (Z.to_nat ((pa_end - p) / PGSIZE)) p pa_end.

Definition kinit : M (machine D) unit := freerange kend PHYSTOP.

(** A page the allocator manages. *)
Definition page_ok (p : Z) : Prop :=
  p mod PGSIZE = 0 ∧ kend ≤ p ∧ p + PGSIZE ≤ PHYSTOP.

(** [chain m p L]: the list from [p] is [L]. *)
Fixpoint chain (m : mem) (p : Z) (L : list Z) : Prop :=
  match L with
  | [] => p = 0
  | q :: L' => p = q ∧ page_ok q ∧ chain m (ld 8 m q) L'
  end.

Record kmem_ok s L : Prop := {
  kmem_chain : chain (phys s) (freelist s) L;
  kmem_nodup : NoDup L;
}.
End kalloc.

Section kalloc_facts.
Context `{COK : ConfigOk} {D : Type}.
Implicit Types (s : machine D) (L : list Z).

Lemma page_ok_pos p : page_ok p → KERNBASE ≤ p ∧ etext ≤ p ∧ p + PGSIZE ≤ PHYSTOP.
Proof. intros (?&?&?). pose proof etext_ge. pose proof kend_ge. lia. Qed.

Lemma page_ok_disjoint p q : page_ok p → page_ok q → p ≠ q → p + PGSIZE ≤ q ∨ q + PGSIZE ≤ p.
Proof. intros (Hp&_) (Hq&_). unfold PGSIZE in *. dlia. Qed.

Lemma chain_pages m p L : chain m p L → Forall page_ok L.
Proof.
  revert p. induction L as [|q L IH]; intros p; simpl; [done|].
  intros (_ & Hq & Hc). constructor; [done|by eapply IH].
Qed.

(** The links only depend on the first words of the free pages. *)
Lemma chain_ext m m' p L :
  (∀ q, q ∈ L → ld 8 m' q = ld 8 m q) → chain m p L → chain m' p L.
Proof.
  revert p. induction L as [|q L IH]; intros p Hx; simpl; [done|].
  intros (-> & Hp & Hc). split_and!; [done..|].
  rewrite Hx by set_solver. apply IH; [set_solver|done].
Qed.

Lemma ld_write_page m p (l : list Z) q :
  page_ok p → page_ok q → p ≠ q → Z.of_nat (length l) ≤ PGSIZE →
  ld 8 (write_bytes m p l) q = ld 8 m q.
Proof.
  intros Hp Hq Hne Hl. apply ld_write_bytes_ne.
  destruct (page_ok_disjoint p q Hp Hq Hne); unfold PGSIZE in *; lia.
Qed.

Lemma kalloc_empty s : freelist s = 0 → kalloc s = Done (0, s).
Proof. intros E. unfold kalloc, mbind, M_bind, gets. by rewrite E. Qed.

(** On a non-empty list [kalloc] returns the head, filled with 5, and the
    tail remains; memory changes in that page only. *)
#[local] Opaque write_bytes.

Lemma kalloc_spec s p L :
  kmem_ok s (p :: L) → mem_ok (phys s) →
  ∃ s', kalloc s = Done (p, s')
    ∧ s' = set_freelist (freelist s')
             (set_phys (write_bytes (phys s) p (replicate (Z.to_nat PGSIZE) 5)) s)
    ∧ kmem_ok s' L ∧ mem_ok (phys s') ∧ (p ∉ L) ∧ page_ok p.
Proof.
  intros [Hc Hnd] Hm. simpl in Hc. destruct Hc as (Hf & Hp & Hc).
  apply NoDup_cons in Hnd as [Hnin Hnd].
  pose proof (page_ok_pos p Hp) as (?&?&?).
  assert (Hp0 : (p =? 0) = false) by (apply Z.eqb_neq; unfold KERNBASE in *; lia).
  unfold kalloc. erewrite bind_done by done. rewrite Hf, Hp0.
  erewrite bind_done.
  2: { erewrite bind_done by (apply load_eq; solve_range). done. }
  erewrite bind_done.
  2: { erewrite bind_done by (apply memset_eq; [solve_range|done]). done. }
  eexists. split; [reflexivity|]. split; [reflexivity|]. split_and!; [|cbn|done..].
  - split; [|done]. cbn. eapply chain_ext; [|done]. intros q Hq.
    apply ld_write_page; [done| | |by rewrite length_replicate].
    + eapply Forall_forall in Hq; [done|]. by eapply chain_pages.
    + by intros ->.
  - apply mem_ok_write_bytes; [done|]. apply Forall_replicate. unfold byte, u8. by vm_compute.
Qed.

Lemma kfree_panic s pa : ¬ page_ok pa → kfree pa s = Panic "kfree".
Proof.
  intros Hn. unfold kfree.
  destruct (Z.eqb_spec (pa mod PGSIZE) 0); [|done].
  destruct (Z.ltb_spec pa kend); [done|].
  destruct (Z.geb_spec pa PHYSTOP); [done|]. exfalso. apply Hn. split; [done|].
  split; [done|]. unfold PHYSTOP, KERNBASE, PGSIZE in *. dlia.
Qed.

(** [kfree] pushes the page on the list. *)
Lemma kfree_spec s pa L :
  page_ok pa → pa ∉ L → kmem_ok s L → mem_ok (phys s) → 0 ≤ freelist s < 2 ^ 64 →
  ∃ s', kfree pa s = Done (tt, s')
    ∧ s' = set_freelist pa (set_phys (phys s') s)
    ∧ (∀ x, x < pa ∨ pa + PGSIZE ≤ x → phys s' !!! x = phys s !!! x)
    ∧ kmem_ok s' (pa :: L) ∧ mem_ok (phys s').
Proof.
  intros Hp Hnin [Hc Hnd] Hm Hfl. pose proof (page_ok_pos pa Hp) as (?&?&?).
  destruct Hp as (Hal & Hlo & Hhi). unfold kfree.
  rewrite (proj2 (Z.eqb_eq _ _) Hal), (proj2 (Z.ltb_ge _ _) Hlo).
  destruct (Z.geb_spec pa PHYSTOP); [unfold PGSIZE in *; lia|]. cbn [negb orb].
  erewrite bind_done by (apply memset_eq; [solve_range|done]).
  erewrite bind_done by done.
  erewrite bind_done by (apply store_eq; solve_range).
  eexists. split; [reflexivity|]. split; [reflexivity|]. split_and!.
  - intros x Hx. cbn. unfold st. rewrite !lookup_total_write_bytes.
    rewrite length_le_split, length_replicate. unfold PGSIZE in *.
    by rewrite !decide_False by lia.
  - split; [|by constructor]. cbn. split_and!; [done|done|].
    rewrite ld_st_eq, Z.mod_small by done.
    eapply chain_ext; [|done]. intros q Hq.
    assert (page_ok q) by (eapply Forall_forall; [by eapply chain_pages|done]).
    assert (pa ≠ q) by by intros ->.
    unfold st. rewrite !ld_write_page; rewrite ?length_le_split, ?length_replicate; done.
  - cbn. apply mem_ok_st, mem_ok_write_bytes; [done|].
    apply Forall_replicate. by vm_compute.
Qed.

(** The [n] pages from [p] on. *)
Fixpoint page_run (n : nat) (p : Z) : list Z :=
  match n with O => [] | S n' => p :: page_run n' (p + PGSIZE) end.

Lemma elem_of_page_run n p q : q ∈ page_run n p → p ≤ q.
Proof.
  revert p. induction n as [|n IH]; intros p; simpl; [set_solver|].
  rewrite elem_of_cons. intros [->|Hq%IH]; unfold PGSIZE in *; lia.
Qed.

Lemma freerange_loop_spec n p pa_end s L :
  n = Z.to_nat ((pa_end - p) / PGSIZE) → p mod PGSIZE = 0 → kend ≤ p → pa_end ≤ PHYSTOP →
  kmem_ok s L → (∀ q, q ∈ L → q < p) → mem_ok (phys s) → 0 ≤ freelist s < 2 ^ 64 →
  ∃ s', freerange_loop n p pa_end s = Done (tt, s')
    ∧ kmem_ok s' (reverse (page_run n p) ++ L) ∧ mem_ok (phys s').
Proof.
  revert p s L. induction n as [|n IH]; intros p s L Hn Hal Hlo Hhi Hk HL Hm Hf; simpl.
  all: destruct (Z.leb_spec (p + PGSIZE) pa_end) as [Hle|Hgt]; unfold PGSIZE in *.
  - dlia.
  - by exists s.
  - assert (Hp : page_ok p) by (split; unfold PGSIZE in *; [done|lia]).
    destruct (kfree_spec s p L) as (s1 & E & Hs1 & _ & Hk1 & Hm1); [done| |done..|].
    { intros Hin%HL. lia. }
    erewrite bind_done by done.
    destruct (IH (p + 4096) s1 (p :: L)) as (s' & E' & Hk' & Hm'); [dlia|dlia|lia|done|done| |done| |].
    { intros q [->|Hq%HL]%elem_of_cons; lia. }
    { rewrite Hs1. cbn. unfold PHYSTOP, KERNBASE in *. pose proof etext_ge. pose proof kend_ge.
      unfold KERNBASE in *. lia. }
    exists s'. split; [done|]. rewrite reverse_cons, <- app_assoc. done.
  - dlia.
Qed.
End kalloc_facts.

(** C16: [kinit] on any memory terminates and leaves on the free list every page
    between the end of the kernel image and PHYSTOP, each once, the highest
    first. *)
Theorem kinit_spec `{COK : ConfigOk} {D} (s : machine D) :
  freelist s = 0 → mem_ok (phys s) →
  ∃ s', kinit s = Done (tt, s') ∧ mem_ok (phys s')
    ∧ kmem_ok s' (reverse (page_run (Z.to_nat ((PHYSTOP - PGROUNDUP kend) / PGSIZE))
                                    (PGROUNDUP kend))).
Proof.
  intros Hf Hm. unfold kinit, freerange.
  pose proof etext_ge. pose proof kend_ge. pose proof kend_le.
  rewrite PGROUNDUP_eq by (unfold PHYSTOP, KERNBASE, PGSIZE in *; lia).
  set (p := _ / _ * _).
  destruct (freerange_loop_spec (Z.to_nat ((PHYSTOP - p) / PGSIZE)) p PHYSTOP s [])
    as (s' & E & Hk & Hm'); try done.
  - unfold p, PGSIZE. dlia.
  - unfold p, PGSIZE. dlia.
  - split; [done|constructor].
  - set_solver.
  - rewrite Hf. lia.
  - exists s'. by rewrite app_nil_r in Hk.
Qed.

Lemma kinit_spec_witness :
  ∃ s', kinit (C := default_config) (Machine ∅ 0 0 ∅ tt) = Done (tt, s') ∧ mem_ok (phys s')
    ∧ kmem_ok (C := default_config) s'
        (reverse (page_run (Z.to_nat ((PHYSTOP - PGROUNDUP (kend (Config := default_config))) / PGSIZE))
                           (PGROUNDUP (kend (Config := default_config))))).
Proof.
  apply (kinit_spec (C := default_config) (Machine ∅ 0 0 ∅ tt)); [done|].
  intros x. by vm_compute.
Defined.
