(* ===== verification/BlockDev.v ===== *)
(** * Block transfers: [read_block] and [write_block] of kernel/virtio_disk.c

    The RAID layer reaches the disks through two routines that copy a block
    through a per-disk transfer buffer and call [virtio_disk_rw].  What the
    driver promises is the interface [BlockDevice]: a request for two sectors
    inside the device either replaces one block of one disk or returns one, and
    a request outside it makes the interrupt handler panic on the status byte.
    The RAID theorems are proved against the interface; [image] below is a plain
    disk image, and VirtioDevice.v discharges the interface for the driver. *)

From S2P Require Import Prelude Machine.

(** [bd_rw id sector write data d] is one completed request: the contents of
    the buffer afterwards and the new device state. *)
Class BlockDevice (D : Type) := {
  bd_rw : Z → Z → bool → list Z → D → outcome (list Z * D);
  bd_sectors : D → Z → Z;            (* capacity of a disk, in sectors *)
  bd_block : D → Z → Z → list Z;     (* block contents *)
  bd_ok : D → Prop;                  (* the state between requests *)
}.

(** A request for the block [b] of BSIZE bytes lies inside disk [id]. *)
Definition in_device `{BlockDevice D} (d : D) (id b : Z) : Prop :=
  0 ≤ b ∧ 2 * b + 2 ≤ bd_sectors d id ∧ 2 * b < 2 ^ 32.

Class BlockDeviceLaws (D : Type) {BD : BlockDevice D} : Prop := {
  bd_block_bytes d id b : bd_ok d →
    length (bd_block d id b) = Z.to_nat BSIZE ∧ bytes (bd_block d id b);
  bd_rw_write d id b data :
    bd_ok d → in_device d id b → length data = Z.to_nat BSIZE → bytes data →
    ∃ d', bd_rw id (2 * b) true data d = Done (data, d') ∧ bd_ok d'
      ∧ (∀ id', bd_sectors d' id' = bd_sectors d id')
      ∧ ∀ id' b', bd_block d' id' b' =
          if decide (id' = id ∧ b' = b) then data else bd_block d id' b';
  bd_rw_read d id b data :
    bd_ok d → in_device d id b → length data = Z.to_nat BSIZE →
    ∃ d', bd_rw id (2 * b) false data d = Done (bd_block d id b, d') ∧ bd_ok d'
      ∧ (∀ id', bd_sectors d' id' = bd_sectors d id')
      ∧ ∀ id' b', bd_block d' id' b' = bd_block d id' b';
  bd_rw_out d id b write data :
    bd_ok d → 0 ≤ b → 2 * b < 2 ^ 32 → bd_sectors d id < 2 * b + 2 →
    ∃ msg, bd_rw id (2 * b) write data d = Panic msg;
}.

Section blockdev.
Context `{C : Config} {D : Type} `{BD : BlockDevice D}.
Implicit Types (s : machine D).

(** Offsets of [struct buf] (kernel/buf.h, kernel/sleeplock.h). *)
Definition buf_disk (b : Z) : Z := b + 4.
Definition buf_blockno (b : Z) : Z := b + 12.
Definition buf_data (b : Z) : Z := b + 88.

(** One call of [virtio_disk_rw] as the block layer sees it. *)
Definition virtio_request (id b : Z) (write : bool) : M (machine D) unit :=
  blockno ← load 4 (buf_blockno b);
  let sector := u32 (blockno * (BSIZE / 512)) in
  store 4 (buf_disk b) 1;;
  s ← get;
  match bd_rw id sector write (read_bytes (phys s) (buf_data b) (Z.to_nat BSIZE)) (vdisk s) with
  | Done (data, d') =>
      modify (λ s, set_vdisk d' (set_phys (write_bytes (phys s) (buf_data b) data) s));;
      store 4 (buf_disk b) 0
  | Panic msg => panic msg
  | Fault => fault
  | OutOfFuel => out_of_fuel
  end.

(** [transfer_buffer] has [VIRTIO_RAID_DISK_END + 1] entries. *)
Definition transfer_buffer_at (id : Z) : M (machine D) Z := λ s,
  if (0 <=? id) && (id <=? DISKS) then Done (transfer_buffer s !!! id, s) else Fault.

Definition write_block (diskn blockno data : Z) : M (machine D) unit :=
  b ← transfer_buffer_at diskn;
  store 4 (buf_blockno b) blockno;;
  memmove (buf_data b) data BSIZE;;
  virtio_request diskn b true.

Definition read_block (diskn blockno data : Z) : M (machine D) unit :=
  b ← transfer_buffer_at diskn;
  store 4 (buf_blockno b) blockno;;
  virtio_request diskn b false;;
  memmove data (buf_data b) BSIZE;;
  ret tt.

(** ** The environment of the RAID layer *)

Definition tb s (i : Z) : Z := transfer_buffer s !!! i.
Definition block s (id b : Z) : list Z := bd_block (vdisk s) id b.

Record env_ok s : Prop := {
  env_mem : mem_ok (phys s);
  env_dev : bd_ok (vdisk s);
  env_buf i : 1 ≤ i ≤ DISKS → etext ≤ tb s i ∧ tb s i + PGSIZE ≤ PHYSTOP;
}.

(** The range [a, a + n) meets no transfer buffer. *)
Definition outside s (a n : Z) : Prop :=
  ∀ i, 1 ≤ i ≤ DISKS → a + n ≤ tb s i ∨ tb s i + PGSIZE ≤ a.

(** Everything but memory and disk contents is unchanged. *)
Record same_globals s s' : Prop := {
  same_freelist : freelist s' = freelist s;
  same_raid_metadata : raid_metadata s' = raid_metadata s;
  same_transfer_buffer : transfer_buffer s' = transfer_buffer s;
  same_sectors id : bd_sectors (vdisk s') id = bd_sectors (vdisk s) id;
}.
End blockdev.

Section blockdev_facts.
Context `{COK : ConfigOk} {D : Type} `{BDL : BlockDeviceLaws D}.
Implicit Types (s : machine D).

Lemma same_globals_refl s : same_globals s s.
Proof. by split. Qed.

Lemma same_globals_trans s1 s2 s3 :
  same_globals s1 s2 → same_globals s2 s3 → same_globals s1 s3.
Proof. intros [] []. split; congruence. Qed.

Lemma outside_same s s' a n : same_globals s s' → outside s a n → outside s' a n.
Proof. intros [_ _ Ht _] Ho i Hi. unfold tb. rewrite Ht. by apply Ho. Qed.

Lemma outside_sub s a n b k :
  outside s a n → a ≤ b → b + k ≤ a + n → outside s b k.
Proof. intros Ho ?? i Hi. destruct (Ho i Hi); lia. Qed.

Lemma wp_transfer_buffer_at id (Q : Z → machine D → Prop) s :
  1 ≤ id ≤ DISKS → Q (tb s id) s → wp (transfer_buffer_at id) Q s.
Proof.
  intros Hid HQ. eapply wp_done; [|done]. unfold transfer_buffer_at.
  destruct (Z.leb_spec 0 id), (Z.leb_spec id DISKS); done || lia.
Qed.

Lemma if_decide_ext {A} (P P' : Prop) `{Decision P, Decision P'} (a b : A) :
  (P ↔ P') → (if decide P then a else b) = (if decide P' then a else b).
Proof. intros. repeat case_decide; tauto. Qed.

Lemma sector_of_block d id b :
  in_device d id b → u32 (b * (BSIZE / 512)) = 2 * b.
Proof.
  intros (H0 & _ & H1). change (BSIZE / 512) with 2. rewrite u32_small by lia. lia.
Qed.

(** A request inside the device: the buffer page is the only memory touched. *)
Lemma wp_virtio_request id b (write : bool) blockno s (Q : unit → machine D → Prop) :
  mem_ok (phys s) → bd_ok (vdisk s) → etext ≤ b → b + PGSIZE ≤ PHYSTOP →
  ld 4 (phys s) (buf_blockno b) = blockno → in_device (vdisk s) id blockno →
  (∀ d' m', bd_ok d' → mem_ok m' →
     (∀ id', bd_sectors d' id' = bd_sectors (vdisk s) id') →
     (∀ x, x < b ∨ b + PGSIZE ≤ x → m' !!! x = phys s !!! x) →
     read_bytes m' (buf_data b) (Z.to_nat BSIZE) =
       (if write then read_bytes (phys s) (buf_data b) (Z.to_nat BSIZE)
        else bd_block (vdisk s) id blockno) →
     (∀ id' b', bd_block d' id' b' =
        if decide (write = true ∧ id' = id ∧ b' = blockno)
        then read_bytes (phys s) (buf_data b) (Z.to_nat BSIZE)
        else bd_block (vdisk s) id' b') →
     Q tt (set_vdisk d' (set_phys m' s))) →
  wp (virtio_request id b write) Q s.
Proof.
  intros Hm Hd Hlo Hhi Hno Hin HQ. pose proof etext_ge.
  unfold virtio_request, buf_blockno, buf_disk, buf_data in *.
  wp_step. apply wp_load; [solve_range|]. rewrite Hno, (sector_of_block _ _ _ Hin).
  wp_step. apply wp_store; [solve_range|]. wp_step. apply wp_get.
  cbn [phys vdisk set_phys].
  set (m1 := st 4 (phys s) (b + 4) 1).
  assert (Hrd : read_bytes m1 (b + 88) (Z.to_nat BSIZE)
                = read_bytes (phys s) (b + 88) (Z.to_nat BSIZE)).
  { apply read_write_bytes_ne. rewrite length_le_split. lia. }
  assert (Hlen : length (read_bytes (phys s) (b + 88) (Z.to_nat BSIZE)) = Z.to_nat BSIZE)
    by apply length_read_bytes.
  rewrite Hrd.
  assert (∃ data d',
    bd_rw id (2 * blockno) write (read_bytes (phys s) (b + 88) (Z.to_nat BSIZE)) (vdisk s)
      = Done (data, d') ∧ bd_ok d' ∧ (∀ id', bd_sectors d' id' = bd_sectors (vdisk s) id')
    ∧ length data = Z.to_nat BSIZE ∧ bytes data
    ∧ data = (if write then read_bytes (phys s) (b + 88) (Z.to_nat BSIZE)
              else bd_block (vdisk s) id blockno)
    ∧ ∀ id' b', bd_block d' id' b' =
        if decide (write = true ∧ id' = id ∧ b' = blockno)
        then read_bytes (phys s) (b + 88) (Z.to_nat BSIZE)
        else bd_block (vdisk s) id' b')
    as (data & d' & -> & Hd' & Hsec & Hl & Hby & Hdata & Hblk).
  { destruct write.
    - edestruct (bd_rw_write (vdisk s) id blockno) as (d' & E & Hok & Hsec & Hblk); eauto.
      eexists _, d'. repeat split; eauto. intros id' b'. rewrite Hblk.
      apply if_decide_ext. tauto.
    - edestruct (bd_rw_read (vdisk s) id blockno) as (d' & E & Hok & Hsec & Hblk); eauto.
      destruct (bd_block_bytes (vdisk s) id blockno Hd) as [??].
      eexists _, d'. repeat split; eauto. }
  wp_step. apply wp_modify. apply wp_store; [solve_range|].
  cbn [phys vdisk set_phys set_vdisk].
  apply (HQ d' (st 4 (write_bytes m1 (b + 88) data) (b + 4) 0)); [done| |done| | |done].
  - unfold m1. auto.
  - intros x Hx. unfold m1, st. rewrite !lookup_total_write_bytes, Hl.
    rewrite !length_le_split. unfold PGSIZE, BSIZE in *.
    by rewrite !decide_False by lia.
  - unfold st. rewrite read_write_bytes_ne by (rewrite length_le_split; lia).
    by rewrite read_write_bytes_eq.
Qed.

(** What a block write does: the disk block holds the 1024 bytes at [data],
    and memory changes in transfer buffers only. *)
Lemma wp_write_block diskn blockno data s (Q : unit → machine D → Prop) :
  env_ok s → 1 ≤ diskn ≤ DISKS → in_device (vdisk s) diskn blockno →
  readable data BSIZE = true → outside s data BSIZE →
  (∀ s', env_ok s' → same_globals s s' →
     (∀ x, outside s x 1 → phys s' !!! x = phys s !!! x) →
     (∀ id b, block s' id b =
        if decide (id = diskn ∧ b = blockno)
        then read_bytes (phys s) data (Z.to_nat BSIZE) else block s id b) →
     Q tt s') →
  wp (write_block diskn blockno data) Q s.
Proof.
  intros [Hm Hd Hb] Hdiskn Hin Hr Hout HQ.
  destruct (Hb diskn Hdiskn) as [Hlo Hhi]. rewrite readable_iff in Hr.
  pose proof etext_ge. pose proof (Hout diskn Hdiskn) as Hdis.
  unfold write_block. wp_step. eapply wp_transfer_buffer_at; [done|].
  fold (tb s diskn). set (b := tb s diskn) in *.
  unfold buf_blockno, buf_data. wp_step. apply wp_store; [solve_range|].
  wp_step. apply wp_memmove; cbn [phys set_phys]; [auto|done|solve_range..|].
  rewrite set_phys_phys.
  assert (Hdata : read_bytes (st 4 (phys s) (b + 12) blockno) data (Z.to_nat BSIZE)
                  = read_bytes (phys s) data (Z.to_nat BSIZE)).
  { apply read_write_bytes_ne. rewrite length_le_split. unfold PGSIZE, BSIZE in *. lia. }
  rewrite Hdata. set (l := read_bytes (phys s) data _).
  assert (Hl : length l = Z.to_nat BSIZE) by apply length_read_bytes.
  set (m1 := write_bytes _ _ l).
  assert (Hm1 : read_bytes m1 (buf_data b) (Z.to_nat BSIZE) = l)
    by by apply read_write_bytes_eq.
  apply (wp_virtio_request diskn b true blockno); cbn [phys vdisk set_phys]; auto.
  - apply mem_ok_write_bytes; [auto|by apply bytes_read_bytes].
  - unfold m1, buf_blockno. rewrite ld_write_bytes_ne by (rewrite Hl; lia).
    rewrite ld_st_eq. destruct Hin as (?&?&?). apply Z.mod_small. lia.
  - rewrite Hm1. intros d' m' Hd' Hm' Hsec Hx _ Hblk. apply HQ.
    + split; cbn; auto.
    + split; cbn; auto.
    + intros x Ho. cbn. destruct (Ho diskn Hdiskn) as [?|?]; fold b in H0.
      all: rewrite Hx by (fold b; lia); unfold m1, st; rewrite !lookup_total_write_bytes.
      all: rewrite Hl, length_le_split; unfold PGSIZE, BSIZE in *.
      all: by rewrite !decide_False by lia.
    + intros id b'. unfold block. cbn. rewrite Hblk. apply if_decide_ext. tauto.
Qed.

(** What a block read does: the 1024 bytes at [data] hold the disk block;
    elsewhere memory changes in transfer buffers only. *)
Lemma wp_read_block diskn blockno data s (Q : unit → machine D → Prop) :
  env_ok s → 1 ≤ diskn ≤ DISKS → in_device (vdisk s) diskn blockno →
  writable data BSIZE = true → outside s data BSIZE →
  (∀ s', env_ok s' → same_globals s s' →
     (∀ x, outside s x 1 → phys s' !!! x =
        if decide (data ≤ x < data + BSIZE)
        then block s diskn blockno !!! Z.to_nat (x - data) else phys s !!! x) →
     (∀ id b, block s' id b = block s id b) →
     Q tt s') →
  wp (read_block diskn blockno data) Q s.
Proof.
  intros [Hm Hd Hb] Hdiskn Hin Hw Hout HQ.
  destruct (Hb diskn Hdiskn) as [Hlo Hhi]. rewrite writable_iff in Hw.
  pose proof etext_ge. pose proof (Hout diskn Hdiskn) as Hdis.
  destruct (bd_block_bytes (vdisk s) diskn blockno Hd) as [Hbl _].
  unfold read_block. wp_step. eapply wp_transfer_buffer_at; [done|].
  fold (tb s diskn). set (b := tb s diskn) in *.
  wp_step. apply wp_store; [unfold buf_blockno; solve_range|]. wp_step.
  apply (wp_virtio_request diskn b false blockno); cbn [phys vdisk set_phys]; auto.
  { rewrite ld_st_eq. destruct Hin as (?&?&?). apply Z.mod_small. lia. }
  intros d' m' Hd' Hm' Hsec Hx Hdata Hblk.
  wp_step. apply wp_memmove; cbn [phys set_phys set_vdisk];
    [auto|done|unfold buf_data; solve_range|solve_range|].
  wp_step. rewrite Hdata. apply HQ.
  - split; cbn; auto. apply mem_ok_write_bytes; [done|]. by apply bd_block_bytes.
  - by split; cbn.
  - intros x Ho. cbn. rewrite lookup_total_write_bytes, Hbl, Z2Nat.id by done.
    destruct (decide (data ≤ x < data + BSIZE)); [done|]. destruct (Ho diskn Hdiskn) as [Hxb|Hxb]; fold b in Hxb.
    all: rewrite Hx by lia; unfold st; rewrite lookup_total_write_bytes, length_le_split.
    all: unfold PGSIZE, buf_blockno in *; by rewrite decide_False by lia.
  - intros id b'. unfold block. cbn. rewrite Hblk. by rewrite decide_False by (by intros []).
Qed.
End blockdev_facts.

(** ** A plain disk image *)

Record image := Image {
  img_sectors : Z;
  img_blocks : gmap (Z * Z) (list Z);
}.

Definition zero_block : list Z := replicate (Z.to_nat BSIZE) 0.

Definition img_block (d : image) (id b : Z) : list Z := default zero_block (img_blocks d !! (id, b)).

(** Sector reads and writes of whole blocks, with the status check of
    [virtio_disk_intr]. *)
Definition img_rw (id sector : Z) (write : bool) (data : list Z) (d : image)
    : outcome (list Z * image) :=
  if (sector + 2 <=? img_sectors d) then
    if write
    then Done (data, Image (img_sectors d) (<[(id, sector / 2) := data]> (img_blocks d)))
    else Done (img_block d id (sector / 2), d)
  else Panic ": virtio_disk_intr status".

Definition img_ok (d : image) : Prop :=
  map_Forall (λ _ l, length l = Z.to_nat BSIZE ∧ bytes l) (img_blocks d).

#[export] Instance image_device : BlockDevice image := {|
  bd_rw := img_rw;
  bd_sectors d _ := img_sectors d;
  bd_block := img_block;
  bd_ok := img_ok;
|}.

#[export] Instance image_device_laws : BlockDeviceLaws image.
Proof.
  split.
  - intros d id b Hok. change (bd_block d id b) with (img_block d id b). unfold img_block.
    destruct (img_blocks d !! (id, b)) as [l|] eqn:E; [by apply (Hok (id, b))|].
    split; [apply length_replicate|]. apply Forall_replicate. unfold byte. lia.
  - intros d id b data Hok (H0 & H1 & H2) Hl Hb. cbn in *. unfold img_rw.
    rewrite (proj2 (Z.leb_le _ _)) by lia. eexists. split; [done|].
    rewrite Z.mul_comm, Z.div_mul by lia. split_and!; cbn; [|done|].
    + by apply map_Forall_insert_2.
    + intros id' b'. unfold img_block. cbn. case_decide as Hd.
      * destruct Hd as [-> ->]. by rewrite lookup_insert_eq.
      * rewrite lookup_insert_ne by (intros [= -> ->]; by apply Hd). done.
  - intros d id b data Hok (H0 & H1 & H2) Hl. cbn in *. unfold img_rw.
    rewrite (proj2 (Z.leb_le _ _)) by lia. eexists.
    by rewrite Z.mul_comm, Z.div_mul by lia.
  - intros d id b write data Hok H0 H1 Hs. cbn in *. unfold img_rw. eexists.
    by rewrite (proj2 (Z.leb_gt _ _)) by lia.
Qed.
