(* ===== verification/Vm.v ===== *)
(** * kernel/vm.c: Sv39 page tables

    Page tables live in physical memory: a table is a page of 512 eight-byte
    entries, a [pagetable_t] is its physical address.  [walk] follows three
    levels from the root.  The routines take the table as an argument as in the
    source; [walkaddr] is what the RAID layer uses to turn a user pointer into a
    kernel one. *)

From S2P Require Import Prelude Machine Kalloc.

(** ** kernel/riscv.h *)

Definition PTE_V : Z := 1.
Definition PTE_R : Z := 2.
Definition PTE_W : Z := 4.
Definition PTE_X : Z := 8.
Definition PTE_U : Z := 16.

Definition PA2PTE (pa : Z) : Z := u64 (Z.shiftl (Z.shiftr pa 12) 10).
Definition PTE2PA (pte : Z) : Z := u64 (Z.shiftl (Z.shiftr pte 10) 12).
Definition PTE_FLAGS (pte : Z) : Z := Z.land pte 0x3FF.
Definition PXSHIFT (level : Z) : Z := 12 + 9 * level.
Definition PX (level va : Z) : Z := Z.land (Z.shiftr va (PXSHIFT level)) 0x1FF.
Definition MAXVA : Z := Z.shiftl 1 (9 + 9 + 9 + 12 - 1).

(** [pte & flag] as a condition. *)
Definition flag (pte f : Z) : bool := negb (Z.land pte f =? 0).

Section vm.
Context `{C : Config} {D : Type}.

(** One level of [walk]: the next table, or [None] when the entry is absent
    and cannot be created. *)
Definition walk_level (pagetable va level : Z) (alloc : bool) : M (machine D) (option Z) :=
  let pte := pagetable + 8 * PX level va in
  e ← load 8 pte;
  if flag e PTE_V then ret (Some (PTE2PA e))
  else if negb alloc then ret None
  else
    pt' ← kalloc;
    if pt' =? 0 then ret None
    else
      memset pt' 0 PGSIZE;;
      store 8 pte (Z.lor (PA2PTE pt') PTE_V);;
      ret (Some pt').

(** The address of the entry for [va], 0 for none. *)
Definition walk (pagetable va : Z) (alloc : bool) : M (machine D) Z :=
  if va >=? MAXVA then ret 0
  else
    pt1 ← walk_level pagetable va 2 alloc;
    match pt1 with
    | None => ret 0
    | Some pt1 =>
        pt0 ← walk_level pt1 va 1 alloc;
        match pt0 with
        | None => ret 0
        | Some pt0 => ret (pt0 + 8 * PX 0 va)
        end
    end.

Definition walkaddr (pagetable va : Z) : M (machine D) Z :=
  if va >=? MAXVA then ret 0
  else
    pte ← walk pagetable va false;
    if pte =? 0 then ret 0
    else
      e ← load 8 pte;
      if negb (flag e PTE_V) then ret 0
      else if negb (flag e PTE_U) then ret 0
      else ret (PTE2PA e).

(** [for(;;)] of [mappages]; [a] and [pa] advance together. *)
Fixpoint mappages_loop (n : nat) (pagetable a last pa perm : Z) : M (machine D) Z :=
  match n with
  | O => out_of_fuel
  | S n' =>
      pte ← walk pagetable a true;
      if pte =? 0 then ret (-1)
      else
        e ← load 8 pte;
        if flag e PTE_V then panic "mappages: remap"
        else
          store 8 pte (Z.lor (Z.lor (PA2PTE pa) perm) PTE_V);;
          if a =? last then ret 0
          else mappages_loop n' pagetable (u64 (a + PGSIZE)) last (u64 (pa + PGSIZE)) perm
  end.

(** When [va + size] wraps around, [last] lies below [a] and the loop runs
    until [walk] refuses an address at MAXVA. *)
Definition mappages (pagetable va size pa perm : Z) : M (machine D) Z :=
  if size =? 0 then panic "mappages: size"
  else
    let a := PGROUNDDOWN va in
    let last := PGROUNDDOWN (u64 (va + size - 1)) in
    let stop := if a <=? last then last else MAXVA in
    mappages_loop (Z.to_nat ((stop - a) / PGSIZE + 1)) pagetable a last pa perm.

Definition kvmmap (kpgtbl va pa sz perm : Z) : M (machine D) unit :=
  r ← mappages kpgtbl va sz pa perm;
  if negb (r =? 0) then panic "kvmmap" else ret tt.

Fixpoint uvmunmap_loop (n : nat) (pagetable a stop : Z) (do_free : bool) : M (machine D) unit :=
  if a <? stop then
    match n with
    | O => out_of_fuel
    | S n' =>
        pte ← walk pagetable a false;
        if pte =? 0 then panic "uvmunmap: walk"
        else
          e ← load 8 pte;
          if negb (flag e PTE_V) then panic "uvmunmap: not mapped"
          else if PTE_FLAGS e =? PTE_V then panic "uvmunmap: not a leaf"
          else
            when do_free (kfree (PTE2PA e));;
            store 8 pte 0;;
            uvmunmap_loop n' pagetable (a + PGSIZE) stop do_free
    end
  else ret tt.

Definition uvmunmap (pagetable va npages : Z) (do_free : bool) : M (machine D) unit :=
  if negb (va mod PGSIZE =? 0) then panic "uvmunmap: not aligned"
  else uvmunmap_loop (Z.to_nat npages) pagetable va (u64 (va + npages * PGSIZE)) do_free.

Definition uvmcreate : M (machine D) Z :=
  pagetable ← kalloc;
  if pagetable =? 0 then ret 0
  else memset pagetable 0 PGSIZE;; ret pagetable.

(** [mappages]'s result is ignored, as in the source. *)
Definition uvmfirst (pagetable src sz : Z) : M (machine D) unit :=
  if sz >=? PGSIZE then panic "uvmfirst: more than a page"
  else
    mem ← kalloc;
    memset mem 0 PGSIZE;;
    mappages pagetable 0 PGSIZE mem (Z.lor (Z.lor (Z.lor PTE_W PTE_R) PTE_X) PTE_U);;
    memmove mem src sz;;
    ret tt.

Definition uvmdealloc (pagetable oldsz newsz : Z) : M (machine D) Z :=
  if newsz >=? oldsz then ret oldsz
  else
    when (PGROUNDUP newsz <? PGROUNDUP oldsz)
      (let npages := s32 ((PGROUNDUP oldsz - PGROUNDUP newsz) / PGSIZE) in
       uvmunmap pagetable (PGROUNDUP newsz) npages true);;
    ret newsz.

Fixpoint uvmalloc_loop (n : nat) (pagetable a oldsz newsz xperm : Z) : M (machine D) Z :=
  if a <? newsz then
    match n with
    | O => out_of_fuel
    | S n' =>
        mem ← kalloc;
        if mem =? 0 then uvmdealloc pagetable a oldsz;; ret 0
        else
          memset mem 0 PGSIZE;;
          r ← mappages pagetable a PGSIZE mem (Z.lor (Z.lor PTE_R PTE_U) xperm);
          if negb (r =? 0) then
            kfree mem;;
            uvmdealloc pagetable a oldsz;;
            ret 0
          else uvmalloc_loop n' pagetable (a + PGSIZE) oldsz newsz xperm
    end
  else ret newsz.

Definition uvmalloc (pagetable oldsz newsz xperm : Z) : M (machine D) Z :=
  if newsz <? oldsz then ret oldsz
  else
    let oldsz := PGROUNDUP oldsz in
    uvmalloc_loop (Z.to_nat ((newsz - oldsz) / PGSIZE + 1)) pagetable oldsz oldsz newsz xperm.

(** [freewalk] recurses once per level of the tree; [depth] bounds the
    recursion (a page table has three levels). *)
Fixpoint freewalk (depth : nat) (pagetable : Z) : M (machine D) unit :=
  match depth with
  | O => out_of_fuel
  | S depth' =>
      for_ 0 512 (λ i,
        pte ← load 8 (pagetable + 8 * i);
        if flag pte PTE_V && (Z.land pte (Z.lor (Z.lor PTE_R PTE_W) PTE_X) =? 0) then
          freewalk depth' (PTE2PA pte);;
          store 8 (pagetable + 8 * i) 0
        else if flag pte PTE_V then panic "freewalk: leaf"
        else ret tt);;
      kfree pagetable
  end.

Definition uvmfree (pagetable sz : Z) : M (machine D) unit :=
  when (sz >? 0) (uvmunmap pagetable 0 (PGROUNDUP sz / PGSIZE) true);;
  freewalk 3 pagetable.

(** The loop of [uvmcopy]; [goto err] unmaps the [i / PGSIZE] pages copied so
    far. *)
Fixpoint uvmcopy_loop (n : nat) (old new i sz : Z) : M (machine D) Z :=
  let err := uvmunmap new 0 (i / PGSIZE) true;; ret (-1) in
  if i <? sz then
    match n with
    | O => out_of_fuel
    | S n' =>
        pte ← walk old i false;
        if pte =? 0 then panic "uvmcopy: pte should exist"
        else
          e ← load 8 pte;
          if negb (flag e PTE_V) then panic "uvmcopy: page not present"
          else
            let pa := PTE2PA e in
            let flags := PTE_FLAGS e in
            mem ← kalloc;
            if mem =? 0 then err
            else
              memmove mem pa PGSIZE;;
              r ← mappages new i PGSIZE mem flags;
              if negb (r =? 0) then kfree mem;; err
              else uvmcopy_loop n' old new (i + PGSIZE) sz
    end
  else ret 0.

Definition uvmcopy (old new sz : Z) : M (machine D) Z :=
  uvmcopy_loop (Z.to_nat (sz / PGSIZE + 1)) old new 0 sz.

Definition uvmclear (pagetable va : Z) : M (machine D) unit :=
  pte ← walk pagetable va false;
  if pte =? 0 then panic "uvmclear"
  else
    e ← load 8 pte;
    store 8 pte (Z.land e (u64 (Z.lnot PTE_U))).

(** One round copies up to the end of a page. *)
Fixpoint copyout_loop (n : nat) (pagetable dstva src len : Z) : M (machine D) Z :=
  if len >? 0 then
    match n with
    | O => out_of_fuel
    | S n' =>
        let va0 := PGROUNDDOWN dstva in
        pa0 ← walkaddr pagetable va0;
        if pa0 =? 0 then ret (-1)
        else
          let n := Z.min (PGSIZE - (dstva - va0)) len in
          memmove (pa0 + (dstva - va0)) src n;;
          copyout_loop n' pagetable (va0 + PGSIZE) (src + n) (len - n)
    end
  else ret 0.

Definition copyout (pagetable dstva src len : Z) : M (machine D) Z :=
  copyout_loop (Z.to_nat (len / PGSIZE + 2)) pagetable dstva src len.

Fixpoint copyin_loop (n : nat) (pagetable dst srcva len : Z) : M (machine D) Z :=
  if len >? 0 then
    match n with
    | O => out_of_fuel
    | S n' =>
        let va0 := PGROUNDDOWN srcva in
        pa0 ← walkaddr pagetable va0;
        if pa0 =? 0 then ret (-1)
        else
          let n := Z.min (PGSIZE - (srcva - va0)) len in
          memmove dst (pa0 + (srcva - va0)) n;;
          copyin_loop n' pagetable (dst + n) (va0 + PGSIZE) (len - n)
    end
  else ret 0.

Definition copyin (pagetable dst srcva len : Z) : M (machine D) Z :=
  copyin_loop (Z.to_nat (len / PGSIZE + 2)) pagetable dst srcva len.

(** The inner loop of [copyinstr] over the bytes of one page: whether the
    terminator was copied. *)
Fixpoint copyinstr_page (n : nat) (p dst : Z) : M (machine D) bool :=
  match n with
  | O => ret false
  | S n' =>
      c ← load 1 p;
      if c =? 0 then store 1 dst 0;; ret true
      else store 1 dst c;; copyinstr_page n' (p + 1) (dst + 1)
  end.

Fixpoint copyinstr_loop (n : nat) (pagetable dst srcva max : Z) : M (machine D) Z :=
  if max >? 0 then
    match n with
    | O => out_of_fuel
    | S n' =>
        let va0 := PGROUNDDOWN srcva in
        pa0 ← walkaddr pagetable va0;
        if pa0 =? 0 then ret (-1)
        else
          let n := Z.min (PGSIZE - (srcva - va0)) max in
          got_null ← copyinstr_page (Z.to_nat n) (pa0 + (srcva - va0)) dst;
          if got_null : bool then ret 0
          else copyinstr_loop n' pagetable (dst + n) (va0 + PGSIZE) (max - n)
    end
  else ret (-1).

Definition copyinstr (pagetable dst srcva max : Z) : M (machine D) Z :=
  copyinstr_loop (Z.to_nat (max / PGSIZE + 2)) pagetable dst srcva max.
End vm.
