(* ===== verification/VmFacts.v ===== *)
(** * Facts about page-table walks

    [mapping m pt va pa]: in the memory [m] the three-level walk from [pt]
    ends in a valid user page at [pa].  A walk reads three words; the mapping
    survives any change that leaves these words alone. *)

From S2P Require Import Prelude Machine Kalloc Vm.

(** The words a walk reads. *)
Definition pte2_at (pt va : Z) : Z := pt + 8 * PX 2 va.
Definition pte1_at (m : mem) (pt va : Z) : Z := PTE2PA (ld 8 m (pte2_at pt va)) + 8 * PX 1 va.
Definition pte0_at (m : mem) (pt va : Z) : Z := PTE2PA (ld 8 m (pte1_at m pt va)) + 8 * PX 0 va.

Definition pte_words (m : mem) (pt va : Z) : list Z :=
  [pte2_at pt va; pte1_at m pt va; pte0_at m pt va].

Record mapping (m : mem) (pt va pa : Z) : Prop := {
  mp_va : va < MAXVA;
  mp_ram x : x ∈ pte_words m pt va → KERNBASE ≤ x ∧ x + 8 ≤ PHYSTOP;
  mp_v2 : flag (ld 8 m (pte2_at pt va)) PTE_V = true;
  mp_v1 : flag (ld 8 m (pte1_at m pt va)) PTE_V = true;
  mp_v0 : flag (ld 8 m (pte0_at m pt va)) PTE_V = true;
  mp_u : flag (ld 8 m (pte0_at m pt va)) PTE_U = true;
  mp_pa : PTE2PA (ld 8 m (pte0_at m pt va)) = pa;
}.

(** Membership in [pte_words]. *)
Ltac word := unfold pte_words; rewrite !elem_of_cons; tauto.

Section vm_facts.
Context `{COK : ConfigOk} {D : Type}.
Implicit Types (s : machine D).

Lemma pte_words_frame m m' pt va :
  (∀ x, x ∈ pte_words m pt va → ld 8 m' x = ld 8 m x) → pte_words m' pt va = pte_words m pt va.
Proof.
  intros Hx.   assert (E1 : pte1_at m' pt va = pte1_at m pt va) by (unfold pte1_at; rewrite Hx by word; done).
  assert (E0 : pte0_at m' pt va = pte0_at m pt va) by (unfold pte0_at; rewrite E1, Hx by word; done).
  unfold pte_words. by rewrite E1, E0.
Qed.

Lemma mapping_frame m m' pt va pa :
  (∀ x, x ∈ pte_words m pt va → ld 8 m' x = ld 8 m x) → mapping m pt va pa → mapping m' pt va pa.
Proof.
  intros Hx [Hva Hram H2 H1 H0 Hu Hpa]. pose proof (pte_words_frame m m' pt va Hx) as E.
  injection E as E1 E0. split; rewrite ?E1, ?E0, ?Hx by word; try done.
  intros x. unfold pte_words. rewrite E1, E0. apply Hram.
Qed.

Lemma load_ram (x : Z) s : KERNBASE ≤ x → x + 8 ≤ PHYSTOP → load 8 x s = Done (ld 8 (phys s) x, s).
Proof. intros. apply load_eq. solve_range. Qed.

(** The entry found by [walk], and the page found by [walkaddr]. *)
Lemma walk_mapped s pt va pa :
  mapping (phys s) pt va pa → walk pt va false s = Done (pte0_at (phys s) pt va, s).
Proof.
  intros [Hva Hram H2 H1 H0 Hu Hpa]. unfold walk.
  destruct (Hram (pte2_at pt va)) as [? ?]; [word|].
  destruct (Hram (pte1_at (phys s) pt va)) as [? ?]; [word|].
  destruct (Z.geb_spec va MAXVA); [lia|]. unfold walk_level.
  fold (pte2_at pt va).
  erewrite bind_done; [|erewrite bind_done by (by apply load_ram); by rewrite H2].
  cbv beta iota. fold (pte1_at (phys s) pt va).
  erewrite bind_done; [|erewrite bind_done by (by apply load_ram); by rewrite H1].
  done.
Qed.

Lemma walkaddr_mapped s pt va pa :
  mapping (phys s) pt va pa → walkaddr pt va s = Done (pa, s).
Proof.
  intros Hm. pose proof (walk_mapped s pt va pa Hm) as Hw.
  destruct Hm as [Hva Hram H2 H1 H0 Hu Hpa].
  destruct (Hram (pte0_at (phys s) pt va)) as [? ?]; [word|].
  unfold walkaddr. destruct (Z.geb_spec va MAXVA); [lia|]. erewrite bind_done by done.
  rewrite (proj2 (Z.eqb_neq _ 0)) by (unfold KERNBASE in *; lia).
  erewrite bind_done by by apply load_ram. by rewrite H0, Hu, Hpa.
Qed.
End vm_facts.
