(* ===== verification/Raid.v ===== *)
(** * kernel/raid.h, kernel/raid.c and kernel/raid_rw.c: the RAID layer

    [raid_metadata] points to a page obtained from [kalloc]: [struct raid] at
    its start, then one 512-byte slot per disk that caches the blocks of one
    stripe.  Block transfers move BSIZE = 1024 bytes while RAID blocks are 512
    bytes long, so a transfer into or out of a slot also covers the slot after
    it, and the metadata block on disk covers the first slot.  For that reason
    the structure is kept in memory at its C layout: fields are read and written
    at their offsets, and an array index outside an array reaches the
    neighbouring field, as it does in the compiled program. *)

From S2P Require Import Prelude Machine BlockDev Kalloc Vm.

Definition BLOCKSIZE : Z := 512.

(** [enum dstate] *)
Definition ALIVE : Z := 0.
Definition DEAD : Z := 1.
Definition REPAIRED : Z := 2.

(** [enum RAID_TYPE] (kernel/defs.h) *)
Definition RAID0 : Z := 0.
Definition RAID1 : Z := 1.
Definition RAID0_1 : Z := 2.
Definition RAID4 : Z := 3.
Definition RAID5 : Z := 4.

(** [-1] as an unsigned int. *)
Definition NONE : Z := 2 ^ 32 - 1.

(** ** The layout of [struct raid] *)

Section layout.
Context `{C : Config}.

Definition f_raid_initialized : Z := 0.
Definition f_type : Z := 4.
Definition f_num_of_disks : Z := 8.
Definition f_block_size : Z := 12.
Definition f_max_blocks : Z := 16.
Definition f_num_dead_disks : Z := 20.
Definition f_max_dead_disks : Z := 24.
Definition f_disk_state (i : Z) : Z := 28 + 4 * i.
Definition f_data_disks (i : Z) : Z := f_disk_state DISKS + 4 * i.
Definition f_copy_disks (i : Z) : Z := f_data_disks (DISKS / 2) + 4 * i.
Definition f_reserve_disk : Z := f_copy_disks (DISKS / 2).
Definition f_stripe_cursor : Z := f_reserve_disk + 4.
Definition f_parity_disk : Z := f_reserve_disk + 8.
(** [struct cached_blocks] holds pointers and is aligned to 8. *)
Definition f_cache : Z := (f_parity_disk + 4 + 7) / 8 * 8.
Definition f_cache_stripe : Z := f_cache.
Definition f_parity_cached : Z := f_cache + 4.
Definition f_cached_data_disks (i : Z) : Z := f_cache + 8 + 8 * i.
Definition sizeof_raid : Z := f_cached_data_disks DISKS.
End layout.

Section raid.
Context `{C : Config} {D : Type} `{BD : BlockDevice D}.

Definition get_f (off : Z) : M (machine D) Z :=
  p ← gets raid_metadata; load 4 (p + off).
Definition set_f (off v : Z) : M (machine D) unit :=
  p ← gets raid_metadata; store 4 (p + off) v.

(** [raid_metadata->cache.cached_data_disks[i]] *)
Definition get_slot (i : Z) : M (machine D) Z :=
  p ← gets raid_metadata; load 8 (p + f_cached_data_disks i).
Definition set_slot (i v : Z) : M (machine D) unit :=
  p ← gets raid_metadata; store 8 (p + f_cached_data_disks i) v.

(** [raid_metadata == 0 || !raid_metadata->raid_initialized] *)
Definition not_initialized : M (machine D) bool :=
  p ← gets raid_metadata;
  if p =? 0 then ret true
  else init ← get_f f_raid_initialized; ret (init =? 0).

(** ** Helpers of kernel/raid_rw.c *)

Definition fetch : M (machine D) unit :=
  uninit ← not_initialized;
  when uninit
    (data ← kalloc;
     memset data 0 PGSIZE;;
     for_exit 1 (DISKS + 1) (λ i,
       read_block i 0 data;;
       modify (set_raid_metadata data);;
       if data =? 0 then ret None
       else
         st ← get_f (f_disk_state i);
         ret (if st =? DEAD then None else Some tt));;
     set_f f_cache_stripe (-1);;
     set_f f_parity_cached (-1);;
     for_ 0 DISKS (λ i,
       p ← gets raid_metadata;
       set_slot i (p + BLOCKSIZE * (i + 1)))).

Definition writeback : M (machine D) unit :=
  for_ 1 (DISKS + 1) (λ i,
    st ← get_f (f_disk_state (i - 1));
    when ((st =? ALIVE) || (st =? REPAIRED))
      (p ← gets raid_metadata; write_block i 0 p)).

Definition cache (stripe parity_disk : Z) : M (machine D) unit :=
  set_f f_cache_stripe stripe;;
  num ← get_f f_num_of_disks;
  for_ 1 (num + 1) (λ i,
    st ← get_f (f_disk_state (i - 1));
    if st =? DEAD then ret tt
    else
      slot ← get_slot (i - 1);
      read_block i stripe slot);;
  set_f f_parity_cached parity_disk;;
  set_f f_parity_disk parity_disk;;
  pd ← get_f f_parity_disk;
  st ← get_f (f_disk_state pd);
  when (negb (st =? DEAD))
    (pc ← get_f f_parity_cached;
     slot ← get_slot pc;
     read_block (s32 (pc + 1)) stripe slot).

(** [cached_data_disks[a][i] ^= cached_data_disks[b][i]] *)
Definition xor_slot (a b i : Z) : M (machine D) unit :=
  sa ← get_slot a;
  sb ← get_slot b;
  x ← load 1 (sa + i);
  y ← load 1 (sb + i);
  store 1 (sa + i) (Z.lxor x y).

Definition raid_tocache_recovery (diskn : Z) : M (machine D) unit :=
  for_ 0 BLOCKSIZE (λ i,
    d ← get_slot (diskn - 1);
    store 1 (d + i) 0;;
    num ← get_f f_num_of_disks;
    for_ 1 (num + 1) (λ j,
      if diskn =? j then ret tt else xor_slot (diskn - 1) (j - 1) i);;
    type ← get_f f_type;
    when (type =? RAID4)
      (pd ← get_f f_parity_disk;
       xor_slot (diskn - 1) pd i)).

Definition raid_write_updateparity_cache (diskn paddr_data : Z) : M (machine D) unit :=
  for_ 0 BLOCKSIZE (λ i,
    pc ← get_f f_parity_cached;
    xor_slot pc (diskn - 1) i;;
    d ← get_slot (diskn - 1);
    v ← load 1 (paddr_data + i);
    store 1 (d + i) v;;
    pc ← get_f f_parity_cached;
    xor_slot pc (diskn - 1) i);;
  pc ← get_f f_parity_cached;
  st ← get_f (f_disk_state pc);
  when (negb (st =? DEAD))
    (stripe ← get_f f_cache_stripe;
     sp ← get_slot pc;
     write_block (s32 (pc + 1)) (s32 stripe) sp);;
  st ← get_f (f_disk_state (diskn - 1));
  when (negb (st =? DEAD))
    (stripe ← get_f f_cache_stripe;
     d ← get_slot (diskn - 1);
     write_block diskn (s32 stripe) d).

(** Division and remainder by an unsigned field; zero is undefined. *)
Definition udiv (a b : Z) : M (machine D) Z := if b =? 0 then fault else ret (a / b).
Definition umod (a b : Z) : M (machine D) Z := if b =? 0 then fault else ret (a mod b).

(** ** RAID 0 *)

Definition read_raid0 (blkn paddr_data : Z) : M (machine D) Z :=
  num ← get_f f_num_of_disks;
  r ← umod blkn num;
  let diskn := s32 (r + 1) in
  q ← udiv blkn num;
  let blkn := s32 (q + 1) in
  st ← get_f (f_disk_state (diskn - 1));
  if st =? DEAD then ret (-1)
  else read_block diskn blkn paddr_data;; ret 0.

Definition write_raid0 (blkn paddr_data : Z) : M (machine D) Z :=
  num ← get_f f_num_of_disks;
  r ← umod blkn num;
  let diskn := s32 (r + 1) in
  q ← udiv blkn num;
  let blkn := s32 (q + 1) in
  st ← get_f (f_disk_state (blkn - 1));
  if st =? DEAD then ret (-1)
  else write_block diskn blkn paddr_data;; ret 0.

(** ** RAID 1 *)

Definition read_raid1 (blkn paddr_data : Z) : M (machine D) Z :=
  num ← get_f f_num_of_disks;
  disk_index ← umod blkn num;
  dd ← get_f (f_data_disks disk_index);
  let diskn := s32 dd in
  cd ← get_f (f_copy_disks disk_index);
  let copy_diskn := s32 cd in
  q ← udiv blkn num;
  let blkn := s32 (q + 1) in
  st ← get_f (f_disk_state (diskn - 1));
  if negb (st =? DEAD) then read_block diskn blkn paddr_data;; ret 0
  else
    st' ← get_f (f_disk_state (copy_diskn - 1));
    if negb (st' =? DEAD) then read_block copy_diskn blkn paddr_data;; ret 0
    else ret (-1).

Definition write_raid1 (blkn paddr_data : Z) : M (machine D) Z :=
  num ← get_f f_num_of_disks;
  disk_index ← umod blkn num;
  dd ← get_f (f_data_disks disk_index);
  let diskn := s32 dd in
  cd ← get_f (f_copy_disks disk_index);
  let copy_diskn := s32 cd in
  q ← udiv blkn num;
  let blkn := s32 (q + 1) in
  st ← get_f (f_disk_state (diskn - 1));
  flag ← (if negb (st =? DEAD) then write_block diskn blkn paddr_data;; ret true
          else ret false);
  st' ← get_f (f_disk_state (copy_diskn - 1));
  flag ← (if negb (st' =? DEAD) then write_block copy_diskn blkn paddr_data;; ret true
          else ret flag);
  if negb flag then ret (-1) else ret 0.

(** ** RAID 0+1 *)

Definition read_raid01 (blkn paddr_data : Z) : M (machine D) Z :=
  num ← get_f f_num_of_disks;
  disk_index ← umod blkn num;
  dd ← get_f (f_data_disks disk_index);
  let diskn := s32 dd in
  cd ← get_f (f_copy_disks disk_index);
  let copy_diskn := s32 cd in
  q ← udiv blkn num;
  let blkn := s32 (q + 1) in
  st ← get_f (f_disk_state (diskn - 1));
  if negb (st =? DEAD) then read_block diskn blkn paddr_data;; ret 0
  else
    st' ← get_f (f_disk_state (copy_diskn - 1));
    if negb (st' =? DEAD) then read_block copy_diskn blkn paddr_data;; ret 0
    else ret (-1).

Definition write_raid01 (blkn paddr_data : Z) : M (machine D) Z :=
  num ← get_f f_num_of_disks;
  disk_index ← umod blkn num;
  dd ← get_f (f_data_disks disk_index);
  let diskn := s32 dd in
  cd ← get_f (f_copy_disks disk_index);
  let copy_diskn := s32 cd in
  q ← udiv blkn num;
  let blkn := s32 (q + 1) in
  st ← get_f (f_disk_state (diskn - 1));
  flag ← (if negb (st =? DEAD) then write_block diskn blkn paddr_data;; ret true
          else ret false);
  st' ← get_f (f_disk_state (copy_diskn - 1));
  flag ← (if negb (st' =? DEAD) then write_block copy_diskn blkn paddr_data;; ret true
          else ret flag);
  if negb flag then ret (-1) else ret 0.

(** ** RAID 4 *)

Definition read_raid4 (blkn paddr_data : Z) : M (machine D) Z :=
  dead ← get_f f_num_dead_disks;
  max_dead ← get_f f_max_dead_disks;
  if dead >=? max_dead then ret (-1)
  else
    num ← get_f f_num_of_disks;
    r ← umod blkn num;
    let diskn := s32 (r + 1) in
    q ← udiv blkn num;
    let stripe := s32 (q + 1) in
    cs ← get_f f_cache_stripe;
    if cs =? u32 stripe then
      st ← get_f (f_disk_state (diskn - 1));
      when (st =? DEAD) (raid_tocache_recovery diskn);;
      slot ← get_slot (diskn - 1);
      memmove paddr_data slot BLOCKSIZE;;
      ret 0
    else
      pd ← get_f f_parity_disk;
      cache stripe (s32 pd);;
      st ← get_f (f_disk_state (diskn - 1));
      when (st =? DEAD) (raid_tocache_recovery diskn);;
      slot ← get_slot (diskn - 1);
      memmove paddr_data slot BLOCKSIZE;;
      ret 0.

Definition write_raid4 (blkn paddr_data : Z) : M (machine D) Z :=
  dead ← get_f f_num_dead_disks;
  max_dead ← get_f f_max_dead_disks;
  if dead >=? max_dead then ret (-1)
  else
    num ← get_f f_num_of_disks;
    r ← umod blkn num;
    let diskn := s32 (r + 1) in
    q ← udiv blkn num;
    let stripe := s32 (q + 1) in
    cs ← get_f f_cache_stripe;
    if cs =? u32 stripe then
      raid_write_updateparity_cache diskn paddr_data;;
      ret 0
    else
      pd ← get_f f_parity_disk;
      cache stripe (s32 pd);;
      st ← get_f (f_disk_state (diskn - 1));
      when (st =? DEAD) (raid_tocache_recovery diskn);;
      raid_write_updateparity_cache diskn paddr_data;;
      ret 0.

(** ** RAID 5 *)

(** The three locals [stripe], [parity_diskn], [data_diskn] that both
    routines compute from the logical block number. *)
Definition raid5_locate (blkn : Z) : M (machine D) (Z * Z * Z) :=
  num ← get_f f_num_of_disks;
  q ← udiv blkn (u32 (num - 1));
  let stripe := s32 (q + 1) in
  r ← umod (u32 (stripe - 1)) num;
  let parity_diskn := s32 (num - r) in
  r' ← umod blkn (u32 (num - 1));
  r'' ← umod (u32 (parity_diskn + r')) num;
  let data_diskn := s32 (r'' + 1) in
  ret (stripe, parity_diskn, data_diskn).

Definition read_raid5 (blkn paddr_data : Z) : M (machine D) Z :=
  dead ← get_f f_num_dead_disks;
  max_dead ← get_f f_max_dead_disks;
  if dead >=? max_dead then ret (-1)
  else
    '(stripe, parity_diskn, data_diskn) ← raid5_locate blkn;
    cs ← get_f f_cache_stripe;
    if cs =? u32 stripe then
      st ← get_f (f_disk_state (data_diskn - 1));
      when (st =? DEAD) (raid_tocache_recovery data_diskn);;
      slot ← get_slot (data_diskn - 1);
      memmove paddr_data slot BLOCKSIZE;;
      ret 0
    else
      cache stripe (parity_diskn - 1);;
      st ← get_f (f_disk_state (data_diskn - 1));
      when (st =? DEAD) (raid_tocache_recovery data_diskn);;
      slot ← get_slot (data_diskn - 1);
      memmove paddr_data slot BLOCKSIZE;;
      ret 0.

Definition write_raid5 (blkn paddr_data : Z) : M (machine D) Z :=
  dead ← get_f f_num_dead_disks;
  max_dead ← get_f f_max_dead_disks;
  if dead >=? max_dead then ret (-1)
  else
    '(stripe, parity_diskn, data_diskn) ← raid5_locate blkn;
    cs ← get_f f_cache_stripe;
    if cs =? u32 stripe then
      raid_write_updateparity_cache data_diskn paddr_data;;
      ret 0
    else
      cache stripe (parity_diskn - 1);;
      st ← get_f (f_disk_state (data_diskn - 1));
      when (st =? DEAD) (raid_tocache_recovery data_diskn);;
      raid_write_updateparity_cache data_diskn paddr_data;;
      ret 0.

(** ** kernel/raid.c *)

(** The RAID 1 case, which RAID 0+1 falls through to. *)
Definition init_mirror : M (machine D) unit :=
  set_f f_num_of_disks (DISKS / 2);;
  set_f f_reserve_disk (if DISKS mod 2 =? 0 then -1 else DISKS);;
  num ← get_f f_num_of_disks;
  set_f f_max_dead_disks (num + 1);;
  reserve ← get_f f_reserve_disk;
  when (negb (reserve =? NONE))
    (n ← get_f f_max_dead_disks; set_f f_max_dead_disks (n + 1));;
  for_ 0 (DISKS / 2) (λ i,
    set_f (f_data_disks i) (i + 1);;
    set_f (f_copy_disks i) (i + 1 + DISKS / 2));;
  num ← get_f f_num_of_disks;
  set_f f_max_blocks (num * (DISK_SIZE / BLOCKSIZE - 1)).

Definition init_raid (raid : Z) : M (machine D) Z :=
  fetch;;
  set_f f_raid_initialized 1;;
  set_f f_type raid;;
  set_f f_block_size BLOCKSIZE;;
  set_f f_num_of_disks DISKS;;
  set_f f_num_dead_disks 0;;
  set_f f_reserve_disk (-1);;
  num ← get_f f_num_of_disks;
  set_f f_max_blocks (num * (DISK_SIZE / BLOCKSIZE - 1));;
  (if raid =? RAID0_1 then set_f f_stripe_cursor (-1);; init_mirror
   else if raid =? RAID1 then init_mirror
   else if raid =? RAID4 then
     set_f f_max_dead_disks 2;;
     set_f f_parity_disk (DISKS - 1);;
     num ← get_f f_num_of_disks;
     set_f f_num_of_disks (num - 1)
   else if raid =? RAID5 then set_f f_max_dead_disks 2
   else ret tt);;
  for_ 1 (DISKS + 1) (λ i,
    p ← gets raid_metadata;
    set_slot (i - 1) (p + BLOCKSIZE * i);;
    write_block i 0 p);;
  ret 0.

(** The bounds check of [read_raid] and [write_raid]. *)
Definition rw_refused (blkn vaddr_data : Z) : M (machine D) bool :=
  uninit ← not_initialized;
  if uninit : bool then ret true
  else if blkn <? 0 then ret true
  else
    max ← get_f f_max_blocks;
    ret ((u32 blkn >=? max) || (vaddr_data =? 0)).

Definition user_paddr (pagetable vaddr : Z) : M (machine D) Z :=
  pa ← walkaddr pagetable vaddr;
  ret (Z.lor pa (Z.land vaddr (PGSIZE - 1))).

(** Entry [k] of the function table [raid_rw]. *)
Definition raid_rw (k : Z) : Z → Z → M (machine D) Z :=
  if k =? 0 then read_raid0 else if k =? 1 then write_raid0
  else if k =? 2 then read_raid1 else if k =? 3 then write_raid1
  else if k =? 4 then read_raid01 else if k =? 5 then write_raid01
  else if k =? 6 then read_raid4 else if k =? 7 then write_raid4
  else if k =? 8 then read_raid5 else if k =? 9 then write_raid5
  else λ _ _, fault.

(** [pagetable] is [myproc()->pagetable]. *)
Definition read_raid (pagetable blkn vaddr_data : Z) : M (machine D) Z :=
  refused ← rw_refused blkn vaddr_data;
  if refused : bool then ret (-1)
  else
    paddr_data ← user_paddr pagetable vaddr_data;
    type ← get_f f_type;
    raid_rw (u32 (Z.shiftl type 1)) blkn paddr_data.

Definition write_raid (pagetable blkn vaddr_data : Z) : M (machine D) Z :=
  refused ← rw_refused blkn vaddr_data;
  if refused : bool then ret (-1)
  else
    paddr_data ← user_paddr pagetable vaddr_data;
    type ← get_f f_type;
    raid_rw (u32 (Z.shiftl type 1 + 1)) blkn paddr_data.

Definition info_raid (pagetable v_blkn v_blks v_disks : Z) : M (machine D) Z :=
  fetch;;
  init ← get_f f_raid_initialized;
  if init =? 0 then ret (-1)
  else
    p_blkn ← user_paddr pagetable v_blkn;
    p_blks ← user_paddr pagetable v_blks;
    p_disks ← user_paddr pagetable v_disks;
    max ← get_f f_max_blocks;
    store 4 p_blkn max;;
    size ← get_f f_block_size;
    store 4 p_blks size;;
    num ← get_f f_num_of_disks;
    store 4 p_disks num;;
    ret 0.

(** The last index whose entry in the array at [f] is [diskn], -1 for none. *)
Definition find_role (f : Z → Z) (diskn : Z) : M (machine D) Z :=
  num ← get_f f_num_of_disks;
  for_acc 0 num (-1) (λ i acc,
    d ← get_f (f i);
    ret (if d =? u32 diskn then i else acc)).

Definition has_parity_or_none (type : Z) : bool :=
  (type =? RAID0) || (type =? RAID4) || (type =? RAID5).

Definition disk_fail_raid (diskn : Z) : M (machine D) Z :=
  uninit ← not_initialized;
  if uninit || (diskn <? 1) || (diskn >? DISKS) then ret (-1)
  else
    st ← get_f (f_disk_state (diskn - 1));
    if st =? DEAD then ret 0
    else
      set_f (f_disk_state (diskn - 1)) DEAD;;
      n ← get_f f_num_dead_disks;
      set_f f_num_dead_disks (n + 1);;
      type ← get_f f_type;
      if has_parity_or_none type then writeback;; ret 0
      else
        reserve ← get_f f_reserve_disk;
        if negb (reserve =? NONE) && negb (reserve =? 0) then
          num ← get_f f_num_of_disks;
          (if diskn <=? num then
             c ← get_f (f_copy_disks (diskn - 1));
             set_f (f_data_disks (diskn - 1)) c;;
             r ← get_f f_reserve_disk;
             set_f (f_copy_disks (diskn - 1)) r;;
             set_f f_reserve_disk 0
           else
             r ← get_f f_reserve_disk;
             set_f (f_copy_disks (DISKS - diskn)) r;;
             set_f f_reserve_disk 0);;
          writeback;;
          ret 0
        else
          primary ← find_role f_data_disks diskn;
          (if negb (primary =? -1) then
             c ← get_f (f_copy_disks primary);
             set_f (f_data_disks primary) c;;
             set_f (f_copy_disks primary) (-1)
           else
             copy ← find_role f_copy_disks diskn;
             set_f (f_copy_disks copy) (-1));;
          writeback;;
          ret 0.

(** The first index whose entry in the array at [f] is -1. *)
Definition find_hole (f : Z → Z) : M (machine D) (option Z) :=
  num ← get_f f_num_of_disks;
  for_exit 0 num (λ i,
    d ← get_f (f i);
    ret (if negb (d =? NONE) then None else Some i)).

Definition disk_repaired_raid (diskn : Z) : M (machine D) Z :=
  uninit ← not_initialized;
  if uninit || (diskn <? 1) || (diskn >? DISKS) then ret (-1)
  else
    st ← get_f (f_disk_state (diskn - 1));
    if negb (st =? DEAD) then ret 0
    else
      set_f (f_disk_state (diskn - 1)) REPAIRED;;
      n ← get_f f_num_dead_disks;
      set_f f_num_dead_disks (n - 1);;
      type ← get_f f_type;
      if has_parity_or_none type then writeback;; ret 0
      else
        hole ← find_hole f_data_disks;
        match hole with
        | Some i => set_f (f_data_disks i) diskn;; writeback;; ret 0
        | None =>
            hole ← find_hole f_copy_disks;
            match hole with
            | Some i => set_f (f_copy_disks i) diskn;; writeback;; ret 0
            | None => set_f f_reserve_disk diskn;; writeback;; ret 0
            end
        end.

Definition destroy_raid : M (machine D) Z :=
  uninit ← not_initialized;
  when uninit
    (data ← kalloc;
     read_block 1 0 data;;
     modify (set_raid_metadata data));;
  uninit ← not_initialized;
  if uninit : bool then ret 0
  else
    p ← gets raid_metadata;
    memset p 0 PGSIZE;;
    writeback;;
    p ← gets raid_metadata;
    kfree p;;
    modify (set_raid_metadata 0);;
    ret 0.
End raid.
