(* ===== verification/RaidFacts.v ===== *)
(** * Shared facts about the RAID page

    [raid_page s] says that [raid_metadata] points to a page of kernel memory
    apart from the transfer buffers and that the cache pointers designate the
    512-byte slots behind [struct raid].  Under it the accesses of the RAID code
    are ordinary loads and stores, and a routine's effect is described by the
    part of memory it may change ([changes]). *)

From S2P Require Import Prelude Machine Kalloc BlockDev Vm Raid.

(** The slots with their overhang fit the page for up to six disks. *)
Class FitsPage (C : Config) : Prop := {
  fits_lo : 2 ≤ DISKS;
  fits_hi : DISKS ≤ 6;
}.

Ltac offsets :=
  unfold f_raid_initialized, f_type, f_num_of_disks, f_block_size, f_max_blocks,
    f_num_dead_disks, f_max_dead_disks, sizeof_raid, f_cached_data_disks, f_parity_cached,
    f_cache_stripe, f_cache, f_parity_disk, f_stripe_cursor, f_reserve_disk, f_copy_disks,
    f_data_disks, f_disk_state in *.

Section raid_facts.
Context `{COK : ConfigOk} {FP : FitsPage C} {D : Type} `{BDL : BlockDeviceLaws D}.
Implicit Types (s : machine D).

Definition fld s (off : Z) : Z := ld 4 (phys s) (raid_metadata s + off).
Definition slot_addr s (i : Z) : Z := raid_metadata s + BLOCKSIZE * (i + 1).
Definition slot s (i : Z) : list Z := read_bytes (phys s) (slot_addr s i) (Z.to_nat BLOCKSIZE).
Definition dead s (i : Z) : Prop := fld s (f_disk_state i) = DEAD.

#[global] Instance dead_dec s i : Decision (dead s i).
Proof. unfold dead. apply _. Defined.

Record raid_page s : Prop := {
  rp_env : env_ok s;
  rp_lo : etext ≤ raid_metadata s;
  rp_hi : raid_metadata s + PGSIZE ≤ PHYSTOP;
  rp_out : outside s (raid_metadata s) PGSIZE;
  rp_slot i : 0 ≤ i < DISKS →
    ld 8 (phys s) (raid_metadata s + f_cached_data_disks i) = slot_addr s i;
}.

(** Memory changes within [W] and the transfer buffers only. *)
Record changes (W : Z → Prop) s s' : Prop := {
  ch_env : env_ok s';
  ch_globals : same_globals s s';
  ch_mem x : outside s x 1 → ¬ W x → phys s' !!! x = phys s !!! x;
}.

(** The part of the page the RAID code changes after set-up: the cache
    bookkeeping, the parity index and the slots. *)
Definition in_range (a n x : Z) : Prop := a ≤ x < a + n.

Lemma changes_refl W s : env_ok s → changes W s s.
Proof. intros. split; [done|apply same_globals_refl|done]. Qed.

Lemma changes_trans W s1 s2 s3 : changes W s1 s2 → changes W s2 s3 → changes W s1 s3.
Proof.
  intros [E1 G1 M1] [E2 G2 M2]. split; [done|by eapply same_globals_trans|].
  intros x Ho Hx. rewrite M2, M1; [done..| |done]. by eapply outside_same.
Qed.

Lemma changes_mono (W W' : Z → Prop) s s' :
  changes W s s' → (∀ x, W x → W' x) → changes W' s s'.
Proof. intros [E G Mm] HW. split; [done..|]. auto. Qed.

Lemma changes_read W s s' a n :
  changes W s s' → outside s a (Z.of_nat n) → (∀ x, in_range a (Z.of_nat n) x → ¬ W x) →
  read_bytes (phys s') a n = read_bytes (phys s) a n.
Proof.
  intros [E G Mm] Ho HW. apply read_bytes_ext. intros x Hx. apply Mm.
  - eapply outside_sub; [done|lia|lia].
  - by apply HW.
Qed.

Lemma outside_page s off n :
  raid_page s → 0 ≤ off → off + n ≤ PGSIZE → outside s (raid_metadata s + off) n.
Proof. intros Hp ??. eapply outside_sub; [apply Hp|lia|lia]. Qed.

Lemma sizeof_raid_le : sizeof_raid ≤ BLOCKSIZE.
Proof. pose proof fits_lo. pose proof fits_hi. unfold BLOCKSIZE. offsets. dlia. Qed.

Lemma changes_fld W s s' off :
  changes W s s' → raid_page s → 0 ≤ off → off + 4 ≤ PGSIZE →
  (∀ x, in_range (raid_metadata s + off) 4 x → ¬ W x) →
  fld s' off = fld s off.
Proof.
  intros Hc Hp ?? HW. unfold fld, ld. rewrite (same_raid_metadata _ _ (ch_globals _ _ _ Hc)).
  f_equal. eapply changes_read; [done|by apply outside_page|done].
Qed.

Lemma changes_slot W s s' i :
  changes W s s' → raid_page s → 0 ≤ i ≤ DISKS →
  (∀ x, in_range (slot_addr s i) BLOCKSIZE x → ¬ W x) →
  slot s' i = slot s i.
Proof.
  intros Hc Hp Hi HW. unfold slot, slot_addr.
  rewrite (same_raid_metadata _ _ (ch_globals _ _ _ Hc)).
  eapply changes_read; [done| |done].
  pose proof fits_hi. apply outside_page; [done|unfold BLOCKSIZE; lia|].
  unfold BLOCKSIZE, PGSIZE. lia.
Qed.

(** Changes that avoid the cache pointers keep the page well formed. *)
Lemma changes_page W s s' :
  changes W s s' → raid_page s →
  (∀ i x, 0 ≤ i < DISKS → in_range (raid_metadata s + f_cached_data_disks i) 8 x → ¬ W x) →
  raid_page s'.
Proof.
  intros Hc Hp HW. pose proof sizeof_raid_le. destruct Hc as [E G Mm].
  pose proof (same_raid_metadata _ _ G) as Er. split.
  - done.
  - rewrite Er. apply Hp.
  - rewrite Er. apply Hp.
  - rewrite Er. eapply outside_same; [done|apply Hp].
  - intros i Hi. unfold slot_addr. rewrite Er. fold (slot_addr s i).
    rewrite <- (rp_slot s Hp i Hi). unfold ld. f_equal.
    eapply changes_read; [by split|apply outside_page; [done|..]|].
    + offsets. dlia.
    + unfold sizeof_raid, BLOCKSIZE, PGSIZE in *. unfold f_cached_data_disks in *. lia.
    + intros x Hx. by eapply HW.
Qed.

Lemma fld_range s off : raid_page s → 0 ≤ fld s off < 2 ^ 32.
Proof. intros Hp. apply (ld_range 4), Hp. Qed.

(** ** Accesses *)

Lemma wp_get_f off (Q : Z → machine D → Prop) s :
  raid_page s → 0 ≤ off → off + 4 ≤ PGSIZE → Q (fld s off) s → wp (get_f off) Q s.
Proof.
  intros Hp Ho1 Ho2 HQ. pose proof etext_ge. pose proof (rp_lo s Hp). pose proof (rp_hi s Hp).
  unfold get_f. wp_steps. apply wp_load; [solve_range|done].
Qed.

Lemma wp_get_slot i (Q : Z → machine D → Prop) s :
  raid_page s → 0 ≤ i < DISKS → Q (slot_addr s i) s → wp (get_slot i) Q s.
Proof.
  intros Hp Hi HQ. pose proof etext_ge. pose proof (rp_lo s Hp). pose proof (rp_hi s Hp).
  pose proof sizeof_raid_le.
  assert (0 ≤ f_cached_data_disks i ∧ f_cached_data_disks i + 8 ≤ sizeof_raid).
  { unfold sizeof_raid, f_cached_data_disks. split; [|lia]. offsets. dlia. }
  unfold get_slot. wp_steps. apply wp_load; [unfold BLOCKSIZE in *; solve_range|].
  by rewrite rp_slot.
Qed.

(** A store inside the page, away from the cache pointers. *)
Lemma changes_store k a v s :
  env_ok s → changes (in_range a (Z.of_nat k)) s (set_phys (st k (phys s) a v) s).
Proof.
  intros [Em Ed Eb]. split.
  - split; [cbn; auto|done..].
  - by split.
  - intros x Ho Hx. cbn. unfold st. rewrite lookup_total_write_bytes, length_le_split.
    by rewrite decide_False.
Qed.

Lemma fld_set s off v :
  fld (set_phys (st 4 (phys s) (raid_metadata s + off) v) s) off = u32 v.
Proof. unfold fld. cbn. apply (ld_st_eq 4). Qed.

Lemma wp_set_f off v (Q : unit → machine D → Prop) s :
  raid_page s → 0 ≤ off → off + 4 ≤ PGSIZE →
  (∀ s', changes (in_range (raid_metadata s + off) 4) s s' →
     vdisk s' = vdisk s → fld s' off = u32 v → Q tt s') →
  wp (set_f off v) Q s.
Proof.
  intros Hp Ho1 Ho2 HQ. pose proof (rp_lo s Hp). pose proof (rp_hi s Hp).
  unfold set_f. wp_steps. apply wp_store; [solve_range|]. apply HQ.
  - apply (changes_store 4), Hp.
  - done.
  - apply fld_set.
Qed.

(** Transfers between a disk and memory of the RAID page or a user buffer. *)
Lemma wp_read_changes diskn blockno a s (Q : unit → machine D → Prop) :
  env_ok s → 1 ≤ diskn ≤ DISKS → in_device (vdisk s) diskn blockno →
  writable a BSIZE = true → outside s a BSIZE →
  (∀ s', changes (in_range a BSIZE) s s' →
     read_bytes (phys s') a (Z.to_nat BSIZE) = block s diskn blockno →
     (∀ id b, block s' id b = block s id b) → Q tt s') →
  wp (read_block diskn blockno a) Q s.
Proof.
  intros He Hd Hin Hw Ho HQ. apply wp_read_block; [done..|].
  intros s' He' Hg Hm Hb. apply HQ; [|..|done].
  - split; [done..|]. intros x Hx HW. rewrite Hm by done. by rewrite decide_False.
  - destruct (bd_block_bytes (vdisk s) diskn blockno (env_dev s He)) as [Hl _].
    apply list_eq_same_length with (Z.to_nat BSIZE); [done|by rewrite length_read_bytes|].
    intros i x y Hi Hx Hy. rewrite lookup_read_bytes in Hx by lia. injection Hx as <-.
    rewrite Hm by (eapply outside_sub; [done|unfold BSIZE in *; lia..]).
    rewrite decide_True by (unfold BSIZE in *; lia).
    replace (Z.to_nat (a + Z.of_nat i - a)) with i by lia.
    unfold block in *. by apply list_lookup_total_correct.
Qed.

Lemma wp_write_changes diskn blockno a s (Q : unit → machine D → Prop) :
  env_ok s → 1 ≤ diskn ≤ DISKS → in_device (vdisk s) diskn blockno →
  readable a BSIZE = true → outside s a BSIZE →
  (∀ s', changes (λ _, False) s s' →
     (∀ id b, block s' id b =
        if decide (id = diskn ∧ b = blockno)
        then read_bytes (phys s) a (Z.to_nat BSIZE) else block s id b) → Q tt s') →
  wp (write_block diskn blockno a) Q s.
Proof.
  intros He Hd Hin Hw Ho HQ. apply wp_write_block; [done..|].
  intros s' He' Hg Hm Hb. apply HQ; [|done]. split; [done..|]. intros x Hx _. by apply Hm.
Qed.
End raid_facts.
