(* ===== verification/RaidParity.v ===== *)
(** * RAID 4 and RAID 5: parity, recovery and the stripe cache

    Both levels keep, per stripe, one block on every disk such that the blocks
    xor to zero.  The proofs follow the code: what [cache], the recovery loop
    and the parity update do to the slots, then the read and write routines
    against a logical content [A stripe disk] of every disk, whether the disk is
    alive or has to be reconstructed. *)

From S2P Require Import Prelude Machine Kalloc BlockDev Vm Raid RaidFacts.

(** ** Xor over the disks *)

Fixpoint xsum (n : nat) (f : Z → Z) : Z :=
  match n with
  | O => 0
  | S n' => Z.lxor (xsum n' f) (f (Z.of_nat n'))
  end.

Definition fupd {A} (f : Z → A) (k : Z) (v : A) : Z → A := λ j, if j =? k then v else f j.

Lemma fupd_eq {A} (f : Z → A) k v : fupd f k v k = v.
Proof. unfold fupd. by rewrite Z.eqb_refl. Qed.
Lemma fupd_ne {A} (f : Z → A) k v j : j ≠ k → fupd f k v j = f j.
Proof. intros. unfold fupd. by rewrite (proj2 (Z.eqb_neq _ _)). Qed.

Lemma xsum_ext n f g : (∀ k, 0 ≤ k < Z.of_nat n → f k = g k) → xsum n f = xsum n g.
Proof.
  induction n as [|n IH]; intros H; simpl; [done|].
  rewrite IH by (intros; apply H; lia). by rewrite H by lia.
Qed.

Lemma lxor_swap a b c : Z.lxor (Z.lxor a b) c = Z.lxor (Z.lxor a c) b.
Proof. by rewrite Z.lxor_assoc, (Z.lxor_comm b), Z.lxor_assoc. Qed.

(** Replacing one term. *)
Lemma xsum_upd n f k v :
  0 ≤ k < Z.of_nat n → xsum n (fupd f k v) = Z.lxor (Z.lxor (xsum n f) (f k)) v.
Proof.
  induction n as [|n IH]; intros Hk; simpl; [lia|].
  destruct (decide (k = Z.of_nat n)) as [->|Hne].
  - rewrite fupd_eq, (xsum_ext n _ f) by (intros; apply fupd_ne; lia).
    by rewrite (Z.lxor_assoc (xsum n f)), Z.lxor_nilpotent, Z.lxor_0_r.
  - rewrite fupd_ne, IH by lia.
    rewrite (lxor_swap (Z.lxor (xsum n f) (f k))), (lxor_swap (xsum n f)). done.
Qed.

(** A lost block is the xor of the others. *)
Lemma xsum_recover n f k : 0 ≤ k < Z.of_nat n → xsum n f = 0 → xsum n (fupd f k 0) = f k.
Proof. intros Hk H. by rewrite xsum_upd, H, Z.lxor_0_l, Z.lxor_0_r. Qed.

(** Undoing the old value in the parity and adding the new one keeps the sum. *)
Lemma xsum_parity_update n f p d v :
  0 ≤ p < Z.of_nat n → 0 ≤ d < Z.of_nat n → p ≠ d → xsum n f = 0 →
  xsum n (fupd (fupd f d v) p (Z.lxor (Z.lxor (f p) (f d)) v)) = 0.
Proof.
  intros Hp Hd Hne H. rewrite xsum_upd by done. rewrite xsum_upd by done.
  rewrite fupd_ne, H, Z.lxor_0_l by done.
  rewrite <- (Z.lxor_nilpotent (Z.lxor (Z.lxor (f p) (f d)) v)) at 1. f_equal.
  rewrite (lxor_swap (f p)), (Z.lxor_comm (Z.lxor (f d) v)), Z.lxor_assoc.
  f_equal. apply Z.lxor_comm.
Qed.

Lemma byte_lxor a b : byte a → byte b → byte (Z.lxor a b).
Proof.
  unfold byte. intros Ha Hb. assert (0 ≤ Z.lxor a b) by (apply Z.lxor_nonneg; lia).
  split; [done|]. destruct (decide (Z.lxor a b = 0)) as [->|Hne]; [lia|].
  apply (Z.log2_lt_pow2 _ 8); [lia|].
  eapply Z.le_lt_trans; [apply Z.log2_lxor; lia|].
  apply Z.max_lub_lt.
  - destruct (decide (a = 0)) as [->|]; [done|]. apply Z.log2_lt_pow2; lia.
  - destruct (decide (b = 0)) as [->|]; [done|]. apply Z.log2_lt_pow2; lia.
Qed.

Section parity.
Context `{COK : ConfigOk} {FP : FitsPage C} {D : Type} `{BDL : BlockDeviceLaws D}.
Implicit Types (s : machine D).

(** Byte [i] of slot [k]. *)
Definition sb s (k i : Z) : Z := phys s !!! (slot_addr s k + i).

Lemma slot_sb s k (i : nat) : (i < 512)%nat → slot s k !!! i = sb s k (Z.of_nat i).
Proof. intros. unfold slot. by rewrite lookup_total_read_bytes. Qed.

Lemma sb_byte s k i : raid_page s → byte (sb s k i).
Proof. intros Hp. apply (env_mem s (rp_env s Hp)). Qed.

Lemma changes_sb W s s' k i :
  changes W s s' → raid_page s → 0 ≤ k < DISKS → 0 ≤ i < BLOCKSIZE →
  ¬ W (slot_addr s k + i) → sb s' k i = sb s k i.
Proof.
  intros Hc Hp Hk Hi HW. unfold sb, slot_addr.
  rewrite (same_raid_metadata _ _ (ch_globals _ _ _ Hc)).
  apply (ch_mem _ _ _ Hc); [|done]. eapply outside_sub; [apply Hp|..].
  all: pose proof fits_hi; unfold slot_addr, BLOCKSIZE, PGSIZE in *; lia.
Qed.

Lemma slot_eq_sb s s' k k' :
  (∀ i, 0 ≤ i < BLOCKSIZE → sb s k i = sb s' k' i) → slot s k = slot s' k'.
Proof.
  intros H. unfold slot. apply list_eq_same_length with (Z.to_nat BLOCKSIZE);
    rewrite ?length_read_bytes; [done..|].
  intros i x y Hi Hx Hy. rewrite lookup_read_bytes in Hx, Hy by done.
  assert (x = sb s k (Z.of_nat i)) by (unfold sb; congruence).
  assert (y = sb s' k' (Z.of_nat i)) by (unfold sb; congruence).
  subst. apply H. unfold BLOCKSIZE in *. lia.
Qed.

Lemma wp_xor_slot a b i s (Q : unit → machine D → Prop) :
  raid_page s → 0 ≤ a < DISKS → 0 ≤ b < DISKS → 0 ≤ i < BLOCKSIZE →
  (∀ s', changes (in_range (slot_addr s a + i) 1) s s' → vdisk s' = vdisk s →
     sb s' a i = Z.lxor (sb s a i) (sb s b i) → Q tt s') →
  wp (xor_slot a b i) Q s.
Proof.
  intros Hp Ha Hb Hi HQ. pose proof etext_ge. pose proof (rp_lo s Hp). pose proof (rp_hi s Hp).
  pose proof fits_hi. unfold xor_slot.
  wp_step. apply wp_get_slot; [done..|]. wp_step. apply wp_get_slot; [done..|].
  wp_step. apply wp_load; [unfold slot_addr, BLOCKSIZE in *; solve_range|].
  wp_step. apply wp_load; [unfold slot_addr, BLOCKSIZE in *; solve_range|].
  apply wp_store; [unfold slot_addr, BLOCKSIZE in *; solve_range|]. rewrite !ld_1.
  apply HQ.
  - apply (changes_store 1), Hp.
  - done.
  - unfold sb. cbn. rewrite st_1. rewrite lookup_total_insert_eq.
    apply u8_byte, byte_lxor; by apply sb_byte.
Qed.

(** *** Changes confined to the slots *)

Definition slots_area s (x : Z) : Prop :=
  raid_metadata s + BLOCKSIZE ≤ x < raid_metadata s + PGSIZE.

Lemma slots_changes_page s s' : changes (slots_area s) s s' → raid_page s → raid_page s'.
Proof.
  intros Hc Hp. eapply changes_page; [done..|]. pose proof sizeof_raid_le.
  intros i x Hi Hx [H1 H2]. unfold in_range, sizeof_raid, f_cached_data_disks in *. lia.
Qed.

Lemma slots_changes_fld s s' off :
  changes (slots_area s) s s' → raid_page s → 0 ≤ off → off + 4 ≤ BLOCKSIZE →
  fld s' off = fld s off.
Proof.
  intros Hc Hp ??. eapply changes_fld; [done..|unfold BLOCKSIZE, PGSIZE in *; lia|].
  intros x Hx [H1 H2]. unfold in_range in *. lia.
Qed.

Lemma slot_in_area s i x :
  0 ≤ i < DISKS → in_range (slot_addr s i) BLOCKSIZE x → slots_area s x.
Proof.
  pose proof fits_hi. unfold in_range, slots_area, slot_addr, BLOCKSIZE, PGSIZE. lia.
Qed.

Lemma changes_slot_area s s' k :
  0 ≤ k < DISKS → changes (in_range (slot_addr s k) BLOCKSIZE) s s' → changes (slots_area s) s s'.
Proof. intros Hk Hc. eapply changes_mono; [done|]. intros x. by apply slot_in_area. Qed.

(** *** The recovery loop *)

(** The shapes of metadata the parity levels run on. *)
Definition parity_layout s : Prop :=
  (fld s f_type = RAID4 ∧ fld s f_num_of_disks = DISKS - 1 ∧ fld s f_parity_disk = DISKS - 1)
  ∨ (fld s f_type = RAID5 ∧ fld s f_num_of_disks = DISKS).

Lemma offset_bounds :
  f_cache + 8 ≤ BLOCKSIZE ∧ f_parity_disk + 4 ≤ f_cache ∧ 0 ≤ f_parity_disk
  ∧ (∀ i, 0 ≤ i < DISKS → 0 ≤ f_disk_state i ∧ f_disk_state i + 4 ≤ f_parity_disk).
Proof.
  pose proof fits_lo. pose proof fits_hi. unfold BLOCKSIZE. offsets.
  split_and!; [dlia..|intros; dlia].
Qed.

Definition lost s d i : Z → Z := fupd (λ k, sb s k i) (d - 1) 0.

(** The byte computed for position [i] when the first [n] disks are in. *)
Definition rec_byte s d n i : Z := xsum n (lost s d i).

(** State of the recovery: bytes below [i] are final, byte [i] has
    accumulated [n] disks. *)
Definition rec_inv s d i n s' : Prop :=
  changes (in_range (slot_addr s (d - 1)) BLOCKSIZE) s s' ∧ vdisk s' = vdisk s
  ∧ (∀ x, 0 ≤ x < i → sb s' (d - 1) x = rec_byte s d (Z.to_nat DISKS) x)
  ∧ (i < BLOCKSIZE → sb s' (d - 1) i = rec_byte s d n i).

Lemma rec_inv_other s d i n s' k x :
  raid_page s → rec_inv s d i n s' → 0 ≤ k < DISKS → k ≠ d - 1 → 0 ≤ x < BLOCKSIZE →
  sb s' k x = sb s k x.
Proof.
  intros Hp (Hc & _) Hk Hne Hx. eapply changes_sb; [done..|].
  unfold in_range, slot_addr, BLOCKSIZE in *. lia.
Qed.

(** One accumulation step: disk [k] is xored in. *)
Lemma rec_step s d i k s' (Q : unit → machine D → Prop) :
  raid_page s → 1 ≤ d ≤ DISKS → 0 ≤ i < BLOCKSIZE → 0 ≤ k < DISKS → k ≠ d - 1 →
  rec_inv s d i (Z.to_nat k) s' →
  (∀ s'', rec_inv s d i (Z.to_nat (k + 1)) s'' → Q tt s'') →
  wp (xor_slot (d - 1) k i) Q s'.
Proof.
  intros Hp Hd Hi Hk Hne Hinv HQ. pose proof Hinv as (Hc & Hv & Hlt & Hcur).
  assert (Hp' : raid_page s')
    by (eapply slots_changes_page; [eapply changes_slot_area; [|done]; lia|done]).
  apply wp_xor_slot; [done|lia|done|done|]. intros s'' Hc' Hv' Hb. apply HQ.
  assert (Ha : slot_addr s' (d - 1) = slot_addr s (d - 1)).
  { unfold slot_addr. by rewrite (same_raid_metadata _ _ (ch_globals _ _ _ Hc)). }
  split_and!.
  - eapply changes_trans; [done|]. eapply changes_mono; [done|]. rewrite Ha.
    unfold in_range. lia.
  - congruence.
  - intros x Hx. rewrite (changes_sb _ _ _ _ _ Hc' Hp'); [by apply Hlt|lia..|].
    unfold in_range. lia.
  - intros _. rewrite Hb, Hcur by lia. rewrite (rec_inv_other s d i _ s' k i Hp Hinv) by lia.
    unfold rec_byte. replace (Z.to_nat (k + 1)) with (S (Z.to_nat k)) by lia. simpl.
    f_equal. unfold lost. rewrite Z2Nat.id by lia. by rewrite fupd_ne.
Qed.

Lemma rec_inv_page s d i n s' :
  raid_page s → 1 ≤ d ≤ DISKS → rec_inv s d i n s' →
  raid_page s' ∧ ∀ off, 0 ≤ off → off + 4 ≤ BLOCKSIZE → fld s' off = fld s off.
Proof.
  intros Hp Hd (Hc & _). apply changes_slot_area in Hc; [|lia].
  split; [by eapply slots_changes_page|]. intros. by eapply slots_changes_fld.
Qed.

Lemma rec_disks s d i num s' :
  raid_page s → 1 ≤ d ≤ DISKS → 0 ≤ i < BLOCKSIZE → 0 ≤ num ≤ DISKS →
  rec_inv s d i 0 s' →
  wp (for_ 1 (num + 1) (λ j, if d =? j then ret tt else xor_slot (d - 1) (j - 1) i))
     (λ _, rec_inv s d i (Z.to_nat num)) s'.
Proof.
  intros Hp Hd Hi Hnum Hinv.
  apply (wp_for_post (λ j, rec_inv s d i (Z.to_nat (j - 1)))); [lia|done| |].
  2: { intros s''. by replace (num + 1 - 1) with num by lia. }
  intros j s'' Hj Hinv''. replace (j + 1 - 1) with (j - 1 + 1) by lia.
  destruct (Z.eqb_spec d j) as [->|Hne].
  - apply wp_ret. destruct Hinv'' as (Hc & Hv & Hlt & Hcur). split_and!; [done..|].
    intros Hlt'. rewrite Hcur by done. unfold rec_byte.
    replace (Z.to_nat (j - 1 + 1)) with (S (Z.to_nat (j - 1))) by lia. simpl.
    unfold lost at 3. rewrite Z2Nat.id, fupd_eq by lia. by rewrite Z.lxor_0_r.
  - eapply rec_step; [done|lia|done|lia|lia|done|auto].
Qed.

(** [raid_tocache_recovery] replaces one slot by the xor of the others. *)
Lemma wp_recovery d s (Q : unit → machine D → Prop) :
  raid_page s → parity_layout s → 1 ≤ d ≤ fld s f_num_of_disks →
  (∀ s', changes (in_range (slot_addr s (d - 1)) BLOCKSIZE) s s' → vdisk s' = vdisk s →
     (∀ i, 0 ≤ i < BLOCKSIZE → sb s' (d - 1) i = rec_byte s d (Z.to_nat DISKS) i) →
     Q tt s') →
  wp (raid_tocache_recovery d) Q s.
Proof.
  intros Hp HL Hd HQ. destruct offset_bounds as (Hb1 & Hb2 & Hb3 & _).
  pose proof fits_lo. pose proof fits_hi. pose proof etext_ge.
  pose proof (rp_lo s Hp). pose proof (rp_hi s Hp).
  assert (HdD : 1 ≤ d ≤ DISKS) by (destruct HL as [(_ & ? & _)|(_ & ?)]; lia).
  unfold raid_tocache_recovery.
  apply (wp_for_post (λ i s',
    changes (in_range (slot_addr s (d - 1)) BLOCKSIZE) s s' ∧ vdisk s' = vdisk s
    ∧ ∀ x, 0 ≤ x < i → sb s' (d - 1) x = rec_byte s d (Z.to_nat DISKS) x)).
  - done.
  - split_and!; [apply changes_refl, Hp|done|lia].
  - intros i s' Hi (Hc & Hv & Hlt).
    assert (Ha : slot_addr s' (d - 1) = slot_addr s (d - 1)).
    { unfold slot_addr. by rewrite (same_raid_metadata _ _ (ch_globals _ _ _ Hc)). }
    pose proof (changes_slot_area s s' (d - 1) ltac:(lia) Hc) as Hca.
    pose proof (slots_changes_page _ _ Hca Hp) as Hp'.
    wp_step. apply wp_get_slot; [done|lia|]. rewrite Ha.
    wp_step. apply wp_store; [unfold slot_addr, BLOCKSIZE in *; solve_range|].
    set (s1 := set_phys _ s').
    assert (Hinv1 : rec_inv s d i 0 s1).
    { pose proof (changes_store 1 (slot_addr s (d - 1) + i) 0 s' (rp_env _ Hp')) as Hc1.
      fold s1 in Hc1. split_and!.
      - eapply changes_trans; [done|]. eapply changes_mono; [done|]. unfold in_range. lia.
      - done.
      - intros x Hx. rewrite (changes_sb _ _ _ _ _ Hc1 Hp'); [by apply Hlt|lia..|].
        rewrite Ha. unfold in_range. lia.
      - intros _. unfold sb. fold (slot_addr s1 (d - 1)).
        change (slot_addr s1 (d - 1)) with (slot_addr s' (d - 1)). rewrite Ha.
        unfold s1. cbn. rewrite st_1. apply lookup_total_insert_eq. }
    destruct (rec_inv_page _ _ _ _ _ Hp HdD Hinv1) as [Hp1 Hf1].
    wp_step. apply wp_get_f; [done|by offsets|by offsets|].
    rewrite Hf1 by by offsets.
    wp_step. eapply wp_mono; [apply (rec_disks s d i); [done..| |done]|].
    { destruct HL as [(_ & -> & _)|(_ & ->)]; lia. }
    intros [] s2 Hinv2. destruct (rec_inv_page _ _ _ _ _ Hp HdD Hinv2) as [Hp2 Hf2].
    wp_step. apply wp_get_f; [done|by offsets|by offsets|]. rewrite Hf2 by by offsets.
    assert (Hend : ∀ s3, rec_inv s d i (Z.to_nat DISKS) s3 →
      changes (in_range (slot_addr s (d - 1)) BLOCKSIZE) s s3 ∧ vdisk s3 = vdisk s
      ∧ ∀ x, 0 ≤ x < i + 1 → sb s3 (d - 1) x = rec_byte s d (Z.to_nat DISKS) x).
    { intros s3 (Hc3 & Hv3 & Hlt3 & Hcur3). split_and!; [done..|]. intros x Hx.
      destruct (decide (x = i)) as [->|]; [by apply Hcur3; lia|apply Hlt3; lia]. }
    destruct HL as [(Ht & Hn & Hpd)|(Ht & Hn)]; rewrite Ht, Hn in *.
    + cbn. wp_step. apply wp_get_f; [done|done|unfold BLOCKSIZE, PGSIZE in *; lia|].
      rewrite Hf2, Hpd by lia.
      apply (rec_step s d i); [done|done|done|lia|lia|done|].
      intros s3 Hinv3. apply Hend. by replace (DISKS - 1 + 1) with DISKS in Hinv3 by lia.
    + cbn. apply wp_ret. by apply Hend.
  - intros s' (Hc & Hv & Hlt). by apply HQ.
Qed.

(** *** Filling the stripe cache *)

(** What [cache] may change. *)
Definition cache_area s (x : Z) : Prop :=
  slots_area s x ∨ in_range (raid_metadata s + f_parity_disk) 4 x
  ∨ in_range (raid_metadata s + f_cache) 8 x.

Lemma cache_changes_page s s' : changes (cache_area s) s s' → raid_page s → raid_page s'.
Proof.
  intros Hc Hp. eapply changes_page; [done..|]. pose proof sizeof_raid_le.
  intros i x Hi Hx HW. destruct offset_bounds as (? & ? & _).
  unfold cache_area, slots_area, in_range, sizeof_raid, f_cached_data_disks in *. lia.
Qed.

Lemma cache_changes_fld s s' off :
  changes (cache_area s) s s' → raid_page s → 0 ≤ off → off + 4 ≤ f_parity_disk →
  fld s' off = fld s off.
Proof.
  intros Hc Hp ??. destruct offset_bounds as (? & ? & _).
  eapply changes_fld; [done..|unfold BLOCKSIZE, PGSIZE in *; lia|].
  intros x Hx HW. unfold cache_area, slots_area, in_range, BLOCKSIZE in *. lia.
Qed.

(** First and second half of a disk block. *)
Definition fst_half (l : list Z) : list Z := take (Z.to_nat BLOCKSIZE) l.
Definition snd_half (l : list Z) : list Z := drop (Z.to_nat BLOCKSIZE) l.

(** A transfer into slot [k] also fills slot [k + 1]. *)
Lemma wp_read_slot id stripe k s (Q : unit → machine D → Prop) :
  raid_page s → 0 ≤ k < DISKS → 1 ≤ id ≤ DISKS → in_device (vdisk s) id stripe →
  (∀ s', changes (in_range (slot_addr s k) BSIZE) s s' →
     (∀ id b, block s' id b = block s id b) →
     slot s' k = fst_half (block s id stripe) →
     slot s' (k + 1) = snd_half (block s id stripe) → Q tt s') →
  wp (read_block id stripe (slot_addr s k)) Q s.
Proof.
  intros Hp Hk Hid Hin HQ. pose proof (rp_lo s Hp). pose proof (rp_hi s Hp). pose proof fits_hi.
  apply wp_read_changes; [apply Hp|done|done| | |].
  { unfold slot_addr, BLOCKSIZE in *. solve_range. }
  { apply outside_page; unfold BLOCKSIZE, BSIZE, PGSIZE in *; [done|lia..]. }
  intros s' Hc Hrd Hb. pose proof (same_raid_metadata _ _ (ch_globals _ _ _ Hc)) as Er.
  change (Z.to_nat BSIZE) with (Z.to_nat BLOCKSIZE + Z.to_nat BLOCKSIZE)%nat in Hrd.
  rewrite read_bytes_app in Hrd. apply HQ; [done..| |].
  - unfold fst_half, slot, slot_addr. rewrite Er, <- Hrd. fold (slot_addr s k).
    by rewrite take_app_length' by by rewrite length_read_bytes.
  - unfold snd_half, slot. rewrite <- Hrd, drop_app_length' by by rewrite length_read_bytes.
    f_equal. unfold slot_addr, BLOCKSIZE. rewrite Er. lia.
Qed.

(** State of the cache while disks below [n] have been read. *)
Definition fill_inv s stripe n s' : Prop :=
  changes (cache_area s) s s' ∧ (∀ id b, block s' id b = block s id b)
  ∧ fld s' f_cache_stripe = stripe
  ∧ ∀ k, 0 ≤ k < n → ¬ dead s k → slot s' k = fst_half (block s (k + 1) stripe).

Lemma in_device_same s s' id b :
  same_globals s s' → in_device (vdisk s) id b → in_device (vdisk s') id b.
Proof. intros [_ _ _ Hs] (?&?&?). unfold in_device. by rewrite Hs. Qed.

Lemma same_slot_addr s s' k : same_globals s s' → slot_addr s' k = slot_addr s k.
Proof. intros Hg. unfold slot_addr. by rewrite (same_raid_metadata _ _ Hg). Qed.

Lemma same_cache_area s s' : same_globals s s' → cache_area s' = cache_area s.
Proof. intros Hg. unfold cache_area, slots_area. by rewrite (same_raid_metadata _ _ Hg). Qed.

Lemma fill_step s stripe i s' :
  raid_page s → 1 ≤ i ≤ DISKS → in_device (vdisk s) i stripe →
  fill_inv s stripe (i - 1) s' →
  wp (st ← get_f (f_disk_state (i - 1));
      if st =? DEAD then ret tt
      else slot ← get_slot (i - 1); read_block i stripe slot)
     (λ _, fill_inv s stripe i) s'.
Proof.
  intros Hp Hi Hin (Hc & Hb & Hst & Hslots). pose proof fits_hi.
  pose proof (cache_changes_page _ _ Hc Hp) as Hp'.
  destruct offset_bounds as (Ho1 & Ho2 & Ho3 & Ho4). destruct (Ho4 (i - 1)) as [? ?]; [lia|].
  pose proof (ch_globals _ _ _ Hc) as Hg.
  wp_step. apply wp_get_f; [done|done|unfold BLOCKSIZE, PGSIZE in *; lia|].
  rewrite (cache_changes_fld _ _ _ Hc Hp) by done.
  destruct (Z.eqb_spec (fld s (f_disk_state (i - 1))) DEAD) as [Hd|Hd].
  - apply wp_ret. split_and!; [done..|]. intros k Hk Hnd.
    destruct (decide (k = i - 1)) as [->|]; [done|]. apply Hslots; [lia|done].
  - wp_step. apply wp_get_slot; [done|lia|].
    apply wp_read_slot; [done|lia|lia|by eapply in_device_same|].
    intros s'' Hc' Hb' Hs1 _. rewrite (same_slot_addr _ _ _ Hg) in Hc'. split_and!.
    + eapply changes_trans; [done|]. eapply changes_mono; [done|]. intros x Hx. left.
      unfold in_range, slots_area, slot_addr, BLOCKSIZE, BSIZE, PGSIZE in *. lia.
    + intros. by rewrite Hb', Hb.
    + rewrite <- Hst. eapply changes_fld; [done|done|unfold f_cache_stripe; lia|..].
      * unfold f_cache_stripe, BLOCKSIZE, PGSIZE in *. lia.
      * rewrite (same_raid_metadata _ _ Hg). unfold f_cache_stripe.
        unfold in_range, slot_addr, BLOCKSIZE in *. lia.
    + intros k Hk Hnd. destruct (decide (k = i - 1)) as [->|].
      * rewrite Hs1. rewrite Hb. by replace (i - 1 + 1) with i by lia.
      * rewrite (changes_slot _ _ _ k Hc' Hp'); [apply Hslots; [lia|done]|lia|].
        rewrite (same_slot_addr _ _ _ Hg).
        unfold in_range, slot_addr, BLOCKSIZE, BSIZE in *. lia.
Qed.

(** A store to one of the fields [cache] updates. *)
Lemma changes_cache_field s s' off :
  f_cache ≤ off ≤ f_cache + 4 ∨ off = f_parity_disk →
  changes (in_range (raid_metadata s + off) 4) s s' → changes (cache_area s) s s'.
Proof.
  intros Ho Hc. eapply changes_mono; [done|]. intros x Hx. right.
  unfold in_range in *. lia.
Qed.

(** A store to one field keeps the others and the slots. *)
Lemma field_changes s s' off :
  0 ≤ off → off + 4 ≤ f_cache + 8 →
  changes (in_range (raid_metadata s + off) 4) s s' → raid_page s →
  raid_page s' ∧ (∀ k, 0 ≤ k ≤ DISKS → slot s' k = slot s k)
  ∧ (∀ off', 0 ≤ off' → off' + 4 ≤ BLOCKSIZE → off' + 4 ≤ off ∨ off + 4 ≤ off' →
       fld s' off' = fld s off').
Proof.
  intros Ho1 Ho2 Hc Hp. destruct offset_bounds as (? & _). split_and!.
  - eapply changes_page; [done..|]. intros i x Hi. offsets. unfold in_range. lia.
  - intros k Hk. eapply changes_slot; [done..|].
    unfold in_range, slot_addr, BLOCKSIZE in *. lia.
  - intros off' ???. eapply changes_fld; [done..|unfold BLOCKSIZE, PGSIZE in *; lia|].
    unfold in_range. lia.
Qed.

Lemma block_vdisk s s' id b : vdisk s' = vdisk s → block s' id b = block s id b.
Proof. unfold block. by intros ->. Qed.

(** What [cache] leaves in the slots: the first halves of the blocks of the
    live disks, except that the transfer of the parity block, which comes
    last, puts its second half into the slot after the parity slot. *)
Definition filled s stripe p s' : Prop :=
  (∀ k, 0 ≤ k < DISKS → (k < fld s f_num_of_disks ∨ k = p) → ¬ dead s k →
     ¬ (k = p + 1 ∧ ¬ dead s p) → slot s' k = fst_half (block s (k + 1) stripe))
  ∧ (¬ dead s p → slot s' (p + 1) = snd_half (block s (p + 1) stripe)).

Lemma wp_cache stripe p s (Q : unit → machine D → Prop) :
  raid_page s → 0 ≤ fld s f_num_of_disks ≤ DISKS → 0 ≤ p < DISKS →
  0 ≤ stripe < 2 ^ 31 → (∀ id, 1 ≤ id ≤ DISKS → in_device (vdisk s) id stripe) →
  (∀ s', changes (cache_area s) s s' → (∀ id b, block s' id b = block s id b) →
     fld s' f_cache_stripe = stripe → fld s' f_parity_cached = p → fld s' f_parity_disk = p →
     filled s stripe p s' → Q tt s') →
  wp (cache stripe p) Q s.
Proof.
  intros Hp Hnum Hpar Hst Hin HQ. pose proof fits_lo. pose proof fits_hi.
  destruct offset_bounds as (Ho1 & Ho2 & Ho3 & Ho4). destruct (Ho4 p Hpar) as [Ho5 Ho6].
  assert (HB : BLOCKSIZE = 512) by done. assert (HP : PGSIZE = 4096) by done.
  unfold cache. wp_step. apply wp_set_f; [done|unfold f_cache_stripe; lia..|].
  intros s1 Hc1 Hv1 Hf1. rewrite u32_small in Hf1 by lia.
  apply changes_cache_field in Hc1; [|unfold f_cache_stripe; lia].
  pose proof (cache_changes_page _ _ Hc1 Hp) as Hp1.
  wp_step. apply wp_get_f; [done|by offsets|by offsets|].
  rewrite (cache_changes_fld _ _ _ Hc1 Hp) by (try (unfold f_num_of_disks; lia); offsets; dlia).
  wp_step. apply (wp_for_post (λ i, fill_inv s stripe (i - 1))).
  { lia. }
  { split_and!; [done| |done|lia]. intros. by apply block_vdisk. }
  { intros i s' Hi Hinv. replace (i + 1 - 1) with i by lia.
    apply fill_step; [done|lia|apply Hin; lia|done]. }
  intros s2 (Hc2 & Hb2 & Hf2 & Hs2). replace (_ + 1 - 1) with (fld s f_num_of_disks) in Hs2 by lia.
  pose proof (cache_changes_page _ _ Hc2 Hp) as Hp2.
  wp_step. apply wp_set_f; [done|unfold f_parity_cached; lia..|]. intros s3 Hc3 Hv3 Hf3.
  rewrite u32_small in Hf3 by lia.
  destruct (field_changes s2 s3 f_parity_cached) as (Hp3 & Hs3 & Hk3);
    [unfold f_parity_cached; lia..|done|done|].
  wp_step. apply wp_set_f; [done|lia..|]. intros s4 Hc4 Hv4 Hf4. rewrite u32_small in Hf4 by lia.
  destruct (field_changes s3 s4 f_parity_disk) as (Hp4 & Hs4 & Hk4); [lia..|done|done|].
  assert (Hch4 : changes (cache_area s) s s4).
  { eapply changes_trans; [exact Hc2|]. rewrite <- (same_cache_area _ _ (ch_globals _ _ _ Hc2)).
    eapply changes_trans; [eapply changes_cache_field; [|exact Hc3]; unfold f_parity_cached; lia|].
    rewrite <- (same_cache_area _ _ (ch_globals _ _ _ Hc3)).
    eapply changes_cache_field; [|exact Hc4]. lia. }
  assert (Hb4 : ∀ id b, block s4 id b = block s id b).
  { intros. by rewrite (block_vdisk s3), (block_vdisk s2). }
  assert (Hcs4 : fld s4 f_cache_stripe = stripe).
  { unfold f_cache_stripe, f_parity_cached in *. rewrite Hk4, Hk3 by lia. done. }
  assert (Hpc4 : fld s4 f_parity_cached = p).
  { unfold f_parity_cached in *. rewrite Hk4 by lia. done. }
  assert (Hsl4 : ∀ k, 0 ≤ k ≤ DISKS → slot s4 k = slot s2 k).
  { intros. by rewrite Hs4, Hs3. }
  wp_step. apply wp_get_f; [done|lia..|]. rewrite Hf4.
  wp_step. apply wp_get_f; [done|lia..|]. rewrite (cache_changes_fld s s4) by done.
  wp_step. destruct (Z.eqb_spec (fld s (f_disk_state p)) DEAD) as [Hd|Hd]; cbn [negb].
  - apply wp_ret. apply HQ; [done..|]. split; [|done].
    intros k Hk Hkn Hnd _. rewrite Hsl4 by lia. apply Hs2; [|done].
    destruct Hkn as [?| ->]; [lia|done].
  - wp_step. apply wp_get_f; [done|unfold f_parity_cached; lia..|]. rewrite Hpc4.
    wp_step. apply wp_get_slot; [done|lia|]. rewrite s32_small by lia.
    pose proof (ch_globals _ _ _ Hch4) as Hg4.
    apply wp_read_slot; [done|lia|lia|eapply in_device_same; [done|apply Hin; lia]|].
    intros s5 Hc5 Hb5 Hs5 Hs5'. rewrite (same_slot_addr _ _ _ Hg4) in Hc5.
    assert (Hlow : ∀ off, 0 ≤ off → off + 4 ≤ BLOCKSIZE → fld s5 off = fld s4 off).
    { intros off ??. eapply changes_fld; [done..|lia|].
      rewrite (same_raid_metadata _ _ Hg4). unfold in_range, slot_addr. lia. }
    rewrite Hb4 in Hs5, Hs5'. apply HQ.
    + eapply changes_trans; [done|]. eapply changes_mono; [done|]. intros x Hx. left.
      assert (BSIZE = 1024) by done. unfold in_range, slots_area, slot_addr in *. lia.
    + intros. by rewrite Hb5, Hb4.
    + rewrite Hlow; [done|unfold f_cache_stripe; lia..].
    + rewrite Hlow; [done|unfold f_parity_cached; lia..].
    + rewrite Hlow; [done|lia..].
    + split; [|done]. intros k Hk Hkn Hnd Hne.
      destruct (decide (k = p)) as [->|Hkp]; [done|].
      rewrite (changes_slot _ _ _ k Hc5 Hp4).
      * rewrite Hsl4 by lia. apply Hs2; [lia|done].
      * lia.
      * rewrite (same_slot_addr _ _ _ Hg4). assert (k ≠ p + 1) by (intros ->; by apply Hne).
        assert (BSIZE = 1024) by done. unfold in_range, slot_addr. lia.
Qed.

(** *** The parity update *)

(** A buffer of [n] bytes apart from the RAID page and the transfer buffers. *)
Record user_buf s (a n : Z) : Prop := {
  ub_lo : etext ≤ a;
  ub_hi : a + n ≤ PHYSTOP;
  ub_out : outside s a n;
  ub_page : a + n ≤ raid_metadata s ∨ raid_metadata s + PGSIZE ≤ a;
}.

Lemma user_buf_byte s s' a n i :
  user_buf s a n → changes (slots_area s) s s' → 0 ≤ i < n →
  phys s' !!! (a + i) = phys s !!! (a + i).
Proof.
  intros [H1 H2 H3 H4] Hc Hi. apply (ch_mem _ _ _ Hc).
  - eapply outside_sub; [done|lia|lia].
  - unfold slots_area, BLOCKSIZE. lia.
Qed.

(** Slots [p] and [d] during the update: bytes below [i] are new. *)
Definition upd_inv s p d a i s' : Prop :=
  changes (slots_area s) s s' ∧ vdisk s' = vdisk s
  ∧ (∀ x, 0 ≤ x < BLOCKSIZE →
       sb s' p x = (if x <? i then Z.lxor (Z.lxor (sb s p x) (sb s d x)) (phys s !!! (a + x))
                    else sb s p x)
       ∧ sb s' d x = (if x <? i then phys s !!! (a + x) else sb s d x))
  ∧ ∀ k, 0 ≤ k ≤ DISKS → k ≠ p → k ≠ d → slot s' k = slot s k.

Lemma same_slots_area s s' : same_globals s s' → slots_area s' = slots_area s.
Proof. intros Hg. unfold slots_area. by rewrite (same_raid_metadata _ _ Hg). Qed.

(** One byte store into slot [k]. *)
Lemma changes_slot_byte s s' k i :
  raid_page s → 0 ≤ k < DISKS → 0 ≤ i < BLOCKSIZE →
  changes (in_range (slot_addr s k + i) 1) s s' →
  changes (slots_area s) s s'
  ∧ (∀ k' x, 0 ≤ k' < DISKS → 0 ≤ x < BLOCKSIZE → k' ≠ k ∨ x ≠ i → sb s' k' x = sb s k' x)
  ∧ (∀ k', 0 ≤ k' ≤ DISKS → k' ≠ k → slot s' k' = slot s k').
Proof.
  intros Hp Hk Hi Hc. pose proof fits_hi. split_and!.
  - eapply changes_mono; [done|]. intros x. unfold in_range, slots_area, slot_addr, BLOCKSIZE, PGSIZE in *. lia.
  - intros k' x Hk' Hx Hne. eapply changes_sb; [done..|].
    unfold in_range, slot_addr, BLOCKSIZE in *. lia.
  - intros k' Hk' Hne. eapply changes_slot; [done..|].
    unfold in_range, slot_addr, BLOCKSIZE in *. lia.
Qed.

Lemma upd_step s p d a i s' :
  raid_page s → fld s f_parity_cached = p → 0 ≤ p < DISKS → 0 ≤ d < DISKS → p ≠ d →
  user_buf s a BLOCKSIZE → 0 ≤ i < BLOCKSIZE → upd_inv s p d a i s' →
  wp (pc ← get_f f_parity_cached;
      xor_slot pc d i;;
      sd ← get_slot d;
      v ← load 1 (a + i);
      store 1 (sd + i) v;;
      pc ← get_f f_parity_cached;
      xor_slot pc d i)
     (λ _, upd_inv s p d a (i + 1)) s'.
Proof.
  intros Hp Hpc Hpr Hdr Hne Hub Hi (Hc & Hv & Hby & Hsl).
  destruct offset_bounds as (Ho1 & Ho2 & Ho3 & _).
  assert (HB : BLOCKSIZE = 512) by done. assert (HP : PGSIZE = 4096) by done.
  pose proof etext_ge. pose proof (rp_lo s Hp). pose proof (rp_hi s Hp). pose proof fits_hi.
  pose proof (slots_changes_page _ _ Hc Hp) as Hp'. pose proof (ch_globals _ _ _ Hc) as Hg.
  destruct (Hby i Hi) as [Hbp Hbd]. rewrite (proj2 (Z.ltb_ge i i)) in Hbp, Hbd by lia.
  wp_step. apply wp_get_f; [done|unfold f_parity_cached; lia..|].
  rewrite (slots_changes_fld s s'), Hpc by (done || unfold f_parity_cached; lia).
  (* undo the old value *)
  wp_step. apply wp_xor_slot; [done..|]. intros sA HcA HvA HA. rewrite Hbp, Hbd in HA.
  destruct (changes_slot_byte _ _ _ _ Hp' Hpr Hi HcA) as (HwA & HsA & HkA).
  pose proof (slots_changes_page _ _ HwA Hp') as HpA.
  (* store the new value *)
  wp_step. apply wp_get_slot; [done..|]. wp_step.
  rewrite (same_slots_area _ _ Hg) in HwA. pose proof (changes_trans _ _ _ _ Hc HwA) as HtA.
  pose proof (ch_globals _ _ _ HtA) as HgA.
  apply wp_load; [destruct Hub; solve_range|]. rewrite ld_1.
  rewrite (user_buf_byte s sA a _ i Hub HtA Hi).
  wp_step. apply wp_store; [unfold slot_addr; rewrite (same_raid_metadata _ _ HgA); solve_range|].
  pose proof (changes_store 1 (slot_addr sA d + i) (phys s !!! (a + i)) sA (rp_env _ HpA)) as HcB.
  set (sB := set_phys _ sA) in *.
  destruct (changes_slot_byte _ _ _ _ HpA Hdr Hi HcB) as (HwB & HsB & HkB).
  pose proof (slots_changes_page _ _ HwB HpA) as HpB.
  assert (HB' : sb sB d i = phys s !!! (a + i)).
  { unfold sb. change (slot_addr sB d) with (slot_addr sA d). cbn. rewrite st_1.
    rewrite lookup_total_insert_eq. apply u8_byte, (env_mem s (rp_env s Hp)). }
  rewrite (same_slots_area _ _ HgA) in HwB. pose proof (changes_trans _ _ _ _ HtA HwB) as HtB.
  (* add it to the parity *)
  wp_step. apply wp_get_f; [done|unfold f_parity_cached; lia..|].
  rewrite (slots_changes_fld s sB), Hpc by (done || unfold f_parity_cached; lia).
  apply wp_xor_slot; [done..|]. intros sC HcC HvC HC.
  destruct (changes_slot_byte _ _ _ _ HpB Hpr Hi HcC) as (HwC & HsC & HkC).
  rewrite (same_slots_area _ _ (ch_globals _ _ _ HtB)) in HwC.
  split_and!.
  - by eapply changes_trans.
  - rewrite HvC. change (vdisk sB) with (vdisk sA). congruence.
  - intros x Hx. destruct (Hby x Hx) as [Hxp Hxd]. destruct (decide (x = i)) as [->|Hxi].
    + rewrite (proj2 (Z.ltb_lt i (i + 1))) by lia.
      rewrite HC, HsB, HA, HB' by (done || lia). split; [done|].
      rewrite HsC by (done || lia). done.
    + rewrite !HsC, !HsB, !HsA by (done || lia).
      replace (x <? i + 1) with (x <? i); [done|].
      destruct (Z.ltb_spec x i), (Z.ltb_spec x (i + 1)); done || lia.
  - intros k Hk Hkp Hkd. by rewrite HkC, HkB, HkA, Hsl.
Qed.

(** A transfer out of slot [k] takes slot [k + 1] along. *)
Lemma wp_write_slot id stripe k s (Q : unit → machine D → Prop) :
  raid_page s → 0 ≤ k < DISKS → 1 ≤ id ≤ DISKS → in_device (vdisk s) id stripe →
  (∀ s', changes (λ _, False) s s' →
     (∀ id' b, block s' id' b =
        if decide (id' = id ∧ b = stripe) then slot s k ++ slot s (k + 1) else block s id' b) →
     Q tt s') →
  wp (write_block id stripe (slot_addr s k)) Q s.
Proof.
  intros Hp Hk Hid Hin HQ. pose proof (rp_lo s Hp). pose proof (rp_hi s Hp). pose proof fits_hi.
  pose proof etext_ge. apply wp_write_changes; [apply Hp|done|done| | |].
  { unfold slot_addr, BLOCKSIZE in *. solve_range. }
  { apply outside_page; unfold BLOCKSIZE, BSIZE, PGSIZE in *; [done|lia..]. }
  intros s' Hc Hb. apply HQ; [done|]. intros id' b. rewrite Hb. case_decide; [|done].
  change (Z.to_nat BSIZE) with (Z.to_nat BLOCKSIZE + Z.to_nat BLOCKSIZE)%nat.
  rewrite read_bytes_app. unfold slot. do 3 f_equal. unfold slot_addr, BLOCKSIZE. lia.
Qed.

(** A disk transfer that leaves the page as it is. *)
Lemma quiet_changes s s' :
  changes (λ _, False) s s' → raid_page s →
  raid_page s' ∧ (∀ off, 0 ≤ off → off + 4 ≤ PGSIZE → fld s' off = fld s off)
  ∧ (∀ k, 0 ≤ k ≤ DISKS → slot s' k = slot s k).
Proof.
  intros Hc Hp. split_and!.
  - eapply changes_page; [done..|]. auto.
  - intros. eapply changes_fld; [done..|]. auto.
  - intros. eapply changes_slot; [done..|]. auto.
Qed.

Lemma wp_update d a s p stripe (Q : unit → machine D → Prop) :
  raid_page s → fld s f_parity_cached = p → fld s f_cache_stripe = stripe →
  0 ≤ p < DISKS → 1 ≤ d ≤ DISKS → p ≠ d - 1 → 0 ≤ stripe < 2 ^ 31 →
  (∀ id, 1 ≤ id ≤ DISKS → in_device (vdisk s) id stripe) →
  user_buf s a BLOCKSIZE →
  (∀ s', changes (slots_area s) s s' →
     (∀ x, 0 ≤ x < BLOCKSIZE →
        sb s' p x = Z.lxor (Z.lxor (sb s p x) (sb s (d - 1) x)) (phys s !!! (a + x))
        ∧ sb s' (d - 1) x = phys s !!! (a + x)) →
     (∀ k, 0 ≤ k ≤ DISKS → k ≠ p → k ≠ d - 1 → slot s' k = slot s k) →
     (∀ id b, block s' id b =
        if decide (id = d ∧ b = stripe ∧ ¬ dead s (d - 1))
        then slot s' (d - 1) ++ slot s' d
        else if decide (id = p + 1 ∧ b = stripe ∧ ¬ dead s p)
        then slot s' p ++ slot s' (p + 1)
        else block s id b) →
     Q tt s') →
  wp (raid_write_updateparity_cache d a) Q s.
Proof.
  intros Hp Hpc Hcs Hpr Hd Hne Hst Hin Hub HQ. pose proof fits_hi.
  destruct offset_bounds as (Ho1 & Ho2 & Ho3 & Ho4). destruct (Ho4 p Hpr) as [Ho5 Ho6].
  destruct (Ho4 (d - 1)) as [Ho7 Ho8]; [lia|].
  assert (HB : BLOCKSIZE = 512) by done. assert (HP : PGSIZE = 4096) by done.
  unfold raid_write_updateparity_cache. wp_step.
  apply (wp_for_post (upd_inv s p (d - 1) a)); [done| | |].
  { split_and!; [apply changes_refl, Hp|done| |done]. intros x Hx.
    by rewrite (proj2 (Z.ltb_ge x 0)) by lia. }
  { intros i s' Hi Hinv. apply upd_step; (done || lia). }
  intros s1 (Hc1 & Hv1 & Hby & Hsl1). pose proof (slots_changes_page _ _ Hc1 Hp) as Hp1.
  assert (Hf1 : ∀ off, 0 ≤ off → off + 4 ≤ BLOCKSIZE → fld s1 off = fld s off).
  { intros. by eapply slots_changes_fld. }
  unfold f_parity_cached, f_cache_stripe in *.
  wp_step. apply wp_get_f; [done|lia..|]. rewrite Hf1, Hpc by lia.
  wp_step. apply wp_get_f; [done|lia..|]. rewrite Hf1 by lia.
  (* the parity block *)
  wp_step. eapply (wp_mono _ (λ _ s2, changes (λ _, False) s1 s2 ∧ ∀ id b, block s2 id b =
    if decide (id = p + 1 ∧ b = stripe ∧ ¬ dead s p)
    then slot s1 p ++ slot s1 (p + 1) else block s id b)).
  { wp_step. unfold dead.
    destruct (Z.eqb_spec (fld s (f_disk_state p)) DEAD) as [Hdp|Hdp]; cbn [negb].
    - apply wp_ret. split; [apply changes_refl, Hp1|]. intros id b.
      rewrite decide_False by tauto. by apply block_vdisk.
    - wp_step. apply wp_get_f; [done|lia..|]. rewrite Hf1, Hcs by lia.
      wp_step. apply wp_get_slot; [done..|]. rewrite !s32_small by lia.
      apply wp_write_slot; [done|done|lia|rewrite Hv1; apply Hin; lia|].
      intros s2 Hc2 Hb2. split; [done|]. intros id b. rewrite Hb2.
      rewrite (block_vdisk s) by done. apply if_decide_ext. tauto. }
  intros [] s2 (Hc2 & Hb2). destruct (quiet_changes _ _ Hc2 Hp1) as (Hp2 & Hf2 & Hsl2).
  assert (Hg12 : same_globals s s2)
    by (eapply same_globals_trans; [exact (ch_globals _ _ _ Hc1)|exact (ch_globals _ _ _ Hc2)]).
  assert (Hc12 : changes (slots_area s) s s2).
  { eapply changes_trans; [done|]. eapply changes_mono; [done|]. done. }
  assert (Hsb2 : ∀ k x, 0 ≤ k < DISKS → 0 ≤ x < BLOCKSIZE → sb s2 k x = sb s1 k x).
  { intros. eapply changes_sb; [done..|]. auto. }
  assert (Hby2 : ∀ x, 0 ≤ x < BLOCKSIZE →
    sb s2 p x = Z.lxor (Z.lxor (sb s p x) (sb s (d - 1) x)) (phys s !!! (a + x))
    ∧ sb s2 (d - 1) x = phys s !!! (a + x)).
  { intros x Hx. destruct (Hby x Hx) as [H1 H2].
    rewrite (proj2 (Z.ltb_lt x BLOCKSIZE)) in H1, H2 by lia.
    rewrite !Hsb2 by lia. done. }
  (* the data block *)
  wp_step. apply wp_get_f; [done|lia..|]. rewrite Hf2, Hf1 by lia.
  wp_step. unfold dead in *.
  destruct (Z.eqb_spec (fld s (f_disk_state (d - 1))) DEAD) as [Hdd|Hdd]; cbn [negb].
  - apply wp_ret. apply HQ; [done|done| |].
    + intros. rewrite Hsl2 by done. auto.
    + intros id b. rewrite decide_False by tauto. rewrite Hb2, !Hsl2 by lia. done.
  - wp_step. apply wp_get_f; [done|lia..|]. rewrite Hf2, Hf1, Hcs by lia.
    wp_step. apply wp_get_slot; [done|lia|]. rewrite !s32_small by lia.
    apply wp_write_slot; [done|lia|lia|eapply in_device_same; [done|apply Hin; lia]|].
    intros s3 Hc3 Hb3. destruct (quiet_changes _ _ Hc3 Hp2) as (Hp3 & Hf3 & Hsl3). apply HQ.
    + eapply changes_trans; [done|]. by eapply changes_mono.
    + intros x Hx. destruct (Hby2 x Hx) as [? ?].
      rewrite !(changes_sb _ _ _ _ _ Hc3 Hp2) by (done || lia). done.
    + intros. rewrite Hsl3, Hsl2 by done. auto.
    + intros id b. rewrite Hb3, Hb2, !Hsl3, !Hsl2 by lia.
      replace (d - 1 + 1) with d by lia. repeat case_decide; tauto.
Qed.

Lemma off_small off : 0 ≤ off → off + 4 ≤ f_parity_disk → off + 4 ≤ BLOCKSIZE.
Proof. destruct offset_bounds as (? & ? & _). lia. Qed.

Lemma low_offsets :
  f_type + 4 ≤ f_parity_disk ∧ f_num_of_disks + 4 ≤ f_parity_disk
  ∧ f_num_dead_disks + 4 ≤ f_parity_disk ∧ f_max_dead_disks + 4 ≤ f_parity_disk.
Proof. pose proof fits_lo. offsets. split_and!; dlia. Qed.

(** Fields below [parity_disk] agree. *)
Definition same_fields s s' : Prop :=
  ∀ off, 0 ≤ off → off + 4 ≤ f_parity_disk → fld s' off = fld s off.

Lemma same_dead s s' k : same_fields s s' → 0 ≤ k < DISKS → dead s' k ↔ dead s k.
Proof.
  intros Hf Hk. destruct offset_bounds as (_ & _ & _ & Ho).
  destruct (Ho k Hk). unfold dead. by rewrite Hf.
Qed.

Lemma slot_bytes_eq s k (l : list Z) :
  length l = Z.to_nat BLOCKSIZE →
  (∀ i, 0 ≤ i < BLOCKSIZE → sb s k i = l !!! Z.to_nat i) → slot s k = l.
Proof.
  intros Hl Hb. apply list_eq_same_length with (Z.to_nat BLOCKSIZE);
    [done|by unfold slot; rewrite length_read_bytes|].
  intros i x y Hi Hx Hy. apply list_lookup_total_correct in Hx, Hy. subst x y.
  rewrite slot_sb by done. rewrite Hb by (unfold BLOCKSIZE in *; lia). by rewrite Nat2Z.id.
Qed.

Lemma user_buf_same s s' a n : same_globals s s' → user_buf s a n → user_buf s' a n.
Proof.
  intros Hg [H1 H2 H3 H4]. split; [done..|by eapply outside_same|].
  by rewrite (same_raid_metadata _ _ Hg).
Qed.

Lemma wp_memmove_user s a k (Q : Z → machine D → Prop) :
  raid_page s → 0 ≤ k < DISKS → user_buf s a BLOCKSIZE →
  (∀ s', changes (in_range a BLOCKSIZE) s s' → vdisk s' = vdisk s →
     read_bytes (phys s') a (Z.to_nat BLOCKSIZE) = slot s k → Q a s') →
  wp (memmove a (slot_addr s k) BLOCKSIZE) Q s.
Proof.
  intros Hp Hk [H1 H2 H3 H4] HQ. pose proof (rp_lo s Hp). pose proof (rp_hi s Hp).
  pose proof fits_hi. pose proof etext_ge. destruct (rp_env s Hp) as [Em Ed Eb].
  apply wp_memmove; [done|done|unfold slot_addr, BLOCKSIZE in *; solve_range|solve_range|].
  assert (Hl : length (read_bytes (phys s) (slot_addr s k) (Z.to_nat BLOCKSIZE)) = Z.to_nat BLOCKSIZE)
    by apply length_read_bytes.
  apply HQ; [|done|].
  - split; [|by split|].
    + split; [cbn; auto|done..].
    + intros x Ho Hx. cbn. rewrite lookup_total_write_bytes, Hl, Z2Nat.id by done.
      by rewrite decide_False.
  - cbn. by apply read_write_bytes_eq.
Qed.

(** *** What an operation on a caller's buffer may change *)

Definition op_area s (a n x : Z) : Prop :=
  in_range (raid_metadata s) PGSIZE x ∨ in_range a n x.

Lemma op_trans s1 s2 s3 a n :
  changes (op_area s1 a n) s1 s2 → changes (op_area s2 a n) s2 s3 → changes (op_area s1 a n) s1 s3.
Proof.
  intros C1 C2. eapply changes_trans; [done|]. eapply changes_mono; [done|].
  unfold op_area. by rewrite (same_raid_metadata _ _ (ch_globals _ _ _ C1)).
Qed.

Lemma slots_op s s' a n : changes (slots_area s) s s' → changes (op_area s a n) s s'.
Proof.
  intros Hc. eapply changes_mono; [done|].
  unfold op_area, slots_area, in_range, BLOCKSIZE. lia.
Qed.

Lemma cache_op s s' a n : changes (cache_area s) s s' → changes (op_area s a n) s s'.
Proof.
  intros Hc. eapply changes_mono; [done|]. destruct offset_bounds as (? & ? & ? & _).
  unfold cache_area, op_area, slots_area, in_range, BLOCKSIZE, PGSIZE in *. lia.
Qed.

Lemma user_op s s' a n : changes (in_range a n) s s' → changes (op_area s a n) s s'.
Proof. intros Hc. eapply changes_mono; [done|]. intros. by right. Qed.

(** *** Arithmetic and fields under [wp] *)

Lemma wp_udiv a b (Q : Z → machine D → Prop) s : b ≠ 0 → Q (a / b) s → wp (udiv a b) Q s.
Proof. intros Hb HQ. unfold udiv. by rewrite (proj2 (Z.eqb_neq b 0) Hb). Qed.

Lemma wp_umod a b (Q : Z → machine D → Prop) s : b ≠ 0 → Q (a mod b) s → wp (umod a b) Q s.
Proof. intros Hb HQ. unfold umod. by rewrite (proj2 (Z.eqb_neq b 0) Hb). Qed.

(** Reading a field of the fixed part of the structure. *)
Lemma wp_get_low off (Q : Z → machine D → Prop) s :
  raid_page s → 0 ≤ off → off + 4 ≤ f_parity_disk → Q (fld s off) s → wp (get_f off) Q s.
Proof.
  intros Hp H1 H2 HQ. destruct offset_bounds as (? & ? & _).
  apply wp_get_f; [done..|unfold BLOCKSIZE, PGSIZE in *; lia|done].
Qed.

Lemma get_f_eq off s :
  raid_page s → 0 ≤ off → off + 4 ≤ PGSIZE → get_f off s = Done (fld s off, s).
Proof.
  intros Hp Ho1 Ho2. pose proof etext_ge. pose proof (rp_lo s Hp). pose proof (rp_hi s Hp).
  unfold get_f. erewrite bind_done by done. apply load_eq. solve_range.
Qed.
End parity.
