(* ===== verification/RaidHeader.v ===== *)
(** * The header of the metadata page as a function

    Sequences of stores to the fields of [struct raid] are followed as updates
    of a function from aligned offsets to field values. *)

From S2P Require Import Prelude Machine Kalloc BlockDev Vm Raid RaidFacts RaidParity.

Section header.
Context `{COK : ConfigOk} {FP : FitsPage C} {D : Type} `{BDL : BlockDeviceLaws D}.
Implicit Types (s : machine D) (F : Z → Z).

Definition aligned (off : Z) : Prop := 0 ≤ off ∧ off mod 4 = 0 ∧ off + 4 ≤ f_cache + 8.

Record hdr s F : Prop := {
  hd_page : raid_page s;
  hd_fld off : aligned off → fld s off = F off;
}.

(** Only the header changed. *)
Record header_only s s' : Prop := {
  ho_changes : changes (in_range (raid_metadata s) (f_cache + 8)) s s';
  ho_disk : vdisk s' = vdisk s;
}.

Lemma header_only_trans s1 s2 s3 : header_only s1 s2 → header_only s2 s3 → header_only s1 s3.
Proof.
  intros [C1 V1] [C2 V2]. split; [|congruence]. eapply changes_trans; [done|].
  by rewrite <- (same_raid_metadata _ _ (ch_globals _ _ _ C1)).
Qed.

Lemma wp_hget F off (Q : Z → machine D → Prop) s :
  hdr s F → aligned off → Q (F off) s → wp (get_f off) Q s.
Proof.
  intros [Hp Hf] Ha HQ. destruct offset_bounds as (O1 & _). pose proof Ha as (? & ? & ?).
  apply wp_get_f; [done|done|unfold BLOCKSIZE, PGSIZE in *; lia|]. by rewrite Hf.
Qed.

Lemma wp_hset F off v (Q : unit → machine D → Prop) s :
  hdr s F → aligned off →
  (∀ s', hdr s' (fupd F off (u32 v)) → header_only s s' → Q tt s') → wp (set_f off v) Q s.
Proof.
  intros [Hp Hf] Ha HQ. destruct offset_bounds as (O1 & _). pose proof Ha as (H1 & H2 & H3).
  apply wp_set_f; [done|done|unfold BLOCKSIZE, PGSIZE in *; lia|]. intros s' Hc Hv Hfo.
  destruct (field_changes s s' off) as (Hp' & _ & Hf'); [done..|].
  apply HQ; split; [done| | |done].
  - intros off' (? & ? & ?). unfold fupd. destruct (Z.eqb_spec off' off) as [->|Hne]; [done|].
    rewrite Hf' by (unfold BLOCKSIZE in *; dlia). by apply Hf.
  - eapply changes_mono; [done|]. unfold in_range. lia.
Qed.

Lemma header_only_refl s : env_ok s → header_only s s.
Proof. intros. split; [by apply changes_refl|done]. Qed.

Lemma hdr_fld s : raid_page s → hdr s (fld s).
Proof. by split. Qed.

Lemma header_op s s' a n : header_only s s' → changes (op_area s a n) s s'.
Proof.
  intros [Hc _]. eapply changes_mono; [done|]. destruct offset_bounds as (O1 & _).
  left. unfold in_range, BLOCKSIZE, PGSIZE in *. lia.
Qed.

Lemma header_block s s' id b : header_only s s' → block s' id b = block s id b.
Proof. intros [_ Hv]. unfold block. by rewrite Hv. Qed.
End header.

Ltac hdr_arith := pose proof fits_lo; pose proof fits_hi; unfold aligned, PGSIZE; offsets; dlia.

(** Run one store to the header, keeping the frame since the first; the
    resulting facts are named [Hh] and [Ho]. *)
Ltac hset :=
  try wp_step;
  lazymatch goal with
  | X : hdr ?s _, Y : header_only ?s0 ?s |- _ =>
      eapply wp_hset; [exact X|hdr_arith|];
      let s' := fresh "s" in let X' := fresh "X" in let Y' := fresh "Y" in
      intros s' X' Y'; apply (header_only_trans _ _ _ Y) in Y'; clear X Y;
      rename X' into Hh, Y' into Ho
  end.
Ltac hget := wp_step; eapply wp_hget; [eassumption|hdr_arith|].

(** Look a field up after the stores. *)
Ltac hfield := repeat first [rewrite fupd_eq | rewrite fupd_ne by hdr_arith].
