(* ===== verification/RaidSpec.v ===== *)
(** * The contract of an array, and calls of the RAID interface

    The contract of an array is a store of logical blocks: a read returns what
    the last write of that block stored.  This file holds the store, the calls
    a process makes ([read_raid], [write_raid], [disk_fail_raid] with a user
    virtual address) and the lemma that lifts a simulation of single calls to
    sequences of calls. *)

From S2P Require Import Prelude Machine Kalloc BlockDev Vm VmFacts Raid RaidFacts RaidParity.

(** ** The abstract store *)

Inductive op : Type :=
  | ORead (blkn : Z)
  | OWrite (blkn : Z) (data : list Z)
  | OFail (diskn : Z).

Record astore := AStore {
  blocks : Z → list Z;
  failed : option Z;
}.

(** Result code and the bytes delivered. *)
Definition spec_op (B : astore) (o : op) : (Z * list Z) * astore :=
  match o with
  | ORead b => ((0, blocks B b), B)
  | OWrite b data => ((0, []), AStore (fupd (blocks B) b data) (failed B))
  | OFail d => ((0, []), AStore (blocks B) (Some d))
  end.

Fixpoint spec_run (B : astore) (l : list op) : list (Z * list Z) * astore :=
  match l with
  | [] => ([], B)
  | o :: l' =>
      let '(r, B1) := spec_op B o in
      let '(rs, B2) := spec_run B1 l' in (r :: rs, B2)
  end.

Section calls.
Context `{COK : ConfigOk} {FP : FitsPage C} {D : Type} `{BDL : BlockDeviceLaws D}.
Implicit Types (s : machine D) (B : astore).

(** The caller: its page table [pt], the virtual address [va] of its buffer
    and the physical address [a] behind it; [n] bytes are transferred. *)
Context (pt va a n : Z).

(** An operation the caller issues. *)
Definition run_op (o : op) : M (machine D) (Z * list Z) :=
  match o with
  | ORead b =>
      r ← read_raid pt b va;
      l ← gets (λ s, read_bytes (phys s) a (Z.to_nat n));
      ret (r, l)
  | OWrite b data =>
      modify (λ s, set_phys (write_bytes (phys s) a data) s);;
      r ← write_raid pt b va;
      ret (r, [])
  | OFail d => r ← disk_fail_raid d; ret (r, [])
  end.

Fixpoint run (l : list op) : M (machine D) (list (Z * list Z)) :=
  match l with
  | [] => ret []
  | o :: l' => r ← run_op o; rs ← run l'; ret (r :: rs)
  end.

(** The caller's buffer is mapped, and the walk reads words that no operation
    changes. *)
Record user_map s : Prop := {
  um_va : va ≠ 0;
  um_map : ∃ pa, mapping (phys s) pt va pa ∧ a = Z.lor pa (Z.land va (PGSIZE - 1));
  um_out x : x ∈ pte_words (phys s) pt va → outside s x 8;
  um_apart x : x ∈ pte_words (phys s) pt va → ∀ y, in_range x 8 y → ¬ op_area s a n y;
}.

(** A simulation of single calls lifts to sequences. *)
Fixpoint all_ok (ok : astore → op → Prop) B (l : list op) : Prop :=
  match l with
  | [] => True
  | o :: l' => ok B o ∧ all_ok ok (spec_op B o).2 l'
  end.

Definition simulates (R : machine D → astore → Prop) B (o : op) s : Prop :=
  wp (run_op o) (λ r s', r = (spec_op B o).1 ∧ R s' (spec_op B o).2) s.

Lemma run_simulates (R : machine D → astore → Prop) ok l s B :
  (∀ s B o, R s B → ok B o → simulates R B o s) →
  R s B → all_ok ok B l →
  wp (run l) (λ rs s', rs = (spec_run B l).1 ∧ R s' (spec_run B l).2) s.
Proof.
  intros Hsim. revert s B. induction l as [|o l IH]; intros s B Hr Hall; cbn [run spec_run].
  - by apply wp_ret.
  - destruct Hall as [Ho Hl]. wp_step. eapply wp_mono; [by eapply Hsim|].
    intros r s' [-> Hr']. wp_step. eapply wp_mono; [by apply IH|].
    intros rs s'' [-> Hr'']. wp_step. destruct (spec_op B o) as [r B1]. cbn in *.
    by destruct (spec_run B1 l).
Qed.

(** ** The caller's address space *)

Lemma user_map_changes s s' : user_map s → changes (op_area s a n) s s' → user_map s'.
Proof.
  intros [Hva (pa & Hm & Ea) Ho Hx] Hc.
  assert (Hw : ∀ x, x ∈ pte_words (phys s) pt va → ld 8 (phys s') x = ld 8 (phys s) x).
  { intros x Hin. unfold ld. f_equal. eapply changes_read; [done|by apply Ho|by apply Hx]. }
  pose proof (ch_globals _ _ _ Hc) as Hg. pose proof (pte_words_frame _ _ _ _ Hw) as E.
  split; rewrite ?E; [done|exists pa; split; [by eapply mapping_frame|done]|..].
  - intros x Hin. eapply outside_same; [done|by apply Ho].
  - intros x Hin. unfold op_area. rewrite (same_raid_metadata _ _ Hg). by apply Hx.
Qed.

Lemma user_paddr_eq s : user_map s → user_paddr pt va s = Done (a, s).
Proof.
  intros [_ (pa & Hm & ->) _ _]. unfold user_paddr. by erewrite bind_done by by apply walkaddr_mapped.
Qed.

Lemma not_initialized_eq s :
  raid_page s → fld s f_raid_initialized = 1 → not_initialized s = Done (false, s).
Proof.
  intros Hp Hi. unfold not_initialized. erewrite bind_done by done.
  pose proof (rp_lo s Hp). pose proof etext_ge. unfold KERNBASE in *.
  rewrite (proj2 (Z.eqb_neq (raid_metadata s) 0)) by lia.
  erewrite bind_done by by apply get_f_eq. by rewrite Hi.
Qed.

(** The checks and the dispatch of [read_raid] and [write_raid]. *)
Lemma dispatch_eq s b t :
  raid_page s → user_map s → fld s f_raid_initialized = 1 → 0 ≤ b < 2 ^ 31 →
  b < fld s f_max_blocks → fld s f_type = t →
  read_raid pt b va s = raid_rw (u32 (Z.shiftl t 1)) b a s
  ∧ write_raid pt b va s = raid_rw (u32 (Z.shiftl t 1 + 1)) b a s.
Proof.
  intros Hp Hum Hi Hb Hmax Ht. destruct offset_bounds as (O1 & O2 & O3 & _).
  assert (Hr : rw_refused b va s = Done (false, s)).
  { unfold rw_refused. erewrite bind_done by by apply not_initialized_eq.
    rewrite (proj2 (Z.ltb_ge b 0)) by lia. erewrite bind_done by by apply get_f_eq.
    rewrite u32_small, Z.geb_leb, (proj2 (Z.leb_gt _ _)) by lia.
    by rewrite (proj2 (Z.eqb_neq va 0)) by apply (um_va _ Hum). }
  unfold read_raid, write_raid.
  split; (erewrite bind_done by exact Hr); cbv beta iota;
    (erewrite bind_done by by apply user_paddr_eq);
    (erewrite bind_done by by apply get_f_eq); by rewrite Ht.
Qed.

(** The caller fills its buffer. *)
Lemma fill_changes s (data : list Z) :
  0 ≤ n → env_ok s → length data = Z.to_nat n → bytes data →
  changes (in_range a n) s (set_phys (write_bytes (phys s) a data) s).
Proof.
  intros Hn [Em Ed Eb] Hl Hb. split; [split; [cbn; auto|done..]|by split|].
  intros x Ho Hx. cbn. rewrite lookup_total_write_bytes, Hl, Z2Nat.id by done.
  by rewrite decide_False.
Qed.

(** ** Metadata updates *)

Lemma wp_writeback s :
  raid_page s → (∀ id, 1 ≤ id ≤ DISKS → in_device (vdisk s) id 0) →
  wp writeback (λ _ s', changes (λ _, False) s s'
                  ∧ ∀ id b, b ≠ 0 → block s' id b = block s id b) s.
Proof.
  intros Hp Hin. destruct offset_bounds as (O1 & O2 & O3 & O4). pose proof fits_lo.
  assert (HB : BLOCKSIZE = 512) by done. assert (HP : PGSIZE = 4096) by done.
  pose proof (rp_lo s Hp). pose proof (rp_hi s Hp). pose proof etext_ge.
  apply (wp_for_post (λ _ s', changes (λ _, False) s s'
                        ∧ ∀ id b, b ≠ 0 → block s' id b = block s id b)); [lia| | |done].
  { split; [apply changes_refl, Hp|done]. }
  intros i s' Hi [Hc Hb]. destruct (quiet_changes _ _ Hc Hp) as (Hp' & Hf' & _).
  destruct (O4 (i - 1)) as [? ?]; [lia|]. pose proof (ch_globals _ _ _ Hc) as Hg.
  wp_step. apply wp_get_f; [done|lia..|]. wp_step. case_match; [|by apply wp_ret].
  wp_steps. rewrite (same_raid_metadata _ _ Hg).
  apply wp_write_changes; [apply Hp'|lia|eapply in_device_same; [done|apply Hin; lia]|solve_range| |].
  { eapply outside_same; [done|]. eapply outside_sub; [apply Hp|lia|unfold BSIZE; lia]. }
  intros s'' Hc' Hb'. split; [by eapply changes_trans|]. intros id b Hne. rewrite Hb'.
  rewrite decide_False by tauto. by apply Hb.
Qed.

(** A store to one of the low fields keeps the cache. *)
Lemma low_field_changes s s' off :
  0 ≤ off → off + 4 ≤ f_parity_disk → raid_page s →
  changes (in_range (raid_metadata s + off) 4) s s' → vdisk s' = vdisk s →
  raid_page s' ∧ changes (op_area s a n) s s'
  ∧ (∀ off', 0 ≤ off' → off' + 4 ≤ BLOCKSIZE → off' + 4 ≤ off ∨ off + 4 ≤ off' →
       fld s' off' = fld s off')
  ∧ (∀ k, 0 ≤ k ≤ DISKS → slot s' k = slot s k)
  ∧ (∀ id b, block s' id b = block s id b).
Proof.
  intros H1 H2 Hp Hc Hv. destruct offset_bounds as (O1 & O2 & O3 & O4).
  destruct (field_changes s s' off) as (Hp' & Hs' & Hf'); [lia..|done|done|].
  split_and!; [done| |done|done|intros; by apply block_vdisk].
  eapply changes_mono; [done|]. left. unfold in_range, BLOCKSIZE, PGSIZE in *. lia.
Qed.
End calls.
