(* ===== verification/RaidStripe.v ===== *)
(** * RAID 4 and RAID 5 against the logical contents of the disks

    [store_ok s A] relates the state to a logical content [A stripe disk] of
    every disk.  A live disk holds its content in the first half of its block; a
    dead one (at most one) is determined by the parity equation.  The second
    half of the parity block repeats the content of the next disk, which is what
    a later transfer of the parity block into the cache deposits in that disk's
    slot. *)

From S2P Require Import Prelude Machine Kalloc BlockDev Vm Raid RaidFacts RaidParity.

Section stripe.
Context `{COK : ConfigOk} {FP : FitsPage C} {D : Type} `{BDL : BlockDeviceLaws D}.
(** The parity index of a stripe and the number of usable stripes. *)
Context (pf : Z → Z) (maxst : Z).
Implicit Types (s : machine D) (A : Z → Z → list Z).

Definition in_stripes (st : Z) : Prop := 1 ≤ st ≤ maxst.

(** Logical contents: 512 bytes each, every stripe xors to zero. *)
Record content_ok A : Prop := {
  co_len st k : length (A st k) = Z.to_nat BLOCKSIZE;
  co_xor st i : in_stripes st → 0 ≤ i < BLOCKSIZE →
    xsum (Z.to_nat DISKS) (λ k, A st k !!! Z.to_nat i) = 0;
}.

(** The metadata a parity array runs on. *)
Record array_ok s : Prop := {
  ar_page : raid_page s;
  ar_layout : parity_layout s;
  ar_raid4 : fld s f_type = RAID4 → ∀ st, pf st = DISKS - 1;
  ar_alive : fld s f_num_dead_disks < fld s f_max_dead_disks;
  ar_single k k' : 0 ≤ k < DISKS → 0 ≤ k' < DISKS → dead s k → dead s k' → k = k';
  ar_max : maxst < 2 ^ 31 - 1;
  ar_pf st : in_stripes st → 0 ≤ pf st < DISKS;
  ar_device id st : 1 ≤ id ≤ DISKS → in_stripes st → in_device (vdisk s) id st;
  ar_meta id : 1 ≤ id ≤ DISKS → in_device (vdisk s) id 0;
}.

Record store_ok s A : Prop := {
  so_array : array_ok s;
  so_content : content_ok A;
  so_disk st k : in_stripes st → 0 ≤ k < DISKS → ¬ dead s k →
    fst_half (block s (k + 1) st) = A st k;
  so_tail st : in_stripes st → pf st + 1 < DISKS → ¬ dead s (pf st) →
    snd_half (block s (pf st + 1) st) = A st (pf st + 1);
}.

(** The slots hold stripe [st]: live disks, and the one behind the parity. *)
Definition cached_at s A st : Prop :=
  in_stripes st ∧ fld s f_cache_stripe = st ∧ fld s f_parity_cached = pf st
  ∧ ∀ k, 0 ≤ k < DISKS → ¬ dead s k ∨ (k = pf st + 1 ∧ ¬ dead s (pf st)) → slot s k = A st k.

Definition cache_ok s A : Prop :=
  fld s f_cache_stripe = NONE ∨ ∃ st, cached_at s A st.

Lemma array_frame s s' :
  array_ok s → raid_page s' → same_globals s s' → same_fields s s' →
  (fld s f_type = RAID4 → fld s' f_parity_disk = DISKS - 1) → array_ok s'.
Proof.
  intros [Hp HL H4 Hal Hsi Hmax Hpf Hdev Hmeta] Hp' Hg Hf H4'.
  destruct low_offsets as (L1 & L2 & L3 & L4).
  assert (Et : fld s' f_type = fld s f_type) by by apply Hf.
  assert (En : fld s' f_num_of_disks = fld s f_num_of_disks) by by apply Hf.
  split; [done| | | | |done|done| |].
  - destruct HL as [(? & ? & _)|(? & ?)]; [left|right]; rewrite Et, En; auto.
  - by rewrite Et.
  - rewrite !Hf by done. done.
  - intros k k' ??. rewrite !(same_dead s s') by done. by apply Hsi.
  - intros. eapply in_device_same; [done|by apply Hdev].
  - intros. eapply in_device_same; [done|by apply Hmeta].
Qed.

Lemma store_frame s s' A :
  store_ok s A → array_ok s' → same_fields s s' →
  (∀ id b, block s' id b = block s id b) → store_ok s' A.
Proof.
  intros [Ha Hco Hd Ht] Ha' Hf Hb. split; [done|done|..].
  - intros st k ???. rewrite Hb. apply Hd; [done..|]. by rewrite <- (same_dead s s').
  - intros st Hst Hlt Hnd. rewrite Hb. apply Ht; [done..|].
    rewrite <- (same_dead s s'); [done..|]. by apply (ar_pf s').
Qed.

(** The number of disks the loops cover, and the parity disk beyond them. *)
Lemma array_num s : array_ok s →
  0 ≤ fld s f_num_of_disks ≤ DISKS
  ∧ ∀ st k, 0 ≤ k < DISKS → k < fld s f_num_of_disks ∨ k = pf st.
Proof.
  intros [_ HL H4 _ _ _ _ _ _]. pose proof fits_lo.
  destruct HL as [(Ht & -> & _)|(_ & ->)]; (split; [lia|]); intros st k Hk; [|lia].
  rewrite (H4 Ht st). lia.
Qed.

(** Loading a stripe. *)
Lemma wp_load_stripe s A st :
  store_ok s A → in_stripes st →
  wp (cache st (pf st)) (λ _ s', store_ok s' A ∧ cached_at s' A st
                           ∧ changes (cache_area s) s s' ∧ same_fields s s') s.
Proof.
  intros Hs Hst. pose proof (so_array _ _ Hs) as Ha. pose proof (ar_page _ Ha) as Hp.
  destruct (array_num s Ha) as [Hn1 Hn2]. pose proof (ar_pf _ Ha st Hst) as Hpf.
  pose proof (ar_max _ Ha) as Hmx. destruct Hst as [Hst1 Hst2].
  apply wp_cache; [done|done|done|lia|intros; by apply (ar_device _ Ha)|].
  intros s' Hc Hb Hcs Hpc Hpd [Hf1 Hf2].
  assert (Hsf : same_fields s s') by (intros off ??; by eapply cache_changes_fld).
  assert (Ha' : array_ok s').
  { eapply array_frame; [done|by eapply cache_changes_page|apply (ch_globals _ _ _ Hc)|done|].
    intros H4. rewrite Hpd. by apply (ar_raid4 _ Ha). }
  split_and!; [by eapply store_frame| |done|done].
  split_and!; [done..|]. intros k Hk Hor.
  rewrite !(same_dead s s') in Hor by done.
  destruct (decide (k = pf st + 1 ∧ ¬ dead s (pf st))) as [[-> Hnd]|Hne].
  - rewrite Hf2 by done. apply (so_tail _ _ Hs); [done|lia|done].
  - rewrite Hf1; [|done|by apply Hn2| |done]; [apply (so_disk _ _ Hs); [done..|]|]; tauto.
Qed.

(** Changes inside the slots keep everything but the cache. *)
Lemma slots_array s s' :
  array_ok s → changes (slots_area s) s s' →
  array_ok s' ∧ same_fields s s' ∧ fld s' f_cache_stripe = fld s f_cache_stripe
  ∧ fld s' f_parity_cached = fld s f_parity_cached.
Proof.
  intros Ha Hc. pose proof (ar_page _ Ha) as Hp.
  destruct offset_bounds as (Ho1 & Ho2 & Ho3 & _).
  assert (Hlow : ∀ off, 0 ≤ off → off + 4 ≤ BLOCKSIZE → fld s' off = fld s off).
  { intros. by eapply slots_changes_fld. }
  assert (Hsf : same_fields s s') by (intros off ??; apply Hlow; [done|by apply off_small]).
  split_and!; [|done|apply Hlow; unfold f_cache_stripe; lia|apply Hlow; unfold f_parity_cached; lia].
  eapply array_frame; [done|by eapply slots_changes_page|apply (ch_globals _ _ _ Hc)|done|].
  intros H4. rewrite Hlow by lia. destruct (ar_layout _ Ha) as [(_ & _ & ?)|(H5 & _)]; [done|].
  rewrite H5 in H4. done.
Qed.

(** Reconstruction of a dead disk in the cache. *)
Lemma wp_reconstruct s A st d :
  store_ok s A → cached_at s A st → 1 ≤ d ≤ fld s f_num_of_disks → dead s (d - 1) →
  wp (raid_tocache_recovery d)
     (λ _ s', store_ok s' A ∧ cached_at s' A st ∧ slot s' (d - 1) = A st (d - 1)
              ∧ changes (cache_area s) s s' ∧ same_fields s s') s.
Proof.
  intros Hs (Hst & Hcs & Hpc & Hsl) Hd Hdead.
  pose proof (so_array _ _ Hs) as Ha. pose proof (ar_page _ Ha) as Hp.
  destruct (array_num s Ha) as [Hn1 _].
  apply wp_recovery; [done|apply (ar_layout _ Ha)|done|]. intros s' Hc Hv Hby.
  assert (Hrec : slot s' (d - 1) = A st (d - 1)).
  { apply slot_bytes_eq; [by rewrite (co_len _ (so_content _ _ Hs))|].
    intros i Hi. rewrite Hby by done.
    unfold rec_byte, lost. transitivity (xsum (Z.to_nat DISKS)
      (fupd (λ k, A st k !!! Z.to_nat i) (d - 1) 0)).
    - apply xsum_ext. intros k Hk. unfold fupd. destruct (Z.eqb_spec k (d - 1)) as [|Hne]; [done|].
      replace (sb s k i) with (slot s k !!! Z.to_nat i)
        by (rewrite slot_sb, Z2Nat.id by (unfold BLOCKSIZE in *; lia); done).
      rewrite Hsl; [done|lia|].
      left. intros Hk'. apply Hne. eapply (ar_single _ Ha); [lia|lia|done..].
    - rewrite xsum_recover; [done|lia|]. by apply (co_xor _ (so_content _ _ Hs)). }
  assert (Hca : changes (slots_area s) s s') by (eapply changes_slot_area; [|done]; lia).
  destruct (slots_array s s' Ha Hca) as (Ha' & Hsf & E1 & E2).
  split_and!; [| |done| |done].
  - eapply store_frame; [done..|]. intros. by apply block_vdisk.
  - split_and!; [done|congruence..|]. intros k Hk Hor.
    rewrite !(same_dead s s') in Hor by (done || by apply (ar_pf _ Ha)).
    destruct (decide (k = d - 1)) as [->|Hne]; [done|]. rewrite <- Hsl by done.
    apply (changes_slot _ _ _ k Hc Hp); [lia|]. unfold in_range, slot_addr, BLOCKSIZE. lia.
  - eapply changes_mono; [done|]. intros. by left.
Qed.

(** *** Delivering a block to the caller *)

(** Writing the caller's buffer leaves the array alone. *)
Lemma user_frame s s' A a :
  store_ok s A → user_buf s a BLOCKSIZE →
  changes (in_range a BLOCKSIZE) s s' → vdisk s' = vdisk s →
  store_ok s' A ∧ same_fields s s' ∧ fld s' f_cache_stripe = fld s f_cache_stripe
  ∧ ∀ st, cached_at s A st → cached_at s' A st.
Proof.
  intros Hs [_ _ _ Hub] Hc Hv.
  pose proof (so_array _ _ Hs) as Ha. pose proof (ar_page _ Ha) as Hp.
  destruct offset_bounds as (Ho1 & Ho2 & Ho3 & _).
  assert (HB : BLOCKSIZE = 512) by done. assert (HP : PGSIZE = 4096) by done.
  assert (Hlow : ∀ off, 0 ≤ off → off + 4 ≤ BLOCKSIZE → fld s' off = fld s off).
  { intros. eapply changes_fld; [done..|lia|]. unfold in_range. lia. }
  assert (Hsf : same_fields s s') by (intros off ??; apply Hlow; [done|by apply off_small]).
  pose proof (ch_globals _ _ _ Hc) as Hg.
  split_and!; [|done|apply Hlow; unfold f_cache_stripe; lia|].
  - eapply store_frame; [done| |done|intros; by apply block_vdisk].
    eapply array_frame; [done| |done|done|].
    + eapply changes_page; [done..|]. intros i x Hi. pose proof sizeof_raid_le.
      unfold sizeof_raid, f_cached_data_disks, in_range in *. lia.
    + intros H4. rewrite Hlow by lia. destruct (ar_layout _ Ha) as [(_ & _ & ?)|(H5 & _)]; [done|].
      rewrite H5 in H4. done.
  - intros st (Hst & Hcs & Hpc & Hsl).
    split_and!; [done|rewrite Hlow; [done|unfold f_cache_stripe; lia..]
                |rewrite Hlow; [done|unfold f_parity_cached; lia..]|].
    intros k Hk Hor. rewrite !(same_dead s s') in Hor by (done || by apply (ar_pf _ Ha)).
    rewrite <- Hsl by done. eapply changes_slot; [done..|lia|].
    pose proof fits_hi. unfold in_range, slot_addr. lia.
Qed.

Lemma wp_deliver s A st d a :
  store_ok s A → cached_at s A st → 1 ≤ d ≤ fld s f_num_of_disks → user_buf s a BLOCKSIZE →
  wp (v ← get_f (f_disk_state (d - 1));
      when (v =? DEAD) (raid_tocache_recovery d);;
      slot ← get_slot (d - 1);
      memmove a slot BLOCKSIZE;;
      ret 0)
     (λ r s', r = 0 ∧ store_ok s' A ∧ cached_at s' A st ∧ changes (op_area s a BLOCKSIZE) s s' ∧ same_fields s s'
              ∧ read_bytes (phys s') a (Z.to_nat BLOCKSIZE) = A st (d - 1)) s.
Proof.
  intros Hs Hca Hd Hub. pose proof (so_array _ _ Hs) as Ha. pose proof (ar_page _ Ha) as Hp.
  destruct (array_num s Ha) as [Hn _]. destruct offset_bounds as (Ho1 & Ho2 & Ho3 & Ho4).
  destruct (Ho4 (d - 1)) as [? ?]; [lia|].
  wp_step. apply wp_get_f; [done|done|unfold BLOCKSIZE, PGSIZE in *; lia|].
  wp_step. eapply (wp_mono _ (λ _ s1, store_ok s1 A ∧ cached_at s1 A st ∧ changes (op_area s a BLOCKSIZE) s s1
    ∧ same_fields s s1 ∧ slot s1 (d - 1) = A st (d - 1))).
  { wp_step. destruct (Z.eqb_spec (fld s (f_disk_state (d - 1))) DEAD) as [Hdd|Hdd].
    - eapply wp_mono; [by apply (wp_reconstruct s A st d)|].
      intros [] s1 (Hs1 & Hc1 & Hsl & Hch & Hsf). split_and!; try done. by apply cache_op.
    - apply wp_ret. split_and!; [done|done|apply changes_refl, Hp|done|].
      destruct Hca as (_ & _ & _ & Hsl). apply Hsl; [lia|by left]. }
  intros [] s1 (Hs1 & Hc1 & Hch1 & Hf1 & Hsl1). pose proof (ch_globals _ _ _ Hch1) as Hg1.
  pose proof (ar_page _ (so_array _ _ Hs1)) as Hp1.
  wp_step. apply wp_get_slot; [done|lia|]. wp_step.
  apply wp_memmove_user; [done|lia|by eapply user_buf_same|]. intros s2 Hc2 Hv2 Hrd. wp_step.
  destruct (user_frame s1 s2 A a) as (Hs2 & Hf2 & _ & Hca2);
    [done|by eapply user_buf_same|done|done|].
  split_and!; [done|done|by apply Hca2| | |by rewrite Hrd].
  { eapply op_trans; [done|by apply user_op]. }
  intros off ??. rewrite Hf2, Hf1 by done. done.
Qed.

(** *** Committing a write *)

(** The contents after a write of [data] to disk [k] of stripe [st]. *)
Definition new_parity A st k (data : list Z) : list Z :=
  zip_with Z.lxor (zip_with Z.lxor (A st (pf st)) (A st k)) data.
Definition write_content A st k (data : list Z) : Z → Z → list Z :=
  fupd A st (fupd (fupd (A st) k data) (pf st) (new_parity A st k data)).

Lemma write_content_other A st k data st' : st' ≠ st → write_content A st k data st' = A st'.
Proof. intros. by apply fupd_ne. Qed.

Lemma write_content_data A st k data : k ≠ pf st → write_content A st k data st k = data.
Proof. intros. unfold write_content. by rewrite fupd_eq, fupd_ne, fupd_eq. Qed.

Lemma write_content_parity A st k data :
  write_content A st k data st (pf st) = new_parity A st k data.
Proof. unfold write_content. by rewrite !fupd_eq. Qed.

Lemma write_content_rest A st k data k' :
  k' ≠ k → k' ≠ pf st → write_content A st k data st k' = A st k'.
Proof. intros. unfold write_content. by rewrite fupd_eq, !fupd_ne. Qed.

Lemma length_new_parity A st k data :
  content_ok A → length data = Z.to_nat BLOCKSIZE →
  length (new_parity A st k data) = Z.to_nat BLOCKSIZE.
Proof.
  intros [Hl _] Hd. unfold new_parity. rewrite !length_zip_with, !Hl, Hd. lia.
Qed.

Lemma lookup_new_parity A st k data (i : nat) :
  content_ok A → length data = Z.to_nat BLOCKSIZE → (i < Z.to_nat BLOCKSIZE)%nat →
  new_parity A st k data !!! i
    = Z.lxor (Z.lxor (A st (pf st) !!! i) (A st k !!! i)) (data !!! i).
Proof.
  intros [Hl _] Hd Hi. apply list_lookup_total_correct. unfold new_parity.
  rewrite lookup_zip_with.
  rewrite lookup_zip_with, !(list_lookup_lookup_total_lt _ i) by (rewrite ?Hl, ?Hd; lia). done.
Qed.

Lemma content_write A st k data :
  content_ok A → in_stripes st → 0 ≤ pf st < DISKS → 0 ≤ k < DISKS → k ≠ pf st →
  length data = Z.to_nat BLOCKSIZE → content_ok (write_content A st k data).
Proof.
  intros Hco Hst Hp Hk Hne Hd. pose proof Hco as [Hl Hx]. split.
  - intros st' k'. unfold write_content, fupd. repeat case_match; auto using length_new_parity.
  - intros st' i Hst' Hi. destruct (decide (st' = st)) as [->|Hne'].
    + rewrite <- (xsum_parity_update (Z.to_nat DISKS) (λ k, A st k !!! Z.to_nat i) (pf st) k
                   (data !!! Z.to_nat i)); [|lia|lia|done|by apply Hx].
      apply xsum_ext. intros j Hj. unfold write_content, fupd. rewrite Z.eqb_refl.
      destruct (Z.eqb_spec j (pf st)); [|by destruct (Z.eqb_spec j k)].
      apply lookup_new_parity; [done..|]. unfold BLOCKSIZE in *. lia.
    + rewrite write_content_other by done. by apply Hx.
Qed.

(** The state after the parity update, expressed with slots. *)
Lemma wp_commit s A st d a :
  store_ok s A → cached_at s A st → 1 ≤ d ≤ fld s f_num_of_disks → d - 1 ≠ pf st →
  slot s (d - 1) = A st (d - 1) → user_buf s a BLOCKSIZE →
  wp (raid_write_updateparity_cache d a)
     (λ _ s', let A' := write_content A st (d - 1) (read_bytes (phys s) a (Z.to_nat BLOCKSIZE)) in
              store_ok s' A' ∧ cached_at s' A' st ∧ changes (op_area s a BLOCKSIZE) s s'
              ∧ same_fields s s') s.
Proof.
  intros Hs (Hst & Hcs & Hpc & Hsl) Hd Hne Hval Hub.
  pose proof (so_array _ _ Hs) as Ha. pose proof (ar_page _ Ha) as Hp.
  pose proof (ar_pf _ Ha st Hst) as Hpf. destruct (array_num s Ha) as [Hn _].
  pose proof (ar_max _ Ha) as Hmx. set (data := read_bytes (phys s) a (Z.to_nat BLOCKSIZE)).
  assert (Hdl : length data = Z.to_nat BLOCKSIZE) by apply length_read_bytes.
  apply (wp_update d a s (pf st) st); try done; [lia|unfold in_stripes in Hst; lia| |].
  { intros. by apply (ar_device _ Ha). }
  intros s' Hc Hby Hrest Hblk. cbv zeta. set (A' := write_content A st (d - 1) data).
  destruct (slots_array s s' Ha Hc) as (Ha' & Hsf & E1 & E2).
  (* the slots hold the new contents *)
  assert (F1 : slot s' (d - 1) = A' st (d - 1)).
  { unfold A'. rewrite write_content_data by done. apply slot_bytes_eq; [done|].
    intros i Hi. rewrite (proj2 (Hby i Hi)). unfold data.
    rewrite lookup_total_read_bytes by (unfold BLOCKSIZE in *; lia). f_equal. lia. }
  assert (F2 : ¬ dead s (pf st) → slot s' (pf st) = A' st (pf st)).
  { intros Hnd. unfold A'. rewrite write_content_parity.
    apply slot_bytes_eq; [by apply length_new_parity, Hdl; apply (so_content _ _ Hs)|].
    intros i Hi. rewrite (proj1 (Hby i Hi)).
    rewrite lookup_new_parity by (done || apply (so_content _ _ Hs) || unfold BLOCKSIZE in *; lia).
    rewrite <- (Hsl (pf st)), <- Hval by (done || by left).
    rewrite !slot_sb by (unfold BLOCKSIZE in *; lia). unfold data.
    rewrite lookup_total_read_bytes by (unfold BLOCKSIZE in *; lia).
    rewrite !Z2Nat.id by lia. done. }
  assert (F3 : ∀ k, 0 ≤ k < DISKS → ¬ dead s k ∨ (k = pf st + 1 ∧ ¬ dead s (pf st)) →
               slot s' k = A' st k).
  { intros k Hk Hor. destruct (decide (k = d - 1)) as [->|Hkd]; [done|].
    destruct (decide (k = pf st)) as [->|Hkp]; [apply F2; destruct Hor; [done|lia]|].
    unfold A'. rewrite write_content_rest, Hrest by (done || lia). by apply Hsl. }
  assert (HL : ∀ k, length (slot s' k) = Z.to_nat BLOCKSIZE) by (intros; apply length_read_bytes).
  split_and!; [|split_and!; [done|congruence..|]|by apply slots_op|done].
  2: { intros k Hk Hor. rewrite !(same_dead s s') in Hor by done. by apply F3. }
  split; [done|apply content_write; (done || apply (so_content _ _ Hs) || lia)|..].
  - intros st' k Hst' Hk Hnd. rewrite (same_dead s s') in Hnd by done. rewrite Hblk.
    destruct (decide (st' = st)) as [->|Hst''].
    + case_decide as Hd1; [|case_decide as Hd2].
      * replace (slot s' (d - 1)) with (slot s' k) by (f_equal; lia).
        unfold fst_half. rewrite take_app_length' by done. apply F3; [done|by left].
      * replace (slot s' (pf st)) with (slot s' k) by (f_equal; lia).
        unfold fst_half. rewrite take_app_length' by done. apply F3; [done|by left].
      * unfold A'. rewrite write_content_rest; [by apply (so_disk _ _ Hs)|..].
        -- intros ->. apply Hd1. split_and!; [lia|done|done].
        -- intros ->. by apply Hd2.
    + rewrite !decide_False by tauto. unfold A'. rewrite write_content_other by done.
      by apply (so_disk _ _ Hs).
  - intros st' Hst' Hlt Hnd. pose proof (ar_pf _ Ha st' Hst') as Hpf'.
    rewrite (same_dead s s') in Hnd by done. rewrite Hblk.
    destruct (decide (st' = st)) as [->|Hst''].
    + rewrite decide_False, decide_True by (done || lia).
      unfold snd_half. rewrite drop_app_length' by done. apply F3; [lia|by right].
    + rewrite !decide_False by tauto. unfold A'. rewrite write_content_other by done.
      by apply (so_tail _ _ Hs).
Qed.

(** *** The two ways through the cache *)

Lemma cache_hit s A st :
  cache_ok s A → in_stripes st → maxst < 2 ^ 31 - 1 → fld s f_cache_stripe = u32 st →
  cached_at s A st.
Proof.
  intros [Hn|(st' & Hca)] Hst Hmx Hcs; unfold in_stripes in *; rewrite u32_small in Hcs by lia.
  - rewrite Hn in Hcs. unfold NONE in *. lia.
  - assert (st' = st) as <- by (destruct Hca as (_ & ? & _); congruence). done.
Qed.

Lemma wp_read_miss s A st d a :
  store_ok s A → in_stripes st → 1 ≤ d ≤ fld s f_num_of_disks → user_buf s a BLOCKSIZE →
  wp (cache st (pf st);;
      v ← get_f (f_disk_state (d - 1));
      when (v =? DEAD) (raid_tocache_recovery d);;
      slot ← get_slot (d - 1);
      memmove a slot BLOCKSIZE;;
      ret 0)
     (λ r s', r = 0 ∧ store_ok s' A ∧ cached_at s' A st ∧ changes (op_area s a BLOCKSIZE) s s' ∧ same_fields s s'
              ∧ read_bytes (phys s') a (Z.to_nat BLOCKSIZE) = A st (d - 1)) s.
Proof.
  intros Hs Hst Hd Hub. destruct low_offsets as (_ & ? & _).
  wp_step. eapply wp_mono; [by apply wp_load_stripe|].
  intros [] s1 (Hs1 & Hc1 & Hch1 & Hf1). pose proof (ch_globals _ _ _ Hch1) as Hg1.
  eapply wp_mono; [apply (wp_deliver s1 A st d a); [done..| |by eapply user_buf_same]|].
  { by rewrite Hf1. }
  intros r s2 (-> & Hs2 & Hc2 & Hg2 & Hf2 & Hrd). split_and!; try done.
  - eapply op_trans; [by apply cache_op|done].
  - intros off ??. rewrite Hf2, Hf1; done.
Qed.

Lemma wp_write_miss s A st d a :
  store_ok s A → in_stripes st → 1 ≤ d ≤ fld s f_num_of_disks → d - 1 ≠ pf st →
  user_buf s a BLOCKSIZE →
  wp (cache st (pf st);;
      v ← get_f (f_disk_state (d - 1));
      when (v =? DEAD) (raid_tocache_recovery d);;
      raid_write_updateparity_cache d a;;
      ret 0)
     (λ r s', let A' := write_content A st (d - 1) (read_bytes (phys s) a (Z.to_nat BLOCKSIZE)) in
              r = 0 ∧ store_ok s' A' ∧ cached_at s' A' st ∧ changes (op_area s a BLOCKSIZE) s s'
              ∧ same_fields s s') s.
Proof.
  intros Hs Hst Hd Hne Hub. destruct low_offsets as (_ & ? & _).
  destruct (array_num s (so_array _ _ Hs)) as [Hn _].
  destruct offset_bounds as (Ho1 & Ho2 & Ho3 & Ho4). destruct (Ho4 (d - 1)) as [? ?]; [lia|].
  wp_step. eapply wp_mono; [by apply wp_load_stripe|].
  intros [] s1 (Hs1 & Hc1 & Hch1 & Hf1). pose proof (ch_globals _ _ _ Hch1) as Hg1.
  wp_step. apply wp_get_f; [apply (so_array _ _ Hs1)|done|unfold BLOCKSIZE, PGSIZE in *; lia|].
  wp_step. eapply (wp_mono _ (λ _ s2, store_ok s2 A ∧ cached_at s2 A st
    ∧ changes (cache_area s1) s1 s2 ∧ same_fields s1 s2 ∧ slot s2 (d - 1) = A st (d - 1))).
  { wp_step. destruct (Z.eqb_spec (fld s1 (f_disk_state (d - 1))) DEAD) as [Hdd|Hdd].
    - eapply wp_mono; [apply (wp_reconstruct s1 A st d); [done|done|by rewrite Hf1|done]|].
      intros [] s2 (Hs2 & Hc2 & Hsl & Hch & Hsf). by split_and!.
    - apply wp_ret. split_and!; [done|done| |done|].
      + apply changes_refl, (rp_env _ (ar_page _ (so_array _ _ Hs1))).
      + destruct Hc1 as (_ & _ & _ & Hsl). apply Hsl; [lia|by left]. }
  intros [] s2 (Hs2 & Hc2 & Hch2 & Hf2 & Hsl2). pose proof (ch_globals _ _ _ Hch2) as Hg2.
  assert (Hg : same_globals s s2) by by eapply same_globals_trans.
  assert (Hdata : read_bytes (phys s2) a (Z.to_nat BLOCKSIZE) = read_bytes (phys s) a (Z.to_nat BLOCKSIZE)).
  { rewrite (same_cache_area _ _ Hg1) in Hch2. pose proof (changes_trans _ _ _ _ Hch1 Hch2) as Hch.
    eapply changes_read; [done|apply Hub|]. intros x Hx HW. destruct Hub as [_ _ _ Hub].
    unfold cache_area, slots_area, in_range, BLOCKSIZE, PGSIZE in *. lia. }
  wp_step. eapply wp_mono; [apply (wp_commit s2 A st d a); [done..| |done|done|by eapply user_buf_same]|].
  { by rewrite Hf2, Hf1. }
  rewrite Hdata. intros [] s3 (Hs3 & Hc3 & Hg3 & Hf3). wp_step. split_and!; try done.
  - eapply op_trans; [by apply cache_op|]. eapply op_trans; [by apply cache_op|done].
  - intros off ??. rewrite Hf3, Hf2, Hf1; done.
Qed.
End stripe.
