(* ===== verification/RaidLevels.v ===== *)
(** * RAID 4 and RAID 5 as one interface

    A parity level is a way to place logical blocks and a pair of routines.
    [ParityLevelLaws] states what the routines promise about the logical
    contents; RAID 4 and RAID 5 discharge it.  The theorems about sequences of
    operations (RaidTrace.v) are proved against the interface. *)

From S2P Require Import Prelude Machine Kalloc BlockDev Vm Raid RaidFacts RaidParity RaidStripe.

Class ParityLevel `{C : Config} (D : Type) {BD : BlockDevice D} := {
  pl_type : Z;
  pl_pf : Z → Z;           (* parity index of a stripe *)
  pl_stripe : Z → Z;       (* stripe of a logical block *)
  pl_disk : Z → Z;         (* data disk index of a logical block *)
  pl_read : Z → Z → M (machine D) Z;
  pl_write : Z → Z → M (machine D) Z;
}.

Section levels.
Context `{COK : ConfigOk} {FP : FitsPage C} {D : Type} `{BDL : BlockDeviceLaws D}.
Implicit Types (s : machine D) (A : Z → Z → list Z).

(** The array runs at this level, its disks and cache hold [A]. *)
Record level_ok {PL : ParityLevel D} (maxst : Z) s A : Prop := {
  lv_type : fld s f_type = pl_type;
  lv_store : store_ok pl_pf maxst s A;
  lv_cache : cache_ok pl_pf maxst s A;
}.

Definition valid_blkn {PL : ParityLevel D} (maxst blkn : Z) : Prop :=
  0 ≤ blkn < 2 ^ 31 ∧ pl_stripe blkn ≤ maxst.

(** A write may use the cached copy of its block only when that copy was
    filled: the disk is alive, or the stripe is not the cached one, or the
    slot was filled along with the parity block. *)
Definition write_safe {PL : ParityLevel D} s blkn : Prop :=
  ¬ dead s (pl_disk blkn) ∨ fld s f_cache_stripe ≠ pl_stripe blkn
  ∨ (pl_disk blkn = pl_pf (pl_stripe blkn) + 1 ∧ ¬ dead s (pl_pf (pl_stripe blkn))).
End levels.

Class ParityLevelLaws `{COK : ConfigOk} {FP : FitsPage C} (D : Type)
    {BD : BlockDevice D} {BDL : BlockDeviceLaws D} (PL : ParityLevel D) : Prop := {
  pl_stripe_pos blkn : 0 ≤ blkn → 1 ≤ pl_stripe blkn;
  pl_disk_range blkn : 0 ≤ blkn → 0 ≤ pl_disk blkn < DISKS;
  pl_disk_data blkn : 0 ≤ blkn → pl_disk blkn ≠ pl_pf (pl_stripe blkn);
  pl_place_inj b b' : 0 ≤ b → 0 ≤ b' →
    pl_stripe b = pl_stripe b' → pl_disk b = pl_disk b' → b = b';
  pl_read_ok maxst s A blkn a :
    level_ok maxst s A → valid_blkn maxst blkn → user_buf s a BLOCKSIZE →
    wp (pl_read blkn a) (λ r s', r = 0 ∧ level_ok maxst s' A
      ∧ read_bytes (phys s') a (Z.to_nat BLOCKSIZE) = A (pl_stripe blkn) (pl_disk blkn)
      ∧ changes (op_area s a BLOCKSIZE) s s' ∧ same_fields s s') s;
  pl_write_ok maxst s A blkn a :
    level_ok maxst s A → valid_blkn maxst blkn → user_buf s a BLOCKSIZE → write_safe s blkn →
    wp (pl_write blkn a) (λ r s', r = 0
      ∧ level_ok maxst s' (write_content pl_pf A (pl_stripe blkn) (pl_disk blkn)
                             (read_bytes (phys s) a (Z.to_nat BLOCKSIZE)))
      ∧ changes (op_area s a BLOCKSIZE) s s' ∧ same_fields s s') s;
  pl_refused s blkn a :
    raid_page s → fld s f_max_dead_disks ≤ fld s f_num_dead_disks →
    pl_read blkn a s = Done (-1, s) ∧ pl_write blkn a s = Done (-1, s);
  pl_kind : (pl_type = RAID4 ∧ ∀ st, pl_pf st = DISKS - 1) ∨ pl_type = RAID5;
  pl_pf_range st : 0 ≤ pl_pf st < DISKS;
  pl_stripe_bound blkn : 0 ≤ blkn → blkn < (DISKS - 1) * pl_stripe blkn;
  pl_table :
    raid_rw (u32 (Z.shiftl pl_type 1)) = pl_read ∧ raid_rw (u32 (Z.shiftl pl_type 1 + 1)) = pl_write;
}.

Section instances.
Context `{COK : ConfigOk} {FP : FitsPage C} {D : Type} `{BDL : BlockDeviceLaws D}.
Implicit Types (s : machine D) (A : Z → Z → list Z).

(** The refusal test both levels start with. *)
Lemma refused_eq s (k : M (machine D) Z) :
  raid_page s → fld s f_max_dead_disks ≤ fld s f_num_dead_disks →
  (dead ← get_f f_num_dead_disks; max_dead ← get_f f_max_dead_disks;
   if dead >=? max_dead then ret (-1) else k) s = Done (-1, s).
Proof.
  intros Hp Hd. erewrite bind_done by by apply get_f_eq.
  erewrite bind_done by by apply get_f_eq.
  by destruct (Z.geb_spec (fld s f_num_dead_disks) (fld s f_max_dead_disks)); [|lia].
Qed.

Lemma wp_not_refused pf maxst s (k : M (machine D) Z) Q :
  array_ok pf maxst s → wp k Q s →
  wp (dead ← get_f f_num_dead_disks; max_dead ← get_f f_max_dead_disks;
      if dead >=? max_dead then ret (-1) else k) Q s.
Proof.
  intros Ha HQ. destruct low_offsets as (_ & _ & L3 & L4). pose proof (ar_page _ _ _ Ha) as Hp.
  wp_step. apply wp_get_low; [done..|]. wp_step. apply wp_get_low; [done..|].
  pose proof (ar_alive _ _ _ Ha).
  by destruct (Z.geb_spec (fld s f_num_dead_disks) (fld s f_max_dead_disks)); [lia|].
Qed.

Lemma stripe_bound blkn : 0 ≤ blkn → blkn < (DISKS - 1) * (blkn / (DISKS - 1) + 1).
Proof. intros Hb. pose proof fits_lo. apply Z.mul_succ_div_gt. lia. Qed.

(** ** RAID 4: the last disk holds the parity *)

#[export] Instance raid4_level : ParityLevel D := {|
  pl_type := RAID4;
  pl_pf _ := DISKS - 1;
  pl_stripe blkn := blkn / (DISKS - 1) + 1;
  pl_disk blkn := blkn mod (DISKS - 1);
  pl_read := read_raid4;
  pl_write := write_raid4;
|}.

Lemma raid4_num s maxst A : level_ok (PL := raid4_level) maxst s A →
  fld s f_num_of_disks = DISKS - 1 ∧ fld s f_parity_disk = DISKS - 1.
Proof.
  intros [Ht Hs _]. cbn in Ht. destruct (ar_layout _ _ _ (so_array _ _ _ _ Hs)) as [(_ & ? & ?)|(H5 & _)].
  - done.
  - rewrite Ht in H5. done.
Qed.

Lemma level_ok_step {PL : ParityLevel D} maxst s s' A A' st :
  level_ok maxst s A → store_ok pl_pf maxst s' A' → cached_at pl_pf maxst s' A' st →
  same_fields s s' → level_ok maxst s' A'.
Proof.
  intros [Ht Hs Hc] Hs' Hc' Hf. destruct low_offsets as (? & _).
  split; [by rewrite Hf|done|right; by exists st].
Qed.

(** The place of a block, as machine arithmetic computes it. *)
Lemma raid4_place blkn :
  0 ≤ blkn < 2 ^ 31 →
  0 ≤ blkn mod (DISKS - 1) < DISKS - 1 ∧ 0 ≤ blkn / (DISKS - 1) ≤ blkn.
Proof.
  pose proof fits_lo. intros Hb. split; [apply Z.mod_pos_bound; lia|].
  split; [apply Z.div_pos; lia|]. apply Z.div_le_upper_bound; nia.
Qed.

Lemma raid4_read_ok maxst s A blkn a :
  level_ok (PL := raid4_level) maxst s A → valid_blkn (PL := raid4_level) maxst blkn →
  user_buf s a BLOCKSIZE →
  wp (read_raid4 blkn a) (λ r s', r = 0 ∧ level_ok (PL := raid4_level) maxst s' A
    ∧ read_bytes (phys s') a (Z.to_nat BLOCKSIZE)
        = A (blkn / (DISKS - 1) + 1) (blkn mod (DISKS - 1))
    ∧ changes (op_area s a BLOCKSIZE) s s' ∧ same_fields s s') s.
Proof.
  intros Hlv [Hb Hst] Hub. cbn in Hst. pose proof fits_hi. pose proof fits_lo.
  destruct low_offsets as (L1 & L2 & L3 & L4). destruct offset_bounds as (O1 & O2 & O3 & _).
  assert (HB : BLOCKSIZE = 512) by done. assert (HP : PGSIZE = 4096) by done.
  destruct (raid4_num _ _ _ Hlv) as [Hn Hpd]. pose proof Hlv as [Ht Hs Hc].
  pose proof (so_array _ _ _ _ Hs) as Ha. pose proof (ar_page _ _ _ Ha) as Hp.
  pose proof (ar_max _ _ _ Ha) as Hmx. destruct (raid4_place blkn Hb) as [Hmod Hdiv].
  unfold read_raid4. eapply wp_not_refused; [done|].
  wp_step. apply wp_get_low; [done..|]. rewrite Hn.
  wp_step. apply wp_umod; [lia|]. wp_step. apply wp_udiv; [lia|].
  rewrite !s32_small by lia. set (st := blkn / (DISKS - 1) + 1) in *.
  assert (Hin : in_stripes maxst st) by (unfold in_stripes; lia).
  wp_step. apply wp_get_f; [done|unfold f_cache_stripe; lia..|].
  destruct (Z.eqb_spec (fld s f_cache_stripe) (u32 st)) as [Hhit|Hmiss].
  - eapply wp_mono; [apply (wp_deliver (pl_pf (ParityLevel := raid4_level)) maxst s A st (blkn mod (DISKS - 1) + 1) a);
                       [done|by eapply cache_hit|lia|done]|].
    intros r s' (-> & Hs' & Hc' & Hg' & Hf' & Hrd). rewrite Z.add_simpl_r in Hrd.
    split_and!; [done|by eapply level_ok_step|done..].
  - wp_step. apply wp_get_f; [done|lia..|]. rewrite Hpd, s32_small by lia.
    eapply wp_mono; [apply (wp_read_miss (pl_pf (ParityLevel := raid4_level)) maxst s A st (blkn mod (DISKS - 1) + 1) a);
                       [exact Hs|exact Hin|lia|exact Hub]|].
    intros r s' (-> & Hs' & Hc' & Hg' & Hf' & Hrd). rewrite Z.add_simpl_r in Hrd.
    split_and!; [done|by eapply level_ok_step|done..].
Qed.

(** On a hit the update uses the slot, which must hold the old contents. *)
Lemma wp_write_hit {PL : ParityLevel D} maxst s A st d a :
  level_ok maxst s A → in_stripes maxst st → fld s f_cache_stripe = u32 st →
  1 ≤ d ≤ fld s f_num_of_disks → d - 1 ≠ pl_pf st →
  ¬ dead s (d - 1) ∨ (d - 1 = pl_pf st + 1 ∧ ¬ dead s (pl_pf st)) →
  user_buf s a BLOCKSIZE →
  wp (raid_write_updateparity_cache d a;; ret 0)
     (λ r s', r = 0
        ∧ level_ok maxst s' (write_content pl_pf A st (d - 1) (read_bytes (phys s) a (Z.to_nat BLOCKSIZE)))
        ∧ changes (op_area s a BLOCKSIZE) s s' ∧ same_fields s s') s.
Proof.
  intros Hlv Hin Hhit Hd Hne Hsafe Hub. pose proof Hlv as [Ht Hs Hc].
  pose proof (so_array _ _ _ _ Hs) as Ha. destruct (array_num _ _ _ Ha) as [Hn _].
  assert (Hca : cached_at pl_pf maxst s A st)
    by (eapply cache_hit; [done..|apply (ar_max _ _ _ Ha)|done]).
  wp_step. eapply wp_mono; [apply (wp_commit pl_pf maxst s A st d a); try done|].
  { destruct Hca as (_ & _ & _ & Hsl). apply Hsl; [lia|done]. }
  intros [] s' (Hs' & Hc' & Hg' & Hf'). wp_step.
  split_and!; [done|by eapply level_ok_step|done..].
Qed.

Lemma raid4_write_ok maxst s A blkn a :
  level_ok (PL := raid4_level) maxst s A → valid_blkn (PL := raid4_level) maxst blkn →
  user_buf s a BLOCKSIZE → write_safe (PL := raid4_level) s blkn →
  wp (write_raid4 blkn a) (λ r s', r = 0
    ∧ level_ok (PL := raid4_level) maxst s'
        (write_content (λ _, DISKS - 1) A (blkn / (DISKS - 1) + 1) (blkn mod (DISKS - 1))
           (read_bytes (phys s) a (Z.to_nat BLOCKSIZE)))
    ∧ changes (op_area s a BLOCKSIZE) s s' ∧ same_fields s s') s.
Proof.
  intros Hlv [Hb Hst] Hub Hsafe. unfold write_safe in Hsafe. cbn in Hst, Hsafe.
  pose proof fits_hi. pose proof fits_lo.
  destruct low_offsets as (L1 & L2 & L3 & L4). destruct offset_bounds as (O1 & O2 & O3 & _).
  assert (HB : BLOCKSIZE = 512) by done. assert (HP : PGSIZE = 4096) by done.
  destruct (raid4_num _ _ _ Hlv) as [Hn Hpd]. pose proof Hlv as [Ht Hs Hc].
  pose proof (so_array _ _ _ _ Hs) as Ha. pose proof (ar_page _ _ _ Ha) as Hp.
  pose proof (ar_max _ _ _ Ha) as Hmx. destruct (raid4_place blkn Hb) as [Hmod Hdiv].
  unfold write_raid4. eapply wp_not_refused; [done|].
  wp_step. apply wp_get_low; [done..|]. rewrite Hn.
  wp_step. apply wp_umod; [lia|]. wp_step. apply wp_udiv; [lia|].
  rewrite !s32_small by lia. set (st := blkn / (DISKS - 1) + 1) in *.
  assert (Hin : in_stripes maxst st) by (unfold in_stripes; lia).
  wp_step. apply wp_get_f; [done|unfold f_cache_stripe; lia..|].
  destruct (Z.eqb_spec (fld s f_cache_stripe) (u32 st)) as [Hhit|Hmiss].
  - eapply wp_mono; [apply (wp_write_hit (PL := raid4_level) maxst s A st (blkn mod (DISKS - 1) + 1) a);
                       cbn; [done|done|done|lia|lia| |done]|].
    { rewrite Z.add_simpl_r. rewrite u32_small in Hhit by lia. tauto. }
    intros r s'. rewrite Z.add_simpl_r. done.
  - wp_step. apply wp_get_f; [done|lia..|]. rewrite Hpd, s32_small by lia.
    eapply wp_mono; [apply (wp_write_miss (pl_pf (ParityLevel := raid4_level)) maxst s A st (blkn mod (DISKS - 1) + 1) a);
                       [exact Hs|exact Hin|cbn; lia|cbn; lia|exact Hub]|].
    intros r s' (-> & Hs' & Hc' & Hg' & Hf'). rewrite Z.add_simpl_r in Hs', Hc'.
    split_and!; [done|by eapply level_ok_step|done..].
Qed.

(** RAID 4 places, reads and writes blocks as the interface demands. *)
#[export] Instance raid4_laws : ParityLevelLaws D raid4_level.
Proof.
  pose proof fits_lo as HD. split; cbn.
  - intros b Hb. assert (0 ≤ b / (DISKS - 1)) by (apply Z.div_pos; lia). lia.
  - intros b Hb. pose proof (Z.mod_pos_bound b (DISKS - 1)). lia.
  - intros b Hb. pose proof (Z.mod_pos_bound b (DISKS - 1)). lia.
  - intros b b' Hb Hb' E1 E2.
    rewrite (Z.div_mod b (DISKS - 1)), (Z.div_mod b' (DISKS - 1)) by lia.
    rewrite E2. f_equal. f_equal. lia.
  - apply raid4_read_ok.
  - apply raid4_write_ok.
  - intros s blkn a Hp Hd. unfold read_raid4, write_raid4. by rewrite !refused_eq.
  - by left.
  - intros _. lia.
  - intros b Hb. by apply stripe_bound.
  - done.
Qed.

(** ** RAID 5: the parity rotates *)

Definition raid5_pf (st : Z) : Z := DISKS - 1 - (st - 1) mod DISKS.
Definition raid5_stripe (blkn : Z) : Z := blkn / (DISKS - 1) + 1.
Definition raid5_disk (blkn : Z) : Z :=
  (raid5_pf (raid5_stripe blkn) + 1 + blkn mod (DISKS - 1)) mod DISKS.

#[export] Instance raid5_level : ParityLevel D := {|
  pl_type := RAID5;
  pl_pf := raid5_pf;
  pl_stripe := raid5_stripe;
  pl_disk := raid5_disk;
  pl_read := read_raid5;
  pl_write := write_raid5;
|}.

Lemma raid5_pf_range st : 0 ≤ raid5_pf st < DISKS.
Proof.
  pose proof fits_lo. unfold raid5_pf. pose proof (Z.mod_pos_bound (st - 1) DISKS). lia.
Qed.

(** Going once around the disks from the parity, a block falls on the
    [blkn mod (DISKS - 1) + 1]-th disk after it. *)
Lemma raid5_disk_cases blkn :
  0 ≤ blkn →
  let p := raid5_pf (raid5_stripe blkn) in
  let r := blkn mod (DISKS - 1) in
  0 ≤ r < DISKS - 1
  ∧ ((p + 1 + r < DISKS ∧ raid5_disk blkn = p + 1 + r)
     ∨ (DISKS ≤ p + 1 + r ∧ raid5_disk blkn = p + 1 + r - DISKS)).
Proof.
  intros Hb p r. pose proof fits_lo. pose proof (raid5_pf_range (raid5_stripe blkn)) as Hp.
  fold p in Hp. assert (Hr : 0 ≤ r < DISKS - 1) by (apply Z.mod_pos_bound; lia).
  split; [done|]. unfold raid5_disk. fold p r. destruct (decide (p + 1 + r < DISKS)).
  - left. split; [done|]. apply Z.mod_small. lia.
  - right. split; [lia|]. rewrite <- (Z.mod_small (p + 1 + r - DISKS) DISKS) by lia.
    symmetry. rewrite <- (Z.mod_add _ 1) by lia. f_equal. lia.
Qed.

Lemma raid5_num s maxst A : level_ok (PL := raid5_level) maxst s A →
  fld s f_num_of_disks = DISKS.
Proof.
  intros [Ht Hs _]. cbn in Ht.
  destruct (ar_layout _ _ _ (so_array _ _ _ _ Hs)) as [(H4 & _)|(_ & ?)]; [|done].
  rewrite Ht in H4. done.
Qed.

Lemma wp_raid5_locate s blkn (Q : Z * Z * Z → machine D → Prop) :
  raid_page s → fld s f_num_of_disks = DISKS → 0 ≤ blkn < 2 ^ 31 → raid5_stripe blkn < 2 ^ 31 →
  Q (raid5_stripe blkn, raid5_pf (raid5_stripe blkn) + 1, raid5_disk blkn + 1) s →
  wp (raid5_locate blkn) Q s.
Proof.
  intros Hp Hn Hb Hst HQ. pose proof fits_lo. pose proof fits_hi.
  destruct low_offsets as (L1 & L2 & L3 & L4).
  assert (0 ≤ blkn / (DISKS - 1)) by (apply Z.div_pos; lia).
  destruct (raid5_disk_cases blkn) as [Hr Hcase]; [lia|].
  pose proof (raid5_pf_range (raid5_stripe blkn)) as Hpf.
  assert (0 ≤ raid5_disk blkn < DISKS) by (apply Z.mod_pos_bound; lia).
  unfold raid5_locate. wp_step. apply wp_get_low; [done..|]. rewrite Hn.
  rewrite (u32_small (DISKS - 1)) by lia.
  wp_step. apply wp_udiv; [lia|]. rewrite (s32_small (blkn / _ + 1)) by (unfold raid5_stripe in *; lia).
  fold (raid5_stripe blkn).
  assert (0 ≤ (raid5_stripe blkn - 1) mod DISKS < DISKS) by (apply Z.mod_pos_bound; lia).
  rewrite (u32_small (raid5_stripe blkn - 1)) by (unfold raid5_stripe in *; lia).
  wp_step. apply wp_umod; [lia|]. rewrite (s32_small (DISKS - _)) by lia.
  replace (DISKS - (raid5_stripe blkn - 1) mod DISKS)
    with (raid5_pf (raid5_stripe blkn) + 1) by (unfold raid5_pf; lia).
  wp_step. apply wp_umod; [lia|]. wp_step. apply wp_umod; [lia|].
  rewrite u32_small by lia. fold (raid5_disk blkn). rewrite s32_small by lia.
  by wp_step.
Qed.

Lemma raid5_setup maxst s A blkn :
  level_ok (PL := raid5_level) maxst s A → valid_blkn (PL := raid5_level) maxst blkn →
  in_stripes maxst (raid5_stripe blkn) ∧ raid5_stripe blkn < 2 ^ 31
  ∧ 1 ≤ raid5_disk blkn + 1 ≤ fld s f_num_of_disks
  ∧ raid5_disk blkn ≠ raid5_pf (raid5_stripe blkn).
Proof.
  intros Hlv [Hb Hst]. cbn in Hst. pose proof fits_lo.
  rewrite (raid5_num _ _ _ Hlv). destruct Hlv as [Ht Hs Hc].
  pose proof (ar_max _ _ _ (so_array _ _ _ _ Hs)).
  assert (0 ≤ blkn / (DISKS - 1)) by (apply Z.div_pos; lia).
  destruct (raid5_disk_cases blkn) as [Hr Hcase]; [lia|].
  pose proof (raid5_pf_range (raid5_stripe blkn)). unfold in_stripes.
  split_and!; try lia. unfold raid5_stripe. lia.
Qed.

Lemma raid5_read_ok maxst s A blkn a :
  level_ok (PL := raid5_level) maxst s A → valid_blkn (PL := raid5_level) maxst blkn →
  user_buf s a BLOCKSIZE →
  wp (read_raid5 blkn a) (λ r s', r = 0 ∧ level_ok (PL := raid5_level) maxst s' A
    ∧ read_bytes (phys s') a (Z.to_nat BLOCKSIZE) = A (raid5_stripe blkn) (raid5_disk blkn)
    ∧ changes (op_area s a BLOCKSIZE) s s' ∧ same_fields s s') s.
Proof.
  intros Hlv Hv Hub. destruct (raid5_setup _ _ _ _ Hlv Hv) as (Hin & Hst & Hd & Hne).
  pose proof Hlv as [Ht Hs Hc]. destruct Hv as [Hb _]. destruct offset_bounds as (O1 & O2 & O3 & _).
  assert (HB : BLOCKSIZE = 512) by done. assert (HP : PGSIZE = 4096) by done.
  pose proof (so_array _ _ _ _ Hs) as Ha. pose proof (ar_page _ _ _ Ha) as Hp.
  unfold read_raid5. eapply wp_not_refused; [done|].
  wp_step. apply wp_raid5_locate; [done|by eapply raid5_num|done..|].
  wp_step. apply wp_get_f; [done|unfold f_cache_stripe; lia..|].
  set (st := raid5_stripe blkn) in *. set (d := raid5_disk blkn) in *.
  destruct (Z.eqb_spec (fld s f_cache_stripe) (u32 st)) as [Hhit|Hmiss].
  - eapply wp_mono; [apply (wp_deliver (pl_pf (ParityLevel := raid5_level)) maxst s A st (d + 1) a);
                       [done|eapply cache_hit; [done|done|apply (ar_max _ _ _ Ha)|done]|lia|done]|].
    intros r s' (-> & Hs' & Hc' & Hg' & Hf' & Hrd). rewrite Z.add_simpl_r in Hrd.
    split_and!; [done|by eapply level_ok_step|done..].
  - rewrite (Z.add_simpl_r (raid5_pf st) 1).
    eapply wp_mono; [apply (wp_read_miss (pl_pf (ParityLevel := raid5_level)) maxst s A st (d + 1) a); [exact Hs|exact Hin|lia|exact Hub]|].
    intros r s' (-> & Hs' & Hc' & Hg' & Hf' & Hrd). rewrite Z.add_simpl_r in Hrd.
    split_and!; [done|by eapply level_ok_step|done..].
Qed.

Lemma raid5_write_ok maxst s A blkn a :
  level_ok (PL := raid5_level) maxst s A → valid_blkn (PL := raid5_level) maxst blkn →
  user_buf s a BLOCKSIZE → write_safe (PL := raid5_level) s blkn →
  wp (write_raid5 blkn a) (λ r s', r = 0
    ∧ level_ok (PL := raid5_level) maxst s'
        (write_content raid5_pf A (raid5_stripe blkn) (raid5_disk blkn)
           (read_bytes (phys s) a (Z.to_nat BLOCKSIZE)))
    ∧ changes (op_area s a BLOCKSIZE) s s' ∧ same_fields s s') s.
Proof.
  intros Hlv Hv Hub Hsafe. destruct (raid5_setup _ _ _ _ Hlv Hv) as (Hin & Hst & Hd & Hne).
  unfold write_safe in Hsafe. cbn in Hsafe.
  pose proof Hlv as [Ht Hs Hc]. destruct Hv as [Hb _]. destruct offset_bounds as (O1 & O2 & O3 & _).
  assert (HB : BLOCKSIZE = 512) by done. assert (HP : PGSIZE = 4096) by done.
  pose proof (so_array _ _ _ _ Hs) as Ha. pose proof (ar_page _ _ _ Ha) as Hp.
  unfold write_raid5. eapply wp_not_refused; [done|].
  wp_step. apply wp_raid5_locate; [done|by eapply raid5_num|done..|].
  wp_step. apply wp_get_f; [done|unfold f_cache_stripe; lia..|].
  set (st := raid5_stripe blkn) in *.
  set (d := raid5_disk blkn) in *.
  destruct (Z.eqb_spec (fld s f_cache_stripe) (u32 st)) as [Hhit|Hmiss].
  - eapply wp_mono; [apply (wp_write_hit (PL := raid5_level) maxst s A st (d + 1) a);
                       cbn; [done|done|done|lia|lia| |done]|].
    { rewrite Z.add_simpl_r. rewrite u32_small in Hhit by (unfold in_stripes in Hin; lia). tauto. }
    intros r s'. rewrite Z.add_simpl_r. done.
  - rewrite (Z.add_simpl_r (raid5_pf st) 1).
    eapply wp_mono; [apply (wp_write_miss (pl_pf (ParityLevel := raid5_level)) maxst s A st (d + 1) a);
                       [exact Hs|exact Hin|cbn; lia|cbn; lia|exact Hub]|].
    intros r s' (-> & Hs' & Hc' & Hg' & Hf'). rewrite Z.add_simpl_r in Hs', Hc'.
    split_and!; [done|by eapply level_ok_step|done..].
Qed.

(** RAID 5 places, reads and writes blocks as the interface demands. *)
#[export] Instance raid5_laws : ParityLevelLaws D raid5_level.
Proof.
  pose proof fits_lo as HD. split; cbn.
  - intros b Hb. unfold raid5_stripe. assert (0 ≤ b / (DISKS - 1)) by (apply Z.div_pos; lia). lia.
  - intros b Hb. apply Z.mod_pos_bound. lia.
  - intros b Hb. destruct (raid5_disk_cases b Hb) as [Hr Hc]. lia.
  - intros b b' Hb Hb' E1 E2.
    destruct (raid5_disk_cases b Hb) as [Hr Hc]. destruct (raid5_disk_cases b' Hb') as [Hr' Hc'].
    rewrite <- E1 in Hc'. rewrite (Z.div_mod b (DISKS - 1)), (Z.div_mod b' (DISKS - 1)) by lia.
    unfold raid5_stripe in E1. replace (b / (DISKS - 1)) with (b' / (DISKS - 1)) by lia. lia.
  - apply raid5_read_ok.
  - apply raid5_write_ok.
  - intros s blkn a Hp Hd. unfold read_raid5, write_raid5. by rewrite !refused_eq.
  - by right.
  - apply raid5_pf_range.
  - intros b Hb. by apply stripe_bound.
  - done.
Qed.
End instances.
