(* ===== verification/RaidTrace.v ===== *)
(** * Sequences of operations on a parity array

    The contract of a parity array is a store of logical blocks: a read returns
    what the last write of that block stored.  The theorems here show that the
    implementation refines this store along any sequence of reads and writes in
    which at most one disk fails; the routine that marks a disk as failed is
    part of the sequence. *)

From S2P Require Import Prelude Machine Kalloc BlockDev Vm VmFacts Raid RaidFacts RaidParity RaidStripe.
From S2P Require Import RaidLevels RaidSpec.

Section trace.
Context `{COK : ConfigOk} {FP : FitsPage C} {D : Type} `{BDL : BlockDeviceLaws D}.
Context {PL : ParityLevel D} {PLL : ParityLevelLaws D PL}.
Context (pt va a : Z).
Implicit Types (s : machine D) (A : Z → Z → list Z) (B : astore).

(** The operations the array can serve: blocks inside the disks, at most one
    failure, and after it no write to a block of the failed disk. *)
Definition allowed (maxst : Z) B (o : op) : Prop :=
  match o with
  | ORead b => valid_blkn maxst b
  | OWrite b data =>
      valid_blkn maxst b ∧ length data = Z.to_nat BLOCKSIZE ∧ bytes data
      ∧ ∀ d, failed B = Some d → pl_disk b ≠ d - 1
  | OFail d => 1 ≤ d ≤ DISKS ∧ failed B = None
  end.

Definition allowed_run (maxst : Z) : astore → list op → Prop := all_ok (allowed maxst).

(** The implementation state represents the abstract store. *)
Record represents (maxst : Z) s B : Prop := {
  rs_level : ∃ A, level_ok maxst s A
    ∧ ∀ b, valid_blkn maxst b → blocks B b = A (pl_stripe b) (pl_disk b);
  rs_buf : user_buf s a BLOCKSIZE;
  rs_map : user_map pt va a BLOCKSIZE s;
  rs_init : fld s f_raid_initialized = 1;
  rs_max b : valid_blkn maxst b → b < fld s f_max_blocks;
  rs_count : fld s f_num_dead_disks = (if failed B is Some _ then 1 else 0)
             ∧ fld s f_max_dead_disks = 2;
  rs_dead k : 0 ≤ k < DISKS → dead s k ↔ failed B = Some (k + 1);
}.

Lemma level_user maxst s s' A :
  level_ok maxst s A → user_buf s a BLOCKSIZE →
  changes (in_range a BLOCKSIZE) s s' → vdisk s' = vdisk s →
  level_ok maxst s' A ∧ same_fields s s' ∧ fld s' f_cache_stripe = fld s f_cache_stripe.
Proof.
  intros [Ht Hs Hc] Hub Hch Hv. destruct low_offsets as (L1 & _).
  destruct (user_frame pl_pf maxst s s' A a) as (Hs' & Hf & Hcs & Hca); [done..|].
  split_and!; [|done..]. split; [by rewrite Hf|done|].
  destruct Hc as [Hn|(st & Hst)]; [left; congruence|right; exists st; by apply Hca].
Qed.

(** *** Marking a disk as failed *)

(** What differs after disk [d] of a healthy array is marked. *)
Record marked s s' (d : Z) : Prop := {
  mk_page : raid_page s';
  mk_changes : changes (op_area s a BLOCKSIZE) s s';
  mk_state : fld s' (f_disk_state (d - 1)) = DEAD;
  mk_count : fld s' f_num_dead_disks = 1;
  mk_fields off : 0 ≤ off → off + 4 ≤ BLOCKSIZE →
    off + 4 ≤ f_num_dead_disks ∨ f_num_dead_disks + 4 ≤ off →
    off + 4 ≤ f_disk_state (d - 1) ∨ f_disk_state (d - 1) + 4 ≤ off → fld s' off = fld s off;
  mk_slots k : 0 ≤ k ≤ DISKS → slot s' k = slot s k;
  mk_blocks id b : b ≠ 0 → block s' id b = block s id b;
}.

Lemma marked_dead s s' d k :
  marked s s' d → 1 ≤ d ≤ DISKS → (∀ k, 0 ≤ k < DISKS → ¬ dead s k) → 0 ≤ k < DISKS →
  dead s' k ↔ k = d - 1.
Proof.
  intros Hm Hd Hal Hk. destruct offset_bounds as (O1 & O2 & O3 & O4). destruct (O4 k Hk).
  split; [|intros ->; apply (mk_state _ _ _ Hm)]. intros Hdk.
  destruct (decide (k = d - 1)) as [|Hne]; [done|]. exfalso. apply (Hal k Hk).
  unfold dead in *. rewrite <- (mk_fields _ _ _ Hm); [done|lia..| |].
  - unfold f_num_dead_disks, f_disk_state in *. lia.
  - unfold f_disk_state. lia.
Qed.

Lemma marked_level maxst s s' A d :
  marked s s' d → 1 ≤ d ≤ DISKS → (∀ k, 0 ≤ k < DISKS → ¬ dead s k) →
  fld s f_max_dead_disks = 2 → level_ok maxst s A → level_ok maxst s' A.
Proof.
  intros Hm Hd Hal Hmax [Ht Hs Hc]. pose proof Hm as [Hp' Hch Hst Hcnt Hf Hsl Hb].
  pose proof (ch_globals _ _ _ Hch) as Hg.
  destruct offset_bounds as (O1 & O2 & O3 & O4). destruct low_offsets as (L1 & L2 & L3 & L4).
  pose proof (so_array _ _ _ _ Hs) as Ha. destruct (O4 (d - 1)) as [Od1 Od2]; [lia|].
  assert (HO : f_disk_state (d - 1) = 24 + 4 * d) by (unfold f_disk_state; lia).
  assert (Ht' : fld s' f_type = fld s f_type) by (apply Hf; unfold f_type, f_num_dead_disks in *; lia).
  assert (Hn' : fld s' f_num_of_disks = fld s f_num_of_disks)
    by (apply Hf; unfold f_num_of_disks, f_num_dead_disks in *; lia).
  assert (Hmx' : fld s' f_max_dead_disks = 2)
    by (rewrite <- Hmax; apply Hf; unfold f_max_dead_disks, f_num_dead_disks in *; lia).
  assert (Hpd' : fld s' f_parity_disk = fld s f_parity_disk)
    by (apply Hf; unfold f_num_dead_disks in *; lia).
  assert (Hdk : ∀ k, 0 ≤ k < DISKS → dead s' k ↔ k = d - 1)
    by (intros; eapply marked_dead; done).
  split; [by rewrite Ht'| |].
  - destruct Hs as [Ha' Hco Hdisk Htail]. split; [|done|..].
    + split; [done| | | | |apply (ar_max _ _ _ Ha)|apply (ar_pf _ _ _ Ha)| |].
      * unfold parity_layout. rewrite Ht', Hn', Hpd'. apply (ar_layout _ _ _ Ha).
      * rewrite Ht'. apply (ar_raid4 _ _ _ Ha).
      * rewrite Hcnt, Hmx'. lia.
      * intros k k' Hk Hk'. rewrite !Hdk by done. lia.
      * intros. eapply in_device_same; [done|by apply (ar_device _ _ _ Ha)].
      * intros. eapply in_device_same; [done|by apply (ar_meta _ _ _ Ha)].
    + intros st k Hst' Hk _. rewrite Hb by (unfold in_stripes in *; lia). apply Hdisk; auto.
    + intros st Hst' Hlt _. rewrite Hb by (unfold in_stripes in *; lia).
      apply Htail; [done..|]. apply Hal. by apply (ar_pf _ _ _ Ha).
  - assert (Hcs : fld s' f_cache_stripe = fld s f_cache_stripe)
      by (apply Hf; unfold f_cache_stripe, f_num_dead_disks in *; lia).
    destruct Hc as [Hn|(st & Hst' & H1 & H2 & H3)]; [left; congruence|right; exists st].
    split_and!; [done|congruence| |].
    + rewrite <- H2. apply Hf; unfold f_parity_cached, f_num_dead_disks in *; lia.
    + intros k Hk _. rewrite Hsl by lia. apply H3; [done|]. left. auto.
Qed.

Lemma wp_fail_parity s d :
  raid_page s → parity_layout s → fld s f_raid_initialized = 1 → 1 ≤ d ≤ DISKS →
  ¬ dead s (d - 1) → fld s f_num_dead_disks = 0 →
  (∀ id, 1 ≤ id ≤ DISKS → in_device (vdisk s) id 0) →
  wp (disk_fail_raid d) (λ r s', r = 0 ∧ marked s s' d) s.
Proof.
  intros Hp HL Hi Hd Hnd Hcnt Hin. destruct offset_bounds as (O1 & O2 & O3 & O4).
  destruct (O4 (d - 1)) as [Od1 Od2]; [lia|]. destruct low_offsets as (L1 & L2 & L3 & L4).
  assert (HB : BLOCKSIZE = 512) by done. assert (HP : PGSIZE = 4096) by done.
  assert (HO : f_disk_state (d - 1) = 24 + 4 * d) by (unfold f_disk_state; lia).
  assert (HN : f_num_dead_disks = 20) by done. assert (HT : f_type = 4) by done.
  unfold disk_fail_raid. wp_step.
  eapply wp_done; [by apply not_initialized_eq|]. cbn [orb].
  rewrite (proj2 (Z.ltb_ge d 1)), Z.gtb_ltb, (proj2 (Z.ltb_ge DISKS d)) by lia. cbn [orb].
  wp_step. apply wp_get_f; [done|lia..|]. rewrite (proj2 (Z.eqb_neq _ _) Hnd).
  wp_step. apply wp_set_f; [done|lia..|]. intros s1 Hc1 Hv1 Hst1.
  destruct (low_field_changes a BLOCKSIZE s s1 (f_disk_state (d - 1)))
    as (Hp1 & Hg1 & Hf1 & Hsl1 & Hb1); [done..|].
  wp_step. apply wp_get_low; [done..|]. rewrite Hf1, Hcnt by lia.
  wp_step. apply wp_set_f; [done|lia..|]. intros s2 Hc2 Hv2 Hn2.
  destruct (low_field_changes a BLOCKSIZE s1 s2 f_num_dead_disks) as (Hp2 & Hg2 & Hf2 & Hsl2 & Hb2); [lia|done..|].
  pose proof (op_trans _ _ _ _ _ Hg1 Hg2) as Hg12.
  wp_step. apply wp_get_low; [done..|]. rewrite Hf2, Hf1 by lia.
  replace (has_parity_or_none (fld s f_type)) with true
    by (destruct HL as [[-> _]|[-> _]]; done).
  wp_step. eapply wp_mono; [apply wp_writeback; [done|]|].
  { intros. eapply in_device_same; [apply (ch_globals _ _ _ Hg12)|by apply Hin]. }
  intros [] s3 [Hc3 Hb3]. wp_step. split; [done|].
  destruct (quiet_changes _ _ Hc3 Hp2) as (Hp3 & Hf3 & Hsl3).
  split.
  - done.
  - eapply op_trans; [done|]. by eapply changes_mono.
  - rewrite Hf3, Hf2, Hst1 by lia. done.
  - rewrite Hf3, Hn2 by lia. done.
  - intros off ????. rewrite Hf3, Hf2, Hf1 by lia. done.
  - intros k Hk. rewrite Hsl3, Hsl2, Hsl1 by lia. done.
  - intros id b Hb. rewrite Hb3, Hb2, Hb1 by done. done.
Qed.

(** *** One operation *)

Abbreviation sim maxst := (simulates pt va a BLOCKSIZE (represents maxst)).

Lemma represents_step maxst s s' B B' :
  represents maxst s B → changes (op_area s a BLOCKSIZE) s s' → same_fields s s' → failed B' = failed B →
  (∃ A, level_ok maxst s' A
     ∧ ∀ b, valid_blkn maxst b → blocks B' b = A (pl_stripe b) (pl_disk b)) →
  represents maxst s' B'.
Proof.
  intros [_ Hub Hum Hi Hmx Hn Hd] Hc Hf HB HA. destruct low_offsets as (L1 & L2 & L3 & L4).
  pose proof (ch_globals _ _ _ Hc) as Hg.
  split; [done|by eapply user_buf_same|by eapply user_map_changes|rewrite Hf; [done..|]| | |].
  - unfold f_raid_initialized, f_type in *. lia.
  - intros b Hb. rewrite Hf; [by apply Hmx|done|]. unfold f_max_blocks, f_num_dead_disks in *. lia.
  - rewrite !Hf, HB by done. done.
  - intros k Hk. rewrite (same_dead s s'), HB by done. by apply Hd.
Qed.

Lemma represents_dispatch maxst s B b :
  represents maxst s B → valid_blkn maxst b →
  read_raid pt b va s = pl_read b a s ∧ write_raid pt b va s = pl_write b a s.
Proof.
  intros [(A & [Ht Hs _] & _) Hub Hum Hi Hmx _ _] Hb.
  destruct pl_table as [<- <-].
  eapply dispatch_eq; [apply (so_array _ _ _ _ Hs)|done|done|apply Hb|by apply Hmx|done].
Qed.

Lemma sim_read maxst s B b :
  represents maxst s B → valid_blkn maxst b → sim maxst B (ORead b) s.
Proof.
  intros Hr Hb. destruct (rs_level _ _ _ Hr) as (A & Hlv & HA).
  unfold simulates. cbn [run_op spec_op fst snd].
  wp_step. eapply wp_eq; [by apply (represents_dispatch maxst s B)|].
  eapply wp_mono; [apply (pl_read_ok maxst s A b a); [done..|apply Hr]|].
  intros r s' (-> & Hlv' & Hrd & Hg & Hf). wp_steps. rewrite Hrd, <- HA by done.
  split; [done|]. eapply represents_step; [done..|]. by exists A.
Qed.

(** A write changes its own block only. *)
Lemma write_blocks maxst A B b data :
  valid_blkn maxst b →
  (∀ b, valid_blkn maxst b → blocks B b = A (pl_stripe b) (pl_disk b)) →
  ∀ b', valid_blkn maxst b' →
    fupd (blocks B) b data b'
    = write_content pl_pf A (pl_stripe b) (pl_disk b) data (pl_stripe b') (pl_disk b').
Proof.
  intros Hb HA b' Hb'. pose proof Hb as [? _]. pose proof Hb' as [? _].
  destruct (decide (b' = b)) as [->|Hne].
  - rewrite fupd_eq, write_content_data; [done|]. apply pl_disk_data. lia.
  - rewrite fupd_ne, HA by done. destruct (decide (pl_stripe b' = pl_stripe b)) as [E|E].
    + rewrite E, write_content_rest; [done| |].
      * intros E'. apply Hne. apply pl_place_inj; [lia..|done|done].
      * rewrite <- E. apply pl_disk_data. lia.
    + by rewrite write_content_other.
Qed.

Lemma sim_write maxst s B b data :
  represents maxst s B → allowed maxst B (OWrite b data) →
  sim maxst B (OWrite b data) s.
Proof.
  intros Hr (Hb & Hl & Hby & Hfail). destruct (rs_level _ _ _ Hr) as (A & Hlv & HA).
  pose proof (rs_buf _ _ _ Hr) as Hub. pose proof Hlv as [_ Hs _].
  pose proof (ar_page _ _ _ (so_array _ _ _ _ Hs)) as Hp.
  unfold simulates. cbn [run_op spec_op fst snd]. wp_steps.
  set (s1 := set_phys (write_bytes (phys s) a data) s).
  assert (Hc : changes (in_range a BLOCKSIZE) s s1) by (apply fill_changes; [done|apply Hp|done..]).
  destruct (level_user maxst s s1 A) as (Hlv1 & Hf1 & _); [done..|].
  assert (Hrd : read_bytes (phys s1) a (Z.to_nat BLOCKSIZE) = data)
    by by apply read_write_bytes_eq.
  assert (Hg1 : same_globals s s1) by apply Hc.
  assert (Hr1 : represents maxst s1 B)
    by (eapply represents_step; [exact Hr|by apply user_op|done|done|by exists A]).
  pose proof (pl_disk_range b (proj1 (proj1 Hb))) as Hdr.
  eapply wp_eq; [by apply (represents_dispatch maxst s1 B)|].
  eapply wp_mono; [apply (pl_write_ok maxst s1 A b a); [done..|by eapply user_buf_same|]|].
  { left. rewrite (same_dead s s1), (rs_dead _ _ _ Hr) by done.
    intros E. apply (Hfail _ E). lia. }
  rewrite Hrd. intros r s2 (-> & Hlv2 & Hg2 & Hf2). wp_step. split; [done|].
  eapply represents_step; [exact Hr1|done|done|done|].
  exists (write_content pl_pf A (pl_stripe b) (pl_disk b) data). split; [done|].
  by eapply write_blocks.
Qed.

Lemma sim_fail maxst s B d :
  represents maxst s B → allowed maxst B (OFail d) → sim maxst B (OFail d) s.
Proof.
  intros Hr (Hd & Hfb). destruct Hr as [(A & Hlv & HA) Hub Hum Hi Hmx [Hcnt Hmax] Hdead].
  pose proof Hlv as [_ Hs _]. pose proof (so_array _ _ _ _ Hs) as Ha.
  rewrite Hfb in Hcnt. assert (Hal : ∀ k, 0 ≤ k < DISKS → ¬ dead s k).
  { intros k Hk. rewrite Hdead, Hfb by done. done. }
  unfold simulates. cbn [run_op spec_op fst snd]. wp_step.
  eapply wp_mono; [apply wp_fail_parity; [apply Ha|apply Ha|done..|apply Hal; lia|done|apply Ha]|].
  intros r s' [-> Hm]. wp_step. split; [done|].
  destruct offset_bounds as (O1 & O2 & O3 & O4). destruct (O4 (d - 1)) as [Od1 Od2]; [lia|].
  assert (HO : f_disk_state (d - 1) = 24 + 4 * d) by (unfold f_disk_state; lia).
  split.
  - exists A. split; [by eapply marked_level|done].
  - eapply user_buf_same; [apply (ch_globals _ _ _ (mk_changes _ _ _ Hm))|done].
  - eapply user_map_changes; [done|apply Hm].
  - rewrite <- Hi. apply (mk_fields _ _ _ Hm);
      unfold f_raid_initialized, f_num_dead_disks, BLOCKSIZE in *; lia.
  - intros b Hb. apply Hmx in Hb. rewrite (mk_fields _ _ _ Hm); [done|..];
      unfold f_max_blocks, f_num_dead_disks, BLOCKSIZE in *; lia.
  - split; [apply Hm|]. rewrite <- Hmax.
    apply (mk_fields _ _ _ Hm); unfold f_max_dead_disks, f_num_dead_disks, BLOCKSIZE in *; lia.
  - intros k Hk. rewrite (marked_dead s s' d k) by done. cbn. split; [intros ->; f_equal; lia|].
    intros [= ->]. lia.
Qed.

(** *** Any sequence *)

Lemma run_refines maxst l s B :
  represents maxst s B → allowed_run maxst B l →
  wp (run pt va a BLOCKSIZE l)
     (λ rs s', rs = (spec_run B l).1 ∧ represents maxst s' (spec_run B l).2) s.
Proof.
  intros Hr Hal. eapply run_simulates; [|done|done]. intros s0 B0 o Hr0 Ho0.
  destruct o; [apply sim_read|apply sim_write|apply sim_fail]; done.
Qed.
End trace.
