(* ===== verification/RaidInit.v ===== *)
(** * Creating a parity array on blank disks

    [init_raid] on a machine whose disks hold zeros: [fetch] takes a page and
    loads the (blank) metadata, the fields are set for the level, and the
    metadata goes to block 0 of every disk.  The result represents the store
    in which every block is zero.  The header of the page is followed as a
    finite map from offsets to field values ([hdr]). *)

From S2P Require Import Prelude Machine Kalloc BlockDev Vm VmFacts Raid RaidFacts RaidParity RaidHeader RaidStripe.
From S2P Require Import RaidLevels RaidSpec RaidTrace.

Section init.
Context `{COK : ConfigOk} {FP : FitsPage C} {D : Type} `{BDL : BlockDeviceLaws D}.
Implicit Types (s : machine D) (A : Z → Z → list Z) (F : Z → Z).

(** ** The page before its cache pointers are set *)

Record page_base s : Prop := {
  pb_env : env_ok s;
  pb_lo : etext ≤ raid_metadata s;
  pb_hi : raid_metadata s + PGSIZE ≤ PHYSTOP;
  pb_out : outside s (raid_metadata s) PGSIZE;
}.

Lemma page_base_changes W s s' : page_base s → changes W s s' → page_base s'.
Proof.
  intros [He Hl Hh Ho] [He' Hg _]. pose proof (same_raid_metadata _ _ Hg) as E.
  split; rewrite ?E; try done. by eapply outside_same.
Qed.

Lemma wp_store_page (n : nat) off v (Q : unit → machine D → Prop) s :
  page_base s → 0 ≤ off → off + Z.of_nat n ≤ PGSIZE →
  (∀ s', changes (in_range (raid_metadata s + off) (Z.of_nat n)) s s' → vdisk s' = vdisk s →
     ld n (phys s') (raid_metadata s + off) = v mod 2 ^ (8 * Z.of_nat n) → Q tt s') →
  wp (store n (raid_metadata s + off) v) Q s.
Proof.
  intros [He Hl Hh Ho] H1 H2 HQ. pose proof etext_ge.
  apply wp_store; [solve_range|]. apply HQ; [by apply changes_store|done|].
  cbn. apply ld_st_eq.
Qed.

Lemma ld_zeros n m a :
  (∀ x, in_range a (Z.of_nat n) x → m !!! x = 0) → ld n m a = 0.
Proof.
  revert a. induction n as [|n IH]; intros a Hz; [done|].
  change (m !!! a + 256 * ld n m (a + 1) = 0). rewrite Hz by (unfold in_range; lia).
  rewrite IH; [done|]. intros x Hx. apply Hz. unfold in_range in *. lia.
Qed.

Lemma changes_ld W s s' (n : nat) off :
  changes W s s' → page_base s → 0 ≤ off → off + Z.of_nat n ≤ PGSIZE →
  (∀ x, in_range (raid_metadata s + off) (Z.of_nat n) x → ¬ W x) →
  ld n (phys s') (raid_metadata s + off) = ld n (phys s) (raid_metadata s + off).
Proof.
  intros Hc Hb H1 H2 HW. unfold ld. f_equal. eapply changes_read; [done| |done].
  eapply outside_sub; [apply Hb|lia|lia].
Qed.

(** ** [fetch] on blank disks *)

Record blank s (p : Z) (L : list Z) : Prop := {
  bl_env : env_ok s;
  bl_meta : raid_metadata s = 0;
  bl_kmem : kmem_ok s (p :: L);
  bl_out : outside s p PGSIZE;
  bl_dev id : 1 ≤ id ≤ DISKS → in_device (vdisk s) id 0;
  bl_zero : block s 1 0 = zero_block;
}.

(** The disks, the transfer buffers and the memory outside page [p] are as
    before. *)
Record same_disks (p : Z) s s' : Prop := {
  sd_buf : transfer_buffer s' = transfer_buffer s;
  sd_sectors id : bd_sectors (vdisk s') id = bd_sectors (vdisk s) id;
  sd_block id b : block s' id b = block s id b;
  sd_mem x : outside s x 1 → ¬ in_range p PGSIZE x → phys s' !!! x = phys s !!! x;
}.

Lemma outside_buf s s' x n :
  transfer_buffer s' = transfer_buffer s → outside s x n → outside s' x n.
Proof. intros E Ho i Hi. unfold tb. rewrite E. by apply Ho. Qed.

Lemma same_disks_trans p s1 s2 s3 : same_disks p s1 s2 → same_disks p s2 s3 → same_disks p s1 s3.
Proof.
  intros [T1 S1 B1 M1] [T2 S2 B2 M2]. split; [congruence..|].
  intros x Ho Hx. rewrite M2, M1; [done..| |done]. by eapply outside_buf.
Qed.

Lemma same_disks_changes p W s s' :
  changes W s s' → (∀ x, W x → in_range p PGSIZE x) → vdisk s' = vdisk s → same_disks p s s'.
Proof.
  intros [_ [_ _ Ht Hs] Hm] HW Hv. split; [done|done| |].
  - intros. unfold block. by rewrite Hv.
  - intros x Ho Hx. apply Hm; [done|]. intros Hin. by apply Hx, HW.
Qed.

Definition page_zero s : Prop := ∀ x, in_range (raid_metadata s) PGSIZE x → phys s !!! x = 0.

Lemma zero_block_lookup (i : nat) : (i < Z.to_nat BSIZE)%nat → zero_block !!! i = 0.
Proof. intros. unfold zero_block. by apply lookup_total_replicate_2. Qed.

(** The page [kalloc] returns, cleared. *)
Lemma wp_kalloc_clear {R} s p L (k : Z → M (machine D) R) Q :
  kmem_ok s (p :: L) → env_ok s →
  (∀ s', env_ok s' → raid_metadata s' = raid_metadata s → same_disks p s s' → page_ok p →
     (∀ x, in_range p PGSIZE x → phys s' !!! x = 0) → wp (k p) Q s') →
  wp (data ← kalloc; memset data 0 PGSIZE;; k data) Q s.
Proof.
  intros Hk [Hm Hd Hb] HQ.
  destruct (kalloc_spec s p L Hk Hm) as (s1 & E & Es1 & Hk1 & Hm1 & Hnin & Hp).
  pose proof (page_ok_pos p Hp) as (?&?&?).
  wp_step. eapply wp_done; [exact E|]. wp_step. apply wp_memset; [solve_range|done|].
  apply HQ; [split| | |done|].
  - cbn. apply mem_ok_write_bytes; [done|]. apply Forall_replicate. by vm_compute.
  - rewrite Es1. done.
  - rewrite Es1. done.
  - by rewrite Es1.
  - rewrite Es1. split; [done..|]. intros x Ho Hx. cbn.
    rewrite !lookup_total_write_bytes, !length_replicate. unfold in_range in Hx.
    rewrite Z2Nat.id by done. by rewrite !decide_False by done.
  - intros x Hx. cbn. rewrite lookup_total_write_bytes, length_replicate.
    unfold in_range, PGSIZE in *. rewrite decide_True by lia.
    rewrite lookup_total_replicate_2 by lia. done.
Qed.

Lemma wp_fetch_load s p L (rest : M (machine D) unit) Q :
  blank s p L →
  (∀ s', page_base s' → raid_metadata s' = p → same_disks p s s' → page_zero s' → wp rest Q s') →
  wp (data ← kalloc;
      memset data 0 PGSIZE;;
      for_exit 1 (DISKS + 1) (λ i,
        read_block i 0 data;;
        modify (set_raid_metadata data);;
        if data =? 0 then ret None
        else
          st ← get_f (f_disk_state i);
          ret (if st =? DEAD then None else Some tt));;
      rest) Q s.
Proof.
  intros [He Hmeta Hk Ho Hdev Hz] HQ. pose proof fits_lo. pose proof fits_hi. pose proof etext_ge.
  eapply wp_kalloc_clear; [done..|]. intros s1 He1 Hr1 Hs1 Hp Hz1.
  pose proof (page_ok_pos p Hp) as (?&?&?).
  assert (Ho1 : outside s1 p PGSIZE) by (intros i; unfold tb; rewrite (sd_buf _ _ _ Hs1); apply Ho).
  unfold for_exit. replace (Z.to_nat (DISKS + 1 - 1)) with (S (Z.to_nat (DISKS - 1))) by lia.
  cbn [findN]. apply wp_bind, wp_bind.
  apply wp_bind, wp_read_block; [done|lia| |solve_range|eapply outside_sub; [done|lia|unfold PGSIZE, BSIZE; lia]|].
  { destruct (Hdev 1) as (?&?&?); [lia|]. split; [done|]. by rewrite (sd_sectors _ _ _ Hs1). }
  intros s2 He2 Hg2 Hm2 Hb2. apply wp_bind, wp_modify.
  set (s3 := set_raid_metadata p s2).
  assert (Hz3 : page_zero s3).
  { intros x Hx. cbn in *. rewrite Hm2.
    - rewrite (sd_block _ _ _ Hs1), Hz. case_decide; [|by apply Hz1].
      apply zero_block_lookup. unfold BSIZE in *. lia.
    - eapply outside_sub; [exact Ho1| |]; unfold in_range in Hx; lia. }
  rewrite (proj2 (Z.eqb_neq p 0)) by (unfold KERNBASE in *; lia).
  unfold get_f. apply wp_bind, wp_bind, wp_gets. cbn [raid_metadata s3 set_raid_metadata].
  apply wp_load; [unfold f_disk_state; solve_range|].
  rewrite ld_zeros.
  2: { intros x Hx. apply Hz3. cbn. unfold in_range, f_disk_state, PGSIZE in *. lia. }
  cbn [Z.eqb]. apply wp_ret, HQ; [|done| |done].
  - split; [|cbn; lia..|].
    + destruct He2. by split.
    + cbn. intros i Hi. unfold tb. cbn. rewrite (same_transfer_buffer _ _ Hg2). by apply Ho1.
  - eapply same_disks_trans; [exact Hs1|]. split; [apply Hg2|apply Hg2|done|].
    intros x Hx1 Hx2. cbn. rewrite Hm2 by done. apply decide_False.
    unfold in_range, PGSIZE, BSIZE in *. lia.
Qed.

(** The header after [fetch]: zeros and an invalid cache. *)
Definition fresh : Z → Z := fupd (fupd (λ _, 0) f_cache_stripe NONE) f_parity_cached NONE.

Lemma page_zero_ld s (n : nat) off :
  page_zero s → 0 ≤ off → off + Z.of_nat n ≤ PGSIZE → ld n (phys s) (raid_metadata s + off) = 0.
Proof.
  intros Hz H1 H2. apply ld_zeros. intros x Hx. apply Hz. unfold in_range in *. lia.
Qed.

(** The two stores that invalidate the cache. *)
Lemma wp_invalidate s (Q : unit → machine D → Prop) :
  page_base s → page_zero s →
  (∀ s', header_only s s' → page_base s' → (∀ off, aligned off → fld s' off = fresh off) → Q tt s') →
  wp (set_f f_cache_stripe (-1);; set_f f_parity_cached (-1)) Q s.
Proof.
  intros Hb Hz HQ. destruct offset_bounds as (O1 & O2 & O3 & _).
  assert (HB : BLOCKSIZE = 512) by done. assert (HP : PGSIZE = 4096) by done.
  unfold set_f. apply wp_bind. wp_step. wp_step.
  apply wp_store_page; [done|unfold f_cache_stripe; lia..|]. intros s1 Hc1 Hv1 H1.
  pose proof (page_base_changes _ _ _ Hb Hc1) as Hb1.
  pose proof (same_raid_metadata _ _ (ch_globals _ _ _ Hc1)) as E1.
  wp_step. wp_step. apply wp_store_page; [done|unfold f_parity_cached; lia..|]. intros s2 Hc2 Hv2 H2.
  pose proof (same_raid_metadata _ _ (ch_globals _ _ _ Hc2)) as E2.
  apply HQ; [split; [|congruence]|by eapply page_base_changes|].
  - eapply changes_trans; (eapply changes_mono; [done|]); unfold in_range, f_cache_stripe, f_parity_cached; lia.
  - intros off (A1 & A2 & A3). unfold fld, fresh, fupd. rewrite E2.
    destruct (Z.eqb_spec off f_parity_cached) as [->|N1]; [by rewrite H2|].
    unfold f_cache_stripe, f_parity_cached in *.
    assert (f_cache mod 4 = 0) by (unfold f_cache; dlia).
    rewrite (changes_ld _ _ _ 4 _ Hc2) by (done || unfold in_range; dlia).
    destruct (Z.eqb_spec off f_cache) as [->|N2]; [by rewrite E1|].
    rewrite E1, (changes_ld _ _ _ 4 _ Hc1) by (done || unfold in_range; dlia).
    apply page_zero_ld; [done|lia..].
Qed.

(** The loop that points the cache at the slots. *)
Definition pointers_area s : Z → Prop :=
  in_range (raid_metadata s + f_cached_data_disks 0) (8 * DISKS).

Lemma wp_set_pointers s (Q : unit → machine D → Prop) :
  page_base s →
  (∀ s', changes (pointers_area s) s s' → vdisk s' = vdisk s → raid_page s' → Q tt s') →
  wp (for_ 0 DISKS (λ i, p ← gets raid_metadata; set_slot i (p + BLOCKSIZE * (i + 1)))) Q s.
Proof.
  intros Hb HQ. pose proof fits_lo. pose proof fits_hi. pose proof sizeof_raid_le as Hsz.
  destruct offset_bounds as (O1 & O2 & O3 & _). pose proof etext_ge.
  assert (HB : BLOCKSIZE = 512) by done. assert (HP : PGSIZE = 4096) by done.
  unfold sizeof_raid, f_cached_data_disks in Hsz.
  apply (wp_for_post (λ i s', changes (pointers_area s) s s' ∧ vdisk s' = vdisk s
    ∧ ∀ j, 0 ≤ j < i → ld 8 (phys s') (raid_metadata s' + f_cached_data_disks j) = slot_addr s' j));
    [lia|split_and!; [apply changes_refl, Hb|done|lia]| |].
  - intros i s1 Hi (Hc & Hv & Hj). pose proof (page_base_changes _ _ _ Hb Hc) as Hb1.
    pose proof (same_raid_metadata _ _ (ch_globals _ _ _ Hc)) as E1.
    wp_steps. unfold set_slot. wp_steps.
    apply wp_store_page; [done|unfold f_cached_data_disks; lia..|]. intros s2 Hc2 Hv2 H2.
    pose proof (same_raid_metadata _ _ (ch_globals _ _ _ Hc2)) as E2. split_and!.
    + eapply changes_trans; [done|]. eapply changes_mono; [done|].
      unfold pointers_area, in_range, f_cached_data_disks. lia.
    + congruence.
    + intros j Hj'. unfold slot_addr. rewrite E2. destruct (decide (j = i)) as [->|Hne].
      * rewrite H2. apply Z.mod_small. pose proof (pb_lo _ Hb1). pose proof (pb_hi _ Hb1).
        unfold PHYSTOP, KERNBASE in *. lia.
      * rewrite (changes_ld _ _ _ 8 _ Hc2); [apply Hj; lia|done|..];
          unfold f_cached_data_disks, in_range; lia.
  - intros s' (Hc & Hv & Hj). pose proof (page_base_changes _ _ _ Hb Hc) as Hb'.
    apply HQ; [done..|]. destruct Hb'. by split.
Qed.

Lemma not_initialized_null s : raid_metadata s = 0 → not_initialized s = Done (true, s).
Proof. intros E. unfold not_initialized. erewrite bind_done by done. by rewrite E. Qed.

Lemma wp_fetch_blank s p L (Q : unit → machine D → Prop) :
  blank s p L →
  (∀ s', hdr s' fresh → raid_metadata s' = p → same_disks p s s' → Q tt s') → wp fetch Q s.
Proof.
  intros Hbl HQ. unfold fetch. wp_step.
  eapply wp_done; [apply not_initialized_null, Hbl|]. wp_step.
  eapply wp_fetch_load; [done|]. intros s1 Hb1 E1 Hd1 Hz1.
  eapply wp_ext; [intros; apply bind_assoc|]. apply wp_bind.
  apply wp_invalidate; [done..|]. intros s2 [Hc2 Hv2] Hb2 Hf2.
  pose proof (same_raid_metadata _ _ (ch_globals _ _ _ Hc2)) as E2.
  apply wp_set_pointers; [done|]. intros s3 Hc3 Hv3 Hp3.
  pose proof (same_raid_metadata _ _ (ch_globals _ _ _ Hc3)) as E3. apply HQ.
  - split; [done|]. intros off Ha. pose proof Ha as (A1 & A2 & A3). rewrite <- Hf2 by done.
    destruct offset_bounds as (O1 & _). unfold fld. rewrite E3.
    eapply (changes_ld _ _ _ 4); [done|done|done|unfold BLOCKSIZE, PGSIZE in *; lia|].
    unfold pointers_area, in_range, f_cached_data_disks. lia.
  - congruence.
  - pose proof sizeof_raid_le. destruct offset_bounds as (O1 & O2 & O3 & _).
    unfold sizeof_raid, f_cached_data_disks in *. pose proof fits_lo.
    assert (HB : BLOCKSIZE = 512) by done. assert (HP : PGSIZE = 4096) by done.
    eapply same_disks_trans; [done|]. eapply same_disks_trans; eapply same_disks_changes; try done.
    + rewrite E1. unfold in_range. lia.
    + unfold pointers_area, in_range, f_cached_data_disks. rewrite E2, E1. lia.
Qed.

(** ** The final loop: metadata to every disk *)

Lemma wp_set_slot_same s i (Q : unit → machine D → Prop) :
  raid_page s → 0 ≤ i < DISKS →
  (∀ s', changes (λ _, False) s s' → vdisk s' = vdisk s → Q tt s') →
  wp (set_slot i (slot_addr s i)) Q s.
Proof.
  intros Hp Hi HQ. pose proof fits_lo. pose proof fits_hi. pose proof sizeof_raid_le as Hsz.
  pose proof etext_ge. pose proof (rp_lo s Hp). pose proof (rp_hi s Hp).
  assert (HB : BLOCKSIZE = 512) by done. assert (HP : PGSIZE = 4096) by done.
  destruct offset_bounds as (O1 & O2 & O3 & _). unfold sizeof_raid, f_cached_data_disks in Hsz.
  unfold set_slot. wp_steps. apply wp_store; [unfold f_cached_data_disks; solve_range|].
  apply HQ; [|done]. destruct (rp_env s Hp) as [Em Ed Eb].
  split; [split; [cbn; auto|done..]|by split|]. intros x Ho _. cbn. rewrite <- (rp_slot s Hp i Hi).
  by apply st_ld_same.
Qed.

Lemma wp_save_all s (Q : unit → machine D → Prop) :
  raid_page s → (∀ id, 1 ≤ id ≤ DISKS → in_device (vdisk s) id 0) →
  (∀ s', changes (λ _, False) s s' → (∀ id b, b ≠ 0 → block s' id b = block s id b) → Q tt s') →
  wp (for_ 1 (DISKS + 1) (λ i,
        p ← gets raid_metadata;
        set_slot (i - 1) (p + BLOCKSIZE * i);;
        write_block i 0 p)) Q s.
Proof.
  intros Hp Hin HQ. pose proof fits_lo. pose proof fits_hi. pose proof etext_ge.
  pose proof (rp_lo s Hp). pose proof (rp_hi s Hp).
  apply (wp_for_post (λ _ s', changes (λ _, False) s s'
                        ∧ ∀ id b, b ≠ 0 → block s' id b = block s id b)); [lia| | |].
  { split; [apply changes_refl, Hp|done]. }
  2: { intros s' [? ?]. auto. }
  intros i s' Hi [Hc Hb]. destruct (quiet_changes _ _ Hc Hp) as (Hp' & Hf' & _).
  wp_steps. replace (raid_metadata s' + BLOCKSIZE * i) with (slot_addr s' (i - 1))
    by (unfold slot_addr; lia).
  apply wp_set_slot_same; [done|lia|]. intros s2 Hc2 Hv2.
  destruct (quiet_changes _ _ Hc2 Hp') as (Hp2 & _).
  pose proof (changes_trans _ _ _ _ Hc Hc2) as Hc02. pose proof (ch_globals _ _ _ Hc02) as Hg.
  rewrite <- (same_raid_metadata _ _ (ch_globals _ _ _ Hc2)).
  rewrite (same_raid_metadata _ _ Hg).
  apply wp_write_changes; [apply Hp2|lia|eapply in_device_same; [done|apply Hin; lia]|solve_range| |].
  { eapply outside_same; [done|]. eapply outside_sub; [apply Hp|lia|unfold PGSIZE, BSIZE; lia]. }
  intros s3 Hc3 Hb3. split; [by eapply changes_trans|]. intros id b Hne. rewrite Hb3.
  rewrite decide_False by tauto. rewrite <- Hb by done. unfold block. by rewrite Hv2.
Qed.

(** ** [init_raid] for the parity levels *)

(** The header [init_raid] leaves for a parity level. *)
Record parity_header s (t : Z) : Prop := {
  ph_init : fld s f_raid_initialized = 1;
  ph_type : fld s f_type = t;
  ph_num : fld s f_num_of_disks = (if t =? RAID4 then DISKS - 1 else DISKS);
  ph_dead : fld s f_num_dead_disks = 0;
  ph_max : fld s f_max_dead_disks = 2;
  ph_state k : 0 ≤ k < DISKS → fld s (f_disk_state k) = ALIVE;
  ph_parity : t = RAID4 → fld s f_parity_disk = DISKS - 1;
  ph_cache : fld s f_cache_stripe = NONE;
  ph_blocks : fld s f_max_blocks = u32 (DISKS * (DISK_SIZE / BLOCKSIZE - 1));
}.

Lemma parity_header_of s F t :
  hdr s F → t = RAID4 ∨ t = RAID5 →
  F f_raid_initialized = 1 → F f_type = t →
  F f_num_of_disks = (if t =? RAID4 then DISKS - 1 else DISKS) →
  F f_num_dead_disks = 0 → F f_max_dead_disks = 2 →
  (∀ k, 0 ≤ k < DISKS → F (f_disk_state k) = 0) →
  (t = RAID4 → F f_parity_disk = DISKS - 1) → F f_cache_stripe = NONE →
  F f_max_blocks = u32 (DISKS * (DISK_SIZE / BLOCKSIZE - 1)) → parity_header s t.
Proof.
  intros Hh Ht H1 H2 H3 H4 H5 H6 H7 H8 H9.
  split; intros; rewrite (hd_fld _ _ Hh) by hdr_arith; auto.
Qed.

Lemma wp_init_parity t s p L (Q : Z → machine D → Prop) :
  blank s p L → t = RAID4 ∨ t = RAID5 →
  (∀ s', raid_page s' → raid_metadata s' = p → parity_header s' t →
     transfer_buffer s' = transfer_buffer s →
     (∀ id, bd_sectors (vdisk s') id = bd_sectors (vdisk s) id) →
     (∀ id b, b ≠ 0 → block s' id b = block s id b) →
     (∀ x, outside s x 1 → ¬ in_range p PGSIZE x → phys s' !!! x = phys s !!! x) → Q 0 s') →
  wp (init_raid t) Q s.
Proof.
  intros Hbl Ht HQ. pose proof fits_lo. pose proof fits_hi.
  unfold init_raid. wp_step. eapply wp_fetch_blank; [done|].
  intros s1 Hh1 Er1 Hd1.
  pose proof (header_only_refl s1 (rp_env _ (hd_page _ _ Hh1))) as Ho1.
  do 6 hset. hget. hset.
  wp_step. eapply (wp_mono _ (λ _ s', raid_page s' ∧ parity_header s' t ∧ header_only s1 s')).
  { destruct Ht as [-> | ->]; cbn [Z.eqb Pos.eqb RAID0_1 RAID1 RAID4 RAID5].
    - hset. hset. hget. hset. split_and!; [by eapply hd_page| |done].
      eapply parity_header_of; [done|by left|..]; intros; unfold fresh; hfield; rewrite ?(u32_small DISKS), ?u32_small by lia; done.
    - hset. split_and!; [by eapply hd_page| |done].
      eapply parity_header_of; [done|by right|..]; intros; unfold fresh; hfield; rewrite ?(u32_small DISKS), ?u32_small by lia; done. }
  intros [] sf (Hp2 & Hph & [Hc2 Hv2]). wp_step.
  assert (Hd2 : same_disks p s1 sf).
  { eapply same_disks_changes; [done| |done]. rewrite Er1. destruct offset_bounds as (O1 & _).
    unfold in_range, BLOCKSIZE, PGSIZE in *. lia. }
  pose proof (same_disks_trans _ _ _ _ Hd1 Hd2) as [Ht2 Hs2 Hb2 Hm2].
  apply wp_save_all; [done| |].
  { intros id Hid. destruct (bl_dev _ _ _ Hbl id Hid) as (?&?&?). split; [done|]. by rewrite Hs2. }
  intros sg Hc3 Hb3. wp_step. destruct (quiet_changes _ _ Hc3 Hp2) as (Hp3 & Hf3 & _).
  pose proof (ch_globals _ _ _ Hc3) as [_ Er3 Ht3 Hs3].
  apply HQ; [done| | |congruence|intros; by rewrite Hs3|intros; by rewrite Hb3|].
  - rewrite Er3, (same_raid_metadata _ _ (ch_globals _ _ _ Hc2)). done.
  - destruct Hph. split; intros; rewrite Hf3 by hdr_arith; auto.
  - intros x Hx1 Hx2. rewrite (ch_mem _ _ _ Hc3); [by apply Hm2|by eapply outside_buf|auto].
Qed.
End init.

(** ** From blank disks to the abstract store *)

Section blank.
Context `{COK : ConfigOk} {FP : FitsPage C} {D : Type} `{BDL : BlockDeviceLaws D}.
Context (pt va a n : Z).
Implicit Types (s : machine D).

Definition zero_store (n : Z) : astore := AStore (λ _, replicate (Z.to_nat n) 0) None.

(** The machine before the array exists: free memory whose first page is [p],
    disks of [maxst + 1] blocks that hold zeros, and a caller whose buffer and
    page table lie apart from the page and the transfer buffers. *)
Record blank_machine (maxst : Z) s (p : Z) (L : list Z) : Prop := {
  bm_blank : blank s p L;
  bm_max : 1 ≤ maxst < 2 ^ 31 - 1;
  bm_dev id st : 1 ≤ id ≤ DISKS → 0 ≤ st ≤ maxst → in_device (vdisk s) id st;
  bm_zero id b : 1 ≤ id ≤ DISKS → 0 ≤ b ≤ maxst → block s id b = zero_block;
  bm_lo : etext ≤ a;
  bm_hi : a + n ≤ PHYSTOP;
  bm_out : outside s a n;
  bm_apart : a + n ≤ p ∨ p + PGSIZE ≤ a;
  bm_va : va ≠ 0;
  bm_map : ∃ pa, mapping (phys s) pt va pa ∧ a = Z.lor pa (Z.land va (PGSIZE - 1));
  bm_words x : x ∈ pte_words (phys s) pt va →
    outside s x 8 ∧ ∀ y, in_range x 8 y → ¬ in_range p PGSIZE y ∧ ¬ in_range a n y;
}.

Lemma created_map maxst s p L s' :
  blank_machine maxst s p L → raid_metadata s' = p → transfer_buffer s' = transfer_buffer s →
  (∀ x, outside s x 1 → ¬ in_range p PGSIZE x → phys s' !!! x = phys s !!! x) →
  user_map pt va a n s'.
Proof.
  intros Hbm Er Et Hm. pose proof (bm_words _ _ _ _ Hbm) as Hw.
  assert (Hld : ∀ x, x ∈ pte_words (phys s) pt va → ld 8 (phys s') x = ld 8 (phys s) x).
  { intros x Hx. destruct (Hw x Hx) as [Ho Hd]. unfold ld. f_equal. apply read_bytes_ext.
    intros y Hy. apply Hm; [eapply outside_sub; [done|lia|lia]|]. apply Hd. unfold in_range. lia. }
  pose proof (pte_words_frame _ _ _ _ Hld) as E. destruct (bm_map _ _ _ _ Hbm) as (pa & Hpa & Ea).
  split; rewrite ?E; [apply Hbm|exists pa; split; [by eapply mapping_frame|done]|..].
  - intros x Hx. eapply outside_buf; [done|by apply Hw].
  - intros x Hx y Hy. unfold op_area. rewrite Er. destruct (Hw x Hx) as [_ Hd].
    specialize (Hd y Hy). tauto.
Qed.
End blank.

Section create.
Context `{COK : ConfigOk} {FP : FitsPage C} {D : Type} `{BDL : BlockDeviceLaws D}.
Context {PL : ParityLevel D} {PLL : ParityLevelLaws D PL}.
Context (pt va a : Z).
Implicit Types (s : machine D).

Abbreviation blank_machine := (blank_machine pt va a BLOCKSIZE).
Abbreviation zero_store := (zero_store BLOCKSIZE).

Lemma zero_halves :
  fst_half zero_block = replicate (Z.to_nat BLOCKSIZE) 0
  ∧ snd_half zero_block = replicate (Z.to_nat BLOCKSIZE) 0.
Proof. by split; vm_compute. Qed.

Lemma xsum_zero n f : (∀ k, 0 ≤ k < Z.of_nat n → f k = 0) → xsum n f = 0.
Proof.
  intros Hf. rewrite (xsum_ext n f (λ _, 0)) by done.
  clear Hf. induction n as [|n IH]; [done|]. cbn. by rewrite IH.
Qed.

Lemma zero_content maxst : content_ok maxst (λ _ _, replicate (Z.to_nat BLOCKSIZE) 0).
Proof.
  split; [intros; apply length_replicate|]. intros st i _ Hi.
  apply xsum_zero. intros k _. apply lookup_total_replicate_2. unfold BLOCKSIZE in *. lia.
Qed.

Lemma created_level maxst s p L s' :
  blank_machine maxst s p L → raid_page s' → parity_header s' pl_type →
  (∀ id, bd_sectors (vdisk s') id = bd_sectors (vdisk s) id) →
  (∀ id b, b ≠ 0 → block s' id b = block s id b) →
  level_ok maxst s' (λ _ _, replicate (Z.to_nat BLOCKSIZE) 0).
Proof.
  intros Hbm Hp Hph Hsec Hblk. pose proof fits_lo.
  assert (Hin : ∀ id st, 1 ≤ id ≤ DISKS → 0 ≤ st ≤ maxst → in_device (vdisk s') id st).
  { intros id st Hid Hst. destruct (bm_dev _ _ _ _ _ _ _ _ Hbm id st Hid Hst) as (?&?&?).
    split; [done|]. by rewrite Hsec. }
  split; [apply Hph| |left; apply Hph].
  split; [|apply zero_content|..].
  - pose proof (bm_max _ _ _ _ _ _ _ _ Hbm). split; [done|..].
    + unfold parity_layout. rewrite (ph_type _ _ Hph), (ph_num _ _ Hph).
      destruct pl_kind as [[E _]|E]; rewrite E; [left|by right].
      split_and!; [done|done|]. by apply (ph_parity _ _ Hph).
    + rewrite (ph_type _ _ Hph). destruct pl_kind as [[_ E]|E]; [done|by rewrite E].
    + rewrite (ph_dead _ _ Hph), (ph_max _ _ Hph). lia.
    + intros k k' Hk _ Hd. unfold dead in Hd. by rewrite (ph_state _ _ Hph) in Hd.
    + lia.
    + intros. apply pl_pf_range.
    + intros id st Hid Hst. apply Hin; unfold in_stripes in *; lia.
    + intros id Hid. apply Hin; lia.
  - intros st k Hst Hk _. unfold in_stripes in Hst. rewrite Hblk, (bm_zero _ _ _ _ _ _ _ _ Hbm) by lia.
    apply zero_halves.
  - intros st Hst Hlt _. unfold in_stripes in Hst. pose proof (pl_pf_range st).
    rewrite Hblk, (bm_zero _ _ _ _ _ _ _ _ Hbm) by lia. apply zero_halves.
Qed.

Lemma wp_create maxst s p L :
  blank_machine maxst s p L → (DISKS - 1) * maxst ≤ u32 (DISKS * (DISK_SIZE / BLOCKSIZE - 1)) →
  wp (init_raid pl_type) (λ r s', r = 0 ∧ represents pt va a maxst s' zero_store) s.
Proof.
  intros Hbm Hcap. pose proof fits_lo. eapply wp_init_parity; [apply Hbm| |].
  { destruct pl_kind as [[E _]|E]; rewrite E; auto. }
  intros s' Hp Er Hph Et Hsec Hblk Hm. split; [done|]. split.
  - exists (λ _ _, replicate (Z.to_nat BLOCKSIZE) 0). split; [by eapply created_level|done].
  - split; [apply Hbm|apply Hbm|eapply outside_buf; [done|apply Hbm]|]. rewrite Er. apply Hbm.
  - by eapply created_map.
  - apply Hph.
  - intros b [Hb Hst]. rewrite (ph_blocks _ _ Hph).
    pose proof (pl_stripe_bound b (proj1 Hb)). nia.
  - split; apply Hph.
  - intros k Hk. unfold dead. rewrite (ph_state _ _ Hph) by done. done.
Qed.

(** Creating the array and running any allowed sequence of operations gives
    the results of the abstract store. *)
Lemma create_refines maxst s p L l :
  blank_machine maxst s p L → (DISKS - 1) * maxst ≤ u32 (DISKS * (DISK_SIZE / BLOCKSIZE - 1)) →
  allowed_run maxst zero_store l →
  ∃ s', (r ← init_raid pl_type; rs ← run pt va a BLOCKSIZE l; ret (r, rs)) s
        = Done ((0, (spec_run zero_store l).1), s')
      ∧ represents pt va a maxst s' (spec_run zero_store l).2.
Proof.
  intros Hbm Hcap Hal.
  assert (Hw : wp (r ← init_raid pl_type; rs ← run pt va a BLOCKSIZE l; ret (r, rs))
    (λ o s', o = (0, (spec_run zero_store l).1)
             ∧ represents pt va a maxst s' (spec_run zero_store l).2) s).
  { wp_step. eapply wp_mono; [by eapply wp_create|]. intros r s1 [-> Hr].
    wp_step. eapply wp_mono; [by eapply run_refines|]. intros rs s2 [-> Hr2]. by wp_step. }
  apply wp_inv in Hw as (o & s' & E & -> & Hr). by exists s'.
Qed.
End create.
