(* ===== verification/RaidMirror.v ===== *)
(** * RAID 1 and RAID 0+1

    Block [b] lives in stripe [b / NP + 1] of the pair [b mod NP], [NP] the number
    of pairs, once per disk of the pair.  The theorems cover an even number of
    disks (no reserve disk) and at most one failure; a read or a write moves
    BSIZE bytes, twice the block size the interface announces.  After a failure
    the pair's copy index is -1 and the routines look at [disk_state[-2]], which
    is [num_dead_disks]: with one dead disk that word happens to be DEAD. *)

From S2P Require Import Prelude Machine Kalloc BlockDev Vm VmFacts Raid RaidFacts RaidParity RaidHeader RaidSpec.

Section mirror.
Context `{COK : ConfigOk} {FP : FitsPage C} {D : Type} `{BDL : BlockDeviceLaws D}.
Context (t : Z) (Ht : t = RAID1 ∨ t = RAID0_1).
Context (even : DISKS mod 2 = 0).
Context (pt va a : Z).
Implicit Types (s : machine D) (B : astore).

Abbreviation NP := (DISKS / 2).

Definition m_stripe (b : Z) : Z := b / NP + 1.
Definition m_pair (b : Z) : Z := b mod NP.
Definition m_valid (maxst b : Z) : Prop := 0 ≤ b < 2 ^ 31 ∧ m_stripe b ≤ maxst.

(** The roles in pair [k] when disk [f] has failed. *)
Definition data_role (f : option Z) (k : Z) : Z := if decide (f = Some (k + 1)) then k + 1 + NP else k + 1.
Definition copy_role (f : option Z) (k : Z) : Z :=
  if decide (f = Some (k + 1) ∨ f = Some (k + 1 + NP)) then NONE else k + 1 + NP.

Record mirror (maxst : Z) s B : Prop := {
  mi_page : raid_page s;
  mi_buf : user_buf s a BSIZE;
  mi_map : user_map pt va a BSIZE s;
  mi_init : fld s f_raid_initialized = 1;
  mi_type : fld s f_type = t;
  mi_num : fld s f_num_of_disks = NP;
  mi_count : fld s f_num_dead_disks = (if failed B is Some _ then 1 else 0);
  mi_reserve : fld s f_reserve_disk = NONE;
  mi_dead k : 0 ≤ k < DISKS → dead s k ↔ failed B = Some (k + 1);
  mi_data k : 0 ≤ k < NP → fld s (f_data_disks k) = data_role (failed B) k;
  mi_copy k : 0 ≤ k < NP → fld s (f_copy_disks k) = copy_role (failed B) k;
  mi_max b : m_valid maxst b → b < fld s f_max_blocks;
  mi_stripes : 0 ≤ maxst < 2 ^ 31 - 1;
  mi_dev id b : 1 ≤ id ≤ DISKS → 0 ≤ b ≤ maxst → in_device (vdisk s) id b;
  mi_blocks b e : m_valid maxst b → e = m_pair b + 1 ∨ e = m_pair b + 1 + NP →
    ¬ dead s (e - 1) → block s e (m_stripe b) = blocks B b;
}.

Lemma half : 2 * NP = DISKS ∧ 1 ≤ NP.
Proof. pose proof fits_lo. dlia. Qed.

(** The offsets of the header fields used here. *)
Lemma mirror_offsets k : 0 ≤ k < NP →
  0 ≤ f_data_disks k ∧ f_data_disks k + 4 ≤ f_parity_disk
  ∧ 0 ≤ f_copy_disks k ∧ f_copy_disks k + 4 ≤ f_parity_disk.
Proof. destruct half as [? ?]. intros. offsets. lia. Qed.

Lemma m_pair_range b : 0 ≤ b → 0 ≤ m_pair b < NP.
Proof. destruct half as [_ ?]. intros. apply Z.mod_pos_bound. lia. Qed.

Lemma m_stripe_range maxst b : m_valid maxst b → 1 ≤ m_stripe b ≤ maxst.
Proof.
  destruct half as [_ ?]. intros [Hb Hs]. split; [|done]. unfold m_stripe.
  assert (0 ≤ b / NP) by (apply Z.div_pos; lia). lia.
Qed.

(** The disk of the first role is alive. *)
Lemma data_role_alive maxst s B k :
  mirror maxst s B → 0 ≤ k < NP →
  1 ≤ data_role (failed B) k ≤ DISKS ∧ ¬ dead s (data_role (failed B) k - 1)
  ∧ (data_role (failed B) k = k + 1 ∨ data_role (failed B) k = k + 1 + NP).
Proof.
  intros Hm Hk. destruct half as [Hh _]. unfold data_role. case_decide as Hd.
  - split_and!; [lia..| |by right]. rewrite (mi_dead _ _ _ Hm) by lia. rewrite Hd. intros [=]. lia.
  - split_and!; [lia..| |by left]. rewrite (mi_dead _ _ _ Hm) by lia.
    intros E. apply Hd. rewrite E. f_equal. lia.
Qed.


(** The common part of the routines: the roles of the pair and the stripe. *)
Lemma wp_mirror_locate {R} maxst s B b (k : Z → Z → Z → M (machine D) R) Q :
  mirror maxst s B → m_valid maxst b →
  wp (k (data_role (failed B) (m_pair b)) (s32 (copy_role (failed B) (m_pair b))) (m_stripe b)) Q s →
  wp (num ← get_f f_num_of_disks;
      disk_index ← umod b num;
      dd ← get_f (f_data_disks disk_index);
      cd ← get_f (f_copy_disks disk_index);
      q ← udiv b num;
      k (s32 dd) (s32 cd) (s32 (q + 1))) Q s.
Proof.
  intros Hm Hb HQ. pose proof (mi_page _ _ _ Hm) as Hp. pose proof Hb as [Hb1 Hb2].
  destruct half as [Hh Hh1]. pose proof fits_hi.
  pose proof (m_pair_range b (proj1 Hb1)) as Hpr. pose proof (m_stripe_range _ _ Hb) as Hsr.
  destruct (mirror_offsets (m_pair b) Hpr) as (O1 & O2 & O3 & O4). destruct low_offsets as (_ & L2 & _).
  wp_step. apply wp_get_low; [done..|]. rewrite (mi_num _ _ _ Hm).
  wp_step. apply wp_umod; [lia|]. fold (m_pair b).
  wp_step. apply wp_get_low; [done..|]. rewrite (mi_data _ _ _ Hm) by done.
  wp_step. apply wp_get_low; [done..|]. rewrite (mi_copy _ _ _ Hm) by done.
  wp_step. apply wp_udiv; [lia|]. fold (m_stripe b).
  rewrite (s32_small (m_stripe b)) by (pose proof (mi_stripes _ _ _ Hm); lia).
  destruct (data_role_alive _ _ _ _ Hm Hpr) as (Hr & _).
  by rewrite (s32_small (data_role _ _)) by lia.
Qed.

Lemma wp_alive_test s e (Q : Z → machine D → Prop) :
  raid_page s → 1 ≤ e ≤ DISKS → (∀ v, v = fld s (f_disk_state (e - 1)) → Q v s) →
  wp (get_f (f_disk_state (e - 1))) Q s.
Proof.
  intros Hp He HQ. destruct offset_bounds as (O1 & O2 & O3 & O4).
  destruct (O4 (e - 1)) as [? ?]; [lia|]. apply wp_get_low; [done..|]. by apply HQ.
Qed.

(** What the routines do once the disks and the stripe are known. *)
Definition read_pair (diskn copy_diskn blkn : Z) : M (machine D) Z :=
  st ← get_f (f_disk_state (diskn - 1));
  if negb (st =? DEAD) then read_block diskn blkn a;; ret 0
  else
    st' ← get_f (f_disk_state (copy_diskn - 1));
    if negb (st' =? DEAD) then read_block copy_diskn blkn a;; ret 0
    else ret (-1).

Definition write_pair (diskn copy_diskn blkn : Z) : M (machine D) Z :=
  st ← get_f (f_disk_state (diskn - 1));
  flag ← (if negb (st =? DEAD) then write_block diskn blkn a;; ret true
          else ret false);
  st' ← get_f (f_disk_state (copy_diskn - 1));
  flag ← (if negb (st' =? DEAD) then write_block copy_diskn blkn a;; ret true
          else ret flag);
  if negb flag then ret (-1) else ret 0.

Lemma wp_mirror_read maxst s B b :
  mirror maxst s B → m_valid maxst b →
  wp (read_raid1 b a) (λ r s', r = 0 ∧ changes (in_range a BSIZE) s s'
    ∧ (∀ id b, block s' id b = block s id b)
    ∧ read_bytes (phys s') a (Z.to_nat BSIZE) = blocks B b) s.
Proof.
  intros Hm Hb. pose proof (mi_page _ _ _ Hm) as Hp. pose proof etext_ge.
  pose proof (m_pair_range b (proj1 (proj1 Hb))) as Hpr. pose proof (m_stripe_range _ _ Hb) as Hsr.
  destruct (data_role_alive _ _ _ _ Hm Hpr) as (Hr & Hal & Hor).
  destruct (mi_buf _ _ _ Hm) as [U1 U2 U3 U4].
  apply (wp_mirror_locate maxst s B b read_pair); [done..|]. unfold read_pair. wp_step.
  apply wp_alive_test; [done..|]. intros v ->. rewrite (proj2 (Z.eqb_neq _ _) Hal). cbn [negb].
  wp_step. apply wp_read_changes; [apply Hp|done|apply (mi_dev _ _ _ Hm); lia|solve_range|done|].
  intros s' Hc Hrd Hblk. wp_step. split_and!; [done..|].
  rewrite Hrd. by apply (mi_blocks _ _ _ Hm).
Qed.

(** Which disks of a pair are alive. *)
Lemma pair_alive maxst s B k e :
  mirror maxst s B → 0 ≤ k < NP → e = k + 1 ∨ e = k + 1 + NP →
  ¬ dead s (e - 1) ↔ e = data_role (failed B) k ∨ e = copy_role (failed B) k.
Proof.
  intros Hm Hk He. destruct half as [Hh _]. pose proof fits_hi. assert (HN : NONE = 2 ^ 32 - 1) by done.
  rewrite (mi_dead _ _ _ Hm) by lia. unfold data_role, copy_role. rewrite Z.sub_add.
  destruct (failed B) as [f|].
  - repeat case_decide; rewrite ?(inj_iff Some) in *; lia.
  - rewrite !decide_False by (intuition congruence). intuition (congruence || lia).
Qed.

(** After a write every live disk of the pair holds the buffer. *)
Lemma wp_mirror_write maxst s B b :
  mirror maxst s B → m_valid maxst b →
  wp (write_raid1 b a) (λ r s', r = 0 ∧ changes (λ _, False) s s'
    ∧ ∀ e st, block s' e st =
        if decide (1 ≤ e ≤ DISKS ∧ ¬ dead s (e - 1) ∧ (e = m_pair b + 1 ∨ e = m_pair b + 1 + NP)
                   ∧ st = m_stripe b)
        then read_bytes (phys s) a (Z.to_nat BSIZE) else block s e st) s.
Proof.
  intros Hm Hb. pose proof (mi_page _ _ _ Hm) as Hp. pose proof etext_ge.
  pose proof (m_pair_range b (proj1 (proj1 Hb))) as Hpr. pose proof (m_stripe_range _ _ Hb) as Hsr.
  destruct (data_role_alive _ _ _ _ Hm Hpr) as (Hr & Hal & Hor).
  destruct (mi_buf _ _ _ Hm) as [U1 U2 U3 U4]. destruct half as [Hh Hh1].
  apply (wp_mirror_locate maxst s B b write_pair); [done..|]. unfold write_pair. wp_step.
  apply wp_alive_test; [done..|]. intros v ->. rewrite (proj2 (Z.eqb_neq _ _) Hal). cbn [negb].
  wp_step. wp_step. apply wp_write_changes; [apply Hp|done|apply (mi_dev _ _ _ Hm); lia|solve_range|done|].
  intros s1 Hc1 Hb1. wp_steps. destruct (quiet_changes _ _ Hc1 Hp) as (Hp1 & Hf1 & _).
  set (k := m_pair b) in *. set (e1 := data_role (failed B) k) in *.
  assert (Hal2 : ∀ e, e = k + 1 ∨ e = k + 1 + NP →
    ¬ dead s (e - 1) ↔ e = e1 ∨ e = copy_role (failed B) k) by (intros; by eapply pair_alive).
  destruct (decide (failed B = Some (k + 1) ∨ failed B = Some (k + 1 + NP))) as [Hf|Hf].
  - assert (Ec : copy_role (failed B) k = NONE) by by apply decide_True.
    rewrite Ec in *. change (f_disk_state (s32 NONE - 1)) with f_num_dead_disks.
    destruct low_offsets as (_ & _ & L3 & _). destruct offset_bounds as (O1 & O2 & O3 & _).
    apply wp_get_low; [done..|]. rewrite Hf1, (mi_count _ _ _ Hm) by (done || unfold BLOCKSIZE, PGSIZE in *; lia).
    replace (if failed B is Some _ then 1 else 0) with 1 by (by destruct Hf as [-> | ->]).
    cbn [negb Z.eqb Pos.eqb DEAD]. wp_steps. split_and!; [done..|].
    intros e st. rewrite Hb1. apply if_decide_ext. split; [intros [-> ->]; tauto|].
    intros (He & Hn & Hor' & ->). apply Hal2 in Hn as [->| ->]; [done| |done]. unfold NONE in *.
    pose proof fits_hi. lia.
  - assert (Ec : copy_role (failed B) k = k + 1 + NP) by by apply decide_False.
    rewrite Ec in *. pose proof fits_hi. rewrite (s32_small (k + 1 + NP)) by lia.
    assert (Hal3 : ¬ dead s (k + 1 + NP - 1)) by (apply Hal2; auto).
    apply wp_alive_test; [done|lia|]. intros v ->.
    destruct offset_bounds as (O1 & O2 & O3 & O4). destruct (O4 (k + 1 + NP - 1)) as [? ?]; [lia|].
    rewrite Hf1 by (done || unfold BLOCKSIZE, PGSIZE in *; lia).
    rewrite (proj2 (Z.eqb_neq _ _) Hal3). cbn [negb]. wp_steps.
    apply wp_write_changes; [apply Hp1|lia| |solve_range|eapply outside_same; [apply Hc1|done]|].
    { eapply in_device_same; [apply Hc1|]. apply (mi_dev _ _ _ Hm); lia. }
    intros s2 Hc2 Hb2. wp_steps. split_and!; [done|by eapply changes_trans|].
    intros e st. rewrite Hb2, Hb1.
    assert (Hrd : read_bytes (phys s1) a (Z.to_nat BSIZE) = read_bytes (phys s) a (Z.to_nat BSIZE))
      by (eapply changes_read; [done|done|tauto]).
    assert (He1 : e1 = k + 1) by (apply decide_False; tauto).
    rewrite Hrd. destruct (decide (st = m_stripe b ∧ (e = k + 1 ∨ e = k + 1 + NP))) as [[-> He]|Hn].
    + rewrite (decide_True (P := 1 ≤ e ≤ DISKS ∧ _))
        by (split_and!; [lia|lia|apply Hal2; [done|lia]|done|done]).
      repeat case_decide; (done || lia).
    + rewrite !decide_False by (intros ?; apply Hn; intuition lia). done.
Qed.

(** ** Simulation of the store *)

Lemma user_changes_fld s s' off :
  raid_page s → user_buf s a BSIZE → changes (in_range a BSIZE) s s' →
  0 ≤ off → off + 4 ≤ PGSIZE → fld s' off = fld s off.
Proof.
  intros Hp [_ _ _ Hub] Hc H1 H2. eapply changes_fld; [done..|]. unfold in_range. lia.
Qed.

Lemma user_changes_page s s' :
  raid_page s → user_buf s a BSIZE → changes (in_range a BSIZE) s s' → raid_page s'.
Proof.
  intros Hp [_ _ _ Hub] Hc. eapply changes_page; [done..|]. intros i x Hi.
  pose proof sizeof_raid_le. destruct offset_bounds as (? & ? & ? & _).
  unfold sizeof_raid, f_cached_data_disks, in_range, BLOCKSIZE, PGSIZE in *. lia.
Qed.

Ltac field_bound :=
  destruct offset_bounds as (? & ? & ? & _); unfold BLOCKSIZE, PGSIZE in *; offsets; dlia.

Lemma mirror_step maxst s s' B B' :
  mirror maxst s B → changes (in_range a BSIZE) s s' → failed B' = failed B →
  (∀ b e, m_valid maxst b → e = m_pair b + 1 ∨ e = m_pair b + 1 + NP → ¬ dead s (e - 1) →
     block s' e (m_stripe b) = blocks B' b) →
  mirror maxst s' B'.
Proof.
  intros Hm Hc Hfb Hblk. destruct half as [Hh Hh1]. pose proof fits_hi.
  pose proof Hm as [Hp Hub Hum Hi Hty Hn Hcn Hrs Hdd Hda Hco Hmx Hst Hdev Hbl].
  assert (Hf : ∀ off, 0 ≤ off → off + 4 ≤ PGSIZE → fld s' off = fld s off)
    by (intros; by eapply user_changes_fld).
  pose proof (ch_globals _ _ _ Hc) as Hg.
  assert (Hdd' : ∀ k, 0 ≤ k < DISKS → dead s' k ↔ dead s k)
    by (intros k Hk; unfold dead; rewrite Hf by field_bound; done).
  split; rewrite ?Hfb.
  - by eapply user_changes_page.
  - by eapply user_buf_same.
  - eapply user_map_changes; [done|by apply user_op].
  - rewrite Hf by field_bound. done.
  - rewrite Hf by field_bound. done.
  - rewrite Hf by field_bound. done.
  - rewrite Hf by field_bound. done.
  - rewrite Hf by field_bound. done.
  - intros k Hk. by rewrite Hdd', Hdd.
  - intros k Hk. rewrite Hf by field_bound. by apply Hda.
  - intros k Hk. rewrite Hf by field_bound. by apply Hco.
  - intros b Hb. rewrite Hf by field_bound. by apply Hmx.
  - done.
  - intros. eapply in_device_same; [done|by apply Hdev].
  - intros b e Hb He Hnd. pose proof (m_pair_range b (proj1 (proj1 Hb))).
    rewrite Hdd' in Hnd by lia. by apply Hblk.
Qed.

Lemma mirror_dispatch maxst s B b :
  mirror maxst s B → m_valid maxst b →
  read_raid pt b va s = read_raid1 b a s ∧ write_raid pt b va s = write_raid1 b a s.
Proof.
  intros Hm Hb. destruct (dispatch_eq pt va a BSIZE s b t) as [-> ->].
  - apply Hm.
  - apply Hm.
  - apply Hm.
  - apply Hb.
  - by apply (mi_max _ _ _ Hm).
  - apply Hm.
  - by destruct Ht as [-> | ->].
Qed.

Definition m_allowed (maxst : Z) B (o : op) : Prop :=
  match o with
  | ORead b => m_valid maxst b
  | OWrite b data => m_valid maxst b ∧ length data = Z.to_nat BSIZE ∧ bytes data
  | OFail d => 1 ≤ d ≤ DISKS ∧ failed B = None
  end.

Abbreviation msim maxst := (simulates pt va a BSIZE (mirror maxst)).

Lemma msim_read maxst s B b : mirror maxst s B → m_valid maxst b → msim maxst B (ORead b) s.
Proof.
  intros Hm Hb. unfold simulates. cbn [run_op spec_op fst snd]. wp_step.
  eapply wp_eq; [by apply (mirror_dispatch maxst s B)|].
  eapply wp_mono; [by apply (wp_mirror_read maxst s B)|]. intros r s' (-> & Hc & Hblk & Hrd).
  wp_steps. rewrite Hrd. split; [done|]. eapply mirror_step; [done..|].
  intros b' e Hb' He Hnd. rewrite Hblk. by apply (mi_blocks _ _ _ Hm).
Qed.

(** Different blocks have different places. *)
Lemma m_place_inj b b' : 0 ≤ b → 0 ≤ b' → m_stripe b = m_stripe b' → m_pair b = m_pair b' → b = b'.
Proof.
  destruct half as [_ ?]. unfold m_stripe, m_pair. intros ?? E1 E2.
  rewrite (Z.div_mod b NP), (Z.div_mod b' NP) by lia. rewrite E2. f_equal. f_equal. lia.
Qed.

Lemma msim_write maxst s B b data :
  mirror maxst s B → m_allowed maxst B (OWrite b data) → msim maxst B (OWrite b data) s.
Proof.
  intros Hm (Hb & Hl & Hby). unfold simulates. cbn [run_op spec_op fst snd]. wp_steps.
  set (s1 := set_phys (write_bytes (phys s) a data) s).
  assert (Hc : changes (in_range a BSIZE) s s1)
    by (apply fill_changes; [done|apply (mi_page _ _ _ Hm)|done..]).
  assert (Hm1 : mirror maxst s1 B)
    by (eapply mirror_step; [done..|]; intros; by apply (mi_blocks _ _ _ Hm)).
  assert (Hrd : read_bytes (phys s1) a (Z.to_nat BSIZE) = data) by by apply read_write_bytes_eq.
  eapply wp_eq; [by apply (mirror_dispatch maxst s1 B)|].
  eapply wp_mono; [by apply (wp_mirror_write maxst s1 B)|]. rewrite Hrd.
  intros r s2 (-> & Hc2 & Hblk). wp_step. split; [done|].
  eapply mirror_step; [exact Hm1|by eapply changes_mono|done|]. cbn [blocks].
  destruct half as [Hh _]. pose proof Hb as [[Hb1 _] _].
  intros b' e Hb' He Hnd. rewrite Hblk. pose proof Hb' as [[Hb1' _] _].
  pose proof (m_pair_range b' Hb1'). pose proof (m_pair_range b Hb1).
  destruct (decide (b' = b)) as [->|Hne].
  - rewrite fupd_eq, decide_True; [done|]. split_and!; [lia|lia|done|done|done].
  - rewrite fupd_ne, decide_False; [by apply (mi_blocks _ _ _ Hm1)| |done].
    intros (_ & _ & He' & Es). apply Hne. apply m_place_inj; [done..|]. lia.
Qed.

(** *** A disk fails *)

(** The search loop returns an index that holds [d], -1 for none. *)
Lemma wp_find_role f d s (Q : Z → machine D → Prop) :
  raid_page s → 0 ≤ fld s f_num_of_disks →
  (∀ i, 0 ≤ i < fld s f_num_of_disks → 0 ≤ f i ∧ f i + 4 ≤ PGSIZE) →
  (∀ r, (r = -1 ∧ ∀ i, 0 ≤ i < fld s f_num_of_disks → fld s (f i) ≠ u32 d)
        ∨ (0 ≤ r < fld s f_num_of_disks ∧ fld s (f r) = u32 d) → Q r s) →
  wp (find_role f d) Q s.
Proof.
  intros Hp Hn Hf HQ. destruct low_offsets as (_ & L2 & _).
  unfold find_role. wp_step. apply wp_get_low; [done..|].
  set (num := fld s f_num_of_disks) in *.
  eapply wp_mono; [apply (wp_for_acc (λ i r s', s' = s
    ∧ ((r = -1 ∧ ∀ j, 0 ≤ j < i → fld s (f j) ≠ u32 d) ∨ (0 ≤ r < num ∧ fld s (f r) = u32 d))));
    [done|split; [done|left; split; [done|lia]]|]|].
  - intros i r s' Hi [-> Hr]. destruct (Hf i Hi). wp_step. apply wp_get_f; [done..|]. wp_step.
    split; [done|]. destruct (Z.eqb_spec (fld s (f i)) (u32 d)) as [E|E].
    + right. split; [lia|done].
    + destruct Hr as [[-> Hr]|Hr]; [left|by right]. split; [done|]. intros j Hj.
      destruct (decide (j = i)) as [->|]; [done|apply Hr; lia].
  - intros r s' [-> Hr]. by apply HQ.
Qed.

Definition role_updates (d : Z) : M (machine D) unit :=
  primary ← find_role f_data_disks d;
  if negb (primary =? -1) then
    c ← get_f (f_copy_disks primary);
    set_f (f_data_disks primary) c;;
    set_f (f_copy_disks primary) (-1)
  else
    copy ← find_role f_copy_disks d;
    set_f (f_copy_disks copy) (-1).

(** The header after the roles are updated. *)
Definition after_roles (F : Z → Z) (d : Z) : Z → Z :=
  if decide (d ≤ NP)
  then fupd (fupd F (f_data_disks (d - 1)) (d + NP)) (f_copy_disks (d - 1)) NONE
  else fupd F (f_copy_disks (d - 1 - NP)) NONE.

Lemma wp_role_updates s F d (Q : unit → machine D → Prop) :
  hdr s F → fld s f_num_of_disks = NP → 1 ≤ d ≤ DISKS →
  (∀ k, 0 ≤ k < NP → fld s (f_data_disks k) = k + 1 ∧ fld s (f_copy_disks k) = k + 1 + NP) →
  (∀ s', hdr s' (after_roles F d) → header_only s s' → Q tt s') →
  wp (role_updates d) Q s.
Proof.
  intros Hh Hn Hd Hr HQ. destruct half as [Hh2 Hh1]. pose proof fits_hi.
  pose proof (hd_page _ _ Hh) as Hp. unfold role_updates, after_roles in *. wp_step.
  apply wp_find_role; [done|lia|intros; rewrite Hn in *; field_bound|].
  rewrite Hn. intros r Hor. rewrite u32_small in Hor by lia.
  pose proof (header_only_refl s (rp_env _ Hp)) as Ho.
  destruct Hor as [[-> Hno]|[Hr1 Hr2]].
  - assert (¬ d ≤ NP) by (intros ?; apply (Hno (d - 1)); [lia|]; destruct (Hr (d - 1)); lia).
    rewrite decide_False in HQ by done. cbn [negb Z.eqb Pos.eqb]. wp_step.
    apply wp_find_role; [done|lia|intros; rewrite Hn in *; field_bound|].
    rewrite Hn, u32_small by lia. intros c [[-> Hnc]|[Hc1 Hc2]].
    { exfalso. apply (Hnc (d - 1 - NP)); [lia|]. destruct (Hr (d - 1 - NP)); lia. }
    assert (c = d - 1 - NP) as -> by (destruct (Hr c Hc1); lia).
    hset. by apply HQ.
  - assert (r = d - 1) as -> by (destruct (Hr r Hr1); lia).
    rewrite decide_True in HQ by lia. rewrite (proj2 (Z.eqb_neq _ (-1))) by lia. cbn [negb].
    wp_step. apply wp_get_f; [done|field_bound..|]. destruct (Hr (d - 1)) as [_ ->]; [lia|].
    replace (d - 1 + 1 + NP) with (d + NP) by lia. hset. hset.
    rewrite (u32_small (d + NP)) in Hh by lia. by apply HQ.
Qed.

(** The whole routine on a healthy array. *)
Lemma wp_fail_mirror maxst s B d :
  mirror maxst s B → failed B = None → 1 ≤ d ≤ DISKS →
  wp (disk_fail_raid d) (λ r s', r = 0
    ∧ hdr s' (after_roles (fupd (fupd (fld s) (f_disk_state (d - 1)) DEAD) f_num_dead_disks 1) d)
    ∧ changes (op_area s a BSIZE) s s' ∧ ∀ id b, b ≠ 0 → block s' id b = block s id b) s.
Proof.
  intros Hm Hfb Hd. pose proof Hm as [Hp Hub Hum Hi Hty Hn Hcn Hrs Hdd Hda Hco _ Hst Hdev _].
  destruct half as [Hh2 Hh1]. pose proof fits_hi.
  rewrite Hfb in *. destruct offset_bounds as (O1 & O2 & O3 & O4).
  pose proof (hdr_fld s Hp) as Hh. pose proof (header_only_refl s (rp_env _ Hp)) as Ho.
  unfold disk_fail_raid. wp_step. eapply wp_done; [by apply not_initialized_eq|].
  rewrite (proj2 (Z.ltb_ge d 1)), Z.gtb_ltb, (proj2 (Z.ltb_ge DISKS d)) by lia. cbn [orb].
  assert (Hal : ¬ dead s (d - 1)) by (rewrite Hdd by lia; done).
  hget. rewrite (proj2 (Z.eqb_neq _ _) Hal).
  hset. hget. rewrite fupd_ne, Hcn by hdr_arith. hset.
  hget. rewrite !fupd_ne, Hty by hdr_arith.
  replace (has_parity_or_none t) with false by (by destruct Ht as [-> | ->]).
  hget. rewrite !fupd_ne, Hrs by hdr_arith. cbn [negb andb Z.eqb Pos.eqb NONE].
  change (u32 DEAD) with DEAD in *. change (u32 (0 + 1)) with 1 in *.
  apply (wp_ext (role_updates d;; writeback;; ret 0)).
  { intros s''. unfold role_updates. rewrite !bind_assoc. apply bind_ext. intros r s3.
    by destruct (negb (r =? -1)); rewrite !bind_assoc. }
  wp_step. eapply wp_role_updates; [exact Hh| |done| |].
  { rewrite (hd_fld _ _ Hh), !fupd_ne by hdr_arith. done. }
  { intros k Hk. rewrite !(hd_fld _ _ Hh), !fupd_ne by hdr_arith.
    rewrite Hda, Hco by done. done. }
  intros s4 Hh4 Ho4. pose proof (header_only_trans _ _ _ Ho Ho4) as Ho5.
  pose proof (header_op _ _ a BSIZE Ho5) as Hc5. pose proof (hd_page _ _ Hh4) as Hp4.
  wp_step. eapply wp_mono; [apply wp_writeback; [done|]|].
  { intros id Hid. eapply in_device_same; [apply (ch_globals _ _ _ Hc5)|]. apply Hdev; lia. }
  intros [] s5 [Hc6 Hb6]. wp_step. destruct (quiet_changes _ _ Hc6 Hp4) as (Hp6 & Hf6 & _).
  split_and!; [done| |eapply op_trans; [done|by eapply changes_mono]|].
  - split; [done|]. intros off Hal'. pose proof Hal' as (? & ? & ?).
    rewrite Hf6 by (unfold BLOCKSIZE, PGSIZE in *; lia). by apply (hd_fld _ _ Hh4).
  - intros id b Hb. rewrite Hb6 by done. by apply header_block.
Qed.

Lemma roles_some d k :
  data_role (Some d) k = (if decide (d = k + 1) then k + 1 + NP else k + 1)
  ∧ copy_role (Some d) k = (if decide (d = k + 1 ∨ d = k + 1 + NP) then NONE else k + 1 + NP).
Proof. split; apply if_decide_ext; rewrite !(inj_iff Some); done. Qed.

(** The header after a failure describes the array with that disk gone. *)
Lemma after_roles_data (F : Z → Z) d k :
  1 ≤ d ≤ DISKS → 0 ≤ k < NP → F (f_data_disks k) = k + 1 → F (f_copy_disks k) = k + 1 + NP →
  after_roles F d (f_data_disks k) = data_role (Some d) k
  ∧ after_roles F d (f_copy_disks k) = copy_role (Some d) k.
Proof.
  intros Hd Hk E1 E2. destruct half as [Hh Hh1].
  assert (HD : ∀ i j, f_data_disks i = f_data_disks j ↔ i = j) by (intros; offsets; lia).
  assert (HC : ∀ i j, f_copy_disks i = f_copy_disks j ↔ i = j) by (intros; offsets; lia).
  assert (HX : ∀ i j, 0 ≤ i < NP → 0 ≤ j → f_data_disks i ≠ f_copy_disks j) by (intros; offsets; lia).
  destruct (roles_some d k) as [-> ->]. unfold after_roles.
  case_decide as Hle; unfold fupd.
  - rewrite (proj2 (Z.eqb_neq (f_data_disks k) _)) by (apply HX; lia).
    rewrite (proj2 (Z.eqb_neq (f_copy_disks k) (f_data_disks _)))
      by (intros ?; eapply (HX (d - 1) k); lia).
    destruct (decide (d = k + 1)) as [->|Hne].
    + replace (k + 1 - 1) with k by lia. rewrite !Z.eqb_refl, decide_True by auto. lia.
    + rewrite (proj2 (Z.eqb_neq (f_data_disks k) _)) by (rewrite HD; lia).
      rewrite (proj2 (Z.eqb_neq (f_copy_disks k) _)) by (rewrite HC; lia).
      rewrite decide_False by lia. lia.
  - rewrite (proj2 (Z.eqb_neq (f_data_disks k) _)) by (apply HX; lia).
    rewrite (decide_False (P := d = k + 1)) by lia. split; [done|].
    destruct (decide (d = k + 1 + NP)) as [->|Hne].
    + replace (k + 1 + NP - 1 - NP) with k by lia. rewrite Z.eqb_refl, decide_True by auto. done.
    + rewrite (proj2 (Z.eqb_neq (f_copy_disks k) _)) by (rewrite HC; lia).
      rewrite decide_False by lia. done.
Qed.

Lemma after_roles_other (F : Z → Z) d off :
  1 ≤ d ≤ DISKS → off + 4 ≤ f_data_disks 0 ∨ f_reserve_disk ≤ off → after_roles F d off = F off.
Proof.
  intros Hd Ho. destruct half as [Hh Hh1]. unfold after_roles.
  case_decide; rewrite !fupd_ne; try done; offsets; lia.
Qed.

Lemma msim_fail maxst s B d : mirror maxst s B → m_allowed maxst B (OFail d) → msim maxst B (OFail d) s.
Proof.
  intros Hm (Hd & Hfb). destruct half as [Hh2 Hh1]. pose proof fits_hi.
  unfold simulates. cbn [run_op spec_op fst snd]. wp_step.
  eapply wp_mono; [by apply (wp_fail_mirror maxst s B)|]. intros r s' (-> & Hh & Hc & Hblk).
  wp_step. split; [done|].
  pose proof Hm as [Hp Hub Hum Hi Hty Hn Hcn Hrs Hdd Hda Hco Hmx Hst Hdev Hbl]. rewrite Hfb in *.
  set (F := fupd (fupd (fld s) (f_disk_state (d - 1)) DEAD) f_num_dead_disks 1) in *.
  assert (HF : ∀ off, aligned off → off ≠ f_num_dead_disks → off ≠ f_disk_state (d - 1) →
    off + 4 ≤ f_data_disks 0 ∨ f_reserve_disk ≤ off → fld s' off = fld s off).
  { intros off H1 H2 H3 H4. rewrite (hd_fld _ _ Hh), after_roles_other by done.
    unfold F. by rewrite !fupd_ne. }
  assert (Hdd' : ∀ k, 0 ≤ k < DISKS → dead s' k ↔ k = d - 1).
  { intros k Hk. unfold dead. rewrite (hd_fld _ _ Hh), after_roles_other by (done || hdr_arith).
    unfold F. rewrite fupd_ne by hdr_arith. unfold fupd.
    destruct (Z.eqb_spec (f_disk_state k) (f_disk_state (d - 1))) as [E|E].
    - split; [intros _; unfold f_disk_state in E; lia|done].
    - split; [|intros ->; done]. intros Hx. exfalso. apply (Hdd k Hk) in Hx. done. }
  pose proof (ch_globals _ _ _ Hc) as Hg. split; cbn [failed blocks].
  - apply Hh.
  - by eapply user_buf_same.
  - by eapply user_map_changes.
  - rewrite HF; [done|hdr_arith..].
  - rewrite HF; [done|hdr_arith..].
  - rewrite HF; [done|hdr_arith..].
  - rewrite (hd_fld _ _ Hh), after_roles_other by (done || hdr_arith). unfold F. by rewrite fupd_eq.
  - rewrite HF; [done|hdr_arith..].
  - intros k Hk. rewrite Hdd', (inj_iff Some) by done. lia.
  - intros k Hk. rewrite (hd_fld _ _ Hh) by hdr_arith. apply after_roles_data; [done|done|..];
      unfold F; rewrite !fupd_ne by hdr_arith; [by apply Hda|by apply Hco].
  - intros k Hk. rewrite (hd_fld _ _ Hh) by hdr_arith. apply after_roles_data; [done|done|..];
      unfold F; rewrite !fupd_ne by hdr_arith; [by apply Hda|by apply Hco].
  - intros b Hb. rewrite HF; [by apply Hmx|hdr_arith..].
  - done.
  - intros. eapply in_device_same; [done|by apply Hdev].
  - intros b e Hb He _. pose proof (m_stripe_range _ _ Hb). rewrite Hblk by lia.
    apply Hbl; [done|done|]. pose proof (m_pair_range b (proj1 (proj1 Hb))).
    rewrite Hdd by lia. done.
Qed.

Lemma mirror_refines maxst l s B :
  mirror maxst s B → all_ok (m_allowed maxst) B l →
  wp (run pt va a BSIZE l) (λ rs s', rs = (spec_run B l).1 ∧ mirror maxst s' (spec_run B l).2) s.
Proof.
  intros Hr Hal. eapply run_simulates; [|done|done]. intros s0 B0 o Hr0 Ho0.
  destruct o; [apply msim_read|apply msim_write|apply msim_fail]; done.
Qed.
End mirror.
