(* ===== verification/RaidMirrorInit.v ===== *)
(** * Creating a RAID 1 or RAID 0+1 array on blank disks

    [init_raid] fills the role tables and the array then behaves as the store
    of zeros. *)

From S2P Require Import Prelude Machine Kalloc BlockDev Vm VmFacts Raid RaidFacts RaidParity RaidHeader.
From S2P Require Import RaidSpec RaidStripe RaidLevels RaidTrace RaidInit RaidMirror.

Section mirror_init.
Context `{COK : ConfigOk} {FP : FitsPage C} {D : Type} `{BDL : BlockDeviceLaws D}.
Context (t : Z) (Ht : t = RAID1 ∨ t = RAID0_1).
Context (even : DISKS mod 2 = 0).
Context (pt va a : Z).
Implicit Types (s : machine D) (F : Z → Z).

Abbreviation NP := (DISKS / 2).

(** Offsets outside the role tables. *)
Definition no_role (off : Z) : Prop := off + 4 ≤ f_data_disks 0 ∨ f_reserve_disk ≤ off.

(** The loop that fills the role tables. *)
Lemma wp_role_tables s F (Q : unit → machine D → Prop) :
  hdr s F →
  (∀ s' F', hdr s' F' → header_only s s' →
     (∀ k, 0 ≤ k < NP → F' (f_data_disks k) = k + 1 ∧ F' (f_copy_disks k) = k + 1 + NP) →
     (∀ off, no_role off → F' off = F off) → Q tt s') →
  wp (for_ 0 NP (λ i, set_f (f_data_disks i) (i + 1);; set_f (f_copy_disks i) (i + 1 + NP))) Q s.
Proof.
  intros Hh HQ. destruct (half even) as [Hh2 Hh1]. pose proof fits_hi.
  apply (wp_for_post (λ i s', ∃ F', hdr s' F' ∧ header_only s s'
    ∧ (∀ k, 0 ≤ k < i → F' (f_data_disks k) = k + 1 ∧ F' (f_copy_disks k) = k + 1 + NP)
    ∧ (∀ off, no_role off → F' off = F off))); [lia| | |].
  - exists F. split_and!; [done|apply header_only_refl, (hd_page _ _ Hh)|lia|done].
  - intros i s1 Hi (F1 & Hh1' & Ho1 & Hr1 & Hn1). clear Hh. hset. hset.
    rewrite !u32_small in Hh by lia. eexists. split_and!; [done|done| |].
    + intros k Hk. destruct (decide (k = i)) as [->|Hne].
      * rewrite fupd_eq, fupd_ne, fupd_eq by hdr_arith. done.
      * rewrite !fupd_ne by hdr_arith. apply Hr1. lia.
    + intros off Hoff. rewrite !fupd_ne; [by apply Hn1|..]; unfold no_role in Hoff; offsets; lia.
  - intros s' (F' & ? & ? & ? & ?). by eapply HQ.
Qed.

(** The header [init_raid] leaves. *)
Record mirror_header s : Prop := {
  mh_init : fld s f_raid_initialized = 1;
  mh_type : fld s f_type = t;
  mh_num : fld s f_num_of_disks = NP;
  mh_dead : fld s f_num_dead_disks = 0;
  mh_reserve : fld s f_reserve_disk = NONE;
  mh_state k : 0 ≤ k < DISKS → fld s (f_disk_state k) = ALIVE;
  mh_roles k : 0 ≤ k < NP →
    fld s (f_data_disks k) = k + 1 ∧ fld s (f_copy_disks k) = k + 1 + NP;
  mh_blocks : fld s f_max_blocks = u32 (NP * (DISK_SIZE / BLOCKSIZE - 1));
}.

(** The fields [init_raid] sets before the level-specific part. *)
Record common_header F : Prop := {
  ch_init : F f_raid_initialized = 1;
  ch_type : F f_type = t;
  ch_dead : F f_num_dead_disks = 0;
  ch_state k : 0 ≤ k < DISKS → F (f_disk_state k) = ALIVE;
}.

Lemma mirror_header_of s F :
  hdr s F → common_header F → F f_num_of_disks = NP → F f_reserve_disk = NONE →
  (∀ k, 0 ≤ k < NP → F (f_data_disks k) = k + 1 ∧ F (f_copy_disks k) = k + 1 + NP) →
  F f_max_blocks = u32 (NP * (DISK_SIZE / BLOCKSIZE - 1)) → mirror_header s.
Proof.
  intros Hh [C1 C2 C3 C4] H1 H2 H3 H4. destruct (half even) as [Hh2 Hh1].
  split; intros; rewrite ?(hd_fld _ _ Hh) by hdr_arith; auto.
Qed.

(** Updates elsewhere keep the common fields. *)
Lemma common_header_ext F F' :
  common_header F →
  (∀ off, no_role off → off ≠ f_num_of_disks → off ≠ f_max_blocks → off ≠ f_max_dead_disks →
     off < f_reserve_disk → F' off = F off) → common_header F'.
Proof.
  intros [C1 C2 C3 C4] HF. destruct (half even) as [Hh2 Hh1].
  split; intros; rewrite HF; auto; unfold no_role; hdr_arith.
Qed.

Lemma wp_init_mirror s F (Q : unit → machine D → Prop) :
  hdr s F → common_header F →
  (∀ s', raid_page s' → mirror_header s' → header_only s s' → Q tt s') → wp init_mirror Q s.
Proof.
  intros Hh HF HQ. destruct (half even) as [Hh2 Hh1]. pose proof fits_hi.
  pose proof (header_only_refl s (rp_env _ (hd_page _ _ Hh))) as Ho.
  unfold init_mirror. rewrite even. cbn [Z.eqb]. hset. hset. hget. hset. hget.
  rewrite fupd_ne, fupd_eq by hdr_arith. change (u32 (-1) =? NONE) with true. cbn [negb].
  wp_step. wp_step. wp_step. wp_step.
  eapply wp_role_tables; [exact Hh|]. intros sr F1 Hhr Hor Hr Hn.
  pose proof (header_only_trans _ _ _ Ho Hor) as Ho2. clear Hh Ho Hor.
  hget. hset. apply HQ; [by eapply hd_page| |done].
  assert (En : F1 f_num_of_disks = NP).
  { rewrite Hn, !fupd_ne, fupd_eq, u32_small by (unfold no_role; hdr_arith). done. }
  eapply mirror_header_of; [exact Hh| | | | |].
  - eapply common_header_ext; [exact HF|]. intros off ?????. rewrite fupd_ne, Hn by done.
    rewrite !fupd_ne by (done || lia). done.
  - by rewrite fupd_ne by hdr_arith.
  - rewrite fupd_ne, Hn, fupd_ne, fupd_eq by (unfold no_role; hdr_arith). done.
  - intros k Hk. rewrite !fupd_ne by hdr_arith. by apply Hr.
  - by rewrite fupd_eq, En.
Qed.

(** The whole of [init_raid]. *)
Lemma wp_init_raid_mirror s p L (Q : Z → machine D → Prop) :
  blank s p L →
  (∀ s', raid_page s' → raid_metadata s' = p → mirror_header s' →
     transfer_buffer s' = transfer_buffer s →
     (∀ id, bd_sectors (vdisk s') id = bd_sectors (vdisk s) id) →
     (∀ id b, b ≠ 0 → block s' id b = block s id b) →
     (∀ x, outside s x 1 → ¬ in_range p PGSIZE x → phys s' !!! x = phys s !!! x) → Q 0 s') →
  wp (init_raid t) Q s.
Proof.
  intros Hbl HQ. pose proof fits_lo. pose proof fits_hi.
  unfold init_raid. wp_step. eapply wp_fetch_blank; [done|]. intros s1 Hh1 Er1 Hd1.
  pose proof (header_only_refl s1 (rp_env _ (hd_page _ _ Hh1))) as Ho1.
  do 6 hset. hget. hset.
  wp_step. eapply (wp_mono _ (λ _ s', raid_page s' ∧ mirror_header s' ∧ header_only s1 s')).
  { destruct Ht as [E|E]; rewrite E; cbn [Z.eqb Pos.eqb RAID0_1 RAID1].
    - eapply wp_init_mirror; [exact Hh|split; intros; unfold fresh; hfield; by rewrite ?E|].
      intros s' ? ? Ho'. split_and!; [done..|by eapply header_only_trans].
    - hset. eapply wp_init_mirror; [exact Hh|split; intros; unfold fresh; hfield; by rewrite ?E|].
      intros s' ? ? Ho'. split_and!; [done..|by eapply header_only_trans]. }
  intros [] sf (Hp2 & Hph & [Hc2 Hv2]). wp_step.
  assert (Hd2 : same_disks p s1 sf).
  { eapply same_disks_changes; [done| |done]. rewrite Er1. destruct offset_bounds as (O1 & _).
    unfold in_range, BLOCKSIZE, PGSIZE in *. lia. }
  pose proof (same_disks_trans _ _ _ _ Hd1 Hd2) as [Ht2 Hs2 Hb2 Hm2].
  apply wp_save_all; [done| |].
  { intros id Hid. destruct (bl_dev _ _ _ Hbl id Hid) as (?&?&?). split; [done|]. by rewrite Hs2. }
  intros sg Hc3 Hb3. wp_step. destruct (quiet_changes _ _ Hc3 Hp2) as (Hp3 & Hf3 & _).
  pose proof (ch_globals _ _ _ Hc3) as [_ Er3 Ht3 Hs3].
  apply HQ; [done| | |congruence|intros; by rewrite Hs3|intros; by rewrite Hb3|].
  - rewrite Er3, (same_raid_metadata _ _ (ch_globals _ _ _ Hc2)). done.
  - destruct (half even). destruct Hph. split; intros; rewrite ?Hf3 by hdr_arith; auto.
  - intros x Hx1 Hx2. rewrite (ch_mem _ _ _ Hc3); [by apply Hm2|by eapply outside_buf|auto].
Qed.

Lemma wp_create_mirror maxst s p L :
  blank_machine pt va a BSIZE maxst s p L →
  NP * maxst ≤ u32 (NP * (DISK_SIZE / BLOCKSIZE - 1)) →
  wp (init_raid t) (λ r s', r = 0 ∧ mirror t pt va a maxst s' (zero_store BSIZE)) s.
Proof.
  intros Hbm Hcap. destruct (half even) as [Hh2 Hh1]. pose proof fits_hi.
  eapply wp_init_raid_mirror; [apply Hbm|]. intros s' Hp Er Hmh Et Hsec Hblk Hm. split; [done|].
  pose proof (bm_max _ _ _ _ _ _ _ _ Hbm) as Hmax.
  assert (Hdead : ∀ k, 0 ≤ k < DISKS → ¬ dead s' k).
  { intros k Hk. unfold dead. by rewrite (mh_state _ Hmh). }
  split; cbn [failed blocks zero_store]; try by apply Hmh.
  - done.
  - split; [apply Hbm|apply Hbm|eapply outside_buf; [done|apply Hbm]|]. rewrite Er. apply Hbm.
  - by eapply created_map.
  - intros k Hk. split; [intros Hd; by apply Hdead in Hd|done].
  - intros b Hb. pose proof (m_pair_range even b (proj1 (proj1 Hb))).
    destruct Hb as [Hb Hst]. rewrite (mh_blocks _ Hmh). unfold m_stripe in Hst.
    pose proof (Z.mul_succ_div_gt b NP). nia.
  - lia.
  - intros id b Hid Hb. destruct (bm_dev _ _ _ _ _ _ _ _ Hbm id b Hid Hb) as (?&?&?).
    split; [done|]. by rewrite Hsec.
  - intros b e Hb He _. pose proof (m_stripe_range even _ _ Hb).
    pose proof (m_pair_range even b (proj1 (proj1 Hb))).
    rewrite Hblk by lia. apply (bm_zero _ _ _ _ _ _ _ _ Hbm); lia.
Qed.

Lemma create_mirror_refines maxst s p L l :
  blank_machine pt va a BSIZE maxst s p L →
  NP * maxst ≤ u32 (NP * (DISK_SIZE / BLOCKSIZE - 1)) →
  all_ok (m_allowed maxst) (zero_store BSIZE) l →
  ∃ s', (r ← init_raid t; rs ← run pt va a BSIZE l; ret (r, rs)) s
        = Done ((0, (spec_run (zero_store BSIZE) l).1), s').
Proof.
  intros Hbm Hcap Hal.
  assert (Hw : wp (r ← init_raid t; rs ← run pt va a BSIZE l; ret (r, rs))
    (λ o _, o = (0, (spec_run (zero_store BSIZE) l).1)) s).
  { wp_step. eapply wp_mono; [by eapply wp_create_mirror|]. intros r s1 [-> Hr].
    wp_step. eapply wp_mono; [by eapply mirror_refines|]. intros rs s2 [-> Hr2]. by wp_step. }
  apply wp_inv in Hw as (o & s' & E & ->). by exists s'.
Qed.
End mirror_init.
