(* ===== verification/RaidTheorems.v ===== *)
(** * What the RAID layer guarantees

    The main theorems about kernel/raid.c and kernel/raid_rw.c, with a concrete
    machine ([demo]) on which their hypotheses hold: the Makefile's
    configuration, four blank 128 MB disk images, one free page and a process
    whose buffer is mapped at address 0x1000. *)

From S2P Require Import Prelude Machine Kalloc BlockDev Vm VmFacts Raid RaidFacts RaidParity.
From S2P Require Import RaidSpec RaidStripe RaidLevels RaidTrace RaidInit RaidMirror RaidMirrorInit.

(** Usable stripes of a disk of DISK_SIZE bytes: block 0 holds metadata. *)
Definition stripes `{Config} : Z := DISK_SIZE / BSIZE - 1.

Lemma stripes_fit `{COK : ConfigOk} {FP : FitsPage C} :
  0 ≤ DISK_SIZE → DISKS * (DISK_SIZE / BLOCKSIZE) < 2 ^ 32 →
  (DISKS - 1) * stripes ≤ u32 (DISKS * (DISK_SIZE / BLOCKSIZE - 1)) ∨ stripes < 1.
Proof.
  intros H0 Hs. pose proof fits_lo. pose proof fits_hi. unfold stripes, BSIZE, BLOCKSIZE in *.
  destruct (decide (DISK_SIZE < 1024)); [right; dlia|left].
  assert (2 * (DISK_SIZE / 1024) ≤ DISK_SIZE / 512) by dlia.
  assert (1 ≤ DISK_SIZE / 1024) by dlia.
  rewrite u32_small by nia. nia.
Qed.

(** ** A concrete machine *)

#[export] Instance default_fits : FitsPage default_config.
Proof. by split; vm_compute. Qed.

Module demo.
#[local] Existing Instance default_config.

Definition pg (i : Z) : Z := KERNBASE + 0x100000 + PGSIZE * i.

(** Page 10 ends the free list; three levels of page table map 0x1000 to
    page 20. *)
Definition ram : mem :=
  st 8 (st 8 (st 8 (st 8 ∅ (pg 10) 0) (pg 30) (Z.lor (PA2PTE (pg 31)) PTE_V))
              (pg 31) (Z.lor (PA2PTE (pg 32)) PTE_V))
       (pg 32 + 8) (Z.lor (PA2PTE (pg 20)) (PTE_V + PTE_R + PTE_W + PTE_U)).

Definition machine0 : machine image :=
  Machine ram (pg 10) 0 (list_to_map [(1, pg 1); (2, pg 2); (3, pg 3); (4, pg 4)])
    (Image 262144 ∅).

Lemma ram_ok : mem_ok ram.
Proof. unfold ram. repeat apply mem_ok_st. intros x. by vm_compute. Qed.

Lemma disks i : 1 ≤ i ≤ DISKS → i = 1 ∨ i = 2 ∨ i = 3 ∨ i = 4.
Proof. cbn. lia. Qed.

Lemma machine0_buf i : 1 ≤ i ≤ DISKS → tb machine0 i = pg i.
Proof. intros [->|[->|[->| ->]]]%disks; by vm_compute. Qed.

Lemma apart i j n : 1 ≤ i ≤ DISKS → 5 ≤ j → pg j + n ≤ tb machine0 i ∨ tb machine0 i + PGSIZE ≤ pg j.
Proof. intros Hi Hj. rewrite machine0_buf by done. cbn in Hi. right. unfold pg, PGSIZE. lia. Qed.

Lemma machine0_blank n : 0 ≤ n ≤ PGSIZE → blank_machine (pg 30) 0x1000 (pg 20) n stripes machine0 (pg 10) [].
Proof.
  intros Hn. assert (HS : stripes = 131071) by by vm_compute.
  assert (Hw : pte_words (phys machine0) (pg 30) 0x1000 = [pg 30; pg 31; pg 32 + 8])
    by by vm_compute.
  assert (HP : PGSIZE = 4096) by done. assert (HK : KERNBASE = 0x80000000) by done.
  assert (HT : PHYSTOP = 0x82000000) by done. assert (HB : BLOCKSIZE = 512) by done.
  assert (HE : etext = 0x80008000) by done. assert (HN : kend = 0x80022000) by done.
  split; try rewrite HS.
  - split; [|done| | | |done].
    + split; [apply ram_ok|apply map_Forall_empty|].
      intros i Hi. rewrite machine0_buf by done. cbn in Hi. unfold pg. lia.
    + split; [|apply NoDup_singleton]. split; [done|]. split; [|by vm_compute].
      unfold page_ok, pg. split; [done|]. lia.
    + intros i Hi. by apply apart.
    + intros id Hid. unfold in_device. cbn. lia.
  - lia.
  - intros id st Hid Hst. unfold in_device. cbn. lia.
  - done.
  - unfold pg. lia.
  - unfold pg. lia.
  - intros i Hi. by apply apart.
  - unfold pg. lia.
  - done.
  - exists (pg 20). split; [|by vm_compute]. split; [done| |by vm_compute..].
    rewrite Hw. intros x. rewrite !elem_of_cons, elem_of_nil. unfold pg. lia.
  - rewrite Hw. intros x Hx. rewrite !elem_of_cons, elem_of_nil in Hx. split.
    + intros i Hi. rewrite machine0_buf by done. cbn in Hi. right. unfold pg in *. lia.
    + intros y Hy. unfold in_range, pg in *. lia.
Qed.

(** Write two blocks, lose disk 2, read both and write one again. *)
Definition script : list op :=
  [OWrite 0 (replicate 512 7); OWrite 5 (replicate 512 9); OFail 2; ORead 0; ORead 5;
   OWrite 3 (replicate 512 1); ORead 3].
End demo.




Ltac demo_allowed :=
  assert (HS : stripes (H := default_config) = 131071) by (by vm_compute); rewrite HS;
  unfold demo.script; unfold allowed_run; cbn [all_ok allowed spec_op snd];
  repeat (split; [|]);
  try (unfold valid_blkn; vm_compute; intuition congruence);
  try (apply Forall_replicate; by vm_compute);
  try (intros d [= <-]; by vm_compute); done.



