(* ===== verification/RaidFindings.v ===== *)
(** * Where the RAID layer departs from its intent

    Runs of the model on the concrete machine of RaidTheorems.v that show
    behaviour the code does not mean to have.  The statements give the results
    of the calls; the final states are dropped. *)

From S2P Require Import Prelude Machine Kalloc BlockDev Vm VmFacts Raid RaidFacts RaidParity RaidSpec.
From S2P Require Import RaidStripe RaidLevels RaidTrace RaidInit RaidTheorems.

(** The result of a run without the final state. *)
Definition result {S A} (o : outcome (A * S)) : outcome A :=
  match o with
  | Done (a, _) => Done a
  | Panic msg => Panic msg
  | Fault => Fault
  | OutOfFuel => OutOfFuel
  end.

Section findings.
#[local] Existing Instance default_config.

Abbreviation pt := (demo.pg 30).
Abbreviation va := 0x1000.
Abbreviation ua := (demo.pg 20).

Definition fill (v : Z) : list Z := replicate (Z.to_nat BLOCKSIZE) v.

(** Issue calls of the interface, keeping the codes and the first byte each
    read delivers. *)
Definition calls (l : list op) : M (machine image) (list (Z * Z)) :=
  rs ← run pt va ua BLOCKSIZE l;
  ret (map (λ r : Z * list Z, (r.1, default (-1) (head r.2))) rs).

Definition script_result {A} (m : M (machine image) A) : outcome A := result (m demo.machine0).

(** The disks before [init_raid] hold data of an earlier use. *)
Definition used_disks : machine image :=
  set_vdisk (Image 262144 {[ (1, 1) := replicate 1024 3 ]}) demo.machine0.
End findings.







(** A user pointer that is not mapped translates to an address near 0, and
    the transfer through it faults in the kernel: any process can bring the
    kernel down with [read_raid]. *)
Theorem unmapped_buffer_faults_kernel :
  script_result (init_raid (C := default_config) RAID5;;
                 read_raid (C := default_config) (demo.pg 30) 0 0x5000) = Fault.
Proof. vm_compute. reflexivity. Qed.

(** Re-creating an array keeps the recorded disk states but clears the count
    of dead disks; a repair then takes the count below zero and the array
    refuses every access. *)
Example reinit_then_repair_refuses :
  script_result (init_raid (C := default_config) RAID5;; calls [OFail 1];;
                 init_raid (C := default_config) RAID5;; disk_repaired_raid (C := default_config) 1;;
                 get_f f_num_dead_disks) = Done (2 ^ 32 - 1)
  ∧ script_result (init_raid (C := default_config) RAID5;; calls [OFail 1];;
                   init_raid (C := default_config) RAID5;; disk_repaired_raid (C := default_config) 1;;
                   calls [ORead 0]) = Done [(-1, 1)].
Proof. split; vm_compute; reflexivity. Qed.

(** [info_raid] without an array takes a page and returns -1; the page is
    not given back. *)
Example info_leaks_page :
  script_result (before ← gets freelist;
                 r ← info_raid (C := default_config) (demo.pg 30) 0x1000 0x1000 0x1000;
                 after ← gets freelist; ret (before, r, after)) = Done (demo.pg 10, -1, 0).
Proof. vm_compute. reflexivity. Qed.
