(* ===== verification/StringFns.v ===== *)
(** * kernel/string.c: C strings

    Strings are bytes of physical memory up to a terminator.  The scanning
    loops have no static bound; the fuel is the distance to the end of RAM,
    where the next load faults, so it never runs out first. *)

From S2P Require Import Prelude Machine.

Section string.
Context {D : Type} `{C : Config}.

Fixpoint strncmp_loop (n : nat) (p q : Z) : M (machine D) Z :=
  match n with
  | O => ret 0
  | S n' =>
      c ← load 1 p;
      d ← load 1 q;
      if negb (c =? 0) && (c =? d) then strncmp_loop n' (p + 1) (q + 1)
      else ret (c - d)
  end.
Definition strncmp (p q n : Z) : M (machine D) Z := strncmp_loop (Z.to_nat n) p q.

(** [while(n-- > 0 && ( *s++ = *t++) != 0);] returns what is left of [n] and
    the next [s]. *)
Fixpoint strncpy_copy (n : nat) (s t : Z) : M (machine D) (nat * Z) :=
  match n with
  | O => ret (O, s)
  | S n' =>
      c ← load 1 t;
      store 1 s c;;
      if c =? 0 then ret (n', s + 1) else strncpy_copy n' (s + 1) (t + 1)
  end.

Fixpoint strncpy_pad (n : nat) (s : Z) : M (machine D) unit :=
  match n with
  | O => ret tt
  | S n' => store 1 s 0;; strncpy_pad n' (s + 1)
  end.

Definition strncpy (s t n : Z) : M (machine D) Z :=
  '(n_left, s') ← strncpy_copy (Z.to_nat n) s t;
  strncpy_pad n_left s';;
  ret s.

Fixpoint safestrcpy_copy (n : nat) (s t : Z) : M (machine D) Z :=
  match n with
  | O => ret s
  | S n' =>
      c ← load 1 t;
      store 1 s c;;
      if c =? 0 then ret (s + 1) else safestrcpy_copy n' (s + 1) (t + 1)
  end.

Definition safestrcpy (s t n : Z) : M (machine D) Z :=
  if n <=? 0 then ret s
  else
    s' ← safestrcpy_copy (Z.to_nat (n - 1)) s t;
    store 1 s' 0;;
    ret s.

(** [while( *s) s++;] *)
Fixpoint find_end (fuel : nat) (s : Z) : M (machine D) Z :=
  match fuel with
  | O => out_of_fuel
  | S fuel' => c ← load 1 s; if c =? 0 then ret s else find_end fuel' (s + 1)
  end.
Definition to_ram_end (s : Z) : nat := S (Z.to_nat (PHYSTOP - s)).

(** [while( *s2) *os++ = *s2++;] *)
Fixpoint strcat_copy (fuel : nat) (os s2 : Z) : M (machine D) Z :=
  match fuel with
  | O => out_of_fuel
  | S fuel' =>
      c ← load 1 s2;
      if c =? 0 then ret os
      else store 1 os c;; strcat_copy fuel' (os + 1) (s2 + 1)
  end.

Definition strcat (s1 s2 : Z) : M (machine D) Z :=
  os ← find_end (to_ram_end s1) s1;
  os ← strcat_copy (to_ram_end s2) os s2;
  store 1 os 0;;
  ret s1.

(** [digits[k]]; the array has 16 digits and a terminator. *)
Definition digit (k : Z) : M (machine D) Z :=
  if (k <? 0) || (16 <? k) then fault
  else ret (if k <? 10 then 48 + k else if k <? 16 then 87 + k else 0).

(** The do-while loop fills [buf] from index [i]; [buf] has 16 bytes.  C
    division truncates toward zero. *)
Fixpoint itoa_digits (room : nat) (xx base : Z) : M (machine D) (list Z) :=
  match room with
  | O => fault
  | S room' =>
      if base =? 0 then fault
      else
        d ← digit (Z.rem xx base);
        let xx := Z.quot xx base in
        if xx =? 0 then ret [d]
        else ds ← itoa_digits room' xx base; ret (d :: ds)
  end.

Fixpoint put_bytes (a : Z) (l : list Z) : M (machine D) Z :=
  match l with
  | [] => ret a
  | c :: l' => store 1 a c;; put_bytes (a + 1) l'
  end.

Definition itoa (xx base result : Z) : M (machine D) unit :=
  buf ← itoa_digits 16 xx base;
  result ← find_end (to_ram_end result) result;
  result ← put_bytes result (rev buf);
  store 1 result 0.

Definition strlen (s : Z) : M (machine D) Z :=
  e ← find_end (to_ram_end s) s; ret (s32 (e - s)).
End string.

(** ** C strings in memory *)

Fixpoint cstr (m : mem) (a : Z) (l : list Z) : Prop :=
  match l with
  | [] => m !!! a = 0
  | c :: l' => m !!! a = c ∧ c ≠ 0 ∧ cstr m (a + 1) l'
  end.

Section string_facts.
Context {D : Type} `{COK : ConfigOk}.
Implicit Types (s : machine D) (m : mem) (l : list Z).

Lemma load1 a s : KERNBASE ≤ a < PHYSTOP → load 1 a s = Done (phys s !!! a, s).
Proof. intros. rewrite load_eq by (apply readable_true; lia). by rewrite ld_1. Qed.

Lemma store1 a v s :
  etext ≤ a < PHYSTOP → byte v → store 1 a v s = Done (tt, set_phys (<[a := v]> (phys s)) s).
Proof. intros. rewrite store_eq by (apply writable_true; lia). by rewrite st_1, u8_byte. Qed.

Lemma cstr_ext m m' a l :
  (∀ x, a ≤ x ≤ a + Z.of_nat (length l) → m' !!! x = m !!! x) → cstr m a l → cstr m' a l.
Proof.
  revert a. induction l as [|c l IH]; intros a Hx; simpl in *.
  - intros <-. apply Hx. lia.
  - intros (<- & Hc & Hl). rewrite Hx by lia. split_and!; [done..|].
    apply IH; [|done]. intros. apply Hx. lia.
Qed.

Lemma cstr_nonzero m a l : cstr m a l → Forall (λ c, c ≠ 0) l.
Proof. revert a. induction l as [|c l IH]; intros a; simpl; [done|]. intros (?&?&?). constructor; eauto. Qed.

(** Writing a string, its terminator and more. *)
Lemma cstr_write m a l k : Forall (λ c, c ≠ 0) l → cstr (write_bytes m a (l ++ 0 :: k)) a l.
Proof.
  intros Hl. revert m a. induction Hl as [|c l Hc Hl IH]; intros m a.
  - cbn [app cstr]. rewrite lookup_total_write_bytes, decide_True by (simpl; lia).
    by replace (Z.to_nat (a - a)) with O by lia.
  - cbn [app]. change (c :: l ++ 0 :: k) with ([c] ++ (l ++ 0 :: k)). rewrite write_bytes_app.
    split_and!; [|done|apply IH]. rewrite lookup_total_write_bytes, decide_False by (simpl; lia).
    apply (lookup_total_insert_eq _ a).
Qed.

Lemma find_end_cstr l a fuel s :
  cstr (phys s) a l → KERNBASE ≤ a → a + Z.of_nat (length l) < PHYSTOP → (length l < fuel)%nat →
  find_end fuel a s = Done (a + Z.of_nat (length l), s).
Proof.
  revert a fuel. induction l as [|c l IH]; intros a fuel Hc Hlo Hhi Hf; simpl in *.
  - destruct fuel as [|fuel]; [lia|]. cbn [find_end]. erewrite bind_done by (apply load1; lia).
    rewrite Hc. cbn [Z.eqb]. by rewrite Z.add_0_r.
  - destruct fuel as [|fuel]; [lia|]. destruct Hc as (Hca & Hnz & Hl).
    cbn [find_end]. erewrite bind_done by (apply load1; lia). rewrite Hca.
    rewrite (proj2 (Z.eqb_neq c 0)) by done. rewrite IH by (done || lia). do 2 f_equal. lia.
Qed.

Lemma find_end_ram l a s :
  cstr (phys s) a l → KERNBASE ≤ a → a + Z.of_nat (length l) < PHYSTOP →
  find_end (to_ram_end a) a s = Done (a + Z.of_nat (length l), s).
Proof. intros. apply find_end_cstr; [done..|]. unfold to_ram_end. lia. Qed.

(** A region of RAM that is also writable. *)
Definition ram (a n : Z) : Prop := KERNBASE ≤ a ∧ a + n ≤ PHYSTOP.
Definition wram (a n : Z) : Prop := etext ≤ a ∧ a + n ≤ PHYSTOP.

Definition apart (a n b k : Z) : Prop := a + n ≤ b ∨ b + k ≤ a.

Lemma set_phys_write m a c l s :
  set_phys (write_bytes (<[a := c]> m) (a + 1) l) s = set_phys (write_bytes m a (c :: l)) s.
Proof. change (c :: l) with ([c] ++ l). by rewrite write_bytes_app. Qed.

(** The string routines copy a prefix: [n] bytes of [l] and the terminator. *)
Lemma strncpy_copy_eq (n : nat) d a l s :
  cstr (phys s) a l → bytes l → ram a (Z.of_nat (length l) + 1) → wram d (Z.of_nat n) →
  apart d (Z.of_nat n) a (Z.of_nat (length l) + 1) →
  strncpy_copy n d a s
  = Done (((n - (length l + 1))%nat, d + Z.of_nat (length (take n (l ++ [0])))),
          set_phys (write_bytes (phys s) d (take n (l ++ [0]))) s).
Proof.
  revert d a l s. induction n as [|n IH]; intros d a l s Hc Hb [Ha1 Ha2] [Hd1 Hd2] Hap.
  - change (take 0 (l ++ [0])) with (@nil Z). cbn [length]. rewrite Z.add_0_r.
    change (write_bytes (phys s) d []) with (phys s). by rewrite set_phys_id.
  - pose proof etext_ge. cbn [strncpy_copy]. destruct l as [|c l]; cbn [cstr] in Hc.
    + erewrite bind_done by (apply load1; cbn in *; lia). rewrite Hc.
      erewrite bind_done by (apply store1; [lia|unfold byte; lia]).
      cbn [Z.eqb app firstn length]. rewrite take_nil. cbn [length].
      replace (S n - (0 + 1))%nat with n by lia. done.
    + destruct Hc as (Hca & Hnz & Hl). apply Forall_cons in Hb as [Hbc Hbl].
      cbn [length] in *. unfold apart in Hap.
      erewrite bind_done by (apply load1; lia). rewrite Hca.
      erewrite bind_done by (apply store1; [lia|done]).
      rewrite (proj2 (Z.eqb_neq c 0)) by done. rewrite (IH (d + 1) (a + 1) l).
      * cbn [app firstn length phys set_phys]. rewrite set_phys_phys, set_phys_write.
        do 3 f_equal; lia.
      * cbn. eapply cstr_ext; [|done]. intros x Hx. apply lookup_total_insert_ne. lia.
      * done.
      * split; lia.
      * split; lia.
      * unfold apart. lia.
Qed.

Lemma strncpy_pad_eq (n : nat) d s :
  wram d (Z.of_nat n) →
  strncpy_pad n d s = Done (tt, set_phys (write_bytes (phys s) d (replicate n 0)) s).
Proof.
  revert d s. induction n as [|n IH]; intros d s [Hd1 Hd2].
  - change (write_bytes (phys s) d (replicate 0 0)) with (phys s). by rewrite set_phys_id.
  - cbn [strncpy_pad]. erewrite bind_done by (apply store1; [lia|unfold byte; lia]).
    rewrite IH by (split; lia). cbn [phys set_phys]. by rewrite set_phys_phys, set_phys_write.
Qed.

(** A terminated string as the list of bytes strncpy produces. *)
Definition padded (n : nat) (l : list Z) : list Z := take n (l ++ replicate n 0).

Lemma padded_split (n : nat) l :
  padded n l = take n (l ++ [0]) ++ replicate (n - (length l + 1)) 0.
Proof.
  unfold padded. destruct (decide (n ≤ length l)%nat) as [Hle|Hgt].
  - rewrite !take_app_le by done. replace (n - (length l + 1))%nat with O by lia.
    by rewrite app_nil_r.
  - rewrite !(take_app_ge l) by lia. rewrite take_replicate.
    rewrite (take_ge [0]) by (simpl; lia). rewrite <- app_assoc. f_equal.
    change ([0] ++ replicate (n - (length l + 1)) 0) with (replicate (S (n - (length l + 1))) 0).
    f_equal. lia.
Qed.

Lemma strncpy_eq d a n l s :
  cstr (phys s) a l → bytes l → 0 ≤ n → ram a (Z.of_nat (length l) + 1) → wram d n →
  apart d n a (Z.of_nat (length l) + 1) →
  strncpy d a n s = Done (d, set_phys (write_bytes (phys s) d (padded (Z.to_nat n) l)) s).
Proof.
  intros Hc Hb Hn Ha Hd Hap. unfold strncpy.
  erewrite bind_done by (apply strncpy_copy_eq; rewrite ?Z2Nat.id by done; done).
  cbv beta iota. set (k := (Z.to_nat n - (length l + 1))%nat).
  assert (Hlen : length (take (Z.to_nat n) (l ++ [0])) = (Z.to_nat n - k)%nat).
  { rewrite length_take, length_app. cbn. unfold k. lia. }
  erewrite bind_done by (apply strncpy_pad_eq; destruct Hd; rewrite Hlen; split; lia).
  cbn [phys set_phys]. rewrite set_phys_phys, padded_split. fold k. by rewrite write_bytes_app.
Qed.

Lemma safestrcpy_copy_eq (n : nat) d a l s :
  cstr (phys s) a l → bytes l → ram a (Z.of_nat (length l) + 1) → wram d (Z.of_nat n) →
  apart d (Z.of_nat n) a (Z.of_nat (length l) + 1) →
  safestrcpy_copy n d a s
  = Done (d + Z.of_nat (length (take n (l ++ [0]))),
          set_phys (write_bytes (phys s) d (take n (l ++ [0]))) s).
Proof.
  revert d a l s. induction n as [|n IH]; intros d a l s Hc Hb [Ha1 Ha2] [Hd1 Hd2] Hap.
  - change (take 0 (l ++ [0])) with (@nil Z). cbn [length]. rewrite Z.add_0_r.
    change (write_bytes (phys s) d []) with (phys s). by rewrite set_phys_id.
  - pose proof etext_ge. cbn [safestrcpy_copy]. destruct l as [|c l]; cbn [cstr] in Hc.
    + erewrite bind_done by (apply load1; cbn in *; lia). rewrite Hc.
      erewrite bind_done by (apply store1; [lia|unfold byte; lia]).
      cbn [Z.eqb app firstn length]. rewrite take_nil. done.
    + destruct Hc as (Hca & Hnz & Hl). apply Forall_cons in Hb as [Hbc Hbl].
      cbn [length] in *. unfold apart in Hap.
      erewrite bind_done by (apply load1; lia). rewrite Hca.
      erewrite bind_done by (apply store1; [lia|done]).
      rewrite (proj2 (Z.eqb_neq c 0)) by done. rewrite (IH (d + 1) (a + 1) l).
      * cbn [app firstn length phys set_phys]. rewrite set_phys_phys, set_phys_write.
        do 2 f_equal; lia.
      * cbn. eapply cstr_ext; [|done]. intros x Hx. apply lookup_total_insert_ne. lia.
      * done.
      * split; lia.
      * split; lia.
      * unfold apart. lia.
Qed.

Lemma set_phys_snoc m a l c s :
  set_phys (<[a + Z.of_nat (length l) := c]> (write_bytes m a l)) s
  = set_phys (write_bytes m a (l ++ [c])) s.
Proof. by rewrite write_bytes_app. Qed.

Lemma safestrcpy_eq d a n l s :
  cstr (phys s) a l → bytes l → 0 < n → ram a (Z.of_nat (length l) + 1) → wram d n →
  apart d n a (Z.of_nat (length l) + 1) →
  safestrcpy d a n s
  = Done (d, set_phys (write_bytes (phys s) d (take (Z.to_nat (n - 1)) (l ++ [0]) ++ [0])) s).
Proof.
  intros Hc Hb Hn Ha [Hd1 Hd2] Hap. unfold safestrcpy.
  rewrite (proj2 (Z.leb_gt n 0)) by done. unfold apart in *.
  erewrite bind_done by (apply safestrcpy_copy_eq; [done..|split; lia|unfold apart; lia]).
  assert (length (take (Z.to_nat (n - 1)) (l ++ [0%Z])) ≤ Z.to_nat (n - 1))%nat
    by (rewrite length_take; lia).
  erewrite bind_done by (apply store1; [lia|unfold byte; lia]).
  cbn [phys set_phys]. by rewrite set_phys_phys, set_phys_snoc.
Qed.

Lemma strncmp_loop_eq (n : nat) p q l1 l2 s :
  cstr (phys s) p l1 → cstr (phys s) q l2 →
  ram p (Z.of_nat (length l1) + 1) → ram q (Z.of_nat (length l2) + 1) →
  ∃ r, strncmp_loop n p q s = Done (r, s) ∧ (r = 0 ↔ take n l1 = take n l2).
Proof.
  revert p q l1 l2. induction n as [|n IH]; intros p q l1 l2 H1 H2 [Hp1 Hp2] [Hq1 Hq2].
  { by exists 0. }
  cbn [strncmp_loop].
  erewrite bind_done by (apply load1; lia). erewrite bind_done by (apply load1; lia).
  destruct l1 as [|c l1], l2 as [|d l2]; cbn [cstr] in H1, H2; cbn [length] in *.
  - rewrite H1, H2. by exists 0.
  - destruct H2 as (-> & Hnz & _). rewrite H1. exists (0 - d). split; [done|].
    split; [lia|done].
  - destruct H1 as (-> & Hnz & _). rewrite H2, (proj2 (Z.eqb_neq c 0)) by done.
    exists (c - 0). cbn. split; [done|]. split; [lia|done].
  - destruct H1 as (-> & Hnz1 & H1), H2 as (-> & Hnz2 & H2).
    rewrite (proj2 (Z.eqb_neq c 0)) by done. cbn [negb andb].
    destruct (Z.eqb_spec c d) as [->|Hne].
    + destruct (IH (p + 1) (q + 1) l1 l2) as (r & -> & Hr); [done|done|split; lia..|].
      exists r. split; [done|]. rewrite Hr. cbn. split; [by intros ->|by intros [=]].
    + exists (c - d). split; [done|]. cbn. split; [lia|by intros [=]].
Qed.

(** ** Numbers *)

(** The value of a list of digits, most significant first. *)
Definition value (base : Z) (ds : list Z) : Z := foldl (λ v d, base * v + d) 0 ds.

Definition digit_char (k : Z) : Z := if k <? 10 then 48 + k else 87 + k.

Lemma value_snoc base ds d : value base (ds ++ [d]) = base * value base ds + d.
Proof. unfold value. by rewrite foldl_app. Qed.

(** The loop produces the digits, least significant first. *)
Lemma itoa_digits_eq (room : nat) xx base s :
  2 ≤ base ≤ 16 → 0 ≤ xx < base ^ Z.of_nat room → (0 < room)%nat →
  ∃ ds, itoa_digits room xx base s = Done (map digit_char ds, s)
    ∧ value base (rev ds) = xx ∧ Forall (λ d, 0 ≤ d < base) ds ∧ (1 ≤ length ds ≤ room)%nat.
Proof.
  intros Hb. revert xx. induction room as [|room IH]; intros xx Hx Hr; [lia|].
  cbn [itoa_digits]. rewrite (proj2 (Z.eqb_neq base 0)) by lia.
  rewrite Z.rem_mod_nonneg, Z.quot_div_nonneg by lia.
  pose proof (Z.mod_pos_bound xx base). pose proof (Z.div_mod xx base).
  assert (Hd : digit (D := D) (xx mod base) s = Done (digit_char (xx mod base), s)).
  { unfold digit, digit_char. rewrite (proj2 (Z.ltb_ge (xx mod base) 0)) by lia.
    rewrite (proj2 (Z.ltb_ge 16 (xx mod base))) by lia. cbn [orb].
    destruct (Z.ltb_spec (xx mod base) 10); [done|].
    by rewrite (proj2 (Z.ltb_lt (xx mod base) 16)) by lia. }
  erewrite bind_done by exact Hd. destruct (Z.eqb_spec (xx / base) 0) as [E|E].
  - exists [xx mod base]. split; [done|]. split_and!; [|apply Forall_singleton; lia|cbn; lia..].
    unfold value. cbn. lia.
  - assert (Hroom : xx / base < base ^ Z.of_nat room).
    { apply Z.div_lt_upper_bound; [lia|]. rewrite <- Z.pow_succ_r by lia.
      replace (Z.succ (Z.of_nat room)) with (Z.of_nat (S room)) by lia. apply Hx. }
    assert (0 ≤ xx / base) by (apply Z.div_pos; lia).
    destruct room as [|room]; [cbn in Hroom; lia|].
    destruct (IH (xx / base)) as (ds & Eds & Hv & Hf & Hl); [lia|lia|].
    erewrite bind_done by exact Eds. exists ((xx mod base) :: ds). split; [done|].
    split_and!; [|constructor; [lia|done]|cbn [length]; lia..]. cbn [rev]. rewrite value_snoc, Hv. lia.
Qed.

Lemma put_bytes_eq l a s :
  bytes l → wram a (Z.of_nat (length l)) →
  put_bytes a l s = Done (a + Z.of_nat (length l), set_phys (write_bytes (phys s) a l) s).
Proof.
  revert a s. induction l as [|c l IH]; intros a s Hb [Ha1 Ha2].
  - cbn [put_bytes length]. rewrite Z.add_0_r.
    change (write_bytes (phys s) a []) with (phys s). by rewrite set_phys_id.
  - apply Forall_cons in Hb as [Hc Hb]. cbn [put_bytes length] in *.
    erewrite bind_done by (apply store1; [lia|done]). rewrite IH; [|done|split; lia].
    cbn [phys set_phys]. rewrite set_phys_phys, set_phys_write. do 2 f_equal. lia.
Qed.

Lemma cstr_app m a l1 l2 : cstr m a (l1 ++ l2) ↔
  (∀ i c, l1 !! i = Some c → m !!! (a + Z.of_nat i) = c ∧ c ≠ 0)
  ∧ cstr m (a + Z.of_nat (length l1)) l2.
Proof.
  revert a. induction l1 as [|c l1 IH]; intros a; cbn [app cstr length].
  - rewrite Z.add_0_r. split; [intros ?; split; [intros ?? [=]|done]|by intros [_ ?]].
  - rewrite IH. replace (a + 1 + Z.of_nat (length l1)) with (a + Z.of_nat (S (length l1))) by lia.
    split.
    + intros (E & Hnz & Hl & H2). split; [|done]. intros [|i] c' Hi; cbn in Hi.
      * injection Hi as <-. by rewrite Z.add_0_r.
      * rewrite Nat2Z.inj_succ. replace (a + Z.succ (Z.of_nat i)) with (a + 1 + Z.of_nat i) by lia.
        by apply Hl.
    + intros [Hl H2]. destruct (Hl O c) as [E Hnz]; [done|]. rewrite Z.add_0_r in E.
      split_and!; [done|done| |done]. intros i c' Hi. destruct (Hl (S i) c' Hi) as [E' ?].
      split; [|done]. rewrite <- E'. f_equal. lia.
Qed.

(** Appending after the terminator of [l]. *)
Lemma cstr_append m a l k :
  cstr m a l → Forall (λ c, c ≠ 0) k →
  cstr (write_bytes m (a + Z.of_nat (length l)) (k ++ [0])) a (l ++ k).
Proof.
  intros Hl Hk. rewrite cstr_app. split; [|by apply cstr_write].
  pose proof Hl as Hl'. rewrite <- (app_nil_r l), cstr_app in Hl'. destruct Hl' as [Hc _].
  intros i c Hi. rewrite lookup_total_write_bytes, decide_False; [by apply Hc|].
  apply lookup_lt_Some in Hi. lia.
Qed.
End string_facts.

(** C17: [safestrcpy] always terminates the destination: it holds the first
    [n - 1] characters of the source as a C string, and nothing outside the [n]
    bytes of the destination changes. *)
Theorem safestrcpy_correct {D} `{COK : ConfigOk} (d a n : Z) (l : list Z) (s : machine D) :
  cstr (phys s) a l → bytes l → 0 < n → ram a (Z.of_nat (length l) + 1) → wram d n →
  apart d n a (Z.of_nat (length l) + 1) →
  ∃ s', safestrcpy d a n s = Done (d, s') ∧ cstr (phys s') d (take (Z.to_nat (n - 1)) l)
    ∧ ∀ x, x < d ∨ d + n ≤ x → phys s' !!! x = phys s !!! x.
Proof.
  intros Hc Hb Hn Ha Hd Hap. eexists. split; [by apply safestrcpy_eq|]. cbn [phys set_phys].
  pose proof (cstr_nonzero _ _ _ Hc) as Hnz. split.
  - destruct (decide (Z.to_nat (n - 1) ≤ length l)%nat) as [Hle|Hgt].
    + rewrite take_app_le by done. apply (cstr_write _ _ _ []). by apply Forall_take.
    + rewrite (take_ge (l ++ [0])) by (rewrite length_app; cbn; lia).
      rewrite (take_ge l) by lia. rewrite <- app_assoc. by apply cstr_write.
  - intros x Hx. rewrite lookup_total_write_bytes, decide_False; [done|].
    rewrite length_app, length_take. cbn. lia.
Qed.

(** [itoa] appends to the string at [result] the decimal representation of
    a non-negative number: characters '0' to '9' whose value is the number. *)
Theorem itoa_decimal {D} `{COK : ConfigOk} (xx result : Z) (l : list Z) (s : machine D) :
  0 ≤ xx < 2 ^ 31 → cstr (phys s) result l → wram result (Z.of_nat (length l) + 17) →
  ∃ s' ds, itoa xx 10 result s = Done (tt, s')
    ∧ cstr (phys s') result (l ++ map (λ d, 48 + d) ds)
    ∧ Forall (λ d, 0 ≤ d < 10) ds ∧ value 10 ds = xx.
Proof.
  intros Hx Hc [Hr1 Hr2]. pose proof etext_ge. unfold itoa.
  destruct (itoa_digits_eq 16 xx 10 s) as (ds & E & Hv & Hf & Hl);
    [lia|change (10 ^ Z.of_nat 16) with 10000000000000000; lia|lia|].
  assert (Hmap : map digit_char ds = map (λ d, 48 + d) ds).
  { apply map_ext_in. intros d Hd. apply list_elem_of_In in Hd.
    rewrite Forall_forall in Hf. specialize (Hf d Hd). unfold digit_char.
    by rewrite (proj2 (Z.ltb_lt d 10)) by lia. }
  rewrite Hmap in E. erewrite bind_done by exact E.
  erewrite bind_done by (apply find_end_ram; [done|lia..]).
  rewrite <- map_rev. set (k := map (λ d, 48 + d) (rev ds)).
  assert (Hfr : Forall (λ d, 0 ≤ d < 10) (rev ds)) by by apply Forall_rev.
  assert (Hk : bytes k ∧ Forall (λ c, c ≠ 0) k).
  { split; apply Forall_map; eapply Forall_impl; [exact Hfr| |exact Hfr|];
      intros d Hd; unfold compose, byte in *; lia. }
  destruct Hk as [Hkb Hknz].
  assert (Hkl : length k = length ds) by (unfold k; by rewrite length_map, length_rev).
  erewrite bind_done by (apply put_bytes_eq; [done|split; lia]).
  erewrite store1 by (unfold byte; lia). cbn [phys set_phys]. rewrite set_phys_phys, set_phys_snoc.
  eexists _, (rev ds). split; [done|]. split_and!; [by apply cstr_append|done|done].
Qed.

(** A machine whose memory holds "abcde" at 1 MB and "disk_" at 2 MB. *)
Definition demo_strings : machine unit :=
  Machine (write_bytes (write_bytes ∅ (KERNBASE + 0x100000) [97; 98; 99; 100; 101; 0])
             (KERNBASE + 0x200000) [100; 105; 115; 107; 95; 0]) 0 0 ∅ tt.

Lemma safestrcpy_correct_witness :
  ∃ s', safestrcpy (C := default_config) (KERNBASE + 0x300000) (KERNBASE + 0x100000) 4 demo_strings
          = Done (KERNBASE + 0x300000, s')
    ∧ cstr (phys s') (KERNBASE + 0x300000) (take (Z.to_nat (4 - 1)) [97; 98; 99; 100; 101])
    ∧ ∀ x, x < KERNBASE + 0x300000 ∨ KERNBASE + 0x300000 + 4 ≤ x →
        phys s' !!! x = phys demo_strings !!! x.
Proof.
  apply (safestrcpy_correct (C := default_config) (KERNBASE + 0x300000) (KERNBASE + 0x100000) 4
           [97; 98; 99; 100; 101] demo_strings).
  - vm_compute. intuition congruence.
  - unfold bytes, byte. repeat constructor; vm_compute; congruence.
  - lia.
  - vm_compute. intuition congruence.
  - vm_compute. intuition congruence.
  - right. vm_compute. congruence.
Defined.

Lemma itoa_decimal_witness :
  ∃ s' ds, itoa (C := default_config) 12 10 (KERNBASE + 0x200000) demo_strings = Done (tt, s')
    ∧ cstr (phys s') (KERNBASE + 0x200000) ([100; 105; 115; 107; 95] ++ map (λ d, 48 + d) ds)
    ∧ Forall (λ d, 0 ≤ d < 10) ds ∧ value 10 ds = 12.
Proof.
  apply (itoa_decimal (C := default_config) 12 (KERNBASE + 0x200000) [100; 105; 115; 107; 95]
           demo_strings); vm_compute; intuition congruence.
Defined.
