(* ===== verification/Virtio.v ===== *)
(** * kernel/virtio_disk.c: the driver of one virtio disk

    The state of [struct disk]: the descriptor table, the two rings shared with
    the device, the free map and the bookkeeping of requests in flight.
    Descriptor addresses are kept symbolic (an element of [ops], the data of a
    buffer, the status byte of an [info] slot).  The device is not part of the
    sources: what it does with a request is the class [Backend] with the laws of
    a virtio block device, and [dev_serve] is the queue protocol around it. *)

From S2P Require Import Prelude Machine.

Definition NUM : nat := 16.
Definition VRING_DESC_F_NEXT : Z := 1.
Definition VRING_DESC_F_WRITE : Z := 2.
Definition VIRTIO_BLK_T_IN : Z := 0.
Definition VIRTIO_BLK_T_OUT : Z := 1.

(** What a descriptor's address designates. *)
Inductive dptr : Type :=
  | PNull
  | POps (i : nat)      (* &ops[i] *)
  | PData (b : Z)       (* b->data *)
  | PStatus (i : nat).  (* &info[i].status *)

Record virtq_desc := Desc {
  d_addr : dptr;
  d_len : Z;
  d_flags : Z;
  d_next : nat;
}.
#[export] Instance virtq_desc_inhabited : Inhabited virtq_desc := populate (Desc PNull 0 0 0).

Record virtio_blk_req := Req {
  r_type : Z;
  r_reserved : Z;
  r_sector : Z;
}.
#[export] Instance virtio_blk_req_inhabited : Inhabited virtio_blk_req := populate (Req 0 0 0).

(** [info[i]]: the buffer of the request and the device's status byte. *)
Record info_slot := Info {
  i_b : option Z;
  i_status : Z;
}.
#[export] Instance info_slot_inhabited : Inhabited info_slot := populate (Info None 0).

(** The parts of [struct buf] the driver touches. *)
Record vbuf := VBuf {
  b_data : list Z;
  b_disk : Z;
  b_blockno : Z;
}.
#[export] Instance vbuf_inhabited : Inhabited vbuf := populate (VBuf [] 0 0).

(** The device behind the queue: status, data and new device state. *)
Class Backend (V : Type) := {
  serve : V → Z → Z → list Z → Z * list Z * V;
}.

Record vdisk_st (V : Type) := VDisk {
  v_name : string;
  v_desc : list virtq_desc;
  v_avail_idx : Z;
  v_avail : list nat;
  v_used_idx_dev : Z;        (* used->idx, written by the device *)
  v_used : list nat;
  v_free : list bool;
  v_used_idx : Z;
  v_info : list info_slot;
  v_ops : list virtio_blk_req;
  v_bufs : gmap Z vbuf;
  v_woken : list Z;          (* channels passed to wakeup *)
  v_last_avail : Z;          (* the device's position in the avail ring *)
  v_backend : V;
}.
Arguments VDisk {V} _ _ _ _ _ _ _ _ _ _ _ _ _ _.
Arguments v_name {V} _.
Arguments v_desc {V} _.
Arguments v_avail_idx {V} _.
Arguments v_avail {V} _.
Arguments v_used_idx_dev {V} _.
Arguments v_used {V} _.
Arguments v_free {V} _.
Arguments v_used_idx {V} _.
Arguments v_info {V} _.
Arguments v_ops {V} _.
Arguments v_bufs {V} _.
Arguments v_woken {V} _.
Arguments v_last_avail {V} _.
Arguments v_backend {V} _.

Section virtio.
Context {V : Type} `{BK : Backend V}.
Implicit Types (s : vdisk_st V).

Definition set_desc (l : list virtq_desc) s : vdisk_st V :=
  VDisk (v_name s) l (v_avail_idx s) (v_avail s) (v_used_idx_dev s) (v_used s) (v_free s)
    (v_used_idx s) (v_info s) (v_ops s) (v_bufs s) (v_woken s) (v_last_avail s) (v_backend s).
Definition set_avail (i : Z) (l : list nat) s : vdisk_st V :=
  VDisk (v_name s) (v_desc s) i l (v_used_idx_dev s) (v_used s) (v_free s)
    (v_used_idx s) (v_info s) (v_ops s) (v_bufs s) (v_woken s) (v_last_avail s) (v_backend s).
Definition set_used (i : Z) (l : list nat) s : vdisk_st V :=
  VDisk (v_name s) (v_desc s) (v_avail_idx s) (v_avail s) i l (v_free s)
    (v_used_idx s) (v_info s) (v_ops s) (v_bufs s) (v_woken s) (v_last_avail s) (v_backend s).
Definition set_free (l : list bool) s : vdisk_st V :=
  VDisk (v_name s) (v_desc s) (v_avail_idx s) (v_avail s) (v_used_idx_dev s) (v_used s) l
    (v_used_idx s) (v_info s) (v_ops s) (v_bufs s) (v_woken s) (v_last_avail s) (v_backend s).
Definition set_used_idx (i : Z) s : vdisk_st V :=
  VDisk (v_name s) (v_desc s) (v_avail_idx s) (v_avail s) (v_used_idx_dev s) (v_used s) (v_free s)
    i (v_info s) (v_ops s) (v_bufs s) (v_woken s) (v_last_avail s) (v_backend s).
Definition set_info (l : list info_slot) s : vdisk_st V :=
  VDisk (v_name s) (v_desc s) (v_avail_idx s) (v_avail s) (v_used_idx_dev s) (v_used s) (v_free s)
    (v_used_idx s) l (v_ops s) (v_bufs s) (v_woken s) (v_last_avail s) (v_backend s).
Definition set_ops (l : list virtio_blk_req) s : vdisk_st V :=
  VDisk (v_name s) (v_desc s) (v_avail_idx s) (v_avail s) (v_used_idx_dev s) (v_used s) (v_free s)
    (v_used_idx s) (v_info s) l (v_bufs s) (v_woken s) (v_last_avail s) (v_backend s).
Definition set_bufs (m : gmap Z vbuf) s : vdisk_st V :=
  VDisk (v_name s) (v_desc s) (v_avail_idx s) (v_avail s) (v_used_idx_dev s) (v_used s) (v_free s)
    (v_used_idx s) (v_info s) (v_ops s) m (v_woken s) (v_last_avail s) (v_backend s).
Definition add_woken (c : Z) s : vdisk_st V :=
  VDisk (v_name s) (v_desc s) (v_avail_idx s) (v_avail s) (v_used_idx_dev s) (v_used s) (v_free s)
    (v_used_idx s) (v_info s) (v_ops s) (v_bufs s) (c :: v_woken s) (v_last_avail s) (v_backend s).
Definition set_device (i : Z) (v : V) s : vdisk_st V :=
  VDisk (v_name s) (v_desc s) (v_avail_idx s) (v_avail s) (v_used_idx_dev s) (v_used s) (v_free s)
    (v_used_idx s) (v_info s) (v_ops s) (v_bufs s) (v_woken s) i v.

Definition upd_desc (i : nat) (f : virtq_desc → virtq_desc) : M (vdisk_st V) unit :=
  modify (λ s, set_desc (<[i := f (v_desc s !!! i)]> (v_desc s)) s).
Definition upd_buf (b : Z) (f : vbuf → vbuf) : M (vdisk_st V) unit :=
  modify (λ s, set_bufs (<[b := f (v_bufs s !!! b)]> (v_bufs s)) s).

(** The channel [&disk[id].free[0]]; buffers are the other channels. *)
Definition FREE_CHAN : Z := -1.

Definition alloc_desc : M (vdisk_st V) (option nat) :=
  for_exit 0 (Z.of_nat NUM) (λ i,
    s ← get (S := vdisk_st V);
    if (v_free s !!! Z.to_nat i : bool)
    then modify (set_free (<[Z.to_nat i := false]> (v_free s)));; ret (Some (Z.to_nat i))
    else ret None).

Definition free_desc (i : nat) : M (vdisk_st V) unit :=
  s ← get (S := vdisk_st V);
  if (NUM <=? i)%nat then panic (v_name s +:+ ": free_desc 1")
  else if (v_free s !!! i : bool) then panic (v_name s +:+ ": free_desc 2")
  else
    upd_desc i (λ _, Desc PNull 0 0 0);;
    modify (λ s, set_free (<[i := true]> (v_free s)) s);;
    modify (add_woken FREE_CHAN).

(** A chain visits each descriptor at most once before [free_desc] panics. *)
Fixpoint free_chain (fuel : nat) (i : nat) : M (vdisk_st V) unit :=
  match fuel with
  | O => out_of_fuel
  | S fuel' =>
      s ← get (S := vdisk_st V);
      let flag := d_flags (v_desc s !!! i) in
      let nxt := d_next (v_desc s !!! i) in
      free_desc i;;
      if negb (Z.land flag VRING_DESC_F_NEXT =? 0) then free_chain fuel' nxt else ret tt
  end.

(** [alloc3_desc]: the three indices, or [None] with nothing taken. *)
Definition alloc3_desc : M (vdisk_st V) (option (nat * nat * nat)) :=
  i0 ← alloc_desc;
  match i0 with
  | None => ret None
  | Some i0 =>
      i1 ← alloc_desc;
      match i1 with
      | None => free_desc i0;; ret None
      | Some i1 =>
          i2 ← alloc_desc;
          match i2 with
          | None => free_desc i0;; free_desc i1;; ret None
          | Some i2 => ret (Some (i0, i1, i2))
          end
      end
  end.

(** The part of [virtio_disk_rw] from the allocated descriptors to the
    notification of the device. *)
Definition format_request (b : Z) (write : bool) (i0 i1 i2 : nat) : M (vdisk_st V) unit :=
  s ← get (S := vdisk_st V);
  let sector := u32 (b_blockno (v_bufs s !!! b) * (BSIZE / 512)) in
  modify (λ s, set_ops (<[i0 := Req (if write then VIRTIO_BLK_T_OUT else VIRTIO_BLK_T_IN) 0 sector]>
                          (v_ops s)) s);;
  upd_desc i0 (λ _, Desc (POps i0) 16 VRING_DESC_F_NEXT i1);;
  upd_desc i1 (λ _, Desc (PData b) BSIZE
    (Z.lor (if write then 0 else VRING_DESC_F_WRITE) VRING_DESC_F_NEXT) i2);;
  modify (λ s, set_info (<[i0 := Info (i_b (v_info s !!! i0)) 0xff]> (v_info s)) s);;
  upd_desc i2 (λ _, Desc (PStatus i0) 1 VRING_DESC_F_WRITE 0);;
  upd_buf b (λ v, VBuf (b_data v) 1 (b_blockno v));;
  modify (λ s, set_info (<[i0 := Info (Some b) (i_status (v_info s !!! i0))]> (v_info s)) s);;
  modify (λ s, set_avail (v_avail_idx s)
    (<[Z.to_nat (v_avail_idx s mod Z.of_nat NUM) := i0]> (v_avail s)) s);;
  modify (λ s, set_avail (u16 (v_avail_idx s + 1)) (v_avail s) s).

(** [virtio_disk_rw] up to the sleep: [None] when it has to wait for
    descriptors. *)
Definition rw_submit (b : Z) (write : bool) : M (vdisk_st V) (option nat) :=
  r ← alloc3_desc;
  match r with
  | None => ret None
  | Some (i0, i1, i2) => format_request b write i0 i1 i2;; ret (Some i0)
  end.

(** [virtio_disk_rw] after the sleep. *)
Definition rw_finish (i0 : nat) : M (vdisk_st V) unit :=
  modify (λ s, set_info (<[i0 := Info None (i_status (v_info s !!! i0))]> (v_info s)) s);;
  free_chain (S NUM) i0.

(** One completed request of the interrupt handler. *)
Definition intr_one : M (vdisk_st V) unit :=
  s ← get (S := vdisk_st V);
  let idx := v_used s !!! Z.to_nat (v_used_idx s mod Z.of_nat NUM) in
  if negb (i_status (v_info s !!! idx) =? 0)
  then panic (v_name s +:+ ": virtio_disk_intr status")
  else
    match i_b (v_info s !!! idx) with
    | None => fault
    | Some b =>
        upd_buf b (λ v, VBuf (b_data v) 0 (b_blockno v));;
        modify (add_woken b);;
        modify (λ s, set_used_idx (u16 (v_used_idx s + 1)) s)
    end.

Fixpoint intr_loop (fuel : nat) : M (vdisk_st V) unit :=
  match fuel with
  | O => out_of_fuel
  | S fuel' =>
      s ← get (S := vdisk_st V);
      if v_used_idx s =? v_used_idx_dev s then ret tt
      else intr_one;; intr_loop fuel'
  end.

(** The loop runs once per entry the device added: [used->idx - used_idx]; the
    interrupt is acknowledged in a device register, which the model leaves out. *)
Definition virtio_disk_intr : M (vdisk_st V) unit :=
  s ← get (S := vdisk_st V);
  intr_loop (S (Z.to_nat (u16 (v_used_idx_dev s - v_used_idx s)))).

(** ** The device's side of the queue *)

(** The device takes the next chain head from the avail ring, follows the
    three descriptors and reports the head in the used ring. *)
Definition dev_serve : M (vdisk_st V) bool :=
  s ← get (S := vdisk_st V);
  if v_last_avail s =? v_avail_idx s then ret false
  else
    let head := v_avail s !!! Z.to_nat (v_last_avail s mod Z.of_nat NUM) in
    let d0 := v_desc s !!! head in
    let d1 := v_desc s !!! d_next d0 in
    let d2 := v_desc s !!! d_next d1 in
    match d_addr d0, d_addr d1, d_addr d2 with
    | POps i, PData b, PStatus k =>
        let req := v_ops s !!! i in
        let '(status, data, v') :=
          serve (v_backend s) (r_type req) (r_sector req) (b_data (v_bufs s !!! b)) in
        upd_buf b (λ v, VBuf data (b_disk v) (b_blockno v));;
        modify (λ s, set_info (<[k := Info (i_b (v_info s !!! k)) status]> (v_info s)) s);;
        modify (λ s, set_used (u16 (v_used_idx_dev s + 1))
          (<[Z.to_nat (v_used_idx_dev s mod Z.of_nat NUM) := head]> (v_used s)) s);;
        modify (set_device (u16 (v_last_avail s + 1)) v');;
        ret true
    | _, _, _ => fault
    end.
End virtio.
