(* ===== verification/VirtioFacts.v ===== *)
(** * The driver's bookkeeping is consistent

    [chains s R]: the requests [R] in flight own disjoint descriptor triples,
    every other descriptor is free, and each triple is linked as the device
    expects.  Allocation, formatting and freeing preserve it and never reach the
    panics of [free_desc]. *)

From S2P Require Import Prelude Machine Virtio.

(** A request in flight: its three descriptors, its buffer and direction. *)
Record chain3 := Chain { c0 : nat; c1 : nat; c2 : nat; cb : Z; cw : bool }.

Definition owned (R : list chain3) : list nat := R ≫= λ r, [c0 r; c1 r; c2 r].

Section facts.
Context {V : Type} `{BK : Backend V}.
Implicit Types (s : vdisk_st V) (R : list chain3).

Record sized s : Prop := {
  sz_desc : length (v_desc s) = NUM;
  sz_avail : length (v_avail s) = NUM;
  sz_used : length (v_used s) = NUM;
  sz_free : length (v_free s) = NUM;
  sz_info : length (v_info s) = NUM;
  sz_ops : length (v_ops s) = NUM;
}.

Definition linked s (r : chain3) : Prop :=
  v_desc s !!! c0 r = Desc (POps (c0 r)) 16 VRING_DESC_F_NEXT (c1 r)
  ∧ v_desc s !!! c1 r = Desc (PData (cb r)) BSIZE
      (Z.lor (if cw r then 0 else VRING_DESC_F_WRITE) VRING_DESC_F_NEXT) (c2 r)
  ∧ v_desc s !!! c2 r = Desc (PStatus (c0 r)) 1 VRING_DESC_F_WRITE 0
  ∧ i_b (v_info s !!! c0 r) = Some (cb r).

Record chains s R : Prop := {
  ch_sized : sized s;
  ch_nodup : NoDup (owned R);
  ch_bound i : i ∈ owned R → (i < NUM)%nat;
  ch_free i : (i < NUM)%nat → v_free s !!! i = bool_decide (i ∉ owned R);
  ch_linked r : r ∈ R → linked s r;
}.

(** *** Allocation *)

Lemma wp_alloc_desc s (Q : option nat → vdisk_st V → Prop) :
  (∀ i, (i < NUM)%nat → v_free s !!! i = true → Q (Some i) (set_free (<[i := false]> (v_free s)) s)) →
  ((∀ i, (i < NUM)%nat → v_free s !!! i = false) → Q None s) →
  wp alloc_desc Q s.
Proof.
  intros HS HN. unfold alloc_desc.
  apply (wp_for_exit (λ i s', s' = s ∧ ∀ j, (Z.of_nat j < i) → v_free s !!! j = false));
    [done|split; [done|lia]| |].
  - intros i s' Hi [-> Hj]. wp_step. wp_step. destruct (v_free s !!! Z.to_nat i) eqn:E.
    + wp_steps. apply HS; [unfold NUM in *; lia|done].
    + wp_step. split; [done|]. intros j Hlt. destruct (decide (Z.of_nat j = i)) as [<-|].
      * by rewrite Nat2Z.id in E.
      * apply Hj. lia.
  - intros s' [-> Hj]. apply HN. intros i Hi. apply Hj. unfold NUM in *. lia.
Qed.

(** Freeing a descriptor that is in use. *)
Lemma wp_free_desc i s (Q : unit → vdisk_st V → Prop) :
  (i < NUM)%nat → v_free s !!! i = false →
  Q tt (add_woken FREE_CHAN (set_free (<[i := true]> (v_free s))
          (set_desc (<[i := Desc PNull 0 0 0]> (v_desc s)) s))) →
  wp (free_desc i) Q s.
Proof.
  intros Hi Hf HQ. unfold free_desc. wp_step. wp_step.
  rewrite (proj2 (Nat.leb_gt _ _)) by done. rewrite Hf. unfold upd_desc. by wp_steps.
Qed.

Lemma restore_free (l : list bool) i :
  (i < length l)%nat → l !!! i = true → <[i := true]> l = l.
Proof. intros Hi Hl. apply list_insert_id. rewrite <- Hl. by apply list_lookup_lookup_total_lt. Qed.

(** A descriptor taken and given back leaves the free map as it was. *)
Lemma wp_give_back i s0 s (Q : unit → vdisk_st V → Prop) :
  sized s0 → sized s → (i < NUM)%nat → v_free s0 !!! i = true →
  v_free s = <[i := false]> (v_free s0) → v_info s = v_info s0 →
  (∀ s', v_free s' = v_free s0 → v_desc s' = <[i := Desc PNull 0 0 0]> (v_desc s) →
     sized s' → v_info s' = v_info s0 → Q tt s') →
  wp (free_desc i) Q s.
Proof.
  intros [_ _ _ Zf0 _ _] [Zd Za Zu Zf Zi Zo] Hi F0 Hf Hinf HQ. apply wp_free_desc; [done| |].
  - rewrite Hf. apply list_lookup_total_insert_eq. lia.
  - apply HQ; cbn; [|done| |done].
    + rewrite Hf, list_insert_insert_eq. apply restore_free; [lia|done].
    + split; cbn; rewrite ?length_insert; done.
Qed.

Lemma sized_free l s : sized s → length l = NUM → sized (set_free l s).
Proof. intros [] ?. by split. Qed.

(** What allocation leaves: three distinct descriptors taken, or none. *)
Lemma wp_alloc3_desc s (Q : option (nat * nat * nat) → vdisk_st V → Prop) :
  sized s →
  (∀ i0 i1 i2, (i0 < NUM)%nat → (i1 < NUM)%nat → (i2 < NUM)%nat → NoDup [i0; i1; i2] →
     v_free s !!! i0 = true → v_free s !!! i1 = true → v_free s !!! i2 = true →
     Q (Some (i0, i1, i2))
       (set_free (<[i2 := false]> (<[i1 := false]> (<[i0 := false]> (v_free s)))) s)) →
  (∀ s' l, (length l ≤ 2)%nat → (∀ i, (i < NUM)%nat → v_free s !!! i = true → i ∈ l) →
     v_free s' = v_free s →
     (∀ i, v_free s !!! i = false → v_desc s' !!! i = v_desc s !!! i) →
     sized s' → v_info s' = v_info s → Q None s') →
  wp alloc3_desc Q s.
Proof.
  intros Hz HS HN. pose proof (sz_free _ Hz) as Zf. unfold alloc3_desc.
  wp_step. apply wp_alloc_desc; [intros i0 Hi0 F0|].
  2: { intros E. wp_step. apply (HN s []); [simpl; lia| |done..]. intros i Hi. by rewrite E. }
  assert (Hz0 : sized (set_free (<[i0:=false]> (v_free s)) s))
    by (apply sized_free; rewrite ?length_insert; done).
  wp_step. apply wp_alloc_desc; cbn [v_free set_free].
  2: { intros E. wp_step. apply (wp_give_back i0 s); try done. intros s' Hf Hd Hs' Hi'.
       wp_step. apply (HN s' [i0]); [simpl; lia| |done| |done|done].
       { intros i Hi Fi. apply list_elem_of_singleton, dec_stable. intros Ne. specialize (E i Hi).
         rewrite list_lookup_total_insert_ne in E by done. congruence. } intros i Fi. rewrite Hd.
       apply list_lookup_total_insert_ne. congruence. }
  intros i1 Hi1 F1.
  assert (i0 ≠ i1) as N01 by (intros ->; rewrite list_lookup_total_insert_eq in F1 by lia; done).
  rewrite list_lookup_total_insert_ne in F1 by done.
  wp_step. apply wp_alloc_desc; cbn [v_free set_free].
  - intros i2 Hi2 F2. wp_step.
    assert (i1 ≠ i2) as N12 by (intros ->; rewrite list_lookup_total_insert_eq in F2
      by (rewrite length_insert; lia); done).
    rewrite list_lookup_total_insert_ne in F2 by done.
    assert (i0 ≠ i2) as N02 by (intros ->; rewrite list_lookup_total_insert_eq in F2 by lia; done).
    rewrite list_lookup_total_insert_ne in F2 by done.
    apply HS; try done. repeat constructor; set_solver.
  - intros E. wp_step.
    assert (Hz1 : sized (set_free (<[i1:=false]> (v_free s)) s))
      by (apply sized_free; rewrite ?length_insert; done).
    apply (wp_give_back i0 (set_free (<[i1:=false]> (v_free s)) s)); try done.
    + apply sized_free; [done|]. by rewrite !length_insert.
    + cbn. by rewrite list_lookup_total_insert_ne.
    + cbn. by rewrite list_insert_insert_ne.
    + cbn. intros s1 Hf1 Hd1 Hs1 Hi1'. wp_step. apply (wp_give_back i1 s); try done.
      intros s2 Hf2 Hd2 Hs2 Hi2'. wp_step.
      apply (HN s2 [i0; i1]); [simpl; lia| |done| |done|done].
      { intros i Hi Fi. specialize (E i Hi). apply dec_stable. intros Ne.
        rewrite !list_lookup_total_insert_ne in E by set_solver. congruence. }
      intros i Fi. rewrite Hd2, Hd1, !list_lookup_total_insert_ne by congruence. done.
Qed.

(** *** Requests *)

Lemma owned_cons r R : owned (r :: R) = c0 r :: c1 r :: c2 r :: owned R.
Proof. done. Qed.

Lemma elem_of_owned i R : i ∈ owned R ↔ ∃ r, r ∈ R ∧ (i = c0 r ∨ i = c1 r ∨ i = c2 r).
Proof. unfold owned. rewrite list_elem_of_bind. set_solver. Qed.

Lemma linked_frame s s' r :
  linked s r →
  (∀ i, i = c0 r ∨ i = c1 r ∨ i = c2 r → v_desc s' !!! i = v_desc s !!! i) →
  i_b (v_info s' !!! c0 r) = i_b (v_info s !!! c0 r) →
  linked s' r.
Proof.
  intros (L0 & L1 & L2 & L3) Hd Hi. unfold linked. rewrite !Hd, Hi by auto. done.
Qed.

(** An allocation that gives up changes nothing in flight. *)
Lemma chains_frame s s' R :
  chains s R → sized s' → v_free s' = v_free s →
  (∀ i, v_free s !!! i = false → v_desc s' !!! i = v_desc s !!! i) →
  (∀ i, i_b (v_info s' !!! i) = i_b (v_info s !!! i)) →
  chains s' R.
Proof.
  intros [Z N B F L] Hz Hf Hd Hi. split; [done|done|done|by rewrite Hf|].
  intros r Hr. apply (linked_frame s); [by apply L| |done].
  intros i Hor. assert (i ∈ owned R) as Ho by (apply elem_of_owned; eauto).
  apply Hd. rewrite F by auto. by apply bool_decide_eq_false; intros [].
Qed.

Lemma owned_perm R R' : R ≡ₚ R' → owned R ≡ₚ owned R'.
Proof. intros HR. unfold owned. by apply bind_Permutation. Qed.

Lemma chains_perm s R R' : R ≡ₚ R' → chains s R → chains s R'.
Proof.
  intros HR [Z N B F L]. pose proof (owned_perm _ _ HR) as HO. split; [done|by rewrite <- HO| | |].
  - intros i. rewrite <- HO. apply B.
  - intros i Hi. rewrite F by done. apply bool_decide_ext. by rewrite HO.
  - intros r. rewrite <- HR. apply L.
Qed.

Lemma length_owned R : length (owned R) = (3 * length R)%nat.
Proof. induction R as [|r R IH]; [done|]. rewrite owned_cons. simpl in *. lia. Qed.

(** At most five requests fit. *)
Lemma chains_length s R : chains s R → (length R ≤ 5)%nat.
Proof.
  intros [_ N B _ _]. assert (owned R ⊆ seq 0 NUM) as Hsub.
  { intros i Hi. apply elem_of_seq. specialize (B i Hi). lia. }
  apply NoDup_submseteq in Hsub; [|done]. apply submseteq_length in Hsub.
  rewrite length_owned, length_seq in Hsub. unfold NUM in Hsub. lia.
Qed.

(** With at most four requests in flight three descriptors are free. *)
Lemma chains_room s R l :
  chains s R → (length R < 5)%nat → (length l ≤ 2)%nat →
  ¬ (∀ i, (i < NUM)%nat → v_free s !!! i = true → i ∈ l).
Proof.
  intros [_ N B F _] HR Hl Hall. assert (seq 0 NUM ⊆ owned R ++ l) as Hsub.
  { intros i [_ Hi]%elem_of_seq. rewrite elem_of_app. destruct (decide (i ∈ owned R)); [by left|].
    right. apply Hall; [done|]. rewrite F by done. by apply bool_decide_eq_true. }
  apply NoDup_submseteq in Hsub; [|apply NoDup_seq]. apply submseteq_length in Hsub.
  rewrite length_app, length_owned, length_seq in Hsub. unfold NUM in Hsub. lia.
Qed.
End facts.
