(* ===== verification/VirtioProto.v ===== *)
(** * The queue protocol of kernel/virtio_disk.c

    Several calls of [virtio_disk_rw] can be in flight on one disk while the
    device serves requests and the interrupt handler acknowledges them.  The
    specification is a queue of requests the device executes one at a time in
    order; [driver_run] interleaves the driver's steps.  Every interleaving the
    specification allows runs on the driver without a panic and leaves buffers
    and device as the specification says. *)

From S2P Require Import Prelude Machine Virtio VirtioFacts.

Section steps.
Context {V : Type} `{BK : Backend V}.
Implicit Types (s : vdisk_st V) (r : chain3) (R : list chain3).

(** What the queue and the device see unchanged. *)
Record same_queue s s' : Prop := {
  sq_name : v_name s' = v_name s;
  sq_used : v_used s' = v_used s;
  sq_used_idx_dev : v_used_idx_dev s' = v_used_idx_dev s;
  sq_used_idx : v_used_idx s' = v_used_idx s;
  sq_last : v_last_avail s' = v_last_avail s;
  sq_backend : v_backend s' = v_backend s;
}.

Definition req_type (w : bool) : Z := if w then VIRTIO_BLK_T_OUT else VIRTIO_BLK_T_IN.

Record submitted (r : chain3) s s' : Prop := {
  su_sized : sized s';
  su_same : same_queue s s';
  su_free : v_free s' = v_free s;
  su_linked : linked s' r;
  su_desc i : i ∉ [c0 r; c1 r; c2 r] → v_desc s' !!! i = v_desc s !!! i;
  su_info i : i ≠ c0 r → v_info s' !!! i = v_info s !!! i;
  su_ops i : v_ops s' !!! i =
    if decide (i = c0 r)
    then Req (req_type (cw r)) 0 (u32 (b_blockno (v_bufs s !!! cb r) * (BSIZE / 512)))
    else v_ops s !!! i;
  su_bufs b : v_bufs s' !!! b =
    if decide (b = cb r) then VBuf (b_data (v_bufs s !!! b)) 1 (b_blockno (v_bufs s !!! b))
    else v_bufs s !!! b;
  su_avail : v_avail s' = <[Z.to_nat (v_avail_idx s mod Z.of_nat NUM) := c0 r]> (v_avail s);
  su_avail_idx : v_avail_idx s' = u16 (v_avail_idx s + 1);
}.

Lemma wp_format_request b w i0 i1 i2 s (Q : unit → vdisk_st V → Prop) :
  sized s → (i0 < NUM)%nat → (i1 < NUM)%nat → (i2 < NUM)%nat → NoDup [i0; i1; i2] →
  (∀ s', submitted (Chain i0 i1 i2 b w) s s' → Q tt s') →
  wp (format_request b w i0 i1 i2) Q s.
Proof.
  intros [Zd Za Zu Zf Zi Zo] H0 H1 H2 Hn HQ. unfold format_request, upd_desc, upd_buf. wp_steps.
  apply HQ. rewrite !NoDup_cons in Hn. destruct Hn as (N0 & N1 & _).
  rewrite not_elem_of_cons, list_elem_of_singleton in N0. rewrite list_elem_of_singleton in N1.
  destruct N0 as [N01 N02].
  split; cbn [v_desc v_avail v_used v_free v_info v_ops v_bufs v_avail_idx set_desc set_avail
    set_info set_ops set_bufs c0 c1 c2 cb cw].
  - split; cbn; rewrite ?length_insert; done.
  - done.
  - done.
  - split_and!; cbn [v_desc v_info set_desc set_avail set_info set_bufs set_ops c0 c1 c2 cb cw].
    all: rewrite !list_insert_lookup by (rewrite ?length_insert; lia).
    all: by repeat case_decide; simplify_eq.
  - intros i Hi. rewrite !list_insert_lookup by (rewrite ?length_insert; lia).
    rewrite !not_elem_of_cons in Hi. rewrite !decide_False by tauto. done.
  - intros i Hi. rewrite !list_insert_lookup by (rewrite ?length_insert; lia).
    by rewrite !decide_False.
  - intros i. by rewrite list_insert_lookup by lia.
  - intros b'. rewrite map_insert_lookup. by case_decide; subst.
  - done.
  - done.
Qed.

(** Freeing a finished request. *)
Record finished (r : chain3) s s' : Prop := {
  fi_sized : sized s';
  fi_same : same_queue s s';
  fi_free i : (i < NUM)%nat →
    v_free s' !!! i = if decide (i ∈ [c0 r; c1 r; c2 r]) then true else v_free s !!! i;
  fi_desc i : i ∉ [c0 r; c1 r; c2 r] → v_desc s' !!! i = v_desc s !!! i;
  fi_info i : i ≠ c0 r → v_info s' !!! i = v_info s !!! i;
  fi_ops : v_ops s' = v_ops s;
  fi_bufs : v_bufs s' = v_bufs s;
  fi_avail : v_avail s' = v_avail s;
  fi_avail_idx : v_avail_idx s' = v_avail_idx s;
}.

Lemma wp_rw_finish r s R (Q : unit → vdisk_st V → Prop) :
  chains s R → r ∈ R → (∀ s', finished r s s' → Q tt s') → wp (rw_finish (c0 r)) Q s.
Proof.
  intros [[Zd Za Zu Zf Zi Zo] N B F L] Hr HQ.
  assert (∀ i, i ∈ [c0 r; c1 r; c2 r] → (i < NUM)%nat ∧ v_free s !!! i = false) as Hown.
  { intros i Hi. assert (i ∈ owned R) as Ho by (apply elem_of_owned; exists r; set_solver).
    split; [by apply B|]. rewrite F by auto. by apply bool_decide_eq_false; intros []. }
  assert (NoDup [c0 r; c1 r; c2 r]) as Hn.
  { apply list_elem_of_split in Hr as (R1 & R2 & ->). unfold owned in N.
    rewrite bind_app, bind_cons in N. apply NoDup_app in N as (_ & _ & N).
    by apply NoDup_app in N as (N & _). }
  destruct (L r Hr) as (L0 & L1 & L2 & _).
  destruct (Hown (c0 r)) as [B0 F0]; [set_solver|]. destruct (Hown (c1 r)) as [B1 F1]; [set_solver|].
  destruct (Hown (c2 r)) as [B2 F2]; [set_solver|].
  rewrite !NoDup_cons in Hn. destruct Hn as (N0 & N1 & _).
  rewrite not_elem_of_cons, list_elem_of_singleton in N0. rewrite list_elem_of_singleton in N1.
  destruct N0 as [N01 N02].
  unfold rw_finish. wp_step. wp_step. unfold NUM at 1. cbn [free_chain].
  wp_step. wp_step. cbn [v_desc set_info]. rewrite L0. cbn [d_flags d_next Z.land].
  wp_step. apply wp_free_desc; [done|done|]. replace (negb _) with true by done.
  wp_step. wp_step. cbn [v_desc set_info add_woken set_free set_desc].
  rewrite list_lookup_total_insert_ne, L1 by done. cbn [d_flags d_next].
  wp_step. apply wp_free_desc; [done|cbn; by rewrite list_lookup_total_insert_ne|].
  replace (negb _) with true by (by destruct (cw r)).
  wp_step. wp_step. cbn [v_desc set_info add_woken set_free set_desc].
  rewrite !list_lookup_total_insert_ne, L2 by done. cbn [d_flags d_next].
  wp_step. apply wp_free_desc; [done|cbn; by rewrite !list_lookup_total_insert_ne|].
  replace (negb _) with false by done. wp_step.
  apply HQ. split; cbn; [split; cbn; by rewrite ?length_insert|done| | | |done..].
  - intros i Hi. rewrite !list_insert_lookup by (rewrite ?length_insert; lia).
    repeat case_decide; set_solver.
  - intros i Hi. rewrite !not_elem_of_cons in Hi.
    by rewrite !list_lookup_total_insert_ne by (intros <-; tauto).
  - intros i Hi. by rewrite list_lookup_total_insert_ne.
Qed.
End steps.

(** ** The two rings *)

(** The entries from [a] up to [z] are the heads of [q], in order. *)
Definition ring (l : list nat) (a : Z) (q : list chain3) (z : Z) : Prop :=
  0 ≤ a < 2 ^ 16 ∧ z = u16 (a + Z.of_nat (length q))
  ∧ ∀ j r, q !! j = Some r → l !!! Z.to_nat ((a + Z.of_nat j) mod Z.of_nat NUM) = c0 r.

Lemma u16_mod_NUM z : u16 z mod Z.of_nat NUM = z mod Z.of_nat NUM.
Proof.
  unfold u16. change (2 ^ 16) with (Z.of_nat NUM * 4096). rewrite Z.rem_mul_r by done.
  rewrite Z.mul_comm, Z.mod_add by done. by apply Z.mod_mod.
Qed.

Lemma ring_push l a q z r :
  length l = NUM → (length q < NUM)%nat → ring l a q z →
  ring (<[Z.to_nat (z mod Z.of_nat NUM) := c0 r]> l) a (q ++ [r]) (u16 (z + 1)).
Proof.
  intros Hl Hq (Ha & -> & Hr). split_and!; [lia..| |].
  - rewrite length_app. simpl. unfold u16. rewrite Z.add_mod_idemp_l by done. f_equal. lia.
  - rewrite u16_mod_NUM. assert (Z.of_nat NUM = 16) as HN by done. intros j r' Hj.
    rewrite HN in *. rewrite list_insert_lookup by (unfold NUM in *; dlia).
    apply lookup_app_Some in Hj as [Hj|[Hlen Hj]].
    + pose proof (lookup_lt_Some _ _ _ Hj). rewrite decide_False by (unfold NUM in *; dlia).
      by apply Hr.
    + apply list_lookup_singleton_Some in Hj as [? <-].
      rewrite decide_True; [done|]. do 2 f_equal. lia.
Qed.

Lemma ring_pop l a r q z :
  ring l a (r :: q) z →
  l !!! Z.to_nat (a mod Z.of_nat NUM) = c0 r ∧ ring l (u16 (a + 1)) q z.
Proof.
  intros (Ha & -> & Hr). split.
  - specialize (Hr 0%nat r eq_refl). by rewrite Z.add_0_r in Hr.
  - split_and!; [apply Z.mod_pos_bound; lia..| |].
    + simpl length. unfold u16. rewrite Z.add_mod_idemp_l by done. f_equal. lia.
    + intros j r' Hj. rewrite <- (Hr (S j) r' Hj). do 2 f_equal.
      rewrite <- u16_mod_NUM. symmetry. rewrite <- u16_mod_NUM. f_equal. unfold u16.
      rewrite Z.add_mod_idemp_l by done. f_equal. lia.
Qed.

Lemma ring_empty l a q z :
  (length q < NUM)%nat → ring l a q z → a = z ↔ q = [].
Proof.
  intros Hq (Ha & -> & _). destruct q as [|r q]; simpl in *.
  - unfold u16. rewrite Z.add_0_r, Z.mod_small by done. done.
  - split; [|done]. unfold u16, NUM in *. intros E. exfalso. dlia.
Qed.

Lemma ring_count l a q z :
  (length q < NUM)%nat → ring l a q z → u16 (z - a) = Z.of_nat (length q).
Proof. intros Hq (Ha & -> & _). unfold u16, NUM in *. dlia. Qed.

(** ** The specification *)

Inductive vevent := ESubmit (b : Z) (w : bool) | EServe | EIntr | EFinish (b : Z).

Record vspec (V : Type) := VSpec {
  q_pend : list (Z * bool);      (* submitted, not yet executed *)
  q_served : list (Z * bool);    (* executed, not yet acknowledged *)
  q_done : list (Z * bool);      (* acknowledged, caller not yet resumed *)
  q_data : gmap Z (list Z);
  q_blockno : Z → Z;
  q_dev : V;
}.
Arguments VSpec {V} _ _ _ _ _ _.
Arguments q_pend {V} _.
Arguments q_served {V} _.
Arguments q_done {V} _.
Arguments q_data {V} _.
Arguments q_blockno {V} _ _.
Arguments q_dev {V} _.

Section spec.
Context {V : Type} `{BK : Backend V}.
Implicit Types (s : vdisk_st V) (r : chain3) (R : list chain3) (a : vspec V).

Definition in_flight a : list (Z * bool) := q_pend a ++ q_served a ++ q_done a.

(** A step is allowed when the buffer is not already in flight and a sixth
    request is not started; the device accepts what it executes; only an
    acknowledged request is resumed. *)
Definition spec_vstep (e : vevent) a : option (vspec V) :=
  match e with
  | ESubmit b w =>
      if decide ((length (in_flight a) < 5)%nat ∧ b ∉ (in_flight a).*1)
      then Some (VSpec (q_pend a ++ [(b, w)]) (q_served a) (q_done a) (q_data a) (q_blockno a) (q_dev a))
      else None
  | EServe =>
      match q_pend a with
      | [] => None
      | (b, w) :: p =>
          let '(status, data, v) :=
            serve (q_dev a) (req_type w) (u32 (q_blockno a b * 2)) (q_data a !!! b) in
          if status =? 0
          then Some (VSpec p (q_served a ++ [(b, w)]) (q_done a) (<[b := data]> (q_data a)) (q_blockno a) v)
          else None
      end
  | EIntr => Some (VSpec (q_pend a) [] (q_served a ++ q_done a) (q_data a) (q_blockno a) (q_dev a))
  | EFinish b =>
      if decide (b ∈ (q_done a).*1)
      then Some (VSpec (q_pend a) (q_served a) (filter (λ x, x.1 ≠ b) (q_done a))
                   (q_data a) (q_blockno a) (q_dev a))
      else None
  end.

Fixpoint spec_vrun (l : list vevent) a : option (vspec V) :=
  match l with
  | [] => Some a
  | e :: l' => match spec_vstep e a with Some a' => spec_vrun l' a' | None => None end
  end.

(** ** The driver's runs

    [loc] holds [idx[0]] of the calls of [virtio_disk_rw] that sleep. *)
Definition driver_step (e : vevent) (loc : gmap Z nat) : M (vdisk_st V) (gmap Z nat) :=
  match e with
  | ESubmit b w =>
      r ← rw_submit b w;
      match r with Some i => ret (<[b := i]> loc) | None => ret loc end
  | EServe => dev_serve;; ret loc
  | EIntr => virtio_disk_intr;; ret loc
  | EFinish b => rw_finish (loc !!! b);; ret (delete b loc)
  end.

Fixpoint driver_run (l : list vevent) (loc : gmap Z nat) : M (vdisk_st V) (gmap Z nat) :=
  match l with
  | [] => ret loc
  | e :: l' => loc' ← driver_step e loc; driver_run l' loc'
  end.

(** ** The invariant *)

Definition creq (r : chain3) : Z * bool := (cb r, cw r).

Record proto s (loc : gmap Z nat) (P U K : list chain3) : Prop := {
  pr_chains : chains s (P ++ U ++ K);
  pr_bufs : NoDup (cb <$> P ++ U ++ K);
  pr_avail : ring (v_avail s) (v_last_avail s) P (v_avail_idx s);
  pr_used : ring (v_used s) (v_used_idx s) U (v_used_idx_dev s);
  pr_ops r : r ∈ P →
    v_ops s !!! c0 r = Req (req_type (cw r)) 0 (u32 (b_blockno (v_bufs s !!! cb r) * 2));
  pr_status r : r ∈ U → i_status (v_info s !!! c0 r) = 0;
  pr_busy r : r ∈ P ++ U → b_disk (v_bufs s !!! cb r) = 1;
  pr_idle b : b ∉ (cb <$> P ++ U) → b_disk (v_bufs s !!! b) = 0;
  pr_loc r : r ∈ P ++ U ++ K → loc !!! cb r = c0 r;
}.

Record simulated a s (loc : gmap Z nat) : Prop := {
  sim_proto : ∃ P U K, proto s loc P U K ∧ q_pend a = creq <$> P ∧ q_served a = creq <$> U
    ∧ q_done a = creq <$> K;
  sim_data b : q_data a !!! b = b_data (v_bufs s !!! b);
  sim_blockno b : q_blockno a b = b_blockno (v_bufs s !!! b);
  sim_dev : q_dev a = v_backend s;
}.
End spec.
