(* ===== verification/VirtioRefine.v ===== *)
(** * The driver refines the request queue

    One simulation lemma per event of [VirtioProto], and the theorems about
    whole runs. *)

From S2P Require Import Prelude Machine Virtio VirtioFacts VirtioProto.

Section refine.
Context {V : Type} `{BK : Backend V}.
Implicit Types (s : vdisk_st V) (r : chain3) (R : list chain3) (a : vspec V) (loc : gmap Z nat).

(** *** Submission *)

Lemma insert3_lookup {A} `{Inhabited A} (l : list A) i0 i1 i2 i x :
  (∀ j, j ∈ [i0; i1; i2] → (j < length l)%nat) →
  <[i2 := x]> (<[i1 := x]> (<[i0 := x]> l)) !!! i = if decide (i ∈ [i0; i1; i2]) then x else l !!! i.
Proof.
  intros Hj. rewrite !list_insert_lookup by (rewrite ?length_insert; apply Hj; set_solver).
  destruct (decide (i = i2)), (decide (i = i1)), (decide (i = i0)), (decide (i ∈ [i0; i1; i2]));
    done || set_solver.
Qed.

Lemma chains_submit s s1 s' r R :
  chains s R → v_desc s1 = v_desc s → v_info s1 = v_info s →
  v_free s1 = <[c2 r := false]> (<[c1 r := false]> (<[c0 r := false]> (v_free s))) →
  (∀ i, i ∈ [c0 r; c1 r; c2 r] → (i < NUM)%nat ∧ v_free s !!! i = true) →
  NoDup [c0 r; c1 r; c2 r] →
  submitted r s1 s' → chains s' (r :: R).
Proof.
  intros [Z N B F L] Hd1 Hi1 Hf1 Hfree Hnd [Sz Sq Sf Sl Sd Si So Sb Sa Sx].
  pose proof (sz_free _ Z) as Zf.
  assert (∀ i, i ∈ [c0 r; c1 r; c2 r] → i ∉ owned R) as Hnew.
  { intros i Hi Ho. destruct (Hfree i Hi) as [Hlt Hfr]. rewrite F in Hfr by done.
    by apply bool_decide_eq_true in Hfr. }
  split; [done| | | |].
  - change (NoDup ([c0 r; c1 r; c2 r] ++ owned R)). apply NoDup_app. done.
  - intros i. change (i ∈ [c0 r; c1 r; c2 r] ++ owned R → (i < NUM)%nat).
    rewrite elem_of_app. intros [Hi|Hi]; [by apply Hfree|by apply B].
  - intros i Hi. change (owned (r :: R)) with ([c0 r; c1 r; c2 r] ++ owned R).
    rewrite Sf, Hf1.
    rewrite insert3_lookup by (intros ?; rewrite Zf; apply Hfree).
    case_decide as Hin; [symmetry; apply bool_decide_eq_false; rewrite elem_of_app; tauto|].
    rewrite F by done. apply bool_decide_ext. rewrite elem_of_app. tauto.
  - intros r' [->|Hr']%elem_of_cons; [done|]. apply (linked_frame s); [by apply L| |].
    + intros i Hi. assert (i ∈ owned R) as Ho by (apply elem_of_owned; eauto).
      rewrite Sd, Hd1; [done|]. intros Hi'. by apply (Hnew i).
    + rewrite Si, Hi1; [done|]. intros E. apply (Hnew (c0 r')); [rewrite E; set_solver|].
      apply elem_of_owned; eauto.
Qed.

(** A request in flight is found in one place only. *)
Lemma head_inj s R r r' : chains s R → r ∈ R → r' ∈ R → c0 r = c0 r' → r = r'.
Proof.
  intros [_ N _ _ _]. induction R as [|x R IH]; intros Hr Hr' E; [by apply elem_of_nil in Hr|].
  change (NoDup ([c0 x; c1 x; c2 x] ++ owned R)) in N. apply NoDup_app in N as (_ & N1 & N2).
  apply elem_of_cons in Hr as [->|Hr], Hr' as [->|Hr']; [done| | |by apply IH].
  - destruct (N1 (c0 x)); [set_solver|]. rewrite E. apply elem_of_owned; eauto.
  - destruct (N1 (c0 x)); [set_solver|]. rewrite <- E. apply elem_of_owned; eauto.
Qed.

Lemma buf_inj R r r' : NoDup (cb <$> R) → r ∈ R → r' ∈ R → cb r = cb r' → r = r'.
Proof.
  intros N. induction R as [|x R IH]; intros Hr Hr' E; [by apply elem_of_nil in Hr|].
  rewrite fmap_cons, NoDup_cons in N. destruct N as [N1 N2].
  apply elem_of_cons in Hr as [->|Hr], Hr' as [->|Hr']; [done| | |by apply IH].
  - destruct N1. rewrite E. by apply list_elem_of_fmap_2.
  - destruct N1. rewrite <- E. by apply list_elem_of_fmap_2.
Qed.

Lemma perm_mid r P R : r :: P ++ R ≡ₚ (P ++ [r]) ++ R.
Proof. rewrite <- app_assoc. simpl. apply Permutation_middle. Qed.

Lemma proto_submit s s1 s' loc r P U K :
  proto s loc P U K → set_free (v_free s1) s = s1 →
  v_free s1 = <[c2 r := false]> (<[c1 r := false]> (<[c0 r := false]> (v_free s))) →
  (∀ i, i ∈ [c0 r; c1 r; c2 r] → (i < NUM)%nat ∧ v_free s !!! i = true) →
  NoDup [c0 r; c1 r; c2 r] → cb r ∉ (cb <$> P ++ U ++ K) → (length P < NUM)%nat →
  submitted r s1 s' → proto s' (<[cb r := c0 r]> loc) (P ++ [r]) U K.
Proof.
  intros [Hc Hb Ha Hu Ho Hs Hy Hi Hl] Hs1 Hf Hfree Hnd Hnew Hlen Hsub.
  pose proof (sz_avail _ (ch_sized _ _ Hc)) as Za.
  assert (chains s' (r :: P ++ U ++ K)) as Hc'.
  { apply (chains_submit s s1); try done; by rewrite <- Hs1. }
  assert (v_bufs s1 = v_bufs s ∧ v_ops s1 = v_ops s ∧ v_info s1 = v_info s ∧ v_avail s1 = v_avail s
    ∧ v_avail_idx s1 = v_avail_idx s ∧ v_used s1 = v_used s ∧ v_used_idx s1 = v_used_idx s
    ∧ v_used_idx_dev s1 = v_used_idx_dev s ∧ v_last_avail s1 = v_last_avail s)
    as (Eb & Eo & Ei & Ea & Eai & Eu & Eui & Eud & El) by (by rewrite <- Hs1).
  destruct Hsub as [Sz [_ Q1 Q2 Q3 Q4 _] Sf Sl Sd Si So Sb Sa Sx]. clear Hs1 Hf.
  assert (∀ r', r' ∈ P ++ U ++ K → cb r' ≠ cb r ∧ c0 r' ≠ c0 r) as Hne.
  { intros r' Hr'. split.
    - intros E. apply Hnew. rewrite <- E. by apply list_elem_of_fmap_2.
    - intros E. assert (r' = r) as -> by (eapply head_inj; [done|set_solver|set_solver|done]).
      apply Hnew. by apply list_elem_of_fmap_2. }
  split.
  - eapply chains_perm; [|done]. apply perm_mid.
  - rewrite <- perm_mid. rewrite fmap_cons, NoDup_cons. done.
  - rewrite Sa, Sx, Q4, Ea, Eai, El. by apply ring_push.
  - by rewrite Q1, Q2, Q3, Eu, Eui, Eud.
  - intros r' [Hr'|Hr'%list_elem_of_singleton]%elem_of_app; [|subst r'].
    + destruct (Hne r') as [N1 N2]; [set_solver|]. rewrite So, Sb, !decide_False, Eo, Eb by done.
      by apply Ho.
    + rewrite So, Sb, !decide_True, Eb by done. done.
  - intros r' Hr'. destruct (Hne r') as [N1 N2]; [set_solver|]. rewrite Si, Ei by done. by apply Hs.
  - intros r' Hr'. rewrite Sb, Eb. case_decide as E; [done|]. apply Hy. clear -Hr' E. set_solver.
  - intros b Hb'. rewrite Sb, Eb. rewrite decide_False by (clear -Hb'; set_solver).
    apply Hi. clear -Hb'. set_solver.
  - intros r' Hr'. rewrite map_insert_lookup. case_decide as E.
    + symmetry. f_equal. apply (buf_inj (r :: P ++ U ++ K)); [|clear -Hr'; set_solver..|done].
      rewrite fmap_cons, NoDup_cons. done.
    + apply Hl. clear -Hr' E. set_solver.
Qed.

Lemma sim_submit b w a a' s loc :
  simulated a s loc → spec_vstep (ESubmit b w) a = Some a' →
  wp (driver_step (ESubmit b w) loc) (λ loc' s', simulated a' s' loc') s.
Proof.
  intros [(P & U & K & Hp & EP & EU & EK) Hd Hn Hv] Hstep. simpl in Hstep.
  case_decide as Hg; [|done]. injection Hstep as <-. destruct Hg as [Hlen Hnew].
  assert (in_flight a = creq <$> P ++ U ++ K) as Efl
    by (unfold in_flight; rewrite EP, EU, EK, !fmap_app; done).
  rewrite Efl in Hlen, Hnew. rewrite length_fmap in Hlen.
  assert (b ∉ (cb <$> P ++ U ++ K)) as Hnew'.
  { contradict Hnew. rewrite <- list_fmap_compose. done. }
  pose proof (pr_chains _ _ _ _ _ Hp) as Hc.
  unfold driver_step, rw_submit. wp_step. wp_step. apply wp_alloc3_desc; [apply Hc| |].
  2: { intros s' l Hl Hall. exfalso. by eapply chains_room. }
  intros i0 i1 i2 H0 H1 H2 Hnd F0 F1 F2. wp_step.
  set (s1 := set_free _ s).
  apply wp_format_request; [|done..|].
  { apply sized_free; [apply Hc|]. rewrite !length_insert. apply Hc. }
  intros s' Hsub. wp_step. wp_step.
  assert (proto s' (<[b := i0]> loc) (P ++ [Chain i0 i1 i2 b w]) U K) as Hp'.
  { apply (proto_submit s s1 s' loc (Chain i0 i1 i2 b w)); try done.
    - intros i Hi. cbn in Hi. rewrite !elem_of_cons, elem_of_nil in Hi. naive_solver.
    - rewrite length_app in Hlen. unfold NUM. lia. }
  destruct Hsub as [_ [_ _ _ _ _ Qb] _ _ _ _ _ Sb _ _]. split.
  - exists (P ++ [Chain i0 i1 i2 b w]), U, K. split_and!; [done| |done..].
    cbn. by rewrite EP, fmap_app.
  - intros b'. cbn. rewrite Hd, Sb. by case_decide.
  - intros b'. cbn. rewrite Hn, Sb. by case_decide.
  - cbn. by rewrite Hv, Qb.
Qed.

(** *** The device serves a request *)

Lemma proto_lengths s loc P U K :
  proto s loc P U K → (length P < NUM)%nat ∧ (length U < NUM)%nat.
Proof.
  intros Hp. pose proof (chains_length _ _ (pr_chains _ _ _ _ _ Hp)) as H.
  rewrite !length_app in H. unfold NUM. lia.
Qed.

(** The device's writes: one buffer, one status byte, the used ring. *)
Definition served (r : chain3) (status : Z) (data : list Z) (v : V) s : vdisk_st V :=
  set_device (u16 (v_last_avail s + 1)) v
    (set_used (u16 (v_used_idx_dev s + 1))
       (<[Z.to_nat (v_used_idx_dev s mod Z.of_nat NUM) := c0 r]> (v_used s))
       (set_info (<[c0 r := Info (i_b (v_info s !!! c0 r)) status]> (v_info s))
          (set_bufs (<[cb r := VBuf data (b_disk (v_bufs s !!! cb r)) (b_blockno (v_bufs s !!! cb r))]>
             (v_bufs s)) s))).

Lemma dev_serve_eq s loc r P U K status data v :
  proto s loc (r :: P) U K →
  serve (v_backend s) (req_type (cw r)) (u32 (b_blockno (v_bufs s !!! cb r) * 2))
    (b_data (v_bufs s !!! cb r)) = (status, data, v) →
  dev_serve s = Done (true, served r status data v s).
Proof.
  intros Hp Hsrv. pose proof (proto_lengths _ _ _ _ _ Hp) as [Hlen _].
  destruct Hp as [Hc Hb Ha Hu Ho Hs Hy Hi Hl].
  assert (v_last_avail s ≠ v_avail_idx s) as Hne.
  { intros E. by apply (ring_empty _ _ _ _ Hlen Ha) in E. }
  apply ring_pop in Ha as [Hhd _].
  destruct (ch_linked _ _ Hc r) as (L0 & L1 & L2 & _); [set_solver|].
  unfold dev_serve, mbind, M_bind, get. rewrite (proj2 (Z.eqb_neq _ _) Hne), Hhd.
  rewrite L0. cbn [d_next d_addr]. rewrite L1. cbn [d_next d_addr]. rewrite L2. cbn [d_addr].
  rewrite (Ho r) by set_solver. cbn [r_type r_sector]. rewrite Hsrv. done.
Qed.

Lemma proto_serve s loc r P U K data v :
  proto s loc (r :: P) U K → proto (served r 0 data v s) loc P (U ++ [r]) K.
Proof.
  intros Hp. pose proof (proto_lengths _ _ _ _ _ Hp) as [_ Hlen].
  destruct Hp as [Hc Hb Ha Hu Ho Hs Hy Hi Hl].
  pose proof (ch_sized _ _ Hc) as [Zd Za Zu Zf Zi Zo].
  assert (r :: P ++ U ++ K ≡ₚ P ++ (U ++ [r]) ++ K) as Hperm.
  { rewrite <- app_assoc. simpl. rewrite <- (Permutation_middle U). apply Permutation_middle. }
  assert (∀ r', r' ∈ P ++ U ++ K → cb r' ≠ cb r) as Hne.
  { intros r' Hr' E. simpl in Hb. rewrite NoDup_cons in Hb. destruct Hb as [Hb _]. apply Hb.
    rewrite <- E. by apply list_elem_of_fmap_2. }
  assert (c0 r < length (v_info s))%nat as Hc0.
  { rewrite Zi. apply (ch_bound _ _ Hc). apply elem_of_owned. exists r. set_solver. }
  apply ring_pop in Ha as [Hhd Ha]. split.
  - eapply chains_perm; [apply Hperm|]. eapply chains_frame; [apply Hc| |done|done|].
    + split; cbn; rewrite ?length_insert; done.
    + intros i. cbn. rewrite list_insert_lookup by done. by case_decide; subst.
  - by rewrite <- Hperm.
  - done.
  - cbn. by apply ring_push.
  - intros r' Hr'. cbn. rewrite map_insert_lookup, decide_False by (apply Hne; set_solver).
    apply Ho. set_solver.
  - intros r' Hr'. cbn. rewrite list_insert_lookup by done. case_decide as E; [done|].
    apply Hs. clear -Hr' E. set_solver.
  - intros r' Hr'. cbn. rewrite map_insert_lookup. case_decide as E; cbn.
    + apply Hy. clear. set_solver.
    + apply Hy. clear -Hr' E. set_solver.
  - intros b Hb'. cbn. rewrite map_insert_lookup. rewrite decide_False by (clear -Hb'; set_solver).
    apply Hi. clear -Hb'. set_solver.
  - intros r' Hr'. apply Hl. clear -Hr'. set_solver.
Qed.

Lemma sim_serve a a' s loc :
  simulated a s loc → spec_vstep EServe a = Some a' →
  wp (driver_step EServe loc) (λ loc' s', simulated a' s' loc') s.
Proof.
  intros [(P & U & K & Hp & EP & EU & EK) Hd Hn Hv] Hstep. simpl in Hstep.
  destruct P as [|r P]; [by rewrite EP in Hstep|]. rewrite EP in Hstep. cbn in Hstep.
  rewrite Hd, Hn, Hv in Hstep.
  destruct (serve _ _ _ _) as [[status data] v] eqn:Hsrv.
  destruct (Z.eqb_spec status 0) as [->|]; [|done]. injection Hstep as <-.
  unfold driver_step. wp_step. eapply wp_done; [by eapply dev_serve_eq|]. wp_step. split; cbn.
  - exists P, (U ++ [r]), K. split_and!; [by apply proto_serve|done|by rewrite EU, fmap_app|done].
  - intros b. rewrite !map_insert_lookup, Hd. by case_decide.
  - intros b. rewrite map_insert_lookup, Hn. by case_decide; subst.
  - done.
Qed.

(** *** The interrupt handler *)

Lemma wp_intr_one s loc r P U K (Q : unit → vdisk_st V → Prop) :
  proto s loc P (r :: U) K →
  (∀ s', proto s' loc P U (r :: K) → v_backend s' = v_backend s →
     (∀ b, b_data (v_bufs s' !!! b) = b_data (v_bufs s !!! b)
       ∧ b_blockno (v_bufs s' !!! b) = b_blockno (v_bufs s !!! b)) →
     v_used_idx_dev s' = v_used_idx_dev s → Q tt s') →
  wp intr_one Q s.
Proof.
  intros [Hc Hb Ha Hu Ho Hs Hy Hi Hl] HQ. apply ring_pop in Hu as [Hhd Hu].
  destruct (ch_linked _ _ Hc r) as (_ & _ & _ & L3); [set_solver|].
  unfold intr_one, upd_buf. wp_step. wp_step. rewrite Hhd, (Hs r), L3 by set_solver. cbn [Z.eqb negb].
  wp_steps. assert (P ++ (r :: U) ++ K ≡ₚ P ++ U ++ (r :: K)) as Hperm
    by (simpl; by rewrite Permutation_middle).
  assert (∀ r', r' ∈ P ++ U → cb r' ≠ cb r) as Hne.
  { intros r' Hr' E. rewrite Hperm, app_assoc, fmap_app, NoDup_app in Hb. destruct Hb as (_ & Hb & _).
    apply (Hb (cb r')); [by apply list_elem_of_fmap_2|]. rewrite E. cbn. set_solver. }
  apply HQ; [|done| |done].
  2: { intros b. cbn. rewrite map_insert_lookup. by case_decide; subst. }
  split; cbn.
  - eapply chains_perm; [apply Hperm|]. by apply (chains_frame s); [|split; apply Hc|..].
  - by rewrite <- Hperm.
  - done.
  - done.
  - intros r' Hr'. rewrite map_insert_lookup, decide_False by (apply Hne; set_solver). by apply Ho.
  - intros r' Hr'. apply Hs. set_solver.
  - intros r' Hr'. rewrite map_insert_lookup, decide_False by (by apply Hne).
    apply Hy. clear -Hr'. set_solver.
  - intros b Hb'. rewrite map_insert_lookup. case_decide as E; [done|]. apply Hi.
    clear -Hb' E. set_solver.
  - intros r' Hr'. apply Hl. clear -Hr'. set_solver.
Qed.

Lemma wp_intr_loop U s loc P K (Q : unit → vdisk_st V → Prop) :
  proto s loc P U K →
  (∀ s', proto s' loc P [] (rev U ++ K) → v_backend s' = v_backend s →
     (∀ b, b_data (v_bufs s' !!! b) = b_data (v_bufs s !!! b)
       ∧ b_blockno (v_bufs s' !!! b) = b_blockno (v_bufs s !!! b)) → Q tt s') →
  wp (intr_loop (S (length U))) Q s.
Proof.
  revert s K. induction U as [|r U IH]; intros s K Hp HQ; simpl; wp_step; wp_step.
  { rewrite (proj2 (Z.eqb_eq _ _)); [wp_step; by apply HQ|].
    by apply (ring_empty _ _ [] _ ltac:(unfold NUM; simpl; lia) (pr_used _ _ _ _ _ Hp)). }
  pose proof (proto_lengths _ _ _ _ _ Hp) as [_ Hlen].
  rewrite (proj2 (Z.eqb_neq _ _)).
  2: { intros E. by apply (ring_empty _ _ _ _ Hlen (pr_used _ _ _ _ _ Hp)) in E. }
  wp_step. eapply wp_intr_one; [done|]. intros s1 Hp1 Hv1 Hb1 _. apply (IH s1 (r :: K) Hp1).
  intros s' Hp' Hv' Hb'. apply HQ; [|congruence|].
  - simpl. by rewrite <- app_assoc.
  - intros b. destruct (Hb1 b), (Hb' b). split; congruence.
Qed.

Lemma proto_perm s loc P U K K' : K ≡ₚ K' → proto s loc P U K → proto s loc P U K'.
Proof.
  intros HK [Hc Hb Ha Hu Ho Hs Hy Hi Hl]. split; try done.
  - eapply chains_perm; [|done]. by rewrite HK.
  - by rewrite <- HK.
  - intros r. rewrite <- HK. apply Hl.
Qed.

Lemma sim_intr a a' s loc :
  simulated a s loc → spec_vstep EIntr a = Some a' →
  wp (driver_step EIntr loc) (λ loc' s', simulated a' s' loc') s.
Proof.
  intros [(P & U & K & Hp & EP & EU & EK) Hd Hn Hv] [= <-].
  pose proof (proto_lengths _ _ _ _ _ Hp) as [_ Hlen].
  unfold driver_step, virtio_disk_intr. wp_step. wp_step. wp_step.
  rewrite (ring_count _ _ _ _ Hlen (pr_used _ _ _ _ _ Hp)), Nat2Z.id.
  apply (wp_intr_loop U s loc P K); [done|]. intros s' Hp' Hv' Hb'. wp_step. split; cbn.
  - exists P, [], (U ++ K). split_and!; [|done|done|by rewrite EU, EK, fmap_app].
    eapply proto_perm; [|done]. by rewrite <- (Permutation_rev U).
  - intros b. rewrite Hd. by destruct (Hb' b) as [-> _].
  - intros b. rewrite Hn. by destruct (Hb' b) as [_ ->].
  - by rewrite Hv, Hv'.
Qed.

(** *** The caller resumes *)

Lemma chains_finish s s' r R : chains s (r :: R) → finished r s s' → chains s' R.
Proof.
  intros [Z N B F L] [Fz Fq Ff Fd Fi Fo Fb Fa Fx].
  change (NoDup ([c0 r; c1 r; c2 r] ++ owned R)) in N. apply NoDup_app in N as (_ & Nd & N).
  split; [done|done| | |].
  - intros i Hi. apply B. rewrite owned_cons. set_solver.
  - intros i Hi. rewrite Ff by done. case_decide as Hin.
    + symmetry. apply bool_decide_eq_true. by apply Nd.
    + rewrite F by done. apply bool_decide_ext.
      change (owned (r :: R)) with ([c0 r; c1 r; c2 r] ++ owned R). rewrite elem_of_app. tauto.
  - intros r' Hr'. apply (linked_frame s); [apply L; set_solver| |].
    + intros i Hi. apply Fd. intros Hin. apply (Nd i Hin), elem_of_owned. eauto.
    + rewrite Fi; [done|]. intros E. apply (Nd (c0 r')); [rewrite E; set_solver|].
      apply elem_of_owned. eauto.
Qed.

Lemma proto_finish s s' loc r P U K :
  proto s loc P U (r :: K) → finished r s s' → proto s' (delete (cb r) loc) P U K.
Proof.
  intros [Hc Hb Ha Hu Ho Hs Hy Hi Hl] Hf.
  assert (P ++ U ++ r :: K ≡ₚ r :: P ++ U ++ K) as Hperm
    by (by rewrite !app_assoc, <- Permutation_middle).
  assert (∀ r', r' ∈ P ++ U ++ K → cb r' ≠ cb r ∧ c0 r' ≠ c0 r) as Hne.
  { intros r' Hr'. rewrite Hperm, fmap_cons, NoDup_cons in Hb. destruct Hb as [Hb _].
    assert (cb r' ≠ cb r) as N1 by (intros E; apply Hb; rewrite <- E; by apply list_elem_of_fmap_2).
    split; [done|]. intros E. apply N1. f_equal. eapply head_inj; [done|set_solver..|done]. }
  assert (chains s' (P ++ U ++ K)) as Hc'.
  { eapply chains_finish; [|done]. by eapply chains_perm. }
  destruct Hf as [Fz [_ Q1 Q2 Q3 Q4 _] Ff Fd Fi Fo Fb Fa Fx].
  split; rewrite ?Fo, ?Fb, ?Fa, ?Fx, ?Q1, ?Q2, ?Q3, ?Q4; try done.
  - rewrite Hperm, fmap_cons, NoDup_cons in Hb. apply Hb.
  - intros r' Hr'. rewrite Fi by (apply Hne; set_solver). by apply Hs.
  - intros r' Hr'. rewrite lookup_total_delete_ne by (symmetry; by apply Hne).
    apply Hl. clear -Hr'. set_solver.
Qed.

Lemma filter_finished K1 r K2 :
  NoDup (cb <$> K1 ++ r :: K2) →
  filter (λ x : Z * bool, x.1 ≠ cb r) (creq <$> K1 ++ r :: K2) = creq <$> K1 ++ K2.
Proof.
  intros Hnd. rewrite <- Permutation_middle, fmap_cons, NoDup_cons in Hnd. destruct Hnd as [Hr _].
  assert (∀ l, l ⊆ K1 ++ K2 → filter (λ x : Z * bool, x.1 ≠ cb r) (creq <$> l) = creq <$> l) as Hall.
  { induction l as [|r' l IH]; intros Hl; [done|]. rewrite fmap_cons, filter_cons_True.
    - f_equal. apply IH. set_solver.
    - intros E. apply Hr. cbn in E. rewrite <- E. apply list_elem_of_fmap_2, Hl. set_solver. }
  rewrite !fmap_app, filter_app, fmap_cons, filter_cons_False by (by intros []).
  by rewrite !Hall by set_solver.
Qed.

Lemma sim_finish b a a' s loc :
  simulated a s loc → spec_vstep (EFinish b) a = Some a' →
  wp (driver_step (EFinish b) loc) (λ loc' s', simulated a' s' loc') s.
Proof.
  intros [(P & U & K & Hp & EP & EU & EK) Hd Hn Hv] Hstep. simpl in Hstep.
  case_decide as Hin; [|done]. injection Hstep as <-.
  rewrite EK, <- list_fmap_compose in Hin. apply list_elem_of_fmap in Hin as (r & -> & Hr).
  apply list_elem_of_split in Hr as (K1 & K2 & ->). cbn [compose creq fst].
  assert (NoDup (cb <$> K1 ++ r :: K2)) as Hnd.
  { pose proof (pr_bufs _ _ _ _ _ Hp) as Hb. 
    rewrite app_assoc, (fmap_app _ (P ++ U)), NoDup_app in Hb. apply Hb. }
  assert (proto s loc P U (r :: K1 ++ K2)) as Hp1
    by (eapply proto_perm; [|done]; by rewrite <- Permutation_middle).
  unfold driver_step. wp_step. rewrite (pr_loc _ _ _ _ _ Hp1 r) by set_solver.
  eapply wp_rw_finish; [apply (pr_chains _ _ _ _ _ Hp1)|set_solver|]. intros s' Hf. wp_step.
  assert (v_bufs s' = v_bufs s ∧ v_backend s' = v_backend s) as [Eb Ev] by (split; apply Hf).
  split; cbn; rewrite ?Eb, ?Ev; [|done..].
  exists P, U, (K1 ++ K2). split_and!; [by eapply proto_finish|done|done|].
  rewrite EK. by apply filter_finished.
Qed.

(** ** Whole runs *)

Lemma sim_vstep e a a' s loc :
  simulated a s loc → spec_vstep e a = Some a' →
  wp (driver_step e loc) (λ loc' s', simulated a' s' loc') s.
Proof.
  destruct e; [apply sim_submit|apply sim_serve|apply sim_intr|apply sim_finish].
Qed.

Lemma sim_vrun l a a' s loc :
  simulated a s loc → spec_vrun l a = Some a' →
  wp (driver_run l loc) (λ loc' s', simulated a' s' loc') s.
Proof.
  revert a s loc. induction l as [|e l IH]; intros a s loc Hs Hrun; simpl in *.
  - injection Hrun as <-. by wp_step.
  - destruct (spec_vstep e a) as [a1|] eqn:E; [|done]. wp_step.
    eapply wp_mono; [by eapply sim_vstep|]. intros loc' s' Hs'. by apply (IH a1).
Qed.

(** The disk after [virtio_disk_init]: zeroed rings, all descriptors free. *)
Definition vdisk_init (name : string) (bufs : gmap Z vbuf) (v : V) : vdisk_st V :=
  VDisk name (replicate NUM (Desc PNull 0 0 0)) 0 (replicate NUM 0%nat) 0 (replicate NUM 0%nat)
    (replicate NUM true) 0 (replicate NUM (Info None 0)) (replicate NUM (Req 0 0 0)) bufs [] 0 v.

Definition vspec_init (bufs : gmap Z vbuf) (v : V) : vspec V :=
  VSpec [] [] [] (b_data <$> bufs) (λ b, b_blockno (bufs !!! b)) v.

Lemma init_data (bufs : gmap Z vbuf) b : (b_data <$> bufs) !!! b = b_data (bufs !!! b).
Proof. rewrite !lookup_total_alt, lookup_fmap. by destruct (bufs !! b). Qed.

Lemma simulated_init name bufs v :
  (∀ b, b_disk (bufs !!! b) = 0) →
  simulated (vspec_init bufs v) (vdisk_init name bufs v) ∅.
Proof.
  intros Hidle. split; cbn; [|apply init_data|done..]. exists [], [], []. split_and!; [|done..].
  split; cbn; try done; try (by intros ? []%elem_of_nil).
  - split; [done|constructor|by intros ? []%elem_of_nil| |by intros ? []%elem_of_nil].
    intros i Hi. change (replicate NUM true !!! i = bool_decide (i ∉ @nil nat)).
    rewrite lookup_total_replicate_2 by done. symmetry.
    apply bool_decide_eq_true, not_elem_of_nil.
  - constructor.
Qed.

End refine.

(** ** Concrete runs *)

(** A one-disk backend: blocks of two sectors, all requests succeed inside
    [n] sectors. *)
Record ramdev := RamDev { rd_sectors : Z; rd_blocks : gmap Z (list Z) }.

#[export] Instance ramdev_backend : Backend ramdev := {|
  serve v ty sector data :=
    if (sector + 2 <=? rd_sectors v) then
      if ty =? VIRTIO_BLK_T_OUT
      then (0, data, RamDev (rd_sectors v) (<[sector / 2 := data]> (rd_blocks v)))
      else (0, default (replicate (Z.to_nat BSIZE) 0) (rd_blocks v !! (sector / 2)), v)
    else (1, data, v) |}.

Definition demo_bufs : gmap Z vbuf := {[1 := VBuf [7] 0 3; 2 := VBuf [8] 0 3; 3 := VBuf [9] 0 4]}.
Definition demo_dev : ramdev := RamDev 100 ∅.
Definition demo_events : list vevent :=
  [ESubmit 1 true; ESubmit 2 false; EServe; ESubmit 3 true; EServe; EIntr; EFinish 2; EServe; EIntr].


