(* ===== verification/VirtioDevice.v ===== *)
(** * The driver implements the block-device interface

    [driver_array] is an array of driver states, one per disk, whose backends
    behave as virtio block devices ([BackendLaws], the documented behaviour of
    the device: status 0 and the transfer inside the capacity, a non-zero
    status outside).  One request run through submission, service, interrupt and
    resumption satisfies [BlockDeviceLaws], so the RAID theorems hold with the
    driver in place of the disk image. *)

From S2P Require Import Prelude Machine BlockDev Virtio VirtioFacts VirtioProto VirtioRefine.

Class DeviceView (V : Type) := {
  bk_sectors : V → Z;
  bk_block : V → Z → list Z;
  bk_ok : V → Prop;
}.

Class BackendLaws (V : Type) {BK : Backend V} {DV : DeviceView V} : Prop := {
  bk_block_bytes v b : bk_ok v → length (bk_block v b) = Z.to_nat BSIZE ∧ bytes (bk_block v b);
  bk_write v b data :
    bk_ok v → 0 ≤ b → 2 * b + 2 ≤ bk_sectors v → length data = Z.to_nat BSIZE → bytes data →
    ∃ v', serve v VIRTIO_BLK_T_OUT (2 * b) data = (0, data, v') ∧ bk_ok v'
      ∧ bk_sectors v' = bk_sectors v
      ∧ ∀ b', bk_block v' b' = if decide (b' = b) then data else bk_block v b';
  bk_read v b data :
    bk_ok v → 0 ≤ b → 2 * b + 2 ≤ bk_sectors v →
    ∃ v', serve v VIRTIO_BLK_T_IN (2 * b) data = (0, bk_block v b, v') ∧ bk_ok v'
      ∧ bk_sectors v' = bk_sectors v ∧ ∀ b', bk_block v' b' = bk_block v b';
  bk_out v ty b data :
    bk_ok v → bk_sectors v < 2 * b + 2 → (serve v ty (2 * b) data).1.1 ≠ 0;
}.

(** One request from submission to the caller's return. *)
Definition one_request (b : Z) (w : bool) : list vevent := [ESubmit b w; EServe; EIntr; EFinish b].

Section device.
Context {V : Type} `{BK : Backend V} `{DV : !DeviceView V} `{BL : !BackendLaws V}.
Implicit Types (s : vdisk_st V).

(** No request in flight. *)
Definition idle s : Prop := proto s ∅ [] [] [].

Definition load_buf (blockno : Z) (data : list Z) s : vdisk_st V :=
  set_bufs {[0 := VBuf data 0 blockno]} s.

Lemma bufs_singleton blockno data b :
  ({[0 := VBuf data 0 blockno]} : gmap Z vbuf) !!! b = if decide (b = 0) then VBuf data 0 blockno else inhabitant.
Proof.
  rewrite lookup_total_singleton. repeat case_decide; congruence.
Qed.

Lemma simulated_load blockno data s :
  idle s →
  simulated (VSpec [] [] [] {[0 := data]} (λ b, if decide (b = 0) then blockno else 0) (v_backend s))
    (load_buf blockno data s) ∅.
Proof.
  intros [Hc Hb Ha Hu Ho Hs Hy Hi Hl]. split; cbn.
  - exists [], [], []. split_and!; [|done..]. split; cbn; try done; try by intros ? []%elem_of_nil.
    + apply (chains_frame s); [done|destruct (ch_sized _ _ Hc); by split|done..].
    + intros b _. rewrite bufs_singleton. by case_decide.
  - intros b. rewrite bufs_singleton. rewrite lookup_total_singleton.
    by repeat case_decide; subst.
  - intros b. rewrite bufs_singleton. by case_decide.
  - done.
Qed.

(** A request the device accepts. *)
Lemma request_accepted blockno w data data' v' s :
  idle s →
  serve (v_backend s) (req_type w) (u32 (blockno * 2)) data = (0, data', v') →
  wp (driver_run (one_request 0 w) ∅)
    (λ _ s', idle s' ∧ v_backend s' = v' ∧ b_data (v_bufs s' !!! 0) = data')
    (load_buf blockno data s).
Proof.
  intros Hidle Hsrv.
  set (a := VSpec [] [] [] {[0 := data]} (λ b, if decide (b = 0) then blockno else 0) (v_backend s)).
  set (a' := VSpec [] [] [] (<[0 := data']> {[0 := data]}) (q_blockno a) v').
  assert (spec_vrun (one_request 0 w) a = Some a') as Hrun.
  { change (spec_vrun (one_request 0 w) a)
      with (spec_vrun [EServe; EIntr; EFinish 0]
              (VSpec [(0, w)] [] [] {[0 := data]} (q_blockno a) (v_backend s))).
    cbn [spec_vrun]. unfold spec_vstep at 1. cbn [q_pend q_dev q_data q_blockno a].
    rewrite lookup_total_singleton, !decide_True by done. rewrite Hsrv. reflexivity. }
  eapply wp_mono; [by apply (sim_vrun _ _ _ _ _ (simulated_load _ _ _ Hidle) Hrun)|].
  intros loc' s' [(P & U & K & Hp & EP & EU & EK) Hd Hn Hv]. cbn in *.
  destruct P, U, K; try done. split_and!; [|done|].
  - destruct Hp. split; try done. by intros ? []%elem_of_nil.
  - by rewrite <- Hd, lookup_total_insert_eq.
Qed.

(** A non-zero status stops the kernel in the interrupt handler. *)
Lemma intr_rejects s loc r st d v :
  proto s loc [r] [] [] → st ≠ 0 →
  virtio_disk_intr (served r st d v s) = Panic (v_name s +:+ ": virtio_disk_intr status").
Proof.
  intros Hp Hst. pose proof (ch_sized _ _ (pr_chains _ _ _ _ _ Hp)) as [Zd Za Zu Zf Zi Zo].
  set (s' := served r st d v s).
  assert (ring (v_used s') (v_used_idx s') [r] (v_used_idx_dev s')) as Hring
    by (apply (ring_push _ _ []); [done|unfold NUM; simpl; lia|apply Hp]).
  unfold virtio_disk_intr. rewrite (bind_done get _ _ _ _ eq_refl).
  rewrite (ring_count _ _ [r] _ ltac:(unfold NUM; simpl; lia) Hring).
  simpl. rewrite (bind_done get _ _ _ _ eq_refl).
  rewrite (proj2 (Z.eqb_neq _ _)).
  2: { intros E. by apply (ring_empty _ _ [r] _ ltac:(unfold NUM; simpl; lia) Hring) in E. }
  apply bind_panic. unfold intr_one. rewrite (bind_done get _ _ _ _ eq_refl).
  apply ring_pop in Hring as [Hhd _].
  rewrite Hhd. cbn [s' v_info served set_device set_used set_info].
  rewrite list_lookup_total_insert_eq.
  - cbn. by rewrite (proj2 (Z.eqb_neq _ _) Hst).
  - rewrite Zi. apply (ch_bound _ _ (pr_chains _ _ _ _ _ Hp)), elem_of_owned. exists r. set_solver.
Qed.

(** A request the device rejects: the interrupt handler panics. *)
Lemma request_rejected blockno w data s :
  idle s →
  (serve (v_backend s) (req_type w) (u32 (blockno * 2)) data).1.1 ≠ 0 →
  ∃ msg, driver_run (one_request 0 w) ∅ (load_buf blockno data s) = Panic msg.
Proof.
  intros Hidle Hst. pose proof (simulated_load blockno data s Hidle) as Hsim.
  destruct (wp_inv _ _ _ (sim_submit 0 w _ _ _ _ Hsim eq_refl)) as (loc1 & s1 & E1 & Hsim1).
  unfold one_request. cbn [driver_run]. erewrite bind_done by done. clear E1.
  destruct Hsim1 as [(P & U & K & Hp & EP & EU & EK) Hd Hn Hv]. cbn in EP, EU, EK, Hn, Hv.
  destruct P as [|r [|? ?]], U, K; try done. injection EP as Eb Ew.
  specialize (Hd (cb r)). specialize (Hn (cb r)). rewrite <- Eb in Hd, Hn.
  cbn [q_data] in Hd. rewrite lookup_total_singleton in Hd. cbn in Hd, Hn.
  destruct (serve (v_backend s) (req_type w) (u32 (blockno * 2)) data) as [[st d] v] eqn:Esrv.
  assert (driver_step EServe loc1 s1 = Done (loc1, served r st d v s1)) as Eserve.
  { unfold driver_step. erewrite bind_done; [done|]. eapply dev_serve_eq; [done|].
    rewrite <- Eb, <- Ew, <- Hd, <- Hn, <- Hv. done. }
  erewrite bind_done by done. exists (v_name s1 +:+ ": virtio_disk_intr status").
  do 2 apply bind_panic. by eapply intr_rejects.
Qed.

(** ** The array of disks *)

Definition driver_array : Type := Z → vdisk_st V.

Definition upd_driver (d : driver_array) (id : Z) (s : vdisk_st V) : driver_array :=
  λ id', if decide (id' = id) then s else d id'.

Definition drv_rw (id sector : Z) (write : bool) (data : list Z) (d : driver_array)
    : outcome (list Z * driver_array) :=
  match driver_run (one_request 0 write) ∅ (load_buf (sector / 2) data (d id)) with
  | Done (_, s') => Done (b_data (v_bufs s' !!! 0), upd_driver d id s')
  | Panic msg => Panic msg
  | Fault => Fault
  | OutOfFuel => OutOfFuel
  end.

#[export] Instance driver_device : BlockDevice driver_array := {|
  bd_rw := drv_rw;
  bd_sectors d id := bk_sectors (v_backend (d id));
  bd_block d id b := bk_block (v_backend (d id)) b;
  bd_ok d := ∀ id, idle (d id) ∧ bk_ok (v_backend (d id));
|}.

Lemma sector_even b : 0 ≤ b → 2 * b < 2 ^ 32 → 2 * b / 2 = b ∧ u32 (b * 2) = 2 * b.
Proof. intros. split; [dlia|]. rewrite u32_small; lia. Qed.

Lemma drv_rw_accepted (d : driver_array) id b (w : bool) data data' v' :
  idle (d id) → 0 ≤ b → 2 * b < 2 ^ 32 →
  serve (v_backend (d id)) (req_type w) (2 * b) data = (0, data', v') →
  ∃ s', drv_rw id (2 * b) w data d = Done (data', upd_driver d id s')
    ∧ idle s' ∧ v_backend s' = v'.
Proof.
  intros Hi H0 H1 Hsrv. destruct (sector_even b H0 H1) as [E1 E2]. rewrite <- E2 in Hsrv.
  destruct (wp_inv _ _ _ (request_accepted _ _ _ _ _ _ Hi Hsrv)) as (loc & s' & E & Hi' & Hv & Hd).
  unfold drv_rw. rewrite E1, E, Hd. eauto.
Qed.

#[export] Instance driver_device_laws : BlockDeviceLaws driver_array.
Proof.
  split.
  - intros d id b Hok. apply bk_block_bytes, Hok.
  - intros d id b data Hok (H0 & H1 & H2) Hl Hby. destruct (Hok id) as [Hi Hb].
    destruct (bk_write (v_backend (d id)) b data Hb H0 H1 Hl Hby) as (v' & Es & Hb' & Hs' & Hblk).
    destruct (drv_rw_accepted d id b true data data v' Hi H0 H2 Es) as (s' & E & Hi' & <-).
    exists (upd_driver d id s'). split_and!; [done| | |].
    + intros id'. unfold upd_driver. by case_decide.
    + intros id'. cbn. unfold upd_driver. by case_decide; subst.
    + intros id' b'. cbn. unfold upd_driver. case_decide; subst.
      * rewrite Hblk. apply if_decide_ext. tauto.
      * by rewrite decide_False by tauto.
  - intros d id b data Hok (H0 & H1 & H2) Hl. destruct (Hok id) as [Hi Hb].
    destruct (bk_read (v_backend (d id)) b data Hb H0 H1) as (v' & Es & Hb' & Hs' & Hblk).
    destruct (drv_rw_accepted d id b false data _ v' Hi H0 H2 Es) as (s' & E & Hi' & <-).
    exists (upd_driver d id s'). split_and!; [done| | |].
    + intros id'. unfold upd_driver. by case_decide.
    + intros id'. cbn. unfold upd_driver. by case_decide; subst.
    + intros id' b'. cbn. unfold upd_driver. by case_decide; subst.
  - intros d id b w data Hok H0 H1 Hs. destruct (Hok id) as [Hi Hb].
    destruct (sector_even b H0 H1) as [E1 E2].
    destruct (request_rejected b w data (d id) Hi) as [msg E].
    { rewrite E2. by apply bk_out. }
    exists msg. cbn. unfold drv_rw. by rewrite E1, E.
Qed.

End device.

(** ** A memory-backed device *)

#[export] Instance ramdev_view : DeviceView ramdev := {|
  bk_sectors := rd_sectors;
  bk_block v b := default (replicate (Z.to_nat BSIZE) 0) (rd_blocks v !! b);
  bk_ok v := map_Forall (λ _ l, length l = Z.to_nat BSIZE ∧ bytes l) (rd_blocks v);
|}.

#[export] Instance ramdev_laws : BackendLaws ramdev.
Proof.
  split.
  - intros v b Hok. cbn in *. destruct (rd_blocks v !! b) as [l|] eqn:E; [by apply (Hok b)|].
    split; [apply length_replicate|]. apply Forall_replicate. unfold byte. lia.
  - intros v b data Hok H0 H1 Hl Hb. cbn in *. rewrite (proj2 (Z.leb_le _ _)) by lia.
    eexists. split; [done|]. rewrite Z.mul_comm, Z.div_mul by lia. split_and!; cbn; [|done|].
    + by apply map_Forall_insert_2.
    + intros b'. case_decide; subst; [by rewrite lookup_insert_eq|by rewrite lookup_insert_ne].
  - intros v b data Hok H0 H1. cbn in *. rewrite (proj2 (Z.leb_le _ _)) by lia. eexists.
    by rewrite Z.mul_comm, Z.div_mul by lia.
  - intros v ty b data Hok Hs. cbn in *. by rewrite (proj2 (Z.leb_gt _ _)) by lia.
Qed.

Definition demo_array : driver_array (V := ramdev) := λ _, vdisk_init "raid" ∅ demo_dev.

Lemma demo_array_ok id : idle (demo_array id) ∧ bk_ok (v_backend (demo_array id)).
Proof.
  split; [|apply map_Forall_empty].
  destruct (simulated_init "raid" ∅ demo_dev) as [(P & U & K & Hp & EP & EU & EK) _ _ _];
    [by intros; rewrite lookup_total_empty|].
  cbn in EP, EU, EK. by destruct P, U, K.
Qed.

