(* ===== verification/Bio.v ===== *)
(** * kernel/bio.c: the buffer cache

    The cache is an array of [NBUF] buffers and a list head, linked in a ring
    through [prev] and [next]; a pointer is an index, [HEAD] stands for
    [&bcache.head].  A buffer's sleep lock records the process that holds it;
    [acquiresleep] on a buffer somebody holds does not return within the call
    ([blocked]).  [bdisk] is the program disk as [virtio_disk_rw] shows it to
    this layer, with the sequence of block writes for the crash theorems. *)

From S2P Require Import Prelude Machine.

Definition NBUF : nat := 30.
Definition HEAD : nat := NBUF.

Record buf := Buf {
  valid : bool;
  dev : Z;
  blockno : Z;
  lock : option Z;
  refcnt : Z;
  prev : nat;
  next : nat;
  data : list Z;
}.
#[export] Instance buf_inhabited : Inhabited buf := populate (Buf false 0 0 None 0 0 0 []).

Definition zeros : list Z := replicate (Z.to_nat BSIZE) 0.

(** The disk: its size in blocks, its contents, and the writes so far (the
    newest first). *)
Record bdisk := BDisk {
  d_size : Z;
  d_blk : gmap Z (list Z);
  d_trace : list (Z * list Z);
}.

Definition dblock (d : bdisk) (b : Z) : list Z := default zeros (d_blk d !! b).

Record bio_st := Bio {
  bc : list buf;
  dsk : bdisk;
}.

Definition set_valid v b := Buf v (dev b) (blockno b) (lock b) (refcnt b) (prev b) (next b) (data b).
Definition set_lock l b := Buf (valid b) (dev b) (blockno b) l (refcnt b) (prev b) (next b) (data b).
Definition set_refcnt r b := Buf (valid b) (dev b) (blockno b) (lock b) r (prev b) (next b) (data b).
Definition set_prev p b := Buf (valid b) (dev b) (blockno b) (lock b) (refcnt b) p (next b) (data b).
Definition set_next n b := Buf (valid b) (dev b) (blockno b) (lock b) (refcnt b) (prev b) n (data b).
Definition set_data l b := Buf (valid b) (dev b) (blockno b) (lock b) (refcnt b) (prev b) (next b) l.
Definition recycle d n b := Buf false d n (lock b) 1 (prev b) (next b) (data b).

Definition blocked {A} : M bio_st A := out_of_fuel.

Definition upd (i : nat) (f : buf → buf) : M bio_st unit :=
  modify (λ s, Bio (<[i := f (bc s !!! i)]> (bc s)) (dsk s)).

Definition bufp (i : nat) : M bio_st buf := gets (λ s, bc s !!! i).

(** [virtio_disk_rw(VIRTIO0_ID, b, write)]; a block outside the disk makes the
    interrupt handler panic. *)
Definition disk_rw (i : nat) (write : bool) : M bio_st unit :=
  s ← get;
  let b := bc s !!! i in
  if (blockno b <? 0) || (d_size (dsk s) <=? blockno b)
  then panic "program_disk: virtio_disk_intr status"
  else if write
  then modify (λ s, Bio (bc s)
         (BDisk (d_size (dsk s)) (<[blockno b := data b]> (d_blk (dsk s)))
                ((blockno b, data b) :: d_trace (dsk s))))
  else upd i (set_data (dblock (dsk s) (blockno b))).

Definition binit : M bio_st unit :=
  upd HEAD (set_prev HEAD);;
  upd HEAD (set_next HEAD);;
  for_ 0 (Z.of_nat NBUF) (λ i,
    let b := Z.to_nat i in
    h ← bufp HEAD;
    upd b (set_next (next h));;
    upd b (set_prev HEAD);;
    upd b (set_lock None);;
    h ← bufp HEAD;
    upd (next h) (set_prev b);;
    upd HEAD (set_next b)).

(** The two scans of [bget]. *)
Fixpoint bget_cached (fuel : nat) (b : nat) (d n : Z) : M bio_st (option nat) :=
  match fuel with
  | O => out_of_fuel
  | S fuel' =>
      if (b =? HEAD)%nat then ret None
      else
        x ← bufp b;
        if (dev x =? d) && (blockno x =? n) then ret (Some b)
        else bget_cached fuel' (next x) d n
  end.

Fixpoint bget_unused (fuel : nat) (b : nat) : M bio_st (option nat) :=
  match fuel with
  | O => out_of_fuel
  | S fuel' =>
      if (b =? HEAD)%nat then ret None
      else
        x ← bufp b;
        if refcnt x =? 0 then ret (Some b) else bget_unused fuel' (prev x)
  end.

(** [bget] up to the release of [bcache.lock]. *)
Definition bget_find (d n : Z) : M bio_st nat :=
  h ← bufp HEAD;
  r ← bget_cached (S NBUF) (next h) d n;
  match r with
  | Some b => upd b (λ x, set_refcnt (u32 (refcnt x + 1)) x);; ret b
  | None =>
      h ← bufp HEAD;
      r ← bget_unused (S NBUF) (prev h);
      match r with
      | Some b => upd b (recycle d n);; ret b
      | None => panic "bget: no buffers"
      end
  end.

Definition acquiresleep (pid : Z) (b : nat) : M bio_st unit :=
  x ← bufp b;
  match lock x with
  | None => upd b (set_lock (Some pid))
  | Some _ => blocked
  end.

Definition holdingsleep (pid : Z) (b : nat) : M bio_st bool :=
  x ← bufp b;
  ret (bool_decide (lock x = Some pid)).

Definition bget (pid d n : Z) : M bio_st nat :=
  b ← bget_find d n;
  acquiresleep pid b;;
  ret b.

Definition bread (pid d n : Z) : M bio_st nat :=
  b ← bget pid d n;
  x ← bufp b;
  (if valid x then ret tt else disk_rw b false;; upd b (set_valid true));;
  ret b.

Definition bwrite (pid : Z) (b : nat) : M bio_st unit :=
  h ← holdingsleep pid b;
  if negb h then panic "bwrite" else disk_rw b true.

(** Unlinking a buffer and inserting it after the head. *)
Definition to_front (b : nat) : M bio_st unit :=
  x ← bufp b;
  upd (next x) (set_prev (prev x));;
  x ← bufp b;
  upd (prev x) (set_next (next x));;
  h ← bufp HEAD;
  upd b (set_next (next h));;
  upd b (set_prev HEAD);;
  h ← bufp HEAD;
  upd (next h) (set_prev b);;
  upd HEAD (set_next b).

Definition brelse (pid : Z) (b : nat) : M bio_st unit :=
  h ← holdingsleep pid b;
  if negb h then panic "brelse"
  else
    upd b (set_lock None);;
    upd b (λ x, set_refcnt (u32 (refcnt x - 1)) x);;
    x ← bufp b;
    if refcnt x =? 0 then to_front b else ret tt.

Definition bpin (b : nat) : M bio_st unit := upd b (λ x, set_refcnt (u32 (refcnt x + 1)) x).
Definition bunpin (b : nat) : M bio_st unit := upd b (λ x, set_refcnt (u32 (refcnt x - 1)) x).
