(* ===== verification/BioFacts.v ===== *)
(** * The buffer cache: the ring refines a list in order of use

    [seg nx pv x o y]: following [nx] from [x] visits [o] and arrives at [y],
    and [pv] leads back.  The cache invariant says that the ring through the
    head visits every buffer once; the scans of [bget] are searches of that
    list, and [brelse] moves a buffer to its front. *)

From S2P Require Import Prelude Machine Bio.

(** ** Doubly linked segments *)

Section seg.
Implicit Types (nx pv : nat → nat) (x y z : nat) (o : list nat).

Definition fn_upd (f : nat → nat) (i v : nat) : nat → nat := λ j, if decide (j = i) then v else f j.

Lemma fn_upd_eq f i v : fn_upd f i v i = v.
Proof. unfold fn_upd. by rewrite decide_True. Qed.

Lemma fn_upd_ne f i v j : j ≠ i → fn_upd f i v j = f j.
Proof. intros. unfold fn_upd. by rewrite decide_False. Qed.

Fixpoint seg nx pv x o y : Prop :=
  match o with
  | [] => nx x = y ∧ pv y = x
  | z :: o' => nx x = z ∧ pv z = x ∧ seg nx pv z o' y
  end.

Lemma seg_app nx pv x o1 z o2 y :
  seg nx pv x (o1 ++ z :: o2) y ↔ seg nx pv x o1 z ∧ seg nx pv z o2 y.
Proof. revert x. induction o1 as [|w o1 IH]; intros x; simpl; [tauto|]. rewrite IH. tauto. Qed.

Lemma seg_frame nx pv nx' pv' x o y :
  seg nx pv x o y →
  (∀ z, z ∈ x :: o → nx' z = nx z) → (∀ z, z ∈ o ++ [y] → pv' z = pv z) →
  seg nx' pv' x o y.
Proof.
  revert x. induction o as [|w o IH]; intros x; simpl.
  - intros [H1 H2] Hn Hp. rewrite Hn, Hp by set_solver. done.
  - intros (H1 & H2 & H3) Hn Hp. rewrite Hn, Hp by set_solver.
    split_and!; [done|done|]. apply IH; [done| |]; intros z Hz; [apply Hn|apply Hp]; set_solver.
Qed.

(** Unlinking [b]. *)
Lemma seg_unlink_first nx pv x b o y :
  NoDup (b :: o) → x ∉ b :: o → y ∉ b :: o →
  seg nx pv x (b :: o) y →
  seg (fn_upd nx (pv b) (nx b)) (fn_upd pv (nx b) (pv b)) x o y.
Proof.
  intros Hnd Hx Hy (H1 & H2 & H3). rewrite H2. destruct o as [|n o]; simpl in H3 |- *.
  - destruct H3 as [H3 H4]. rewrite H3, !fn_upd_eq. done.
  - destruct H3 as (H3 & H4 & H5). rewrite H3, !fn_upd_eq. split_and!; [done..|].
    rewrite !NoDup_cons in Hnd. apply (seg_frame nx pv); [done| |].
    + intros z Hz. apply fn_upd_ne. set_solver.
    + intros z Hz. apply fn_upd_ne. set_solver.
Qed.

Lemma seg_unlink nx pv x o1 b o2 y :
  NoDup (o1 ++ b :: o2) → x ∉ o1 ++ b :: o2 → y ∉ o1 ++ b :: o2 →
  seg nx pv x (o1 ++ b :: o2) y →
  seg (fn_upd nx (pv b) (nx b)) (fn_upd pv (nx b) (pv b)) x (o1 ++ o2) y.
Proof.
  intros Hnd Hx Hy Hs. destruct o1 as [|p o1 _] using rev_ind; [by apply seg_unlink_first|].
  rewrite <- !app_assoc in *. simpl in *. apply seg_app in Hs as [H1 H2].
  apply NoDup_app in Hnd as (Hnd1 & Hnd & Hnd2). rewrite NoDup_cons in Hnd2. destruct Hnd2 as [Hp Hnd2].
  assert (pv b = p) as Hb by apply H2.
  assert (nx b ∈ o2 ∨ nx b = y) as Hn.
  { destruct H2 as (_ & _ & H2). destruct o2; simpl in H2; destruct H2 as [-> _]; [by right|left; set_solver]. }
  apply seg_app. split.
  - apply (seg_frame nx pv); [done| |].
    + intros z Hz. apply fn_upd_ne. rewrite Hb. set_solver.
    + intros z Hz. apply fn_upd_ne. intros ->. clear H1 H2 Hb.
      destruct Hn as [Hn|Hn]; [|rewrite Hn in Hz]; set_solver.
  - apply seg_unlink_first; [done|done|set_solver|done].
Qed.

(** Inserting [b] after [x]. *)
Lemma seg_insert nx pv x b o y :
  NoDup o → b ∉ o → x ∉ o → y ∉ o → b ≠ x → b ≠ y →
  seg nx pv x o y →
  seg (fn_upd (fn_upd nx b (nx x)) x b) (fn_upd (fn_upd pv b x) (nx x) b) x (b :: o) y.
Proof.
  intros Hnd Hb Hx Hy Hbx Hby Hs. simpl.
  assert (nx x ≠ b) as Hnb by (destruct o; simpl in Hs; destruct Hs as [-> _]; set_solver).
  rewrite fn_upd_eq, (fn_upd_ne _ (nx x)), fn_upd_eq by done. split_and!; [done..|].
  destruct o as [|n o]; simpl in Hs |- *.
  - destruct Hs as [H1 H2]. rewrite (fn_upd_ne _ x), !fn_upd_eq, H1, fn_upd_eq by done. done.
  - destruct Hs as (H1 & H2 & H3). rewrite (fn_upd_ne _ x), !fn_upd_eq, H1, fn_upd_eq by done.
    split_and!; [done..|]. rewrite NoDup_cons in Hnd. apply (seg_frame nx pv); [done| |].
    + intros z Hz. rewrite !fn_upd_ne by set_solver. done.
    + intros z Hz. rewrite !fn_upd_ne by set_solver. done.
Qed.
End seg.

(** ** The cache invariant *)

Definition nx (l : list buf) (i : nat) : nat := next (l !!! i).
Definition pv (l : list buf) (i : nat) : nat := prev (l !!! i).

Record cache_ok (s : bio_st) (o : list nat) : Prop := {
  co_len : length (bc s) = S NBUF;
  co_perm : o ≡ₚ seq 0 NBUF;
  co_ring : seg (nx (bc s)) (pv (bc s)) HEAD o HEAD;
  co_ref i : (i < NBUF)%nat → 0 ≤ refcnt (bc s !!! i) < 2 ^ 32;
  co_uniq i j : (i < NBUF)%nat → (j < NBUF)%nat → dev (bc s !!! i) ≠ 0 →
    dev (bc s !!! i) = dev (bc s !!! j) → blockno (bc s !!! i) = blockno (bc s !!! j) → i = j;
  co_lock i : (i < NBUF)%nat → refcnt (bc s !!! i) = 0 → lock (bc s !!! i) = None;
}.

Lemma order_elem s o i : cache_ok s o → i ∈ o ↔ (i < NBUF)%nat.
Proof. intros [_ Hp _ _ _ _]. rewrite Hp, elem_of_seq. lia. Qed.

Lemma order_nodup s o : cache_ok s o → NoDup o.
Proof. intros [_ Hp _ _ _ _]. rewrite Hp. apply NoDup_seq. Qed.

Lemma order_length s o : cache_ok s o → length o = NBUF.
Proof. intros [_ Hp _ _ _ _]. by rewrite Hp, length_seq. Qed.

Lemma head_not_in s o : cache_ok s o → HEAD ∉ o.
Proof. intros Hc. rewrite (order_elem s o) by done. unfold HEAD. lia. Qed.

(** *** The scans search the list *)

Definition is_block (l : list buf) (d n : Z) (i : nat) : bool :=
  (dev (l !!! i) =? d) && (blockno (l !!! i) =? n).
Definition is_unused (l : list buf) (i : nat) : bool := refcnt (l !!! i) =? 0.

Lemma bget_cached_eq s d n o x fuel :
  HEAD ∉ o → seg (nx (bc s)) (pv (bc s)) x o HEAD → (length o < fuel)%nat →
  bget_cached fuel (nx (bc s) x) d n s = Done (List.find (is_block (bc s) d n) o, s).
Proof.
  revert x fuel. induction o as [|w o IH]; intros x [|fuel] Hh Hs Hf; simpl in *; try lia.
  - destruct Hs as [-> _]. done.
  - destruct Hs as (-> & _ & Hs). rewrite not_elem_of_cons in Hh.
    rewrite (proj2 (Nat.eqb_neq _ _)) by (destruct Hh; congruence).
    unfold bufp. rewrite (bind_done _ _ _ _ _ eq_refl). fold (is_block (bc s) d n w).
    destruct (is_block (bc s) d n w); [done|]. apply IH; [tauto|done|lia].
Qed.

Lemma bget_unused_eq s o y fuel :
  HEAD ∉ o → seg (nx (bc s)) (pv (bc s)) HEAD o y → (length o < fuel)%nat →
  bget_unused fuel (pv (bc s) y) s = Done (List.find (is_unused (bc s)) (rev o), s).
Proof.
  revert y fuel. induction o as [|w o IH] using rev_ind; intros y [|fuel] Hh Hs Hf.
  - simpl in Hf. lia.
  - simpl in Hs |- *. destruct Hs as [_ ->]. done.
  - simpl in Hf. lia.
  - apply seg_app in Hs as [Hs [_ Hy]]. rewrite Hy, rev_app_distr, length_app in *. simpl in *.
    rewrite not_elem_of_app, list_elem_of_singleton in Hh.
    rewrite (proj2 (Nat.eqb_neq _ _)) by (destruct Hh; congruence).
    unfold bufp. rewrite (bind_done _ _ _ _ _ eq_refl). fold (is_unused (bc s) w).
    destruct (is_unused (bc s) w); [done|]. apply IH; [tauto|done|lia].
Qed.

(** *** Updates of one buffer *)

Definition bset (i : nat) (b : buf) (s : bio_st) : bio_st := Bio (<[i := b]> (bc s)) (dsk s).

Lemma upd_eq i f s : upd i f s = Done (tt, bset i (f (bc s !!! i)) s).
Proof. done. Qed.

Lemma wp_upd i f (Q : unit → bio_st → Prop) s : Q tt (bset i (f (bc s !!! i)) s) → wp (upd i f) Q s.
Proof. done. Qed.

Lemma wp_bufp i (Q : buf → bio_st → Prop) s : Q (bc s !!! i) s → wp (bufp i) Q s.
Proof. done. Qed.

Lemma bset_lookup i b s j :
  (i < length (bc s))%nat → bc (bset i b s) !!! j = if decide (j = i) then b else bc s !!! j.
Proof. intros. by apply list_insert_lookup. Qed.

Lemma bset_bset i b b' s : bset i b' (bset i b s) = bset i b' s.
Proof. unfold bset. cbn. by rewrite list_insert_insert_eq. Qed.

(** A change of one buffer that leaves its links alone. *)
Lemma cache_ok_bset s o i b :
  cache_ok s o → (i < NBUF)%nat →
  prev b = prev (bc s !!! i) → next b = next (bc s !!! i) →
  0 ≤ refcnt b < 2 ^ 32 → (refcnt b = 0 → lock b = None) →
  (dev b = dev (bc s !!! i) ∧ blockno b = blockno (bc s !!! i)
   ∨ ∀ j, (j < NBUF)%nat → ¬ (dev (bc s !!! j) = dev b ∧ blockno (bc s !!! j) = blockno b)) →
  cache_ok (bset i b s) o.
Proof.
  intros [Hl Hp Hr Hf Hu Hk] Hi Ep En Hrb Hlb Hid.
  assert (i < length (bc s))%nat as Hil by lia.
  split; cbn [dsk bset]; try setoid_rewrite bset_lookup; try done.
  - cbn. by rewrite length_insert.
  - apply (seg_frame _ _ _ _ _ _ _ Hr); intros z _; unfold nx, pv;
      rewrite bset_lookup by done; case_decide; by subst.
  - intros j Hj. case_decide; auto.
  - intros j k Hj Hk'. repeat case_decide; subst; try done; try by apply Hu.
    + intros Hd E1 E2. destruct Hid as [[E3 E4]|Hno]; [|by destruct (Hno k)].
      rewrite E3, E4 in *. by apply Hu.
    + intros Hd E1 E2. destruct Hid as [[E3 E4]|Hno]; [|by destruct (Hno j)].
      rewrite E3, E4 in *. by apply Hu.
  - intros j Hj. case_decide; auto.
Qed.

(** *** [bget] *)

Lemma is_block_true l d n i : is_block l d n i = true ↔ dev (l !!! i) = d ∧ blockno (l !!! i) = n.
Proof. unfold is_block. by rewrite andb_true_iff, !Z.eqb_eq. Qed.

Lemma find_none {A} (f : A → bool) (l : list A) x : List.find f l = None → x ∈ l → f x = false.
Proof. intros Hn Hx. apply (List.find_none _ _ Hn). by apply list_elem_of_In. Qed.

(** The first element of the reversed list that satisfies [f] is the last one. *)
Lemma find_rev_last {A} (f : A → bool) (l : list A) x :
  List.find f (rev l) = Some x →
  ∃ l1 l2, l = l1 ++ x :: l2 ∧ f x = true ∧ ∀ y, y ∈ l2 → f y = false.
Proof.
  induction l as [|z l IH] using rev_ind; [done|]. rewrite rev_app_distr. simpl.
  destruct (f z) eqn:E.
  - intros [= <-]. exists l, []. split_and!; [done..|]. by intros y ?%elem_of_nil.
  - intros (l1 & l2 & -> & Hx & Hy)%IH. exists l1, (l2 ++ [z]). rewrite <- app_assoc.
    split_and!; [done..|]. intros y [Hy'|Hy'%list_elem_of_singleton]%elem_of_app; [by apply Hy|by subst].
Qed.

Definition block_of (s : bio_st) (d n : Z) (i : nat) : Prop :=
  (i < NBUF)%nat ∧ dev (bc s !!! i) = d ∧ blockno (bc s !!! i) = n.

(** The buffer [bget] recycles: unused, and every buffer after it in the order
    of use is in use. *)
Definition lru (s : bio_st) (o : list nat) (i : nat) : Prop :=
  ∃ o1 o2, o = o1 ++ i :: o2 ∧ refcnt (bc s !!! i) = 0 ∧ ∀ j, j ∈ o2 → refcnt (bc s !!! j) ≠ 0.

Lemma bget_find_cases s o d n :
  cache_ok s o →
  (∃ i, block_of s d n i
    ∧ bget_find d n s = Done (i, bset i (set_refcnt (u32 (refcnt (bc s !!! i) + 1)) (bc s !!! i)) s))
  ∨ (∀ i, ¬ block_of s d n i)
    ∧ ((∃ i, lru s o i ∧ bget_find d n s = Done (i, bset i (recycle d n (bc s !!! i)) s))
       ∨ (∀ i, (i < NBUF)%nat → refcnt (bc s !!! i) ≠ 0) ∧ bget_find d n s = Panic "bget: no buffers").
Proof.
  intros Hc. unfold bget_find. rewrite (bind_done (bufp HEAD) _ _ _ _ eq_refl).
  pose proof (head_not_in _ _ Hc) as Hh. pose proof (order_length _ _ Hc) as Hlen.
  rewrite (bind_done _ _ _ _ _ (bget_cached_eq s d n o HEAD (S NBUF) Hh (co_ring _ _ Hc) ltac:(lia))).
  destruct (List.find (is_block (bc s) d n) o) as [i|] eqn:E1.
  { left. apply List.find_some in E1 as [Hi Hb%is_block_true].
    exists i. split; [|done]. split; [|done]. apply (order_elem s o); [done|by apply list_elem_of_In]. }
  right. split.
  { intros i (Hi & Hb). apply (order_elem s o) in Hi; [|done]. apply (find_none _ _ _ E1) in Hi.
    apply is_block_true in Hb. congruence. }
  rewrite (bind_done (bufp HEAD) _ _ _ _ eq_refl).
  rewrite (bind_done _ _ _ _ _ (bget_unused_eq s o HEAD (S NBUF) Hh (co_ring _ _ Hc) ltac:(lia))).
  destruct (List.find (is_unused (bc s)) (rev o)) as [i|] eqn:E2.
  - left. apply find_rev_last in E2 as (o1 & o2 & -> & Hu & Hn). exists i. split; [|done].
    exists o1, o2. split_and!; [done|by apply Z.eqb_eq|]. intros j Hj. by apply Z.eqb_neq, Hn.
  - right. split; [|done]. intros i Hi. apply Z.eqb_neq. apply (find_none _ _ _ E2).
    apply list_elem_of_In, in_rev. rewrite rev_involutive. by apply list_elem_of_In, (order_elem s o).
Qed.

Lemma lru_unused s o i : cache_ok s o → lru s o i → (i < NBUF)%nat ∧ refcnt (bc s !!! i) = 0.
Proof.
  intros Hc (o1 & o2 & -> & Hr & _). split; [|done]. apply (order_elem s _ i Hc). set_solver.
Qed.

(** *** [brelse] *)

(** A buffer without its links. *)
Definition strip (b : buf) : buf := set_prev 0 (set_next 0 b).

Record relinked (s s' : bio_st) : Prop := {
  rl_len : length (bc s') = length (bc s);
  rl_strip j : strip (bc s' !!! j) = strip (bc s !!! j);
  rl_dsk : dsk s' = dsk s;
}.

Lemma relinked_refl s : relinked s s.
Proof. by split. Qed.

Lemma relinked_trans s1 s2 s3 : relinked s1 s2 → relinked s2 s3 → relinked s1 s3.
Proof. intros [] []. split; congruence. Qed.

Lemma relinked_fields s s' j :
  relinked s s' →
  valid (bc s' !!! j) = valid (bc s !!! j) ∧ dev (bc s' !!! j) = dev (bc s !!! j)
  ∧ blockno (bc s' !!! j) = blockno (bc s !!! j) ∧ lock (bc s' !!! j) = lock (bc s !!! j)
  ∧ refcnt (bc s' !!! j) = refcnt (bc s !!! j) ∧ data (bc s' !!! j) = data (bc s !!! j).
Proof. intros [_ Hs _]. specialize (Hs j). by injection Hs. Qed.

Lemma relinked_set_prev s i p :
  (i < length (bc s))%nat →
  relinked s (bset i (set_prev p (bc s !!! i)) s)
  ∧ (∀ j, nx (bc (bset i (set_prev p (bc s !!! i)) s)) j = nx (bc s) j)
  ∧ (∀ j, pv (bc (bset i (set_prev p (bc s !!! i)) s)) j = fn_upd (pv (bc s)) i p j).
Proof.
  intros Hi. unfold nx, pv, fn_upd. split_and!.
  - split; [cbn; by rewrite length_insert| |done]. intros j. rewrite bset_lookup by done. by case_decide; subst.
  - intros j. rewrite bset_lookup by done. by case_decide; subst.
  - intros j. rewrite bset_lookup by done. by case_decide; subst.
Qed.

Lemma relinked_set_next s i p :
  (i < length (bc s))%nat →
  relinked s (bset i (set_next p (bc s !!! i)) s)
  ∧ (∀ j, nx (bc (bset i (set_next p (bc s !!! i)) s)) j = fn_upd (nx (bc s)) i p j)
  ∧ (∀ j, pv (bc (bset i (set_next p (bc s !!! i)) s)) j = pv (bc s) j).
Proof.
  intros Hi. unfold nx, pv, fn_upd. split_and!.
  - split; [cbn; by rewrite length_insert| |done]. intros j. rewrite bset_lookup by done. by case_decide; subst.
  - intros j. rewrite bset_lookup by done. by case_decide; subst.
  - intros j. rewrite bset_lookup by done. by case_decide; subst.
Qed.

Lemma wp_set_prev i p (Q : unit → bio_st → Prop) s :
  (i < length (bc s))%nat →
  (∀ s', relinked s s' → (∀ j, nx (bc s') j = nx (bc s) j) →
     (∀ j, pv (bc s') j = fn_upd (pv (bc s)) i p j) → Q tt s') →
  wp (upd i (set_prev p)) Q s.
Proof. intros Hi HQ. apply wp_upd. by apply HQ; apply relinked_set_prev. Qed.

Lemma wp_set_next i p (Q : unit → bio_st → Prop) s :
  (i < length (bc s))%nat →
  (∀ s', relinked s s' → (∀ j, nx (bc s') j = fn_upd (nx (bc s)) i p j) →
     (∀ j, pv (bc s') j = pv (bc s) j) → Q tt s') →
  wp (upd i (set_next p)) Q s.
Proof. intros Hi HQ. apply wp_upd. by apply HQ; apply relinked_set_next. Qed.

(** Inserting a buffer after the head: the last steps of [brelse] and the body
    of [binit], which initialises the lock in between. *)
Definition push_front (mid : M bio_st unit) (b : nat) : M bio_st unit :=
  h ← bufp HEAD;
  upd b (set_next (next h));;
  upd b (set_prev HEAD);;
  mid;;
  h ← bufp HEAD;
  upd (next h) (set_prev b);;
  upd HEAD (set_next b).

Lemma seg_ext nx1 pv1 nx2 pv2 x o y :
  seg nx1 pv1 x o y → (∀ z, nx2 z = nx1 z) → (∀ z, pv2 z = pv1 z) → seg nx2 pv2 x o y.
Proof. intros Hs Hn Hp. by apply (seg_frame nx1 pv1). Qed.

Lemma wp_push_front mid b o s (Q : unit → bio_st → Prop) :
  (∀ s1 (R : unit → bio_st → Prop), relinked s s1 →
     (∀ s2, relinked s1 s2 → (∀ j, nx (bc s2) j = nx (bc s1) j) → (∀ j, pv (bc s2) j = pv (bc s1) j) →
        R tt s2) → wp mid R s1) →
  length (bc s) = S NBUF → (b < NBUF)%nat → NoDup o → b ∉ o → (∀ i, i ∈ o → (i < NBUF)%nat) →
  seg (nx (bc s)) (pv (bc s)) HEAD o HEAD →
  (∀ s', relinked s s' → seg (nx (bc s')) (pv (bc s')) HEAD (b :: o) HEAD → Q tt s') →
  wp (push_front mid b) Q s.
Proof.
  intros Hmid Hl Hb Hnd Hbo Ho Hs HQ. unfold push_front.
  assert (HEAD ∉ o) as Hh by (intros ?%Ho; unfold HEAD in *; lia).
  assert (b ≠ HEAD) as Hbh by (unfold HEAD; lia).
  assert (nx (bc s) HEAD < S NBUF)%nat as Hn.
  { destruct o as [|z o]; simpl in Hs; destruct Hs as [-> _]; [unfold HEAD; lia|].
    specialize (Ho z). set_solver by lia. }
  assert (nx (bc s) HEAD ≠ b) as Hnb.
  { destruct o as [|z o]; simpl in Hs; destruct Hs as [-> _]; set_solver. }
  wp_step. apply wp_bufp. fold (nx (bc s) HEAD).
  wp_step. apply wp_set_next; [lia|]. intros s1 R1 N1 P1. pose proof (rl_len _ _ R1) as L1.
  wp_step. apply wp_set_prev; [lia|]. intros s2' R2' N2' P2'. pose proof (rl_len _ _ R2') as L2'.
  wp_step. apply Hmid; [by eapply relinked_trans|]. intros s2 R2 N2 P2. pose proof (rl_len _ _ R2) as L2.
  wp_step. apply wp_bufp. fold (nx (bc s2) HEAD).
  assert (nx (bc s2) HEAD = nx (bc s) HEAD) as E by (rewrite N2, N2', N1; by apply fn_upd_ne). rewrite E.
  wp_step. apply wp_set_prev; [lia|]. intros s3 R3 N3 P3. pose proof (rl_len _ _ R3) as L3.
  apply wp_set_next; [unfold HEAD; lia|]. intros s4 R4 N4 P4. apply HQ.
  - by do 4 (eapply relinked_trans; [done|]).
  - eapply seg_ext; [by apply (seg_insert (nx (bc s)) (pv (bc s)) HEAD b o HEAD)| |].
    + intros z. rewrite N4. unfold fn_upd. case_decide; [done|]. rewrite N3, N2, N2', N1. done.
    + intros z. rewrite P4, P3. unfold fn_upd. case_decide; [done|]. rewrite P2, P2'. unfold fn_upd.
      case_decide; [done|]. by rewrite P1.
Qed.

(** Links do not matter for the rest of the invariant. *)
Lemma cache_ok_relinked s s' o o' :
  cache_ok s o → relinked s s' → o' ≡ₚ o →
  seg (nx (bc s')) (pv (bc s')) HEAD o' HEAD → cache_ok s' o'.
Proof.
  intros [Hl Hp _ Hf Hu Hk] R Ho Hs. split; [by rewrite (rl_len _ _ R)|by rewrite Ho|done| | |].
  - intros i Hi. destruct (relinked_fields _ _ i R) as (_ & _ & _ & _ & -> & _). by apply Hf.
  - intros i j Hi Hj. destruct (relinked_fields _ _ i R) as (_ & -> & -> & _).
    destruct (relinked_fields _ _ j R) as (_ & -> & -> & _). by apply Hu.
  - intros i Hi. destruct (relinked_fields _ _ i R) as (_ & _ & _ & -> & -> & _). by apply Hk.
Qed.

Lemma seg_neighbours nx pv x o1 b o2 y :
  seg nx pv x (o1 ++ b :: o2) y → pv b ∈ x :: o1 ∧ nx b ∈ o2 ++ [y].
Proof.
  intros [H1 H2]%seg_app. split.
  - destruct o1 as [|p o1 _] using rev_ind; [simpl in H1; destruct H1 as [_ ->]; set_solver|].
    apply seg_app in H1 as [_ [_ ->]]. set_solver.
  - destruct o2; simpl in H2; destruct H2 as [-> _]; set_solver.
Qed.

Lemma wp_to_front b o1 o2 s (Q : unit → bio_st → Prop) :
  cache_ok s (o1 ++ b :: o2) →
  (∀ s', relinked s s' → cache_ok s' (b :: o1 ++ o2) → Q tt s') →
  wp (to_front b) Q s.
Proof.
  intros Hc HQ. pose proof (head_not_in _ _ Hc) as Hh. pose proof (order_nodup _ _ Hc) as Hnd.
  pose proof (co_len _ _ Hc) as Hl. pose proof (co_ring _ _ Hc) as Hs.
  assert (∀ i, i ∈ o1 ++ b :: o2 → (i < NBUF)%nat) as Ho by (intros i; by apply (order_elem s)).
  destruct (seg_neighbours _ _ _ _ _ _ _ Hs) as [Hp Hn].
  assert (pv (bc s) b < S NBUF)%nat as Hp'.
  { apply elem_of_cons in Hp as [->|Hp]; [unfold HEAD; lia|]. specialize (Ho (pv (bc s) b)). set_solver by lia. }
  assert (nx (bc s) b < S NBUF)%nat as Hn'.
  { apply elem_of_app in Hn as [Hn|Hn%list_elem_of_singleton]; [|rewrite Hn; unfold HEAD; lia].
    specialize (Ho (nx (bc s) b)). set_solver by lia. }
  assert (nx (bc s) b ≠ b) as Hnb.
  { intros E. rewrite E in Hn. apply NoDup_app in Hnd as (_ & _ & Hnd). rewrite NoDup_cons in Hnd.
    set_solver. }
  unfold to_front. wp_step. apply wp_bufp. fold (nx (bc s) b) (pv (bc s) b).
  wp_step. apply wp_set_prev; [lia|]. intros s1 R1 N1 P1. pose proof (rl_len _ _ R1) as L1.
  wp_step. apply wp_bufp. fold (nx (bc s1) b) (pv (bc s1) b).
  rewrite N1, P1, fn_upd_ne by done.
  wp_step. apply wp_set_next; [lia|]. intros s2 R2 N2 P2. pose proof (rl_len _ _ R2) as L2.
  assert (b :: o1 ++ o2 ≡ₚ o1 ++ b :: o2) as Hperm by apply Permutation_middle.
  assert (NoDup (b :: o1 ++ o2)) as Hnd' by by rewrite Hperm.
  apply NoDup_cons in Hnd' as [Hb' Hnd'].
  change (wp (push_front (ret tt) b) Q s2). apply (wp_push_front (ret tt) b (o1 ++ o2)); try done.
  - intros s3 R _ HR. wp_step. by apply HR.
  - lia.
  - apply Ho. set_solver.
  - intros i Hi. apply Ho. rewrite <- Hperm. set_solver.
  - eapply seg_ext; [by apply (seg_unlink (nx (bc s)) (pv (bc s)) _ _ b)| |].
    + intros z. rewrite N2. unfold fn_upd. by rewrite N1.
    + intros z. rewrite P2. apply P1.
  - intros s3 R3 Hs3. assert (relinked s s3) as R by (by do 2 (eapply relinked_trans; [done|])).
    apply HQ; [done|]. by eapply cache_ok_relinked.
Qed.

(** *** [binit] *)

(** The zeroed cache the kernel starts with. *)
Definition blank_bufs (s : bio_st) : Prop :=
  length (bc s) = S NBUF ∧ ∀ i, strip (bc s !!! i) = strip (Buf false 0 0 None 0 0 0 (data (bc s !!! i))).

Lemma blank_relinked s s' : blank_bufs s → relinked s s' → blank_bufs s'.
Proof.
  intros [Hl Hb] R. split; [by rewrite (rl_len _ _ R)|]. intros i. rewrite (rl_strip _ _ R), Hb.
  by destruct (relinked_fields _ _ i R) as (_ & _ & _ & _ & _ & ->).
Qed.

Lemma wp_init_lock b s (R : unit → bio_st → Prop) :
  blank_bufs s → (b < NBUF)%nat →
  (∀ s', relinked s s' → (∀ j, nx (bc s') j = nx (bc s) j) → (∀ j, pv (bc s') j = pv (bc s) j) → R tt s') →
  wp (upd b (set_lock None)) R s.
Proof.
  intros [Hl Hb] Hlt HR. apply wp_upd. assert (b < length (bc s))%nat as Hlt' by lia.
  assert (set_lock None (bc s !!! b) = bc s !!! b) as E.
  { specialize (Hb b). revert Hb. destruct (bc s !!! b). unfold strip, set_lock, set_prev, set_next.
    cbn. congruence. }
  rewrite E. apply HR; [split|..]; intros; rewrite ?bset_lookup by done; unfold nx, pv;
    rewrite ?bset_lookup by done; try (by case_decide; subst); cbn; by rewrite ?length_insert.
Qed.

Lemma wp_binit s :
  blank_bufs s → wp binit (λ _ s', cache_ok s' (rev (seq 0 NBUF)) ∧ blank_bufs s' ∧ dsk s' = dsk s) s.
Proof.
  intros Hb. pose proof (proj1 Hb) as Hl. unfold binit.
  wp_step. apply wp_set_prev; [rewrite Hl; unfold HEAD; lia|]. intros s1 R1 N1 P1.
  wp_step. apply wp_set_next; [rewrite (rl_len _ _ R1), Hl; unfold HEAD; lia|]. intros s2 R2 N2 P2.
  apply (wp_for_post (λ i s', relinked s s' ∧
    seg (nx (bc s')) (pv (bc s')) HEAD (rev (seq 0 (Z.to_nat i))) HEAD)); [done| | |].
  - split; [by eapply relinked_trans|]. simpl. rewrite N2, P2, P1, !fn_upd_eq. done.
  - intros i s' Hi [R Hs]. pose proof (blank_relinked _ _ Hb R) as Hb'.
    assert (∀ j, j ∈ rev (seq 0 (Z.to_nat i)) → (j < Z.to_nat i)%nat) as Hlt.
    { intros j Hj. apply list_elem_of_In, in_rev, list_elem_of_In, elem_of_seq in Hj. lia. }
    apply (wp_push_front (upd (Z.to_nat i) (set_lock None)) (Z.to_nat i) (rev (seq 0 (Z.to_nat i)))).
    + intros s3 Q R3 HQ. apply wp_init_lock; [by eapply blank_relinked|lia|done].
    + by rewrite (rl_len _ _ R).
    + lia.
    + apply NoDup_ListNoDup, NoDup_rev, NoDup_ListNoDup, NoDup_seq.
    + intros Hj%Hlt. lia.
    + intros j Hj%Hlt. lia.
    + done.
    + intros s4 R4 Hs4. split; [by eapply relinked_trans|].
      replace (Z.to_nat (i + 1)) with (S (Z.to_nat i)) by lia. rewrite seq_S, rev_app_distr. done.
  - intros s' [R Hs]. rewrite Nat2Z.id in Hs. pose proof (blank_relinked _ _ Hb R) as Hb'.
    split_and!; [|done|by rewrite (rl_dsk _ _ R)].
    assert (∀ i, valid (bc s' !!! i) = false ∧ dev (bc s' !!! i) = 0 ∧ lock (bc s' !!! i) = None
      ∧ refcnt (bc s' !!! i) = 0) as Hz by (intros i; destruct Hb' as [_ Hb']; specialize (Hb' i); by injection Hb').
    split; [apply Hb'|symmetry; apply Permutation_rev|done|..].
    + intros i Hi. destruct (Hz i) as (_ & _ & _ & ->). lia.
    + intros i j Hi Hj Hd. by destruct (Hz i) as (_ & ? & _).
    + intros i Hi _. apply Hz.
Qed.
