(* ===== verification/BioClient.v ===== *)
(** * The buffer cache as its clients see it

    For the file-system device [d] the state of the cache is, per block, what
    [bread] returns ([content]), how many references there are ([rcof]) and who
    holds the lock ([lkof]).  [good] is the invariant between calls; the lemmas
    say what each routine of kernel/bio.c does to this view. *)

From S2P Require Import Prelude Machine Bio BioFacts.

Section client.
Context (d : Z) (Hd : d ≠ 0).
Implicit Types (s : bio_st) (n m : Z) (i j : nat).

Definition find_buf s n : option nat := List.find (is_block (bc s) d n) (seq 0 NBUF).

Definition content s n : list Z :=
  match find_buf s n with
  | Some i => if valid (bc s !!! i) then data (bc s !!! i) else dblock (dsk s) n
  | None => dblock (dsk s) n
  end.

Definition rcof s n : Z := match find_buf s n with Some i => refcnt (bc s !!! i) | None => 0 end.
Definition lkof s n : option Z := match find_buf s n with Some i => lock (bc s !!! i) | None => None end.

(** Process [pid] holds the locked, valid buffer [i] of block [n]. *)
Definition held s n i (pid : Z) : Prop :=
  find_buf s n = Some i ∧ valid (bc s !!! i) = true ∧ lock (bc s !!! i) = Some pid.

Record good s : Prop := {
  gd_cache : ∃ o, cache_ok s o;
  gd_dev i : (i < NBUF)%nat → dev (bc s !!! i) ≠ 0 → dev (bc s !!! i) = d;
  gd_used i : (i < NBUF)%nat → refcnt (bc s !!! i) ≠ 0 → dev (bc s !!! i) ≠ 0;
  gd_clean i : (i < NBUF)%nat → dev (bc s !!! i) = d → refcnt (bc s !!! i) = 0 →
    valid (bc s !!! i) = true → data (bc s !!! i) = dblock (dsk s) (blockno (bc s !!! i));
}.

(** The blocks in use are among [l]. *)
Definition used_in s (l : list Z) : Prop := ∀ n, rcof s n ≠ 0 → n ∈ l.

Lemma find_buf_block s n i : find_buf s n = Some i → block_of s d n i.
Proof.
  intros [Hj Hb%is_block_true]%List.find_some. apply list_elem_of_In, elem_of_seq in Hj.
  split; [lia|done].
Qed.

Lemma block_find_buf s o n i : cache_ok s o → block_of s d n i → find_buf s n = Some i.
Proof.
  intros Hc (Hi & E1 & E2). unfold find_buf. destruct (List.find _ _) as [j|] eqn:E.
  - apply find_buf_block in E as (Hj & E3 & E4). f_equal.
    apply (co_uniq _ _ Hc); [done|done|congruence..].
  - apply (find_none _ _ i) in E; [|apply elem_of_seq; lia].
    assert (is_block (bc s) d n i = true) by (by apply is_block_true). congruence.
Qed.

Lemma find_buf_none s n : find_buf s n = None ↔ ∀ i, ¬ block_of s d n i.
Proof.
  split.
  - intros E i (Hi & Hb). apply (find_none _ _ i) in E; [|apply elem_of_seq; lia].
    apply is_block_true in Hb. congruence.
  - intros Hno. destruct (find_buf s n) as [i|] eqn:E; [|done]. by destruct (Hno i), (find_buf_block _ _ _ E).
Qed.

(** Fewer blocks in use than buffers leave a buffer unused. *)
Lemma used_room s l :
  good s → used_in s l → (length l < NBUF)%nat → ∃ i, (i < NBUF)%nat ∧ refcnt (bc s !!! i) = 0.
Proof.
  intros [[o Hc] Hdev Hused _] Hu Hl.
  destruct (decide (Exists (λ i, refcnt (bc s !!! i) = 0) (seq 0 NBUF))) as [He|Hn].
  { apply Exists_exists in He as (i & [_ Hi]%elem_of_seq & Hr). eauto. }
  exfalso. assert (∀ i, (i < NBUF)%nat → refcnt (bc s !!! i) ≠ 0) as Hall.
  { intros i Hi E. apply Hn, Exists_exists. exists i. split; [apply elem_of_seq; lia|done]. }
  assert (∀ i, (i < NBUF)%nat → dev (bc s !!! i) = d) as Hall' by auto.
  assert (NoDup ((λ i, blockno (bc s !!! i)) <$> seq 0 NBUF)) as Hnd.
  { apply NoDup_fmap_2_strong; [|apply NoDup_seq]. intros i j [_ Hi]%elem_of_seq [_ Hj]%elem_of_seq E.
    apply (co_uniq _ _ Hc); rewrite ?Hall' by done; done. }
  assert ((λ i, blockno (bc s !!! i)) <$> seq 0 NBUF ⊆ l) as Hsub.
  { intros b (i & -> & [_ Hi]%elem_of_seq)%list_elem_of_fmap. apply Hu. unfold rcof.
    rewrite (block_find_buf s o _ i) by (done || split; auto). by apply Hall. }
  apply NoDup_submseteq, submseteq_length in Hsub; [|done].
  rewrite length_fmap, length_seq in Hsub. lia.
Qed.

(** *** Changing one buffer *)

Record view_eq s s' : Prop := {
  ve_content n : content s' n = content s n;
  ve_rc n : rcof s' n = rcof s n;
  ve_lk n : lkof s' n = lkof s n;
  ve_held n i p : held s n i p → held s' n i p;
}.

Lemma find_buf_ext s s' n :
  (∀ i, dev (bc s' !!! i) = dev (bc s !!! i) ∧ blockno (bc s' !!! i) = blockno (bc s !!! i)) →
  find_buf s' n = find_buf s n.
Proof.
  intros H. unfold find_buf. induction (seq 0 NBUF) as [|i l IH]; simpl; [done|].
  unfold is_block at 1 3. destruct (H i) as [-> ->]. by destruct (_ && _).
Qed.

#[local] Opaque find_buf.

Lemma view_relinked s s' : relinked s s' → good s → (∃ o, cache_ok s' o) → good s' ∧ view_eq s s'.
Proof.
  intros R [_ Hdev Hused Hclean] Hc.
  assert (∀ n, find_buf s' n = find_buf s n) as Hf.
  { intros n. apply find_buf_ext. intros i. destruct (relinked_fields _ _ i R) as (_ & ? & ? & _). done. }
  split; split; try done.
  - intros i. destruct (relinked_fields _ _ i R) as (_ & -> & _). apply Hdev.
  - intros i. destruct (relinked_fields _ _ i R) as (_ & -> & _ & _ & -> & _). apply Hused.
  - intros i. destruct (relinked_fields _ _ i R) as (-> & -> & -> & _ & -> & ->).
    rewrite (rl_dsk _ _ R). apply Hclean.
  - intros n. unfold content. rewrite Hf, (rl_dsk _ _ R). destruct (find_buf s n) as [i|]; [|done].
    by destruct (relinked_fields _ _ i R) as (-> & _ & _ & _ & _ & ->).
  - intros n. unfold rcof. rewrite Hf. destruct (find_buf s n) as [i|]; [|done].
    by destruct (relinked_fields _ _ i R) as (_ & _ & _ & _ & -> & _).
  - intros n. unfold lkof. rewrite Hf. destruct (find_buf s n) as [i|]; [|done].
    by destruct (relinked_fields _ _ i R) as (_ & _ & _ & -> & _).
  - intros n i p. unfold held. rewrite Hf.
    by destruct (relinked_fields _ _ i R) as (-> & _ & _ & -> & _).
Qed.

(** One buffer changes and stays the buffer of block [n]. *)
Record view_upd s s' n (c : list Z) (r : Z) (l : option Z) : Prop := {
  vu_good : good s';
  vu_content m : content s' m = if decide (m = n) then c else content s m;
  vu_rc m : rcof s' m = if decide (m = n) then r else rcof s m;
  vu_lk m : lkof s' m = if decide (m = n) then l else lkof s m;
  vu_held m j p : m ≠ n → held s m j p → held s' m j p;
}.

Lemma find_buf_inj s n m i : find_buf s n = Some i → find_buf s m = Some i → n = m.
Proof. intros (_ & _ & H1)%find_buf_block (_ & _ & H2)%find_buf_block. congruence. Qed.

Lemma view_bset s n i b :
  good s → find_buf s n = Some i →
  prev b = prev (bc s !!! i) → next b = next (bc s !!! i) →
  dev b = d → blockno b = n → 0 ≤ refcnt b < 2 ^ 32 →
  (refcnt b = 0 → lock b = None ∧ (valid b = true → data b = dblock (dsk s) n)) →
  view_upd s (bset i b s) n (if valid b then data b else dblock (dsk s) n) (refcnt b) (lock b)
  ∧ find_buf (bset i b s) n = Some i.
Proof.
  intros Hg Hf Ep En Ed Eb Hr Hz. pose proof (find_buf_block _ _ _ Hf) as (Hi & Hdi & Hbi).
  destruct Hg as [[o Hc] Hdev Hused Hclean].
  assert (i < length (bc s))%nat as Hil by (rewrite (co_len _ _ Hc); lia).
  assert (∀ m, find_buf (bset i b s) m = find_buf s m) as Hfe.
  { intros m. apply find_buf_ext. intros j. rewrite bset_lookup by done. case_decide; subst; split; congruence. }
  split; [|by rewrite Hfe].
  assert (∀ m j, find_buf s m = Some j → m ≠ n → j ≠ i) as Hne.
  { intros m j Hj Hm ->. exact (Hm (find_buf_inj _ _ _ _ Hj Hf)). }
  split.
  - split.
    + exists o. apply cache_ok_bset; try done; [intros E; by apply Hz|]. left. split; congruence.
    + intros j Hj. rewrite bset_lookup by done. case_decide; [done|auto].
    + intros j Hj. rewrite bset_lookup by done. case_decide; [congruence|auto].
    + intros j Hj. rewrite bset_lookup by done. cbn [dsk bset]. case_decide; [|auto].
      intros _ E. rewrite Eb. by apply Hz.
  - intros m. unfold content. rewrite Hfe. case_decide as E; [subst m|].
    + rewrite Hf, bset_lookup, decide_True by done. done.
    + destruct (find_buf s m) as [j|] eqn:Ej; [|done]. by rewrite bset_lookup, decide_False by eauto.
  - intros m. unfold rcof. rewrite Hfe. case_decide as E; [subst m|].
    + by rewrite Hf, bset_lookup, decide_True by done.
    + destruct (find_buf s m) as [j|] eqn:Ej; [|done]. by rewrite bset_lookup, decide_False by eauto.
  - intros m. unfold lkof. rewrite Hfe. case_decide as E; [subst m|].
    + by rewrite Hf, bset_lookup, decide_True by done.
    + destruct (find_buf s m) as [j|] eqn:Ej; [|done]. by rewrite bset_lookup, decide_False by eauto.
  - intros m j p Hm (H1 & H2 & H3). unfold held. rewrite Hfe, bset_lookup, decide_False by eauto. done.
Qed.

(** A recycled buffer: no block changes its contents. *)
Lemma view_recycle s n i :
  good s → find_buf s n = None → (i < NBUF)%nat → refcnt (bc s !!! i) = 0 →
  view_upd s (bset i (recycle d n (bc s !!! i)) s) n (content s n) 1 None
  ∧ find_buf (bset i (recycle d n (bc s !!! i)) s) n = Some i.
Proof.
  intros Hg Hf Hi Hr. pose proof Hg as [[o Hc] Hdev Hused Hclean].
  assert (i < length (bc s))%nat as Hil by (rewrite (co_len _ _ Hc); lia).
  set (b := recycle d n (bc s !!! i)).
  assert (cache_ok (bset i b s) o) as Hc'.
  { apply cache_ok_bset; cbn; try done. right. intros j Hj [E1 E2].
    apply find_buf_none with (i := j) in Hf. by apply Hf. }
  assert (find_buf (bset i b s) n = Some i) as Hfn.
  { eapply block_find_buf; [done|]. unfold block_of. rewrite bset_lookup, decide_True by done. done. }
  assert (∀ m j, m ≠ n → j ≠ i → find_buf s m = Some j → find_buf (bset i b s) m = Some j) as Hfo.
  { intros m j Hm Hj E. eapply block_find_buf; [done|]. unfold block_of. rewrite bset_lookup, decide_False by done.
    by apply find_buf_block in E. }
  assert (∀ m, m ≠ n → find_buf s m = None ∨ find_buf s m = Some i → find_buf (bset i b s) m = None) as Hfz.
  { intros m Hm Hs. apply find_buf_none. intros j (Hj & E). rewrite bset_lookup in E by done.
    case_decide; [cbn in E; naive_solver|]. assert (find_buf s m = Some j) as Ej by (by eapply block_find_buf).
    destruct Hs; congruence. }
  split; [|done]. split.
  - split; [by exists o|..]; intros j Hj; rewrite bset_lookup by done; cbn [dsk bset];
      case_decide; auto; try done.
  - intros m. unfold content at 1. case_decide as E; [subst m|].
    + rewrite Hfn, bset_lookup, decide_True by done. cbn. unfold content. by rewrite Hf.
    + destruct (find_buf s m) as [j|] eqn:Ej.
      * destruct (decide (j = i)) as [->|Hj].
        -- rewrite Hfz by auto. unfold content. rewrite Ej. destruct (valid (bc s !!! i)) eqn:Ev; [|done].
           apply find_buf_block in Ej as (_ & E1 & E2). rewrite <- E2. symmetry. by apply Hclean.
        -- rewrite (Hfo m j) by done. rewrite bset_lookup, decide_False by done.
           unfold content. by rewrite Ej.
      * rewrite Hfz by auto. unfold content. by rewrite Ej.
  - intros m. unfold rcof. case_decide as E; [subst m; by rewrite Hfn, bset_lookup, decide_True by done|].
    destruct (find_buf s m) as [j|] eqn:Ej; [|by rewrite Hfz by auto].
    destruct (decide (j = i)) as [->|Hj]; [by rewrite Hfz, Hr by auto|].
    by rewrite (Hfo m j), bset_lookup, decide_False by done.
  - intros m. unfold lkof. case_decide as E.
    + subst m. rewrite Hfn, bset_lookup, decide_True by done. by apply (co_lock _ _ Hc).
    + destruct (find_buf s m) as [j|] eqn:Ej; [|by rewrite Hfz by auto].
      destruct (decide (j = i)) as [->|Hj]; [rewrite Hfz by auto; symmetry; by apply (co_lock _ _ Hc)|].
      by rewrite (Hfo m j), bset_lookup, decide_False by done.
  - intros m j p Hm (H1 & H2 & H3).
    assert (j ≠ i) as Hj by (intros ->; rewrite (co_lock _ _ Hc) in H3 by done; done).
    unfold held. rewrite (Hfo m j), bset_lookup, decide_False by done. done.
Qed.
(** *** The routines *)

Lemma find_buf_lt s n i : find_buf s n = Some i → (i < NBUF)%nat.
Proof. by intros (? & _)%find_buf_block. Qed.

Lemma view_refl s n : good s → view_upd s s n (content s n) (rcof s n) (lkof s n).
Proof. intros Hg. split; [done| | | |done]; intros m; by case_decide; subst. Qed.

Lemma view_trans s1 s2 s3 n c r l c' r' l' :
  view_upd s1 s2 n c r l → view_upd s2 s3 n c' r' l' → view_upd s1 s3 n c' r' l'.
Proof.
  intros [G1 C1 R1 L1 H1] [G2 C2 R2 L2 H2]. split; [done|..].
  - intros m. rewrite C2, C1. by case_decide.
  - intros m. rewrite R2, R1. by case_decide.
  - intros m. rewrite L2, L1. by case_decide.
  - auto.
Qed.

(** [bget] finds a buffer: the block is in use, or some buffer is not. *)
Definition room s n : Prop := rcof s n ≠ 0 ∨ ∃ l, used_in s l ∧ (length l < NBUF)%nat.

(** [bget] up to the sleep lock. *)
Lemma wp_bget_find n s (Q : nat → bio_st → Prop) :
  good s → room s n → rcof s n + 1 < 2 ^ 32 →
  (∀ i s', view_upd s s' n (content s n) (rcof s n + 1) (lkof s n) → find_buf s' n = Some i →
     dsk s' = dsk s → Q i s') →
  wp (bget_find d n) Q s.
Proof.
  intros Hg Hroom Hr HQ. pose proof Hg as [[o Hc] _ _ _].
  destruct (bget_find_cases s o d n Hc) as [(i & Hb & E)|(Hno & [(i & Hlru & E)|[Hall _]])].
  - pose proof (block_find_buf _ _ _ _ Hc Hb) as Hf. eapply wp_done; [exact E|].
    assert (rcof s n = refcnt (bc s !!! i)) as Er by (unfold rcof; by rewrite Hf).
    pose proof (co_ref _ _ Hc i (find_buf_lt _ _ _ Hf)) as Hri. destruct Hb as (_ & Ed & Eb).
    rewrite u32_small by lia. set (b := set_refcnt _ _).
    destruct (view_bset s n i b Hg Hf) as [Hv Hf']; try done; try by cbn; lia.
    apply HQ; [|done|done]. unfold content, lkof. rewrite Hf, Er. exact Hv.
  - assert (find_buf s n = None) as Hf by by apply find_buf_none.
    destruct (lru_unused _ _ _ Hc Hlru) as [Hi Hri]. eapply wp_done; [exact E|].
    destruct (view_recycle s n i Hg Hf Hi Hri) as [Hv Hf']. apply HQ; [|done|done].
    unfold rcof, lkof. rewrite Hf. exact Hv.
  - destruct Hroom as [Hrc|(l & Hu & Hl)].
    + destruct (find_buf s n) as [i|] eqn:Hf; [|unfold rcof in Hrc; by rewrite Hf in Hrc].
      by destruct (Hno i), (find_buf_block _ _ _ Hf).
    + destruct (used_room s l Hg Hu Hl) as (i & Hi & Hr0). by destruct (Hall i).
Qed.

Lemma wp_bread pid n s (Q : nat → bio_st → Prop) :
  good s → room s n → rcof s n + 1 < 2 ^ 32 → 0 ≤ rcof s n →
  lkof s n = None → 0 ≤ n < d_size (dsk s) →
  (∀ i s', view_upd s s' n (content s n) (rcof s n + 1) (Some pid) → held s' n i pid →
     data (bc s' !!! i) = content s n → dsk s' = dsk s → Q i s') →
  wp (bread pid d n) Q s.
Proof.
  intros Hg Hroom Hr Hr0 Hlk Hn HQ. unfold bread, bget. wp_step. wp_step.
  apply (wp_bget_find n s); try done. intros i s1 V1 F1 D1. pose proof (vu_good _ _ _ _ _ _ V1) as G1.
  pose proof (find_buf_block _ _ _ F1) as (Hi & Ed & Eb).
  pose proof (vu_rc _ _ _ _ _ _ V1 n) as R1. pose proof (vu_lk _ _ _ _ _ _ V1 n) as L1.
  pose proof (vu_content _ _ _ _ _ _ V1 n) as C1. rewrite decide_True in R1 by done.
  rewrite decide_True in L1 by done. rewrite decide_True in C1 by done.
  unfold rcof in R1 at 1. unfold lkof in L1 at 1. unfold content in C1 at 1.
  rewrite F1 in R1, L1, C1. rewrite Hlk in L1.
  unfold acquiresleep. wp_step. wp_step. apply wp_bufp. rewrite L1. apply wp_upd.
  set (b2 := set_lock (Some pid) _). set (s2 := bset i b2 s1).
  destruct (view_bset s1 n i b2 G1 F1) as [V2 F2]; try done; try (cbn; rewrite R1; lia).
  wp_step. wp_step. apply wp_bufp.
  assert (i < length (bc s1))%nat as Hil.
  { destruct G1 as [[o Hc] _ _ _]. rewrite (co_len _ _ Hc). lia. }
  assert (bc s2 !!! i = b2) as E2 by (unfold s2; by rewrite bset_lookup, decide_True by done).
  rewrite E2. change (valid b2) with (valid (bc s1 !!! i)).
  assert (view_upd s s2 n (content s n) (rcof s n + 1) (Some pid)) as V.
  { eapply view_trans; [exact V1|]. rewrite <- C1, <- R1. exact V2. }
  destruct (valid (bc s1 !!! i)) eqn:Ev.
  - wp_step. wp_step. wp_step. apply HQ; [exact V| |by rewrite E2|done].
    split_and!; [exact F2|by rewrite E2|by rewrite E2].
  - unfold disk_rw. wp_step. wp_step. wp_step. wp_step.
    rewrite E2. change (blockno b2) with (blockno (bc s1 !!! i)). rewrite Eb.
    change (dsk s2) with (dsk s1). rewrite D1.
    rewrite (proj2 (Z.ltb_ge _ _)), (proj2 (Z.leb_gt _ _)) by lia. cbn [orb].
    apply wp_upd. rewrite E2. apply wp_upd. wp_step.
    rewrite bset_lookup, decide_True by (done || unfold s2; cbn; by rewrite length_insert).
    rewrite bset_bset. unfold s2 at 1. rewrite bset_bset.
    set (b3 := set_valid true _).
    destruct (view_bset s1 n i b3 G1 F1) as [V3 F3]; try done; try (cbn; rewrite R1; lia).
    assert (bc (bset i b3 s1) !!! i = b3) as E3 by (by rewrite bset_lookup, decide_True by done).
    apply HQ; [| |rewrite E3; cbn; by rewrite <- D1|done].
    + eapply view_trans; [exact V1|]. rewrite <- C1, <- R1, D1 in *. exact V3.
    + split_and!; [exact F3|by rewrite E3|by rewrite E3].
Qed.

Lemma held_bounds s n i pid :
  good s → held s n i pid → (i < length (bc s))%nat ∧ rcof s n = refcnt (bc s !!! i)
  ∧ 1 ≤ refcnt (bc s !!! i) < 2 ^ 32 ∧ content s n = data (bc s !!! i)
  ∧ dev (bc s !!! i) = d ∧ blockno (bc s !!! i) = n.
Proof.
  intros [[o Hc] _ _ _] (Hf & Hv & Hl). pose proof (find_buf_block _ _ _ Hf) as (Hi & Ed & Eb).
  pose proof (co_ref _ _ Hc i Hi) as Hr. unfold rcof, content. rewrite Hf, Hv, (co_len _ _ Hc).
  split_and!; try done; try lia. destruct (decide (refcnt (bc s !!! i) = 0)) as [E|]; [|lia].
  by rewrite (co_lock _ _ Hc) in Hl.
Qed.

(** Changing the contents of a held buffer. *)
Lemma wp_set_data pid n i (l : list Z) s (Q : unit → bio_st → Prop) :
  good s → held s n i pid →
  (∀ s', view_upd s s' n l (rcof s n) (Some pid) → held s' n i pid → dsk s' = dsk s → Q tt s') →
  wp (upd i (set_data l)) Q s.
Proof.
  intros Hg Hh HQ. pose proof (held_bounds _ _ _ _ Hg Hh) as (Hi & Er & Hr & _ & Ed & Eb).
  destruct Hh as (Hf & Hv & Hl). apply wp_upd. set (b := set_data l _).
  destruct (view_bset s n i b Hg Hf) as [V F]; try done; try (cbn; lia).
  cbn in V. rewrite Hv, Hl, <- Er in V. apply HQ; [exact V| |done].
  unfold held. rewrite bset_lookup, decide_True by done. done.
Qed.

(** The disk after a block write. *)
Definition disk_write (n : Z) (l : list Z) (x : bdisk) : bdisk :=
  BDisk (d_size x) (<[n := l]> (d_blk x)) ((n, l) :: d_trace x).

Lemma dblock_write n l x m : dblock (disk_write n l x) m = if decide (m = n) then l else dblock x m.
Proof.
  unfold dblock, disk_write. cbn. case_decide as E; [subst; by rewrite lookup_insert_eq|].
  by rewrite lookup_insert_ne.
Qed.

Lemma wp_bwrite pid n i s (Q : unit → bio_st → Prop) :
  good s → held s n i pid → 0 ≤ n < d_size (dsk s) →
  (∀ s', good s' → view_eq s s' → dsk s' = disk_write n (content s n) (dsk s) → Q tt s') →
  wp (bwrite pid i) Q s.
Proof.
  intros Hg Hh Hn HQ. pose proof (held_bounds _ _ _ _ Hg Hh) as (Hi & Er & Hr & Ec & Ed & Eb).
  pose proof Hh as (Hf & Hv & Hl). unfold bwrite, holdingsleep. wp_step. wp_step. apply wp_bufp. wp_step.
  rewrite Hl, bool_decide_true by done. cbn [negb]. unfold disk_rw. wp_step. wp_step. rewrite Eb.
  rewrite (proj2 (Z.ltb_ge _ _)), (proj2 (Z.leb_gt _ _)) by lia. cbn [orb]. wp_step.
  change (BDisk _ _ _) with (disk_write n (data (bc s !!! i)) (dsk s)).
  set (s' := Bio (bc s) _). rewrite Ec in HQ. destruct Hg as [[o Hc] Hdev Hused Hclean].
  assert (∀ m, find_buf s' m = find_buf s m) as Hfe by (intros; by apply find_buf_ext).
  apply HQ; [| |done].
  - split; [exists o; by destruct Hc|done|done|]. intros j Hj Ej E0 Ev. cbn. rewrite dblock_write.
    case_decide as E; [|by apply Hclean].
    assert (j = i) as -> by (apply (co_uniq _ _ Hc); cbn in *; (done || congruence || by apply (find_buf_lt s n))).
    cbn in E0. lia.
  - split; [|by intros; unfold rcof; rewrite Hfe..|by intros; unfold lkof; rewrite Hfe|].
    + intros m. unfold content. rewrite Hfe. cbn. destruct (find_buf s m) as [j|] eqn:Ej.
      * destruct (valid (bc s !!! j)) eqn:Ej2; [done|]. rewrite dblock_write, decide_False; [done|].
        intros ->. congruence.
      * rewrite dblock_write, decide_False; [done|]. intros ->. congruence.
    + intros m j q (H1 & H2 & H3). unfold held. by rewrite Hfe.
Qed.

Lemma view_upd_relinked s s1 s2 n c r l :
  view_upd s s1 n c r l → relinked s1 s2 → (∃ o, cache_ok s2 o) → view_upd s s2 n c r l.
Proof.
  intros [G1 C1 R1 L1 H1] R Hc. destruct (view_relinked _ _ R G1 Hc) as [G2 [C2 R2 L2 H2]].
  split; [done|..]; intros m; rewrite ?C2, ?R2, ?L2; auto.
Qed.

Lemma wp_brelse pid n i s (Q : unit → bio_st → Prop) :
  good s → held s n i pid → (rcof s n = 1 → content s n = dblock (dsk s) n) →
  (∀ s', view_upd s s' n (content s n) (rcof s n - 1) None → dsk s' = dsk s → Q tt s') →
  wp (brelse pid i) Q s.
Proof.
  intros Hg Hh Hlast HQ. pose proof (held_bounds _ _ _ _ Hg Hh) as (Hi & Er & Hr & Ec & Ed & Eb).
  pose proof Hh as (Hf & Hv & Hl). unfold brelse, holdingsleep. wp_step. wp_step. apply wp_bufp. wp_step.
  rewrite Hl, bool_decide_true by done. cbn [negb]. wp_step. apply wp_upd. wp_step. apply wp_upd.
  rewrite bset_lookup, decide_True by done. rewrite bset_bset. cbn [refcnt set_lock].
  set (b := set_refcnt _ _).
  assert (refcnt b = refcnt (bc s !!! i) - 1) as Eb' by (cbn; rewrite u32_small by lia; done).
  destruct (view_bset s n i b Hg Hf) as [V F]; try done; try lia.
  { intros E. split; [done|]. intros _. cbn. rewrite <- Ec. apply Hlast. lia. }
  assert (view_upd s (bset i b s) n (content s n) (rcof s n - 1) None) as V'.
  { rewrite Eb' in V. cbn in V. rewrite Hv in V. by rewrite Er, Ec. }
  wp_step. apply wp_bufp. rewrite bset_lookup, decide_True by done. rewrite Eb'.
  destruct (Z.eqb_spec (refcnt (bc s !!! i) - 1) 0) as [E|E]; [|wp_step; by apply HQ].
  destruct (vu_good _ _ _ _ _ _ V') as [[o Hc] _ _ _].
  assert (i ∈ o) as Hio by (apply (order_elem _ _ i Hc); by apply (find_buf_lt s n)).
  apply list_elem_of_split in Hio as (o1 & o2 & ->).
  apply (wp_to_front i o1 o2); [done|]. intros s2 R2 C2. apply HQ; [|by rewrite (rl_dsk _ _ R2)].
  eapply view_upd_relinked; [done|done|by eexists].
Qed.

(** Pinning keeps a block in the cache. *)
Lemma wp_pin (k : Z) n i s (Q : unit → bio_st → Prop) :
  good s → find_buf s n = Some i → 1 ≤ rcof s n + k < 2 ^ 32 →
  (∀ s', view_upd s s' n (content s n) (rcof s n + k) (lkof s n) →
     (∀ p, held s n i p → held s' n i p) → find_buf s' n = Some i → dsk s' = dsk s → Q tt s') →
  wp (upd i (λ x, set_refcnt (u32 (refcnt x + k)) x)) Q s.
Proof.
  intros Hg Hf Hk HQ. apply wp_upd. pose proof (find_buf_block _ _ _ Hf) as (Hi & Ed & Eb).
  assert (i < length (bc s))%nat as Hil.
  { destruct Hg as [[o Hc] _ _ _]. rewrite (co_len _ _ Hc). lia. }
  assert (rcof s n = refcnt (bc s !!! i)) as Er by (unfold rcof; by rewrite Hf).
  set (b := set_refcnt _ _). assert (refcnt b = rcof s n + k) as Eb' by (cbn; rewrite u32_small; lia).
  destruct (view_bset s n i b Hg Hf) as [V F]; try done; try lia.
  rewrite Eb' in V. apply HQ; [| |done|done].
  - unfold content, lkof. rewrite Hf. exact V.
  - intros q (_ & H2 & H3). unfold held. rewrite F, bset_lookup, decide_True by done. done.
Qed.
End client.
