(* ===== verification/Log.v ===== *)
(** * kernel/log.c: the write-ahead log

    A transaction's blocks are written to the log area, the header block is
    written to commit them, and they are then copied to their home locations.
    The state is [struct log] over the buffer cache; [begin_op] returns whether
    it proceeds or has to sleep. *)

From S2P Require Import Prelude Machine Bio.

Definition MAXOPBLOCKS : Z := 10.
Definition LOGSIZE : Z := MAXOPBLOCKS * 3.
Definition SIZEOF_LOGHEADER : Z := 4 + 4 * LOGSIZE.

Record log_st := Log {
  l_start : Z;
  l_size : Z;
  l_outstanding : Z;
  l_committing : bool;
  l_dev : Z;
  lh_n : Z;
  lh_block : list Z;     (* int block[LOGSIZE] *)
  l_bio : bio_st;
}.

Definition set_area st sz dv s := Log st sz (l_outstanding s) (l_committing s) dv (lh_n s) (lh_block s) (l_bio s).
Definition set_outstanding k s := Log (l_start s) (l_size s) k (l_committing s) (l_dev s) (lh_n s) (lh_block s) (l_bio s).
Definition set_committing b s := Log (l_start s) (l_size s) (l_outstanding s) b (l_dev s) (lh_n s) (lh_block s) (l_bio s).
Definition set_n n s := Log (l_start s) (l_size s) (l_outstanding s) (l_committing s) (l_dev s) n (lh_block s) (l_bio s).
Definition set_blocks l s := Log (l_start s) (l_size s) (l_outstanding s) (l_committing s) (l_dev s) (lh_n s) l (l_bio s).
Definition set_bio b s := Log (l_start s) (l_size s) (l_outstanding s) (l_committing s) (l_dev s) (lh_n s) (lh_block s) b.

Definition bio {A} (m : M bio_st A) : M log_st A := zoom l_bio set_bio m.

(** A 32-bit word of a block. *)
Definition get32 (l : list Z) (off : nat) : Z := le_combine (take 4 (drop off l)).
Definition put32 (l : list Z) (off : nat) (v : Z) : list Z := take off l ++ le_split 4 v ++ drop (off + 4) l.

(** [log.lh.block[i]]; the array has [LOGSIZE] entries. *)
Definition get_block (i : Z) : M log_st Z := λ s,
  if (0 <=? i) && (i <? LOGSIZE) then Done (lh_block s !!! Z.to_nat i, s) else Fault.
Definition set_block (i v : Z) : M log_st unit := λ s,
  if (0 <=? i) && (i <? LOGSIZE) then Done (tt, set_blocks (<[Z.to_nat i := v]> (lh_block s)) s) else Fault.

Section log.
Context (pid : Z).

Definition read_head : M log_st unit :=
  dev ← gets l_dev; start ← gets l_start;
  buf ← bio (bread pid dev start);
  lh ← bio (bufp buf);
  modify (set_n (s32 (get32 (data lh) 0)));;
  n ← gets lh_n;
  for_ 0 n (λ i, set_block i (s32 (get32 (data lh) (Z.to_nat (4 + 4 * i)))));;
  bio (brelse pid buf).

Definition write_head : M log_st unit :=
  dev ← gets l_dev; start ← gets l_start;
  buf ← bio (bread pid dev start);
  n ← gets lh_n;
  bio (upd buf (λ b, set_data (put32 (data b) 0 n) b));;
  for_ 0 n (λ i,
    v ← get_block i;
    bio (upd buf (λ b, set_data (put32 (data b) (Z.to_nat (4 + 4 * i)) v) b)));;
  bio (bwrite pid buf);;
  bio (brelse pid buf).

Definition install_trans (recovering : bool) : M log_st unit :=
  n ← gets lh_n;
  for_ 0 n (λ tail,
    dev ← gets l_dev; start ← gets l_start;
    lbuf ← bio (bread pid dev (start + tail + 1));
    b ← get_block tail;
    dbuf ← bio (bread pid dev b);
    l ← bio (bufp lbuf);
    bio (upd dbuf (set_data (data l)));;
    bio (bwrite pid dbuf);;
    (if recovering then ret tt else bio (bunpin dbuf));;
    bio (brelse pid lbuf);;
    bio (brelse pid dbuf)).

Definition recover_from_log : M log_st unit :=
  read_head;;
  install_trans true;;
  modify (set_n 0);;
  write_head.

Definition initlog (dev logstart nlog : Z) : M log_st unit :=
  if BSIZE <=? SIZEOF_LOGHEADER then panic "initlog: too big logheader"
  else
    modify (set_area logstart nlog dev);;
    recover_from_log.

(** One turn of the loop of [begin_op]: [false] when the caller sleeps. *)
Definition begin_op : M log_st bool :=
  s ← get;
  if l_committing s then ret false
  else if LOGSIZE <? lh_n s + (l_outstanding s + 1) * MAXOPBLOCKS then ret false
  else modify (set_outstanding (l_outstanding s + 1));; ret true.

Definition write_log : M log_st unit :=
  n ← gets lh_n;
  for_ 0 n (λ tail,
    dev ← gets l_dev; start ← gets l_start;
    to ← bio (bread pid dev (start + tail + 1));
    b ← get_block tail;
    from ← bio (bread pid dev b);
    f ← bio (bufp from);
    bio (upd to (set_data (data f)));;
    bio (bwrite pid to);;
    bio (brelse pid from);;
    bio (brelse pid to)).

Definition commit : M log_st unit :=
  n ← gets lh_n;
  if 0 <? n then
    write_log;;
    write_head;;
    install_trans false;;
    modify (set_n 0);;
    write_head
  else ret tt.

Definition end_op : M log_st unit :=
  modify (λ s, set_outstanding (l_outstanding s - 1) s);;
  s ← get;
  if l_committing s then panic "log.committing"
  else if l_outstanding s =? 0 then
    modify (set_committing true);;
    commit;;
    modify (set_committing false)
  else ret tt.

Definition log_write (b : nat) : M log_st unit :=
  s ← get;
  if (LOGSIZE <=? lh_n s) || (l_size s - 1 <=? lh_n s) then panic "too big a transaction"
  else if l_outstanding s <? 1 then panic "log_write outside of trans"
  else
    x ← bio (bufp b);
    r ← for_exit 0 (lh_n s) (λ i,
          v ← get_block i;
          ret (if u32 v =? blockno x then Some i else None));
    let i := default (lh_n s) r in
    set_block i (blockno x);;
    if i =? lh_n s then bio (bpin b);; modify (set_n (lh_n s + 1)) else ret tt.
End log.
