(* ===== verification/LogFacts.v ===== *)
(** * Block copies of the log over the buffer cache

    [quiet s C P]: between transactions' steps no buffer is locked, the blocks
    [P] are pinned once, no other block is in use, and the cache shows [C].
    One turn of each loop of kernel/log.c copies one block and writes it. *)

From S2P Require Import Prelude Machine Bio BioFacts BioClient Log.

Definition fupdZ {A} (f : Z → A) (n : Z) (v : A) : Z → A := λ m, if decide (m = n) then v else f m.

Ltac view_rw :=
  repeat first
    [ match goal with V : view_upd _ _ ?s _ _ _ _ |- context [rcof _ ?s _] => rewrite (vu_rc _ _ _ _ _ _ _ V) end
    | match goal with V : view_upd _ _ ?s _ _ _ _ |- context [lkof _ ?s _] => rewrite (vu_lk _ _ _ _ _ _ _ V) end
    | match goal with V : view_upd _ _ ?s _ _ _ _ |- context [content _ ?s _] => rewrite (vu_content _ _ _ _ _ _ _ V) end
    | match goal with V : view_eq _ _ ?s |- context [rcof _ ?s _] => rewrite (ve_rc _ _ _ V) end
    | match goal with V : view_eq _ _ ?s |- context [lkof _ ?s _] => rewrite (ve_lk _ _ _ V) end
    | match goal with V : view_eq _ _ ?s |- context [content _ ?s _] => rewrite (ve_content _ _ _ V) end ].

Section quiet.
Context (d : Z) (Hd : d ≠ 0) (pid : Z).
Implicit Types (s : bio_st) (C : Z → list Z) (P : list Z).

Record quiet s C P : Prop := {
  q_good : good d s;
  q_content n : content d s n = C n;
  q_rc n : rcof d s n = if decide (n ∈ P) then 1 else 0;
  q_lk n : lkof d s n = None;
}.

Lemma clean_content s n : good d s → rcof d s n = 0 → content d s n = dblock (dsk s) n.
Proof.
  intros [[o Hc] _ _ Hclean] Hr. unfold content, rcof in *. destruct (find_buf d s n) as [i|] eqn:E; [|done].
  pose proof (find_buf_block _ _ _ _ E) as (Hi & Ed & Eb). destruct (valid (bc s !!! i)) eqn:Ev; [|done].
  rewrite <- Eb. by apply Hclean.
Qed.

Lemma quiet_used s C P : quiet s C P → used_in d s P.
Proof. intros [_ _ Hr _] n. rewrite Hr. by case_decide. Qed.

(** Reading an unpinned block from a quiet cache. *)
Lemma wp_bread_quiet n s C P (Q : nat → bio_st → Prop) :
  quiet s C P → (n ∈ P ∨ (length P < NBUF)%nat) → 0 ≤ n < d_size (dsk s) →
  (∀ i s', view_upd d s s' n (C n) (rcof d s n + 1) (Some pid) → held d s' n i pid →
     data (bc s' !!! i) = C n → dsk s' = dsk s → Q i s') →
  wp (bread pid d n) Q s.
Proof.
  intros Hq HP Hn HQ. pose proof (q_rc _ _ _ Hq n) as Hr. rewrite <- (q_content _ _ _ Hq) in HQ.
  apply wp_bread; try done; try apply Hq; try (rewrite Hr; by case_decide).
  destruct HP as [HP|HP]; [left; by rewrite Hr, decide_True|right]. exists P. split; [by eapply quiet_used|done].
Qed.

(** [to = bread(a); from = bread(b); copy; bwrite(to); brelse both] with [b]
    pinned. *)
Definition copy_out (a b : Z) : M bio_st unit :=
  to ← bread pid d a;
  from ← bread pid d b;
  f ← bufp from;
  upd to (set_data (data f));;
  bwrite pid to;;
  brelse pid from;;
  brelse pid to.

Lemma wp_copy_out a b s C P (Q : unit → bio_st → Prop) :
  quiet s C P → a ∉ P → b ∈ P → (length P < NBUF)%nat →
  0 ≤ a < d_size (dsk s) → 0 ≤ b < d_size (dsk s) →
  (∀ s', quiet s' (fupdZ C a (C b)) P → dsk s' = disk_write a (C b) (dsk s) → Q tt s') →
  wp (copy_out a b) Q s.
Proof.
  intros Hq Ha Hb Hl Ra Rb HQ. assert (a ≠ b) as Hab by set_solver.
  pose proof (q_rc _ _ _ Hq) as Hrc. pose proof (q_lk _ _ _ Hq) as Hlk. pose proof (q_content _ _ _ Hq) as Hco.
  unfold copy_out. wp_step. apply (wp_bread_quiet a s C P); auto. intros i s1 V1 H1 E1 D1.
  wp_step. apply wp_bread; try (view_rw; rewrite ?decide_False, ?Hrc, ?decide_True by done; done).
  { apply V1. } { left. view_rw. by rewrite decide_False, Hrc, decide_True by done. } { by rewrite D1. }
  intros j s2 V2 H2 E2 D2. revert V2 E2. view_rw. rewrite decide_False, Hco by done. intros V2 E2.
  wp_step. apply wp_bufp. rewrite E2.
  assert (held d s2 a i pid) as H1' by (by apply (vu_held _ _ _ _ _ _ _ V2)).
  wp_step. apply (wp_set_data d Hd pid a i); [apply V2|done|]. intros s3 V3 H3 D3.
  assert (held d s3 b j pid) as H3' by (by apply (vu_held _ _ _ _ _ _ _ V3)).
  wp_step. apply (wp_bwrite d Hd pid a i); [apply V3|done|by rewrite D3, D2, D1|]. intros s4 G4 V4 D4.
  revert D4. view_rw. rewrite decide_True, D3, D2, D1 by done. intros D4.
  wp_step. apply (wp_brelse d Hd pid b j); [done|by apply (ve_held _ _ _ V4)| |].
  { view_rw. rewrite decide_False, decide_True, decide_False, Hrc, decide_True by done. done. }
  intros s5 V5 D5.
  apply (wp_brelse d Hd pid a i); [apply V5| | |].
  { apply (vu_held _ _ _ _ _ _ _ V5); [done|]. by apply (ve_held _ _ _ V4). }
  { intros _. view_rw. rewrite decide_False, decide_True, D5, D4, dblock_write, decide_True by done. done. }
  intros s6 V6 D6. apply HQ; [|by rewrite D6, D5].
  split; [apply V6| | |].
  - intros n. view_rw. unfold fupdZ. rewrite Hco. repeat case_decide; subst; try done.
  - intros n. view_rw. rewrite !Hrc. repeat case_decide; subst; try done; lia.
  - intros n. view_rw. rewrite !Hlk. by repeat case_decide.
Qed.

(** [lbuf = bread(a); dbuf = bread(b); copy; bwrite(dbuf); brelse both]; [b] is
    unpinned unless recovering. *)
Definition copy_in (recovering : bool) (a b : Z) : M bio_st unit :=
  lbuf ← bread pid d a;
  dbuf ← bread pid d b;
  l ← bufp lbuf;
  upd dbuf (set_data (data l));;
  bwrite pid dbuf;;
  (if recovering then ret tt else bunpin dbuf);;
  brelse pid lbuf;;
  brelse pid dbuf.

(** The pins of [b] change from [k] to 0. *)
Lemma wp_copy_in (recovering : bool) a b s C P P' (Q : unit → bio_st → Prop) :
  quiet s C P → a ∉ P → a ≠ b → (S (length P) < NBUF)%nat ∨ recovering = false ∧ (length P < NBUF)%nat →
  0 ≤ a < d_size (dsk s) → 0 ≤ b < d_size (dsk s) →
  (if recovering then b ∉ P else b ∈ P) → (∀ n, n ∈ P' ↔ n ∈ P ∧ n ≠ b) →
  (∀ s', quiet s' (fupdZ C b (C a)) P' → dsk s' = disk_write b (C a) (dsk s) → Q tt s') →
  wp (copy_in recovering a b) Q s.
Proof.
  intros Hq Ha Hab Hl Ra Rb Hb HP' HQ.
  pose proof (q_rc _ _ _ Hq) as Hrc. pose proof (q_lk _ _ _ Hq) as Hlk. pose proof (q_content _ _ _ Hq) as Hco.
  assert (rcof d s a = 0) as Ra0 by (by rewrite Hrc, decide_False).
  assert (rcof d s b = if recovering then 0 else 1) as Rb0
    by (rewrite Hrc; destruct recovering; by rewrite ?decide_True, ?decide_False by done).
  unfold copy_in. wp_step. apply (wp_bread_quiet a s C P); auto.
  { right. destruct Hl as [?|[_ ?]]; lia. }
  intros i s1 V1 H1 E1 D1. rewrite Ra0 in V1.
  assert (rcof d s1 b = if recovering then 0 else 1) as Rb1 by (view_rw; by rewrite decide_False).
  wp_step. apply wp_bread; try (rewrite ?Rb1; by destruct recovering); [apply V1| | | |].
  { destruct recovering; [right|left; by rewrite Rb1]. exists (a :: P). split; [|simpl; destruct Hl as [?|[? _]]; done].
    intros n. view_rw. case_decide; [set_solver|]. rewrite Hrc. case_decide; set_solver. }
  { view_rw. by rewrite decide_False. } { by rewrite D1. }
  intros j s2 V2 H2 E2 D2. rewrite Rb1 in V2.
  assert (held d s2 a i pid) as H1' by (by apply (vu_held _ _ _ _ _ _ _ V2)).
  wp_step. apply wp_bufp. pose proof (held_bounds _ _ _ _ _ (vu_good _ _ _ _ _ _ _ V2) H1') as (_ & _ & _ & Ec & _).
  rewrite <- Ec. view_rw. rewrite decide_False, decide_True by done.
  wp_step. apply (wp_set_data d Hd pid b j); [apply V2|done|]. intros s3 V3 H3 D3. revert V3. view_rw.
  rewrite decide_True by done. intros V3.
  assert (held d s3 a i pid) as H3' by (by apply (vu_held _ _ _ _ _ _ _ V3)).
  wp_step. apply (wp_bwrite d Hd pid b j); [apply V3|done|by rewrite D3, D2, D1|]. intros s4 G4 V4 D4.
  revert D4. view_rw. rewrite decide_True, D3, D2, D1 by done. intros D4.
  wp_step. apply (wp_mono _ (λ _ s5, view_upd d s4 s5 b (C a) 1 (Some pid) ∧ held d s5 b j pid ∧ dsk s5 = dsk s4)).
  { assert (content d s4 b = C a ∧ lkof d s4 b = Some pid) as [C4 L4]
      by (split; view_rw; by rewrite decide_True).
    destruct recovering.
    - wp_step. split_and!; [|by apply (ve_held _ _ _ V4)|done].
      rewrite <- C4, <- L4. replace 1 with (rcof d s4 b) by (view_rw; by rewrite decide_True). by apply view_refl.
    - assert (rcof d s4 b = 2) as R4 by (view_rw; by rewrite decide_True). unfold bunpin.
      change (wp (upd j (λ x, set_refcnt (u32 (refcnt x + -1)) x))
        (λ _ s5, view_upd d s4 s5 b (C a) 1 (Some pid) ∧ held d s5 b j pid ∧ dsk s5 = dsk s4) s4).
      apply (wp_pin d Hd (-1) b); [done|exact (proj1 (ve_held _ _ _ V4 _ _ _ H3))|by rewrite R4|].
      intros s5 V5 H5 F5 D5. rewrite R4, C4, L4 in V5. split_and!; [done|by apply H5, (ve_held _ _ _ V4)|done]. }
  intros _ s5 (V5 & H5 & D5).
  wp_step. apply (wp_brelse d Hd pid a i); [apply V5| | |].
  { apply (vu_held _ _ _ _ _ _ _ V5); [done|]. by apply (ve_held _ _ _ V4). }
  { intros _. view_rw. rewrite decide_False, decide_False, decide_False, decide_True by done.
    rewrite D5, D4, dblock_write, decide_False, <- Hco by done. apply clean_content; [apply Hq|done]. }
  intros s6 V6 D6.
  apply (wp_brelse d Hd pid b j); [apply V6|by apply (vu_held _ _ _ _ _ _ _ V6)| |].
  { intros _. view_rw. rewrite decide_False, decide_True, D6, D5, D4, dblock_write, decide_True by done. done. }
  intros s7 V7 D7. apply HQ; [|by rewrite D7, D6, D5].
  split; [apply V7| | |].
  - intros n. view_rw. unfold fupdZ. rewrite ?Hco. repeat case_decide; subst; try done.
  - intros n. view_rw. rewrite !Hrc. specialize (HP' n). repeat case_decide; subst; try done; try lia; tauto.
  - intros n. view_rw. rewrite !Hlk. by repeat case_decide.
Qed.

Lemma wp_map_data (g : list Z → list Z) n i s (Q : unit → bio_st → Prop) :
  good d s → held d s n i pid →
  (∀ s', view_upd d s s' n (g (content d s n)) (rcof d s n) (Some pid) → held d s' n i pid →
     dsk s' = dsk s → Q tt s') →
  wp (upd i (λ b, set_data (g (data b)) b)) Q s.
Proof.
  intros Hg Hh HQ. pose proof (held_bounds _ _ _ _ _ Hg Hh) as (_ & _ & _ & Ec & _). rewrite Ec in HQ.
  change (wp (upd i (set_data (g (data (bc s !!! i))))) Q s). by apply (wp_set_data d Hd pid n i).
Qed.
End quiet.

(** ** The header block *)

Section header.
Implicit Types (l : list Z) (bs : list Z).

Lemma length_put32 l off v : (off + 4 ≤ length l)%nat → length (put32 l off v) = length l.
Proof.
  intros H. unfold put32. rewrite !length_app, length_take, length_le_split, length_drop. lia.
Qed.

Lemma get32_put32_eq l off v : (off + 4 ≤ length l)%nat → get32 (put32 l off v) off = u32 v.
Proof.
  intros H. unfold get32, put32. rewrite drop_app_length' by (rewrite length_take; lia).
  rewrite take_app_length' by by rewrite length_le_split. apply le_combine_split.
Qed.

Lemma get32_put32_ne l off v off' :
  (off + 4 ≤ length l)%nat → (off' + 4 ≤ off ∨ off + 4 ≤ off')%nat →
  get32 (put32 l off v) off' = get32 l off'.
Proof.
  intros H Hd. unfold get32, put32. f_equal. apply list_eq. intros i.
  destruct (decide (i < 4)%nat) as [Hi|Hi]; [|by rewrite !lookup_take_ge by lia].
  rewrite !lookup_take_lt, !lookup_drop by done. destruct Hd as [Hd|Hd].
  - rewrite lookup_app_l by (rewrite length_take; lia). rewrite lookup_take_lt by lia. done.
  - rewrite lookup_app_r by (rewrite length_take; lia). rewrite length_take.
    rewrite lookup_app_r by (rewrite length_le_split; lia). rewrite length_le_split, lookup_drop.
    f_equal. lia.
Qed.

(** [l] encodes a header that lists [bs]. *)
Record is_header l bs : Prop := {
  ih_len : length l = Z.to_nat BSIZE;
  ih_n : get32 l 0 = Z.of_nat (length bs);
  ih_block i b : bs !! i = Some b → get32 l (4 + 4 * i) = u32 b;
}.

Lemma is_header_nil l : length l = Z.to_nat BSIZE → get32 l 0 = 0 → is_header l [].
Proof. intros. split; [done|done|]. intros i b. by rewrite lookup_nil. Qed.
End header.

(** ** The log's own routines *)

Section logops.
Context (d : Z) (Hd : d ≠ 0) (pid : Z) (start : Z).
Implicit Types (s : log_st) (C : Z → list Z) (P bs : list Z).

Lemma wp_bio {A} (m : M bio_st A) (Q : A → log_st → Prop) s :
  wp m (λ a b, Q a (set_bio b s)) (l_bio s) → wp (bio m) Q s.
Proof. apply wp_zoom. Qed.

(** The in-memory header lists [bs]. *)
Record lists s bs : Prop := {
  li_dev : l_dev s = d;
  li_start : l_start s = start;
  li_n : lh_n s = Z.of_nat (length bs);
  li_max : Z.of_nat (length bs) ≤ LOGSIZE;
  li_len : length (lh_block s) = Z.to_nat LOGSIZE;
  li_block : take (length bs) (lh_block s) = bs;
}.

Lemma lists_bio s bs b : lists s bs → lists (set_bio b s) bs.
Proof. intros []. by split. Qed.

Lemma lists_lookup s bs i : lists s bs → (i < length bs)%nat → lh_block s !!! i = bs !!! i.
Proof.
  intros [_ _ _ _ _ Hb] Hi. rewrite <- Hb. rewrite list_lookup_total_alt, (list_lookup_total_alt (take _ _)).
  by rewrite lookup_take_lt.
Qed.

Lemma wp_get_block i bs (Q : Z → log_st → Prop) s :
  lists s bs → 0 ≤ i < Z.of_nat (length bs) → Q (bs !!! Z.to_nat i) s → wp (get_block i) Q s.
Proof.
  intros Hl Hi HQ. unfold wp, get_block. pose proof (li_max _ _ Hl).
  rewrite (proj2 (Z.leb_le _ _)), (proj2 (Z.ltb_lt _ _)) by lia. cbn [andb].
  by rewrite (lists_lookup s bs) by (done || lia).
Qed.

Lemma wp_write_head s C P bs (Q : unit → log_st → Prop) :
  lists s bs → quiet d (l_bio s) C P → start ∉ P → (length P < NBUF)%nat →
  0 ≤ start < d_size (dsk (l_bio s)) → length (C start) = Z.to_nat BSIZE →
  (∀ b' H, is_header H bs → quiet d b' (fupdZ C start H) P →
     dsk b' = disk_write start H (dsk (l_bio s)) → Q tt (set_bio b' s)) →
  wp (write_head pid) Q s.
Proof.
  intros Hl Hq Hs HP Hr Hlen HQ. pose proof (li_max _ _ Hl) as Hmax. unfold LOGSIZE, MAXOPBLOCKS in Hmax.
  assert (rcof d (l_bio s) start = 0) as Hrc by (by rewrite (q_rc _ _ _ _ Hq), decide_False).
  unfold write_head. wp_step. wp_step. wp_step. wp_step. rewrite (li_dev _ _ Hl), (li_start _ _ Hl).
  wp_step. apply wp_bio. apply (wp_bread_quiet d Hd pid start _ C P); auto. intros buf b1 V1 H1 _ D1.
  rewrite Hrc in V1. wp_step. wp_step. cbn [lh_n set_bio]. rewrite (li_n _ _ Hl).
  wp_step. apply wp_bio. apply (wp_map_data d Hd pid (λ l, put32 l 0 _) start); [apply V1|done|].
  cbn [l_bio set_bio]. intros b2 V2 H2 D2. revert V2. view_rw. rewrite !decide_True by done. intros V2.
  wp_step. apply (wp_for_post (λ i s', ∃ b H, s' = set_bio b s
    ∧ view_upd d (l_bio s) b start H 1 (Some pid) ∧ held d b start buf pid ∧ dsk b = dsk (l_bio s)
    ∧ length H = Z.to_nat BSIZE ∧ get32 H 0 = Z.of_nat (length bs)
    ∧ ∀ j x, (Z.of_nat j < i) → bs !! j = Some x → get32 H (4 + 4 * j) = u32 x)); [lia| | |].
  - exists b2. eexists. split_and!; [done|eapply view_trans; [exact V1|exact V2]|done|by rewrite D2| | |lia].
    + rewrite length_put32; [done|]. rewrite Hlen. unfold BSIZE. lia.
    + rewrite get32_put32_eq by (rewrite Hlen; unfold BSIZE; lia). apply u32_small. lia.
  - intros i s' Hi (b & H & -> & V & Hh & D & HL & H0 & HB). wp_step.
    eapply (wp_get_block i bs); [by apply lists_bio|done|]. apply wp_bio.
    apply (wp_map_data d Hd pid (λ l, put32 l _ _) start); [apply V|done|]. cbn [l_bio set_bio].
    intros b3 V3 H3 D3. revert V3. view_rw. rewrite !decide_True by done. intros V3.
    exists b3. eexists. split_and!; [done|eapply view_trans; [exact V|exact V3]|done|by rewrite D3| | |].
    + rewrite length_put32; [done|]. rewrite HL. unfold BSIZE. lia.
    + rewrite get32_put32_ne; [done|rewrite HL; unfold BSIZE|]; lia.
    + intros j x Hj Hx. destruct (decide (Z.of_nat j = i)) as [<-|Hne].
      * replace (Z.to_nat (4 + 4 * Z.of_nat j)) with (4 + 4 * j)%nat by lia.
        rewrite get32_put32_eq by (rewrite HL; unfold BSIZE; lia). rewrite Nat2Z.id. f_equal.
        by apply list_lookup_total_correct.
      * rewrite get32_put32_ne by (rewrite ?HL; unfold BSIZE; lia). apply HB; [lia|done].
  - intros s' (b & H & -> & V & Hh & D & HL & H0 & HB).
    assert (is_header H bs) as HH.
    { split; [done|done|]. intros j x Hx. apply HB; [|done]. apply lookup_lt_Some in Hx. lia. }
    wp_step. apply wp_bio. apply (wp_bwrite d Hd pid start buf); [apply V|done|cbn; by rewrite D|].
    cbn [l_bio set_bio]. intros b4 G4 V4 D4. revert D4. view_rw. rewrite decide_True, D by done. intros D4.
    apply wp_bio. apply (wp_brelse d Hd pid start buf); [done|by apply (ve_held _ _ _ V4)| |].
    { intros _. cbn. view_rw. by rewrite decide_True, D4, dblock_write, decide_True by done. }
    cbn [l_bio set_bio]. intros b5 V5 D5. apply (HQ b5 H HH); [|by rewrite D5].
    split; [apply V5|..]; intros n; view_rw; unfold fupdZ;
      rewrite ?(q_content _ _ _ _ Hq), ?(q_rc _ _ _ _ Hq), ?(q_lk _ _ _ _ Hq);
      repeat case_decide; subst; done.
Qed.
End logops.
