(* ===== verification/LogCommit.v ===== *)
(** * The loops of kernel/log.c and a whole commit

    [run_writes W D] is the disk after the block writes [W].  A commit of the
    blocks [bs] writes the log area, the header, the home locations and the
    header again. *)

From S2P Require Import Prelude Machine Bio BioFacts BioClient Log LogFacts.

Definition run_writes (W : list (Z * list Z)) (x : bdisk) : bdisk :=
  foldl (λ x w, disk_write w.1 w.2 x) x W.

Lemma run_writes_app W1 W2 x : run_writes (W1 ++ W2) x = run_writes W2 (run_writes W1 x).
Proof. apply foldl_app. Qed.

Lemma run_writes_size W x : d_size (run_writes W x) = d_size x.
Proof. revert x. induction W as [|w W IH]; intros x; [done|]. simpl. by rewrite IH. Qed.

Lemma run_writes_trace W x : d_trace (run_writes W x) = rev W ++ d_trace x.
Proof.
  revert x. induction W as [|[n l] W IH]; intros x; [done|]. simpl. rewrite IH. simpl.
  by rewrite <- app_assoc.
Qed.

Lemma quiet_ext d s C C' P : quiet d s C P → (∀ n, C' n = C n) → quiet d s C' P.
Proof. intros [G Hc R L] HC. split; [done|by intros; rewrite HC|done|done]. Qed.

(** Follow one step of a routine of the cache under [bio]. *)
Ltac zstep H :=
  wp_step; apply wp_bio; eapply wp_mono; [exact (wp_bind_inv _ _ _ _ H)|]; cbv beta; clear H; intros ? ? H.

Section commit.
Context (d : Z) (Hd : d ≠ 0) (pid : Z) (start : Z).
Implicit Types (s : log_st) (C : Z → list Z) (P bs : list Z).

(** The log area: the header and [LOGSIZE] blocks. *)
Definition area (m : Z) : Prop := start ≤ m ≤ start + LOGSIZE.

Record placed (bs : list Z) (size : Z) : Prop := {
  pl_start : 0 ≤ start;
  pl_end : start + LOGSIZE < size;
  pl_size : size ≤ 2 ^ 31;
  pl_home b : b ∈ bs → 0 ≤ b < size ∧ ¬ area b;
  pl_len : Z.of_nat (length bs) ≤ LOGSIZE;
}.

Definition log_writes C bs (k : nat) : list (Z * list Z) :=
  (λ t, (start + Z.of_nat t + 1, C (bs !!! t))) <$> seq 0 k.

Definition logged C bs (k : nat) (m : Z) : list Z :=
  if decide (start < m ≤ start + Z.of_nat k) then C (bs !!! Z.to_nat (m - start - 1)) else C m.

Lemma fmap_seq_S {A} (f : nat → A) k : f <$> seq 0 (S k) = (f <$> seq 0 k) ++ [f k].
Proof. rewrite seq_S, fmap_app. done. Qed.

Lemma logged_step C bs k m :
  ¬ area (bs !!! k) → (Z.of_nat k < LOGSIZE) →
  logged C bs (S k) m = fupdZ (logged C bs k) (start + Z.of_nat k + 1) (logged C bs k (bs !!! k)) m.
Proof.
  intros Ha Hk. unfold logged, fupdZ, area in *.
  rewrite (decide_False (P := start < bs !!! k ≤ start + Z.of_nat k)) by lia.
  destruct (decide (m = start + Z.of_nat k + 1)) as [->|Hm].
  - rewrite decide_True by lia. do 2 f_equal. lia.
  - repeat case_decide; done || lia.
Qed.

(** The body of [write_log], and of [install_trans], from the copy of blocks. *)
Lemma wp_write_body tail bs s (Q : unit → log_st → Prop) :
  lists d start s bs → 0 ≤ tail < Z.of_nat (length bs) →
  wp (copy_out d pid (start + tail + 1) (bs !!! Z.to_nat tail)) (λ _ b, Q tt (set_bio b s)) (l_bio s) →
  wp (dev ← gets l_dev; start ← gets l_start;
      to ← bio (bread pid dev (start + tail + 1));
      b ← get_block tail;
      from ← bio (bread pid dev b);
      f ← bio (bufp from);
      bio (upd to (set_data (data f)));;
      bio (bwrite pid to);;
      bio (brelse pid from);;
      bio (brelse pid to)) Q s.
Proof.
  intros Hl Ht Hc. wp_step. wp_step. wp_step. wp_step. rewrite (li_dev _ _ _ _ Hl), (li_start _ _ _ _ Hl).
  unfold copy_out in Hc. zstep Hc. wp_step. eapply wp_get_block; [by apply lists_bio|done|].
  do 5 zstep Hc. apply wp_bio. eapply wp_mono; [exact Hc|]. by intros [] b.
Qed.

Lemma wp_install_body recovering tail bs s (Q : unit → log_st → Prop) :
  lists d start s bs → 0 ≤ tail < Z.of_nat (length bs) →
  wp (copy_in d pid recovering (start + tail + 1) (bs !!! Z.to_nat tail)) (λ _ b, Q tt (set_bio b s)) (l_bio s) →
  wp (dev ← gets l_dev; start ← gets l_start;
      lbuf ← bio (bread pid dev (start + tail + 1));
      b ← get_block tail;
      dbuf ← bio (bread pid dev b);
      l ← bio (bufp lbuf);
      bio (upd dbuf (set_data (data l)));;
      bio (bwrite pid dbuf);;
      (if recovering then ret tt else bio (bunpin dbuf));;
      bio (brelse pid lbuf);;
      bio (brelse pid dbuf)) Q s.
Proof.
  intros Hl Ht Hc. wp_step. wp_step. wp_step. wp_step. rewrite (li_dev _ _ _ _ Hl), (li_start _ _ _ _ Hl).
  unfold copy_in in Hc. zstep Hc. wp_step. eapply wp_get_block; [by apply lists_bio|done|].
  do 4 zstep Hc. destruct recovering.
  - wp_step. wp_step. apply wp_bind_inv in Hc. zstep Hc. apply wp_bio. eapply wp_mono; [exact Hc|]. by intros [] b.
  - do 2 zstep Hc. apply wp_bio. eapply wp_mono; [exact Hc|]. by intros [] b.
Qed.

Lemma placed_lookup bs size k :
  placed bs size → (k < length bs)%nat → 0 ≤ bs !!! k < size ∧ ¬ area (bs !!! k) ∧ bs !!! k ∈ bs.
Proof.
  intros Hp Hk. assert (bs !!! k ∈ bs) as Hin by by apply list_elem_of_lookup_total_2.
  destruct (pl_home _ _ Hp _ Hin). done.
Qed.

Lemma wp_write_log s C P bs (Q : unit → log_st → Prop) :
  lists d start s bs → quiet d (l_bio s) C P → placed bs (d_size (dsk (l_bio s))) →
  (∀ b, b ∈ bs → b ∈ P) → (∀ b, b ∈ P → ¬ area b) → (length P < NBUF)%nat →
  (∀ b', quiet d b' (logged C bs (length bs)) P →
     dsk b' = run_writes (log_writes C bs (length bs)) (dsk (l_bio s)) → Q tt (set_bio b' s)) →
  wp (write_log pid) Q s.
Proof.
  intros Hl Hq Hp Hin HP Hlen HQ. unfold write_log. wp_step. wp_step. rewrite (li_n _ _ _ _ Hl).
  apply (wp_for_post (λ i s', ∃ b, s' = set_bio b s ∧ quiet d b (logged C bs (Z.to_nat i)) P
    ∧ dsk b = run_writes (log_writes C bs (Z.to_nat i)) (dsk (l_bio s)))); [lia| | |].
  - exists (l_bio s). split_and!; [by destruct s| |done]. eapply quiet_ext; [done|]. intros n. unfold logged.
    by rewrite decide_False by lia.
  - intros i s' Hi (b & -> & Hqb & Hdb). pose proof (pl_len _ _ Hp). pose proof (pl_start _ _ Hp). pose proof (pl_end _ _ Hp).
    destruct (placed_lookup bs _ (Z.to_nat i) Hp) as (Hr & Ha & He); [lia|].
    apply (wp_write_body i bs); [by apply lists_bio|lia|].
    eapply (wp_copy_out d Hd pid); [exact Hqb| |by apply Hin|done|..]; cbn [l_bio set_bio].
    + intros Hc. apply (HP _ Hc). unfold area. lia.
    + rewrite Hdb, run_writes_size. lia.
    + by rewrite Hdb, run_writes_size.
    + intros b1 Hq1 Hd1. exists b1. replace (Z.to_nat (i + 1)) with (S (Z.to_nat i)) by lia. split_and!; [done| |].
      * eapply quiet_ext; [done|]. intros n. rewrite logged_step by (done || lia).
        by rewrite Z2Nat.id by lia.
      * unfold log_writes. rewrite fmap_seq_S, run_writes_app, Hd1, Hdb. cbn. rewrite Z2Nat.id by lia.
        f_equal. unfold logged, area in *. by rewrite decide_False by lia.
  - intros s' (b & -> & Hqb & Hdb). rewrite Nat2Z.id in *. by apply HQ.
Qed.

(** Installation after a commit: the cache already shows the new contents. *)
Definition home_writes C bs (k : nat) : list (Z * list Z) := (λ t, (bs !!! t, C (bs !!! t))) <$> seq 0 k.

Lemma drop_pins (bs : list Z) k n :
  NoDup bs → (k < length bs)%nat → n ∈ drop (S k) bs ↔ n ∈ drop k bs ∧ n ≠ bs !!! k.
Proof.
  intros Hnd Hk. assert (bs !! k = Some (bs !!! k)) as Hlk by by apply list_lookup_lookup_total_lt.
  rewrite (drop_S _ _ _ Hlk). assert (bs !!! k ∉ drop (S k) bs) as Hn.
  { rewrite <- (take_drop_middle _ _ _ Hlk) in Hnd. apply NoDup_app in Hnd as (_ & _ & Hnd).
    by apply NoDup_cons in Hnd as [Hnd _]. }
  rewrite elem_of_cons. split; [|tauto]. intros H. split; [by right|]. by intros ->.
Qed.

Lemma wp_install_commit s C bs (Q : unit → log_st → Prop) :
  lists d start s bs → quiet d (l_bio s) C bs → placed bs (d_size (dsk (l_bio s))) →
  NoDup bs → (length bs < NBUF)%nat →
  (∀ t, (t < length bs)%nat → C (start + Z.of_nat t + 1) = C (bs !!! t)) →
  (∀ b', quiet d b' C [] → dsk b' = run_writes (home_writes C bs (length bs)) (dsk (l_bio s)) →
     Q tt (set_bio b' s)) →
  wp (install_trans pid false) Q s.
Proof.
  intros Hl Hq Hp Hnd Hlen HC HQ. unfold install_trans. wp_step. wp_step. rewrite (li_n _ _ _ _ Hl).
  apply (wp_for_post (λ i s', ∃ b, s' = set_bio b s ∧ quiet d b C (drop (Z.to_nat i) bs)
    ∧ dsk b = run_writes (home_writes C bs (Z.to_nat i)) (dsk (l_bio s)))); [lia| | |].
  - exists (l_bio s). split_and!; [by destruct s|done|done].
  - intros i s' Hi (b & -> & Hqb & Hdb). pose proof (pl_len _ _ Hp). pose proof (pl_start _ _ Hp). pose proof (pl_end _ _ Hp).
    destruct (placed_lookup bs _ (Z.to_nat i) Hp) as (Hr & Ha & He); [lia|].
    apply (wp_install_body false i bs); [by apply lists_bio|lia|].
    assert (bs !! Z.to_nat i = Some (bs !!! Z.to_nat i)) as Hlk by (apply list_lookup_lookup_total_lt; lia).
    eapply (wp_copy_in d Hd pid false _ _ _ _ _ (drop (Z.to_nat (i + 1)) bs)); [exact Hqb|..]; cbn [l_bio set_bio].
    + intros Hc. assert (start + i + 1 ∈ bs) as Hc' 
        by (rewrite <- (take_drop (Z.to_nat i) bs), elem_of_app; by right).
      destruct (pl_home _ _ Hp _ Hc') as [_ Hna]. apply Hna. unfold area. lia.
    + intros E. apply Ha. unfold area. lia.
    + right. split; [done|]. rewrite length_drop. lia.
    + rewrite Hdb, run_writes_size. lia.
    + by rewrite Hdb, run_writes_size.
    + rewrite (drop_S _ _ _ Hlk). set_solver.
    + intros n. replace (Z.to_nat (i + 1)) with (S (Z.to_nat i)) by lia. apply drop_pins; [done|lia].
    + intros b1 Hq1 Hd1. exists b1. specialize (HC (Z.to_nat i) ltac:(lia)). rewrite Z2Nat.id in HC by lia.
      split_and!; [done| |].
      * eapply quiet_ext; [done|]. intros n. unfold fupdZ. case_decide; [by subst|done].
      * replace (Z.to_nat (i + 1)) with (S (Z.to_nat i)) by lia. unfold home_writes.
        rewrite fmap_seq_S, run_writes_app, Hd1, Hdb. cbn. by rewrite HC.
  - intros s' (b & -> & Hqb & Hdb). rewrite Nat2Z.id, drop_all in *. by apply HQ.
Qed.
End commit.
