(* ===== verification/LogTxn.v ===== *)
(** * Updates inside a transaction

    The pattern of kernel/fs.c: read a block, change the buffer, [log_write],
    release.  It adds the block to the transaction once, keeps it pinned, and
    leaves the disk alone. *)

From S2P Require Import Prelude Machine Bio BioFacts BioClient Log LogFacts LogCommit LogCrash.

Section txn.
Context (d : Z) (Hd : d ≠ 0) (pid : Z) (start : Z).
Implicit Types (s : log_st) (C : Z → list Z) (bs : list Z).

Definition update_block (n : Z) (g : list Z → list Z) : M log_st unit :=
  b ← bio (bread pid d n);
  bio (upd b (λ x, set_data (g (data x)) x));;
  log_write b;;
  bio (brelse pid b).

Definition add_block (n : Z) bs : list Z := if decide (n ∈ bs) then bs else bs ++ [n].

(** A transaction in progress. *)
Record open_txn s C bs : Prop := {
  ot_lists : lists d start s bs;
  ot_quiet : quiet d (l_bio s) C bs;
  ot_nodup : NoDup bs;
  ot_small b : b ∈ bs → 0 ≤ b < 2 ^ 31;
  ot_out : 1 ≤ l_outstanding s;
}.

(** The search of [log_write] for an absorbed block. *)
Lemma wp_search n bs s (Q : option Z → log_st → Prop) :
  lists d start s bs → (∀ b, b ∈ bs → 0 ≤ b < 2 ^ 31) →
  (n ∉ bs → Q None s) →
  (∀ i, 0 ≤ i < Z.of_nat (length bs) → bs !! Z.to_nat i = Some n → Q (Some i) s) →
  wp (for_exit 0 (Z.of_nat (length bs)) (λ i,
        v ← get_block i;
        ret (if u32 v =? n then Some i else None))) Q s.
Proof.
  intros Hl Hsm HN HS.
  apply (wp_for_exit (λ i s', s' = s ∧ ∀ j, (Z.of_nat j < i) → bs !! j ≠ Some n)); [lia|split; [done|lia]| |].
  - intros i s' Hi [-> Hj]. wp_step. eapply wp_get_block; [done|done|]. wp_step.
    assert (bs !! Z.to_nat i = Some (bs !!! Z.to_nat i)) as Hlk by (apply list_lookup_lookup_total_lt; lia).
    assert (0 ≤ bs !!! Z.to_nat i < 2 ^ 31) as Hr by (by eapply Hsm, list_elem_of_lookup_2).
    rewrite u32_small by lia. destruct (Z.eqb_spec (bs !!! Z.to_nat i) n) as [E|E].
    + apply HS; [done|]. by rewrite <- E.
    + split; [done|]. intros j Hlt. destruct (decide (Z.of_nat j = i)) as [<-|]; [|apply Hj; lia].
      rewrite Nat2Z.id in Hlk, E. rewrite Hlk. congruence.
  - intros s' [-> Hj]. apply HN. intros [j Hjn]%list_elem_of_lookup_1. apply (Hj j); [|done].
    apply lookup_lt_Some in Hjn. lia.
Qed.

Lemma lists_add s bs n :
  lists d start s bs → (Z.of_nat (length bs) < LOGSIZE) → n ∉ bs →
  lists d start (set_n (lh_n s + 1) (set_blocks (<[length bs := n]> (lh_block s)) s)) (bs ++ [n]).
Proof.
  intros [Ed Es En Em El Eb] Hlt Hn. split; cbn; rewrite ?length_app; simpl; try done; try lia.
  - by rewrite length_insert.
  - replace (length bs + 1)%nat with (S (length bs)) by lia.
    rewrite (take_S_r _ _ n) by (apply list_lookup_insert_eq; lia). by rewrite take_insert_ge, Eb.
Qed.

Lemma lists_same s bs n i :
  lists d start s bs → bs !! i = Some n → lists d start (set_blocks (<[i := n]> (lh_block s)) s) bs.
Proof.
  intros Hl Hi. pose proof (lookup_lt_Some _ _ _ Hi) as Hlt.
  assert (lh_block s !! i = Some n) as E.
  { rewrite <- (li_block _ _ _ _ Hl) in Hi. by rewrite lookup_take_lt in Hi. }
  rewrite list_insert_id by done. by destruct s, Hl.
Qed.

Lemma wp_log_write n i s bs (Q : unit → log_st → Prop) :
  lists d start s bs → (∀ b, b ∈ bs → 0 ≤ b < 2 ^ 31) → 1 ≤ l_outstanding s →
  Z.of_nat (length bs) < LOGSIZE → Z.of_nat (length bs) < l_size s - 1 →
  good d (l_bio s) → held d (l_bio s) n i pid → 1 ≤ rcof d (l_bio s) n < 2 ^ 31 →
  (n ∈ bs → ∀ s', lists d start s' bs → l_bio s' = l_bio s → l_outstanding s' = l_outstanding s →
     l_size s' = l_size s → l_committing s' = l_committing s → Q tt s') →
  (n ∉ bs → ∀ s', lists d start s' (bs ++ [n]) → l_outstanding s' = l_outstanding s → l_size s' = l_size s → l_committing s' = l_committing s →
     view_upd d (l_bio s) (l_bio s') n (content d (l_bio s) n) (rcof d (l_bio s) n + 1) (Some pid) →
     held d (l_bio s') n i pid → dsk (l_bio s') = dsk (l_bio s) → Q tt s') →
  wp (log_write i) Q s.
Proof.
  intros Hl Hsm Ho Hlt Hsz Hg Hh Hrc HIn HOut. unfold log_write. wp_step. wp_step.
  pose proof (li_n _ _ _ _ Hl) as En. rewrite En.
  rewrite (proj2 (Z.leb_gt LOGSIZE _) Hlt), (proj2 (Z.leb_gt (l_size s - 1) _) Hsz), (proj2 (Z.ltb_ge _ 1) Ho).
  cbn [orb].
  wp_step. apply wp_bio, wp_bufp.
  pose proof (held_bounds _ _ _ _ _ Hg Hh) as (_ & _ & _ & _ & _ & Eb). rewrite Eb.
  replace (set_bio (l_bio s) s) with s by by destruct s.
  wp_step. apply (wp_search n bs); [done|done| |]; cbv [from_option id].
  - intros Hn. wp_step. unfold set_block at 1, wp at 1.
    rewrite (proj2 (Z.leb_le _ _)), (proj2 (Z.ltb_lt _ _)) by lia. cbn [andb]. rewrite Z.eqb_refl, Nat2Z.id.
    wp_step. apply wp_bio. unfold bpin. apply (wp_pin d Hd 1 n); [done|apply Hh|cbn; lia|]. cbn [l_bio set_blocks].
    intros b1 V1 H1 F1 D1. wp_step. rewrite <- En.
    assert (lkof d (l_bio s) n = Some pid) as Lk.
    { unfold lkof. destruct Hh as (-> & _ & Hlk). done. }
    rewrite Lk in V1. apply HOut; try done; [|by apply H1].
    apply (lists_bio d start (set_n (lh_n s + 1) (set_blocks (<[length bs := n]> (lh_block s)) s))).
    by apply lists_add.
  - intros k Hk Hbk. wp_step. unfold set_block at 1, wp at 1.
    rewrite (proj2 (Z.leb_le _ _)), (proj2 (Z.ltb_lt _ _)) by lia. cbn [andb].
    rewrite (proj2 (Z.eqb_neq _ _)) by lia. wp_step.
    apply HIn; try done; [by eapply list_elem_of_lookup_2|by apply lists_same].
Qed.

Lemma wp_update_block n g s C bs (Q : unit → log_st → Prop) :
  open_txn s C bs → 0 ≤ n < d_size (dsk (l_bio s)) → d_size (dsk (l_bio s)) ≤ 2 ^ 31 →
  (length bs < NBUF)%nat → Z.of_nat (length bs) < LOGSIZE → Z.of_nat (length bs) < l_size s - 1 →
  (∀ s', open_txn s' (fupdZ C n (g (C n))) (add_block n bs) → dsk (l_bio s') = dsk (l_bio s) →
     l_outstanding s' = l_outstanding s → l_size s' = l_size s → l_committing s' = l_committing s → Q tt s') →
  wp (update_block n g) Q s.
Proof.
  intros [Hl Hq Hnd Hsm Ho] Hn Hsz HP Hlt Hsz' HQ.
  pose proof (q_rc _ _ _ _ Hq) as Hrc. pose proof (q_lk _ _ _ _ Hq) as Hlk. pose proof (q_content _ _ _ _ Hq) as Hco.
  assert (0 ≤ rcof d (l_bio s) n ≤ 1) as Hr1 by (rewrite Hrc; by case_decide).
  unfold update_block. wp_step. apply wp_bio. apply (wp_bread_quiet d Hd pid n _ C bs); auto.
  intros i b1 V1 H1 E1 D1.
  wp_step. apply wp_bio. apply (wp_map_data d Hd pid g n); [apply V1|done|]. cbn [l_bio set_bio].
  intros b2 V2 H2 D2. revert V2. view_rw. rewrite !decide_True by done. intros V2.
  pose proof (view_trans _ _ _ _ _ _ _ _ _ _ _ V1 V2) as V.
  assert (rcof d b2 n = rcof d (l_bio s) n + 1 ∧ content d b2 n = g (C n)) as [R2 C2]
    by (split; rewrite ?(vu_rc _ _ _ _ _ _ _ V), ?(vu_content _ _ _ _ _ _ _ V); by rewrite decide_True).
  wp_step. apply (wp_log_write n i _ bs); cbn [l_bio set_bio l_outstanding l_size];
    [by do 2 apply lists_bio|done|done|done|done|apply V|done|by rewrite R2; lia| |].
  - intros Hin s3 Hl3 Hb3 Ho3 Hs3 Hm3. apply wp_bio. rewrite Hb3. cbn [l_bio set_bio].
    apply (wp_brelse d Hd pid n i); [apply V|done| |].
    { rewrite R2, Hrc, decide_True by done. lia. }
    intros b4 V4 D4. rewrite R2, C2 in V4. pose proof (view_trans _ _ _ _ _ _ _ _ _ _ _ V V4) as V'.
    apply HQ; [|by cbn; rewrite D4, D2|done|done|done]. unfold add_block. rewrite decide_True by done.
    split; [by apply lists_bio| |done|done|by cbn; rewrite Ho3].
    split; [apply V'|..]; intros m; cbn [l_bio set_bio].
    + rewrite (vu_content _ _ _ _ _ _ _ V'). unfold fupdZ. by rewrite Hco.
    + rewrite (vu_rc _ _ _ _ _ _ _ V'), !Hrc. case_decide; subst; [|done]. by rewrite decide_True by done.
    + rewrite (vu_lk _ _ _ _ _ _ _ V'), Hlk. by case_decide.
  - intros Hin s3 Hl3 Ho3 Hs3 Hm3 V3 H3 D3. cbn [l_bio set_bio] in V3, D3. apply wp_bio.
    pose proof (vu_rc _ _ _ _ _ _ _ V3 n) as R3. pose proof (vu_content _ _ _ _ _ _ _ V3 n) as C3.
    rewrite decide_True in R3 by done. rewrite decide_True in C3 by done.
    apply (wp_brelse d Hd pid n i); [apply V3|done| |].
    { rewrite R3, R2, Hrc, decide_False by done. lia. }
    intros b4 V4 D4. rewrite R3, C3, R2, C2 in V4. rewrite R2, C2 in V3.
    pose proof (view_trans _ _ _ _ _ _ _ _ _ _ _ (view_trans _ _ _ _ _ _ _ _ _ _ _ V V3) V4) as V'.
    apply HQ; [|by cbn; rewrite D4, D3, D2|done|done|done]. unfold add_block. rewrite decide_False by done.
    split; [by apply lists_bio| | | |by cbn; rewrite Ho3].
    + split; [apply V'|..]; intros m; cbn [l_bio set_bio].
      * rewrite (vu_content _ _ _ _ _ _ _ V'). unfold fupdZ. by rewrite Hco.
      * rewrite (vu_rc _ _ _ _ _ _ _ V'), !Hrc. repeat case_decide; subst; set_solver by lia.
      * rewrite (vu_lk _ _ _ _ _ _ _ V'), Hlk. by case_decide.
    + apply NoDup_app. split_and!; [done| |apply NoDup_singleton]. intros m Hm Hm'%list_elem_of_singleton. by subst.
    + intros b [Hb|Hb%list_elem_of_singleton]%elem_of_app; [by apply Hsm|]. subst. lia.
Qed.
End txn.
