(* ===== verification/LogTheorems.v ===== *)
(** * The log's guarantees

    Crash atomicity of [commit], the space reservation of [begin_op], and what
    happens when a transaction fills the log. *)

From S2P Require Import Prelude Machine Bio BioFacts BioClient Log LogFacts LogCommit LogCrash LogTxn.

Section crash_atomic.
Context (d : Z) (Hd : d ≠ 0) (pid : Z) (start : Z).
Implicit Types (s : log_st) (C : Z → list Z) (bs : list Z) (x : bdisk).

(** No transaction is running and the log on disk is empty. *)
Record idle_log s C : Prop := {
  il_lists : lists d start s [];
  il_quiet : quiet d (l_bio s) C [];
  il_header : is_header (dblock (dsk (l_bio s)) start) [];
  il_placed : placed start [] (d_size (dsk (l_bio s)));
  il_size : MAXOPBLOCKS + 1 < l_size s;
  il_idle : l_outstanding s = 0 ∧ l_committing s = false;
}.

Lemma log_keys C bs k m : m ∈ (log_writes start C bs k).*1 → Z.of_nat k ≤ LOGSIZE → area start m ∧ m ≠ start.
Proof.
  unfold log_writes. rewrite <- list_fmap_compose. intros (t & -> & Ht)%list_elem_of_fmap Hk.
  apply elem_of_seq in Ht. unfold area. cbn. lia.
Qed.

Lemma home_keys C bs m : m ∈ (home_writes C bs (length bs)).*1 → m ∈ bs.
Proof.
  unfold home_writes. rewrite <- list_fmap_compose. intros (t & -> & Ht)%list_elem_of_fmap.
  apply elem_of_seq in Ht. cbn. apply list_elem_of_lookup_total_2. lia.
Qed.

Lemma fst_app_l (W1 W2 : list (Z * list Z)) m : m ∈ W1.*1 → m ∈ (W1 ++ W2).*1.
Proof. rewrite fmap_app, elem_of_app. by left. Qed.

(** Before the header is written the log is still empty. *)
Lemma crash_before s C bs W1 W2 x1 :
  ready d start s C bs → log_writes start C bs (length bs) = W1 ++ W2 →
  x1 = run_writes W1 (dsk (l_bio s)) →
  dblock x1 start = dblock (dsk (l_bio s)) start
  ∧ ∀ m, ¬ area start m → dblock x1 m = dblock (dsk (l_bio s)) m.
Proof.
  intros Hr HW ->. pose proof (pl_len _ _ _ (rd_placed _ _ _ _ _ Hr)) as Hl.
  split; [|intros m Ha]; apply run_writes_other; intros Hin.
  all: apply (fst_app_l W1 W2) in Hin; rewrite <- HW in Hin; by apply log_keys in Hin as [??].
Qed.

(** After it, the log lists the transaction and holds its contents. *)
Lemma crash_after s C bs H1 B1 B2 x1 :
  ready d start s C bs → home_writes C bs (length bs) = B1 ++ B2 →
  x1 = run_writes (log_writes start C bs (length bs) ++ [(start, H1)] ++ B1) (dsk (l_bio s)) →
  dblock x1 start = H1
  ∧ (∀ t, (t < length bs)%nat → dblock x1 (start + Z.of_nat t + 1) = C (bs !!! t))
  ∧ ∀ m, ¬ area start m → m ∉ bs → dblock x1 m = C m.
Proof.
  intros Hr HW ->. pose proof (rd_placed _ _ _ _ _ Hr) as Hp. pose proof (pl_len _ _ _ Hp) as Hl.
  assert (∀ m, m ∈ B1.*1 → m ∈ bs ∧ ¬ area start m) as HB.
  { intros m Hin. apply (fst_app_l B1 B2) in Hin. rewrite <- HW in Hin. apply home_keys in Hin.
    split; [done|]. by apply (pl_home _ _ _ Hp). }
  rewrite !run_writes_app. cbn. split_and!.
  - rewrite run_writes_other; [by rewrite dblock_write, decide_True|].
    intros [_ Ha]%HB. apply Ha. unfold area, LOGSIZE, MAXOPBLOCKS. lia.
  - intros t Ht. rewrite run_writes_other by (intros [_ Ha]%HB; apply Ha; unfold area; lia).
    rewrite dblock_write, decide_False by lia. apply run_writes_last.
    + unfold log_writes. rewrite <- list_fmap_compose. apply NoDup_fmap_2_strong; [|apply NoDup_seq].
      intros t1 t2 _ _ E. cbn in E. lia.
    + unfold log_writes. apply list_elem_of_fmap. exists t. split; [done|]. apply elem_of_seq. lia.
  - intros m Ha Hm. rewrite run_writes_other by (by intros [? _]%HB).
    rewrite dblock_write, decide_False by (intros ->; apply Ha; unfold area, LOGSIZE, MAXOPBLOCKS; lia).
    rewrite run_writes_other by (intros Hin; by apply log_keys in Hin as [??]).
    pose proof (rd_quiet _ _ _ _ _ Hr) as Hq. rewrite <- (q_content _ _ _ _ Hq). symmetry.
    apply clean_content; [apply Hq|]. by rewrite (q_rc _ _ _ _ Hq), decide_False.
Qed.

Lemma placed_run bs size W x : placed start bs size → d_size x = size → placed start bs (d_size (run_writes W x)).
Proof. intros Hp <-. by rewrite run_writes_size. Qed.

Lemma placed_nil bs size : placed start bs size → placed start [] size.
Proof. intros []. split; try done. set_solver. Qed.

Lemma booted_idle s'' C'' x1 bs H :
  placed start bs (d_size x1) → is_header H [] →
  dsk (l_bio s'') = run_writes (redo_writes start x1 bs (length bs) ++ [(start, H)]) x1 →
  lists d start s'' [] → quiet d (l_bio s'') C'' [] → MAXOPBLOCKS + 1 < l_size s'' →
  l_outstanding s'' = 0 ∧ l_committing s'' = false → ∃ C'', idle_log s'' C''.
Proof.
  intros Hp Hh D Hl Hq Hn Hi. exists C''. split; try done; rewrite D.
  - by rewrite (recovered_start _ _ _ (d_size x1)).
  - rewrite run_writes_size. by eapply placed_nil.
Qed.

(** Recovery after a crash on either side of the header write. *)
Lemma recover_old nlog s C bs W1 W2 :
  MAXOPBLOCKS + 1 < nlog → ready d start s C bs → is_header (dblock (dsk (l_bio s)) start) [] →
  log_writes start C bs (length bs) = W1 ++ W2 →
  wp (boot_log d pid start nlog)
    (λ _ s'', (∃ C'', idle_log s'' C'') ∧
       ∀ m, ¬ area start m → dblock (dsk (l_bio s'')) m = dblock (dsk (l_bio s)) m)
    (fresh (run_writes W1 (dsk (l_bio s)))).
Proof.
  intros Hnl Hr Hh HW. destruct (crash_before s C bs W1 W2 _ Hr HW eq_refl) as [E1 E2].
  pose proof (rd_placed _ _ _ _ _ Hr) as Hp. set (x1 := run_writes W1 _) in *.
  assert (placed start [] (d_size x1)) as Hp1 by (eapply placed_run; [eapply placed_nil; exact Hp|done]).
  apply (wp_boot_log d Hd pid start nlog x1 []); [by rewrite E1|done|].
  intros s'' H C'' Hh' D'' Hl'' Hq'' Hn'' Hi''. split; [|rewrite D''].
  { eapply booted_idle; [exact Hp1|exact Hh'|exact D''|exact Hl''|exact Hq''|by rewrite Hn''|done]. }
 
  intros m Ha. rewrite (recovered_home _ _ [] (d_size x1)); [simpl; by apply E2|done|done|constructor].
Qed.

Lemma recover_new nlog s C bs H1 B1 B2 :
  MAXOPBLOCKS + 1 < nlog → ready d start s C bs → is_header H1 bs → home_writes C bs (length bs) = B1 ++ B2 →
  wp (boot_log d pid start nlog)
    (λ _ s'', (∃ C'', idle_log s'' C'') ∧
       ∀ m, ¬ area start m → dblock (dsk (l_bio s'')) m = C m)
    (fresh (run_writes (log_writes start C bs (length bs) ++ [(start, H1)] ++ B1) (dsk (l_bio s)))).
Proof.
  intros Hnl Hr Hh HW. destruct (crash_after s C bs H1 B1 B2 _ Hr HW eq_refl) as (E1 & E2 & E3).
  pose proof (rd_placed _ _ _ _ _ Hr) as Hp. set (x1 := run_writes _ _) in *.
  assert (placed start bs (d_size x1)) as Hp1 by (by eapply placed_run).
  apply (wp_boot_log d Hd pid start nlog x1 bs); [by rewrite E1|done|].
  intros s'' H C'' Hh' D'' Hl'' Hq'' Hn'' Hi''. split; [|rewrite D''].
  { eapply booted_idle; [exact Hp1|exact Hh'|exact D''|exact Hl''|exact Hq''|by rewrite Hn''|done]. }
 
  intros m Ha. rewrite (recovered_home _ _ bs (d_size x1)); [|done|done|by eapply rd_nodup].
  destruct (list_find (m =.) bs) as [[t b]|] eqn:E.
  - apply list_find_Some in E as (Ht & <- & _). rewrite E2 by by eapply lookup_lt_Some.
    by rewrite (list_lookup_total_correct _ _ _ Ht).
  - apply E3; [done|]. intros Hin. apply list_find_None in E. rewrite Forall_forall in E. by apply (E m).
Qed.

(** A crash after the whole commit finds an empty log. *)
Lemma recover_done nlog s C bs H1 H2 :
  MAXOPBLOCKS + 1 < nlog → ready d start s C bs → is_header H2 [] →
  wp (boot_log d pid start nlog)
    (λ _ s'', (∃ C'', idle_log s'' C'') ∧
       ∀ m, ¬ area start m → dblock (dsk (l_bio s'')) m = C m)
    (fresh (run_writes (commit_writes start C bs H1 H2) (dsk (l_bio s)))).
Proof.
  intros Hnl Hr Hh. pose proof (rd_placed _ _ _ _ _ Hr) as Hp.
  destruct (crash_after s C bs H1 (home_writes C bs (length bs)) [] _ Hr
    ltac:(by rewrite app_nil_r) eq_refl) as (_ & _ & E3).
  unfold commit_writes. rewrite !app_assoc, run_writes_app. rewrite <- !app_assoc.
  set (x0 := run_writes _ _) in *. cbn. set (x1 := disk_write start H2 x0).
  assert (placed start [] (d_size x1)) as Hp1 by (eapply placed_nil; unfold x1, x0; cbn; rewrite run_writes_size; exact Hp).
  apply (wp_boot_log d Hd pid start nlog x1 []); [unfold x1; by rewrite dblock_write, decide_True|done|].
  intros s'' H C'' Hh' D'' Hl'' Hq'' Hn'' Hi''. split; [|rewrite D''].
  { eapply booted_idle; [exact Hp1|exact Hh'|exact D''|exact Hl''|exact Hq''|by rewrite Hn''|done]. }
 
  intros m Ha. rewrite (recovered_home _ _ [] (d_size x1)); [simpl|done|done|constructor].
  unfold x1. rewrite dblock_write, decide_False by (intros ->; apply Ha; unfold area, LOGSIZE, MAXOPBLOCKS; lia).
  destruct (decide (m ∈ bs)) as [Hm|Hm]; [|by apply E3].
  unfold x0. rewrite !run_writes_app. apply run_writes_last.
  - unfold home_writes. rewrite <- list_fmap_compose. apply NoDup_fmap_2_strong; [|apply NoDup_seq].
    intros t1 t2 [_ Ht1]%elem_of_seq [_ Ht2]%elem_of_seq E. cbn in E.
    apply (NoDup_lookup bs t1 t2 (bs !!! t1)); [by eapply rd_nodup|apply list_lookup_lookup_total_lt; lia|].
    rewrite E. apply list_lookup_lookup_total_lt. lia.
  - apply list_elem_of_lookup_1 in Hm as [t Ht]. unfold home_writes. apply list_elem_of_fmap. exists t.
    rewrite (list_lookup_total_correct _ _ _ Ht). split; [done|]. apply elem_of_seq.
    apply lookup_lt_Some in Ht. lia.
Qed.

(** The points of a commit at which the machine can stop. *)
Lemma commit_prefix C bs H1 H2 W1 W2 :
  commit_writes start C bs H1 H2 = W1 ++ W2 →
  (∃ k, log_writes start C bs (length bs) = W1 ++ k ∧ W2 ≠ [])
  ∨ (∃ B1 B2, home_writes C bs (length bs) = B1 ++ B2
       ∧ W1 = log_writes start C bs (length bs) ++ [(start, H1)] ++ B1)
  ∨ W1 = commit_writes start C bs H1 H2.
Proof.
  unfold commit_writes. intros [(k & E1 & E2)|(k & E1 & E2)]%app_eq_inv.
  { left. exists k. split; [done|]. rewrite E2. by destruct k. }
  destruct k as [|w k]; [left; exists []; rewrite app_nil_r in *; by rewrite <- E1; destruct W2|].
  simpl in E2. injection E2 as <- E2. right. apply app_eq_inv in E2 as [(k' & E3 & E4)|(k' & E3 & E4)].
  - left. exists k, k'. by split.
  - destruct k' as [|w k'].
    + left. exists k, []. rewrite app_nil_r in E3. subst. by rewrite app_nil_r.
    + right. simpl in E4. injection E4 as <- E4. symmetry in E4. apply app_nil in E4 as [-> ->].
      by rewrite E1, E3.
Qed.

(** Crashes during a commit. *)
Lemma commit_crash_atomic nlog s C bs :
  MAXOPBLOCKS + 1 < nlog → ready d start s C bs → is_header (dblock (dsk (l_bio s)) start) [] →
  ∃ s' W C', commit pid s = Done (tt, s')
    ∧ lists d start s' [] ∧ quiet d (l_bio s') C' [] ∧ is_header (dblock (dsk (l_bio s')) start) []
    ∧ same_ctl s s' ∧ dsk (l_bio s') = run_writes W (dsk (l_bio s))
    ∧ ∀ W1 W2, W = W1 ++ W2 →
      ∃ s'' C'', boot_log d pid start nlog (fresh (run_writes W1 (dsk (l_bio s)))) = Done (tt, s'')
        ∧ idle_log s'' C''
        ∧ ((W2 ≠ [] ∧ ∀ m, ¬ area start m → dblock (dsk (l_bio s'')) m = dblock (dsk (l_bio s)) m)
           ∨ ∀ m, ¬ area start m → dblock (dsk (l_bio s'')) m = C m).
Proof.
  intros Hnl Hr Hh. pose proof (rd_lists _ _ _ _ _ Hr) as Hl.
  destruct (wp_inv (commit pid) (λ _ s', ∃ H1 H2 C' b', is_header H1 bs ∧ is_header H2 [] ∧ quiet d b' C' []
    ∧ dsk b' = run_writes (commit_writes start C bs H1 H2) (dsk (l_bio s)) ∧ s' = set_bio b' (set_n 0 s)) s)
    as ([] & s' & E & H1 & H2 & C' & b' & Hh1 & Hh2 & Hq' & D & ->).
  { apply (wp_log_commit d Hd pid start s C bs); [done|]. intros b' C' H1 H2 ????. eauto 10. }
  exists (set_bio b' (set_n 0 s)), (commit_writes start C bs H1 H2), C'. split_and!; try done.
  { by apply lists_bio, (lists_set_n d start s bs). }
  { cbn. rewrite D. unfold commit_writes. rewrite !run_writes_app. cbn. by rewrite dblock_write, decide_True. }
  intros W1 W2 HW. destruct (commit_prefix _ _ _ _ _ _ HW) as [(k & Ek & HW2)|[(B1 & B2 & EB & ->)| ->]].
  - destruct (wp_inv _ _ _ (recover_old nlog s C bs W1 k Hnl Hr Hh Ek)) as ([] & s'' & E'' & [C'' HS] & HM). eauto 10.
  - destruct (wp_inv _ _ _ (recover_new nlog s C bs H1 B1 B2 Hnl Hr Hh1 EB)) as ([] & s'' & E'' & [C'' HS] & HM). eauto 10.
  - destruct (wp_inv _ _ _ (recover_done nlog s C bs H1 H2 Hnl Hr Hh2)) as ([] & s'' & E'' & [C'' HS] & HM). eauto 10.
Qed.

(** ** Whole transactions *)

Definition update : Type := Z * (list Z → list Z).

Definition apply_updates C (l : list update) : Z → list Z :=
  foldl (λ (C : Z → list Z) (u : update), fupdZ C u.1 (u.2 (C u.1))) C l.

Fixpoint run_updates (l : list update) : M log_st unit :=
  match l with
  | [] => ret tt
  | u :: l' => update_block d pid u.1 u.2;; run_updates l'
  end.

(** A file-system call: [begin_op], its block updates, [end_op]. *)
Definition transaction (l : list update) : M log_st bool :=
  ok ← begin_op;
  if (ok : bool) then run_updates l;; end_op pid;; ret true else ret false.

Lemma length_add_block n bs : (length (add_block n bs) ≤ S (length bs))%nat.
Proof. unfold add_block. case_decide; [lia|]. rewrite length_app. simpl. lia. Qed.

Lemma wp_run_updates l s C bs (Q : unit → log_st → Prop) :
  open_txn d start s C bs → placed start bs (d_size (dsk (l_bio s))) →
  (∀ u, u ∈ l → 0 ≤ u.1 < d_size (dsk (l_bio s)) ∧ ¬ area start u.1) →
  Z.of_nat (length bs + length l) ≤ MAXOPBLOCKS → MAXOPBLOCKS + 1 < l_size s →
  (∀ s' bs', open_txn d start s' (apply_updates C l) bs' → placed start bs' (d_size (dsk (l_bio s))) →
     (length bs' ≤ length bs + length l)%nat → (bs ≠ [] ∨ l ≠ [] → bs' ≠ []) →
     dsk (l_bio s') = dsk (l_bio s) → same_ctl s s' → Q tt s') →
  wp (run_updates l) Q s.
Proof.
  revert s C bs. induction l as [|[n g] l IH]; intros s C bs Ht Hp Hr Hlen Hsz HQ; simpl in *.
  { wp_step. eapply HQ; try done; [lia|tauto]. }
  pose proof (pl_size _ _ _ Hp). unfold LOGSIZE, MAXOPBLOCKS in *. destruct (Hr (n, g)) as [Hn Ha]; [set_solver|]. simpl in Hn, Ha.
  wp_step. apply (wp_update_block d Hd pid start n g s C bs); try done; unfold NBUF, LOGSIZE, MAXOPBLOCKS; try lia.
  intros s1 Ht1 D1 O1 S1 M1. pose proof (length_add_block n bs) as Hla.
  apply (IH s1 (fupdZ C n (g (C n))) (add_block n bs)); [done|rewrite D1|rewrite D1|unfold MAXOPBLOCKS; lia|unfold MAXOPBLOCKS; lia|].
  - destruct Hp as [P1 P2 P3 P4 P5]. split; try done; unfold LOGSIZE, MAXOPBLOCKS in *; [|lia].
    intros b. unfold add_block. case_decide; [apply P4|].
    intros [Hb|Hb%list_elem_of_singleton]%elem_of_app; [by apply P4|by subst].
  - intros u Hu. apply Hr. set_solver.
  - intros s' bs' Ht' Hp' Hl' Hne D' (X1 & X2 & X3). rewrite D1 in *. eapply HQ; try done; [lia| |split_and!; congruence].
    intros _. apply Hne. left. unfold add_block. case_decide as Hin; [intros ->; by apply elem_of_nil in Hin|]. by destruct bs.
Qed.

Lemma apply_updates_other C l m : m ∉ l.*1 → apply_updates C l m = C m.
Proof.
  unfold apply_updates. revert C. induction l as [|u l IH]; intros C Hm; [done|]. simpl in *.
  rewrite not_elem_of_cons in Hm. rewrite IH by tauto. unfold fupdZ. rewrite decide_False; tauto.
Qed.

(** The state in which [end_op] commits. *)
Lemma open_transaction s C l :
  idle_log s C → l ≠ [] → Z.of_nat (length l) ≤ MAXOPBLOCKS →
  (∀ u, u ∈ l → 0 ≤ u.1 < d_size (dsk (l_bio s)) ∧ ¬ area start u.1) →
  ∃ s2 bs, begin_op s = Done (true, set_outstanding 1 s) ∧ run_updates l (set_outstanding 1 s) = Done (tt, s2)
    ∧ ready d start (set_committing true (set_outstanding 0 s2)) (apply_updates C l) bs
    ∧ dsk (l_bio s2) = dsk (l_bio s) ∧ l_size s2 = l_size s ∧ l_outstanding s2 = 1 ∧ l_committing s2 = false.
Proof.
  intros [Hl Hq Hh Hp Hsz [Ho Hc]] Hne Hlen Hr. unfold LOGSIZE, MAXOPBLOCKS in *.
  destruct (wp_inv (run_updates l) (λ _ s2, ∃ bs, open_txn d start s2 (apply_updates C l) bs
    ∧ placed start bs (d_size (dsk (l_bio s))) ∧ (0 < length bs < NBUF)%nat
    ∧ dsk (l_bio s2) = dsk (l_bio s) ∧ same_ctl (set_outstanding 1 s) s2) (set_outstanding 1 s))
    as ([] & s2 & E2 & bs & Ht & Hp2 & Hbs & D2 & S2 & O2 & M2).
  { apply (wp_run_updates l (set_outstanding 1 s) C []); [|done|done|done|done|].
    - split; [by destruct Hl|done|constructor|set_solver|done].
    - intros s' bs' Ht' Hp' Hl' Hne' D' X'. exists bs'. split_and!; try done; [|simpl in Hl'; unfold NBUF; lia].
      destruct bs'; [|simpl; lia]. destruct Hne'; [by right|done]. }
  exists s2, bs. cbn in S2, O2, M2. split_and!; try done; [| |by rewrite M2].
  - unfold begin_op. rewrite (bind_done get _ _ _ _ eq_refl), Hc, Ho, (li_n _ _ _ _ Hl). done.
  - destruct Ht as [Tl Tq Tnd _ _]. split; cbn; try done; [by destruct Tl|by rewrite D2|].
    rewrite apply_updates_other, (quiet_nil_content d (l_bio s) C start Hq); [apply Hh|].
    intros (u & -> & Hu)%list_elem_of_fmap. destruct (Hr u Hu) as [_ Ha]. apply Ha. unfold area, LOGSIZE, MAXOPBLOCKS. lia.
Qed.

(** C4: A file-system transaction is atomic across crashes.  From an idle log,
    [begin_op], at most [MAXOPBLOCKS] updates of blocks outside the log and
    [end_op] succeed and leave an idle log; and if the machine stops after any
    number of the block writes, booting ([binit], [initlog]) succeeds, leaves
    the log idle, and either every block outside the log has its old contents
    or every one has the contents after all updates.  After the last write they
    are the new ones. *)
Theorem transaction_crash_atomic nlog s C l :
  idle_log s C → l ≠ [] → Z.of_nat (length l) ≤ MAXOPBLOCKS → MAXOPBLOCKS + 1 < nlog →
  (∀ u, u ∈ l → 0 ≤ u.1 < d_size (dsk (l_bio s)) ∧ ¬ area start u.1) →
  ∃ s' W C', transaction l s = Done (true, s') ∧ idle_log s' C'
    ∧ d_trace (dsk (l_bio s')) = rev W ++ d_trace (dsk (l_bio s))
    ∧ ∀ W1 W2, W = W1 ++ W2 →
      ∃ s'' C'', boot_log d pid start nlog (fresh (run_writes W1 (dsk (l_bio s)))) = Done (tt, s'')
        ∧ idle_log s'' C''
        ∧ ((W2 ≠ [] ∧ ∀ m, ¬ area start m → dblock (dsk (l_bio s'')) m = dblock (dsk (l_bio s)) m)
           ∨ ∀ m, ¬ area start m → dblock (dsk (l_bio s'')) m = apply_updates C l m).
Proof.
  intros [Hl Hq Hh Hp Hsz [Ho Hc]] Hne Hlen Hnl Hr.
  destruct (open_transaction s C l) as (s2 & bs & E1 & E2 & Hrd & D2 & S2 & O2 & M2); [done..|].
  destruct (commit_crash_atomic nlog _ _ _ Hnl Hrd) as (s3 & W & C3 & E3 & Hl3 & Hq3 & Hh3 & (X1 & X2 & X3) & D3 & HW).
  { cbn. by rewrite D2. }
  cbn in D3, HW, X1, X2, X3. rewrite D2 in D3, HW. exists (set_committing false s3), W, C3. split_and!.
  - assert (end_op pid s2 = Done (tt, set_committing false s3)) as E4.
    { unfold end_op. rewrite (bind_done (modify _) _ _ _ _ eq_refl), (bind_done get _ _ _ _ eq_refl).
      cbn [l_committing l_outstanding set_outstanding]. rewrite M2, O2. change (1 - 1 =? 0) with true. cbn match.
      rewrite (bind_done (modify _) _ _ _ _ eq_refl). by rewrite (bind_done _ _ _ _ _ E3). }
    unfold transaction. rewrite (bind_done _ _ _ _ _ E1), (bind_done _ _ _ _ _ E2), (bind_done _ _ _ _ _ E4). done.
  - split; cbn; try done; [by destruct Hl3| |by rewrite X1, S2].
    rewrite D3, run_writes_size. done.
  - cbn. by rewrite D3, run_writes_trace.
  - exact HW.
Qed.
End crash_atomic.

(** *** A concrete transaction *)

(** A disk of 100 zero blocks with the log at block 2. *)
Definition demo_disk : bdisk := BDisk 100 ∅ [].

Lemma demo_header : is_header (dblock demo_disk 2) [].
Proof. apply is_header_nil; [apply length_replicate|by vm_compute]. Qed.

Lemma demo_placed : placed 2 [] 100.
Proof. split; unfold LOGSIZE, MAXOPBLOCKS; simpl; try lia. set_solver. Qed.

Lemma demo_boot : ∃ s C, idle_log 1 2 s C ∧ dsk (l_bio s) = disk_write 2 (dblock (dsk (l_bio s)) 2) demo_disk.
Proof.
  destruct (wp_inv (boot_log 1 7 2 31) (λ _ s, (∃ C, idle_log 1 2 s C)
    ∧ dsk (l_bio s) = disk_write 2 (dblock (dsk (l_bio s)) 2) demo_disk) (fresh demo_disk)) as ([] & s & _ & [C Hi] & D).
  - apply (wp_boot_log 1 ltac:(done) 7 2 31 demo_disk []); [apply demo_header|apply demo_placed|].
    intros s' H C Hh D Hl Hq Hn Hi. split.
    + eapply (booted_idle 1 ltac:(done) 2 s' C demo_disk []); [apply demo_placed|done|exact D|done|exact Hq|by rewrite Hn|done].
    + rewrite D. cbn. by rewrite dblock_write, decide_True.
  - eauto.
Qed.

Lemma transaction_crash_atomic_witness :
  ∃ s s' W, transaction 1 7 [(50, λ _, [5]); (60, λ l, l)] s = Done (true, s')
    ∧ ∀ W1 W2, W = W1 ++ W2 →
      ∃ s'', boot_log 1 7 2 31 (fresh (run_writes W1 (dsk (l_bio s)))) = Done (tt, s'')
        ∧ (dblock (dsk (l_bio s'')) 50 = zeros ∨ dblock (dsk (l_bio s'')) 50 = [5]).
Proof.
  destruct demo_boot as (s & C & Hi & D).
  destruct (transaction_crash_atomic 1 ltac:(done) 7 2 31 s C [(50, λ _, [5]); (60, λ l, l)] Hi)
    as (s' & W & C' & E & _ & _ & HW).
  - done.
  - simpl. unfold MAXOPBLOCKS. lia.
  - unfold MAXOPBLOCKS. lia.
  - rewrite D. cbn. intros u Hu. rewrite !elem_of_cons, elem_of_nil in Hu.
    destruct Hu as [-> |[-> |[]]]; unfold area, LOGSIZE, MAXOPBLOCKS; cbn; lia.
  - exists s, s', W. split; [exact E|]. intros W1 W2 EW.
    destruct (HW W1 W2 EW) as (s'' & C'' & E'' & _ & [[_ Hold]|Hnew]); exists s''; (split; [exact E''|]).
    + left. rewrite Hold by (unfold area, LOGSIZE, MAXOPBLOCKS; lia). rewrite D, dblock_write, decide_False by done. done.
    + right. rewrite Hnew by (unfold area, LOGSIZE, MAXOPBLOCKS; lia). done.
Defined.
