(* ===== verification/LogSpace.v ===== *)
(** * Space in the log

    [begin_op] admits an operation when the log has room for the blocks it may
    write.  The operations of several processes are a step relation over the
    log and the remaining budget of each; the invariant bounds the logged
    blocks by the reservations. *)

From S2P Require Import Prelude Machine Bio Log.

(** ** Routines that leave a projection of the state alone *)

Definition keeps {S A B} (f : S → B) (m : M S A) : Prop := ∀ s a s', m s = Done (a, s') → f s' = f s.

Section keeps.
Context {S B : Type} (f : S → B).

Lemma keeps_bind {A C} (m : M S A) (k : A → M S C) :
  keeps f m → (∀ a, keeps f (k a)) → keeps f (m ≫= k).
Proof.
  intros Hm Hk s c s' E. unfold mbind, M_bind in E. destruct (m s) as [[a s1]| | |] eqn:E1; try done.
  etrans; [by eapply Hk|by eapply Hm].
Qed.

Lemma keeps_ret {A} (a : A) : keeps f (mret a : M S A).
Proof. by intros s b s' [= <- <-]. Qed.

Lemma keeps_gets {A} (g : S → A) : keeps f (gets g).
Proof. by intros s b s' [= <- <-]. Qed.

Lemma keeps_get : keeps f (get (S := S)).
Proof. by intros s b s' [= <- <-]. Qed.

Lemma keeps_for lo hi (body : Z → M S unit) : (∀ i, keeps f (body i)) → keeps f (for_ lo hi body).
Proof.
  intros Hb. unfold for_. generalize (Z.to_nat (hi - lo)) as n. intros n. revert lo.
  induction n as [|n IH]; intros lo; simpl; [apply keeps_ret|]. by apply keeps_bind.
Qed.

Lemma keeps_for_exit {R} lo hi (body : Z → M S (option R)) : (∀ i, keeps f (body i)) → keeps f (for_exit lo hi body).
Proof.
  intros Hb. unfold for_exit. generalize (Z.to_nat (hi - lo)) as n. intros n. revert lo.
  induction n as [|n IH]; intros lo; simpl; [apply keeps_ret|].
  apply keeps_bind; [done|]. intros [r|]; [apply keeps_ret|done].
Qed.
End keeps.

(** Routines that do not panic. *)
Definition calm {S A} (m : M S A) : Prop := ∀ s msg, m s ≠ Panic msg.

Lemma calm_bind {S A B} (m : M S A) (k : A → M S B) : calm m → (∀ a, calm (k a)) → calm (m ≫= k).
Proof.
  intros Hm Hk s msg E. unfold mbind, M_bind in E. destruct (m s) as [[a s1]|msg'| |] eqn:E1; try done.
  - by apply (Hk a s1 msg).
  - by apply (Hm s msg').
Qed.

Lemma calm_for_exit {S R} lo hi (body : Z → M S (option R)) : (∀ i, calm (body i)) → calm (for_exit lo hi body).
Proof.
  intros Hb. unfold for_exit. generalize (Z.to_nat (hi - lo)) as n. intros n. revert lo.
  induction n as [|n IH]; intros lo; simpl; [done|]. apply calm_bind; [done|]. by intros [r|].
Qed.

Lemma calm_get_block i : calm (get_block i).
Proof. intros s msg. unfold get_block. by case_match. Qed.

Lemma calm_set_block i v : calm (set_block i v).
Proof. intros s msg. unfold set_block. by case_match. Qed.

Create HintDb keeps.
#[export] Hint Resolve keeps_bind keeps_ret keeps_gets keeps_get keeps_for keeps_for_exit : keeps.

(** The control fields. *)
Definition ctl (s : log_st) : Z * Z * Z * bool := (lh_n s, l_outstanding s, l_size s, l_committing s).

Lemma keeps_bio {A} (m : M bio_st A) : keeps ctl (bio m).
Proof.
  intros s a s' E. unfold bio, zoom in E. destruct (m (l_bio s)) as [[x t]| | |]; try done.
  by injection E as _ <-.
Qed.

Lemma keeps_get_block i : keeps ctl (get_block i).
Proof. intros s a s' E. unfold get_block in E. case_match; [|done]. by injection E as _ <-. Qed.

Lemma keeps_set_block i v : keeps ctl (set_block i v).
Proof. intros s a s' E. unfold set_block in E. case_match; [|done]. by injection E as _ <-. Qed.

#[export] Hint Resolve keeps_bio keeps_get_block keeps_set_block : keeps.

Section space.
Context (pid : Z).
Implicit Types (s : log_st).

Lemma keeps_write_head : keeps ctl (write_head pid).
Proof. unfold write_head. repeat (apply keeps_bind; [eauto with keeps|intros]); eauto 10 with keeps. Qed.

Lemma keeps_write_log : keeps ctl (write_log pid).
Proof.
  unfold write_log. apply keeps_bind; [eauto with keeps|]. intros n. apply keeps_for. intros i.
  repeat (apply keeps_bind; [eauto with keeps|intros]); eauto with keeps.
Qed.

Lemma keeps_install r : keeps ctl (install_trans pid r).
Proof.
  unfold install_trans. apply keeps_bind; [eauto with keeps|]. intros n. apply keeps_for. intros i.
  repeat (apply keeps_bind; [try destruct r; eauto with keeps|intros]); eauto with keeps.
Qed.

(** After a commit the log is empty. *)
Lemma commit_ctl s s' :
  commit pid s = Done (tt, s') → 0 ≤ lh_n s →
  lh_n s' = 0 ∧ l_outstanding s' = l_outstanding s ∧ l_size s' = l_size s ∧ l_committing s' = l_committing s.
Proof.
  intros E Hn. unfold commit in E. rewrite (bind_done (gets lh_n) _ _ _ _ eq_refl) in E.
  destruct (Z.ltb_spec 0 (lh_n s)); [|injection E as <-; split_and!; try done; lia].
  unfold mbind, M_bind in E.
  destruct (write_log pid s) as [[[] s1]| | |] eqn:E1; try done.
  destruct (write_head pid s1) as [[[] s2]| | |] eqn:E2; try done.
  destruct (install_trans pid false s2) as [[[] s3]| | |] eqn:E3; try done.
  unfold modify in E. apply keeps_write_head in E. apply keeps_write_log in E1.
  apply keeps_write_head in E2. apply keeps_install in E3. unfold ctl in *. cbn in E. simplify_eq. split_and!; congruence.
Qed.

Lemma log_write_ctl b s s' :
  log_write b s = Done (tt, s') → 0 ≤ lh_n s →
  0 ≤ lh_n s' ≤ lh_n s + 1 ∧ l_outstanding s' = l_outstanding s ∧ l_size s' = l_size s
  ∧ l_committing s' = l_committing s.
Proof.
  intros E Hn. unfold log_write in E. rewrite (bind_done get _ _ _ _ eq_refl) in E.
  destruct (_ || _); [done|]. destruct (_ <? 1); [done|].
  unfold mbind, M_bind in E. destruct (bio (bufp b) s) as [[x s1]| | |] eqn:E1; try done.
  destruct (for_exit _ _ _ s1) as [[r s2]| | |] eqn:E2; try done.
  destruct (set_block _ _ s2) as [[[] s3]| | |] eqn:E3; try done.
  assert (ctl s3 = ctl s) as Ec.
  { etrans; [by eapply keeps_set_block|]. etrans; [|by eapply keeps_bio]. revert E2. apply keeps_for_exit.
    intros i. apply keeps_bind; eauto with keeps. }
  unfold ctl in Ec. injection Ec as Ec1 Ec2 Ec3 Ec4. destruct (_ =? _).
  - destruct (bio (bpin b) s3) as [[[] s4]| | |] eqn:E4; try done. apply keeps_bio in E4. unfold ctl in E4. injection E4 as F1 F2 F3 F4.
    unfold modify in E. injection E as <-. cbn. split_and!; try lia; congruence.
  - injection E as <-. split_and!; try lia; congruence.
Qed.

(** ** Operations of several processes *)

(** The blocks the running operations may still log. *)
Definition total (B : gmap Z Z) : Z := map_fold (λ _ k acc, k + acc) 0 B.

Lemma total_insert B op k : B !! op = None → total (<[op := k]> B) = k + total B.
Proof.
  intros Hn. unfold total. rewrite map_fold_insert_L; [done| |done]. intros. lia.
Qed.

Lemma total_delete B op k : B !! op = Some k → total B = k + total (delete op B).
Proof.
  intros Hs. rewrite <- (total_insert (delete op B) op k) by apply lookup_delete_eq. by rewrite insert_delete_id.
Qed.

Lemma total_update B op k k' : B !! op = Some k → total (<[op := k']> B) = total B - k + k'.
Proof.
  intros Hs. rewrite (total_delete _ _ _ Hs), <- insert_delete_eq, total_insert by apply lookup_delete_eq. lia.
Qed.

(** One step: an operation starts, logs one block within its budget, or ends. *)
Inductive op_step : log_st * gmap Z Z → log_st * gmap Z Z → Prop :=
  | step_begin s s' B op :
      B !! op = None → begin_op s = Done (true, s') → op_step (s, B) (s', <[op := MAXOPBLOCKS]> B)
  | step_write s s' B op k b :
      B !! op = Some k → 0 < k → log_write b s = Done (tt, s') → op_step (s, B) (s', <[op := k - 1]> B)
  | step_end s s' B op k :
      B !! op = Some k → end_op pid s = Done (tt, s') → op_step (s, B) (s', delete op B).

Record reserved (x : log_st * gmap Z Z) : Prop := {
  rs_out : l_outstanding x.1 = Z.of_nat (size x.2);
  rs_n : 0 ≤ lh_n x.1;
  rs_budget op k : x.2 !! op = Some k → 0 ≤ k ≤ MAXOPBLOCKS;
  rs_sum : lh_n x.1 + total x.2 ≤ LOGSIZE;
  rs_commit : l_committing x.1 = false;
}.

Lemma total_nonneg B : (∀ op k, B !! op = Some k → 0 ≤ k) → 0 ≤ total B.
Proof.
  intros HB. unfold total. apply (map_fold_weak_ind (λ acc m, m ⊆ B → 0 ≤ acc)); [lia| |done].
  intros op k m acc Hn IH Hsub. assert (0 ≤ k) by (eapply (HB op), lookup_weaken; [apply lookup_insert_eq|done]).
  enough (0 ≤ acc) by lia. apply IH. etrans; [by apply insert_subseteq|done].
Qed.

Lemma total_bound B : (∀ op k, B !! op = Some k → 0 ≤ k ≤ MAXOPBLOCKS) → total B ≤ Z.of_nat (size B) * MAXOPBLOCKS.
Proof.
  induction B as [|op k B Hn IH] using map_ind; intros HB; [done|].
  rewrite total_insert, map_size_insert_None by done.
  assert (0 ≤ k ≤ MAXOPBLOCKS) by (eapply (HB op); apply lookup_insert_eq).
  assert (total B ≤ Z.of_nat (size B) * MAXOPBLOCKS); [|lia]. apply IH. intros op' k' Hl. apply (HB op').
  rewrite lookup_insert_ne; [done|]. intros ->. congruence.
Qed.

Lemma reserved_step x y : op_step x y → reserved x → reserved y.
Proof.
  destruct 1 as [s s' B op Hn E|s s' B op k b Hs Hk E|s s' B op k Hs E]; intros [Ro Rn Rb Rs Rc]; cbn in *.
  - unfold begin_op in E. rewrite (bind_done get _ _ _ _ eq_refl), Rc in E.
    destruct (Z.ltb_spec LOGSIZE (lh_n s + (l_outstanding s + 1) * MAXOPBLOCKS)) as [|Hle]; [done|].
    injection E as <-. pose proof (total_bound B Rb). unfold LOGSIZE, MAXOPBLOCKS in *. split; cbn.
    + rewrite map_size_insert_None by done. lia.
    + done.
    + intros op' k'. rewrite lookup_insert_Some. unfold MAXOPBLOCKS. intros [[<- <-]|[_ Hl]]; [lia|by eapply Rb].
    + rewrite total_insert by done. unfold LOGSIZE, MAXOPBLOCKS. lia.
    + done.
  - destruct (log_write_ctl _ _ _ E Rn) as (N1 & N2 & N3 & N4). pose proof (Rb op k Hs). split; cbn.
    + rewrite map_size_insert_Some by done. congruence.
    + lia.
    + intros op' k'. rewrite lookup_insert_Some. intros [[<- <-]|[_ Hl]]; [lia|by eapply Rb].
    + rewrite (total_update _ _ _ _ Hs). lia.
    + congruence.
  - unfold end_op in E. rewrite (bind_done (modify _) _ _ _ _ eq_refl), (bind_done get _ _ _ _ eq_refl) in E.
    cbn [l_committing l_outstanding set_outstanding] in E. rewrite Rc in E.
    pose proof (total_delete _ _ _ Hs) as Ht. pose proof (Rb op k Hs) as Hk.
    assert (size B = S (size (delete op B))) as Hz by (rewrite map_size_delete_Some by done;
      assert (size B ≠ 0%nat) by (intros ->%map_size_empty_iff; done); lia).
    assert (∀ op' k', delete op B !! op' = Some k' → 0 ≤ k' ≤ MAXOPBLOCKS) as Hb'.
    { intros op' k' [_ Hl]%lookup_delete_Some. by eapply Rb. }
    destruct (Z.eqb_spec (l_outstanding s - 1) 0) as [E0|E0].
    + rewrite (bind_done (modify _) _ _ _ _ eq_refl) in E. unfold mbind, M_bind in E.
      destruct (commit pid _) as [[[] s1]| | |] eqn:E1; try done. injection E as <-.
      apply commit_ctl in E1 as (N1 & N2 & N3 & N4); [|done]. cbn in *.
      assert (size (delete op B) = 0%nat) as Hz0 by lia. apply map_size_empty_iff in Hz0.
      rewrite Hz0. split; cbn; [by rewrite N2, E0|by rewrite N1|done|by rewrite N1|done].
    + injection E as <-. split; cbn; try done; lia.
Qed.

Lemma reserved_reachable x y : rtc op_step x y → reserved x → reserved y.
Proof. induction 1; eauto using reserved_step. Qed.

(** C14: Admission by [begin_op] is enough space.  Start with an idle log of
    more than [LOGSIZE] blocks and let any number of processes start
    operations, log at most [MAXOPBLOCKS] blocks in each, and end them, in any
    order; while an operation has budget left, its next [log_write] does not
    panic. *)
Theorem log_write_has_space s0 s B op k b :
  l_outstanding s0 = 0 → lh_n s0 = 0 → l_committing s0 = false →
  rtc op_step (s0, ∅) (s, B) → B !! op = Some k → 0 < k → LOGSIZE < l_size s →
  ∀ msg, log_write b s ≠ Panic msg.
Proof.
  intros O0 N0 C0 Hr Hk Hpos Hsz. destruct (reserved_reachable _ _ Hr) as [Ro Rn Rb Rs Rc].
  { split; cbn; [by rewrite O0|by rewrite N0|intros ??; by rewrite lookup_empty|by rewrite N0|done]. }
  cbn in *. pose proof (total_delete _ _ _ Hk) as Ht.
  assert (0 ≤ total (delete op B)).
  { apply total_nonneg. intros op' k' [_ Hl]%lookup_delete_Some. by apply (Rb op'). }
  assert (size B ≠ 0%nat) by (intros ->%map_size_empty_iff; done).
  unfold log_write. rewrite (bind_done get _ _ _ _ eq_refl).
  rewrite (proj2 (Z.leb_gt LOGSIZE _)), (proj2 (Z.leb_gt (l_size s - 1) _)), (proj2 (Z.ltb_ge _ 1)) by lia.
  cbn [orb]. apply calm_bind; [done|]. intros x. apply calm_bind.
  - apply calm_for_exit. intros i. apply calm_bind; [apply calm_get_block|done].
  - intros r. apply calm_bind; [apply calm_set_block|]. intros []. case_match; [|done].
    apply calm_bind; [done|]. intros []. done.
Qed.
End space.

(** *** Concrete runs *)

(** An idle log over a zeroed cache. *)
Definition idle_demo (nlog : Z) : outcome (unit * log_st) :=
  (bio binit;; modify (set_area 2 nlog 1)) (Log 0 0 0 false 0 0 (replicate 30 0)
    (Bio (replicate (S NBUF) (Buf false 0 0 None 0 0 0 [])) (BDisk 100 ∅ []))).

(** [bread], [log_write] and [brelse] of a block. *)
Definition log_one (n : Z) : M log_st unit :=
  b ← bio (bread 7 1 n);
  log_write b;;
  bio (brelse 7 b).

Fixpoint log_many (k : nat) (n : Z) : M log_st unit :=
  match k with O => ret tt | S k' => log_one n;; log_many k' (n + 1) end.

Lemma log_write_has_space_witness :
  ∃ s0 s1, idle_demo 31 = Done (tt, s0) ∧ begin_op s0 = Done (true, s1)
    ∧ ∀ msg, log_write 0 s1 ≠ Panic msg.
Proof.
  destruct (idle_demo 31) as [[[] s0]| | |] eqn:E; [|by vm_compute in E..].
  destruct (begin_op s0) as [[[] s1]| | |] eqn:E1; vm_compute in E; injection E as <-; try by vm_compute in E1.
  eexists _, s1. split; [reflexivity|]. split; [exact E1|].
  eapply (log_write_has_space 7 _ s1 _ 3 MAXOPBLOCKS 0).
  4: { eapply rtc_once, (step_begin 7 _ s1 ∅ 3); [done|exact E1]. }
  all: try done. vm_compute in E1. injection E1 as <-. done.
Defined.

(** Three operations are admitted together and log thirty blocks. *)
Definition three_ops (nlog : Z) : outcome (unit * log_st) :=
  match idle_demo nlog with
  | Done (_, s) => (begin_op;; begin_op;; begin_op;; log_many 30 40) s
  | Panic msg => Panic msg
  | Fault => Fault
  | OutOfFuel => OutOfFuel
  end.


(** The cache has [NBUF] = [LOGSIZE] buffers.  With a larger log area the
    same thirty blocks are accepted, but they pin every buffer and the commit
    finds none for the log blocks. *)
Theorem full_log_commit_panics :
  match three_ops (LOGSIZE + 1) with
  | Done (_, s) => (end_op 7;; end_op 7;; end_op 7) s = Panic "bget: no buffers"
  | _ => False
  end.
Proof. vm_compute. reflexivity. Qed.
