(* ===== verification/BioTheorems.v ===== *)
(** * The buffer cache's guarantees

    Every interleaving of the cache's routines keeps the ring intact and at
    most one buffer per disk block, and [bget] recycles in order of use. *)

From S2P Require Import Prelude Machine Bio BioFacts.

(** A call by some process that returns: [bget] in its two parts, the transfers
    and the reference counts.  A reference is dropped by [bunpin] only while
    another one is left or the buffer is unlocked. *)
Inductive bio_step : bio_st → bio_st → Prop :=
  | st_find d n b s s' : d ≠ 0 → (∀ i, refcnt (bc s !!! i) < 2 ^ 32 - 1) →
      bget_find d n s = Done (b, s') → bio_step s s'
  | st_acquire pid b s s' : (b < NBUF)%nat → refcnt (bc s !!! b) ≠ 0 →
      acquiresleep pid b s = Done (tt, s') → bio_step s s'
  | st_read b s s' : (b < NBUF)%nat → disk_rw b false s = Done (tt, s') → bio_step s s'
  | st_valid b s : (b < NBUF)%nat → bio_step s (bset b (set_valid true (bc s !!! b)) s)
  | st_data b l s : (b < NBUF)%nat → bio_step s (bset b (set_data l (bc s !!! b)) s)
  | st_write pid b s s' : bwrite pid b s = Done (tt, s') → bio_step s s'
  | st_release pid b s s' : (b < NBUF)%nat → 1 ≤ refcnt (bc s !!! b) →
      brelse pid b s = Done (tt, s') → bio_step s s'
  | st_pin b s s' : (b < NBUF)%nat → refcnt (bc s !!! b) < 2 ^ 32 - 1 →
      bpin b s = Done (tt, s') → bio_step s s'
  | st_unpin b s s' : (b < NBUF)%nat → 1 ≤ refcnt (bc s !!! b) →
      (refcnt (bc s !!! b) = 1 → lock (bc s !!! b) = None) →
      bunpin b s = Done (tt, s') → bio_step s s'.

(** A change of a buffer that keeps its identity, its links and the rules for
    counts and locks. *)
Lemma cache_ok_field s o b x :
  cache_ok s o → (b < NBUF)%nat → prev x = prev (bc s !!! b) → next x = next (bc s !!! b) →
  dev x = dev (bc s !!! b) → blockno x = blockno (bc s !!! b) →
  0 ≤ refcnt x < 2 ^ 32 → (refcnt x = 0 → lock x = None) → cache_ok (bset b x s) o.
Proof. intros. apply cache_ok_bset; auto. Qed.

Lemma cache_ok_disk l d1 d2 o : cache_ok (Bio l d1) o → cache_ok (Bio l d2) o.
Proof. intros []. by split. Qed.

Lemma wp_done_inv {S A} (m : M S A) (Q : A → S → Prop) s a s' : wp m Q s → m s = Done (a, s') → Q a s'.
Proof. unfold wp. intros H E. by rewrite E in H. Qed.

Lemma holding_eq pid b s : holdingsleep pid b s = Done (bool_decide (lock (bc s !!! b) = Some pid), s).
Proof. done. Qed.

Lemma release_step pid b s s' o :
  cache_ok s o → (b < NBUF)%nat → 1 ≤ refcnt (bc s !!! b) → brelse pid b s = Done (tt, s') →
  ∃ o', cache_ok s' o'.
Proof.
  intros Hc Hb Hr E. assert (b < length (bc s))%nat as Hbl by (rewrite (co_len _ _ Hc); lia).
  pose proof (co_ref _ _ Hc b Hb). unfold brelse in E. rewrite (bind_done _ _ _ _ _ (holding_eq pid b s)) in E.
  case_bool_decide; [|done]. cbn [negb] in E.
  rewrite (bind_done _ _ _ _ _ (upd_eq b _ s)), (bind_done _ _ _ _ _ (upd_eq b _ _)) in E.
  rewrite bset_lookup, decide_True, bset_bset in E by done. set (x := set_refcnt _ _) in E.
  assert (refcnt x = refcnt (bc s !!! b) - 1) as Ex by (cbn; rewrite u32_small; [done|cbn; lia]).
  assert (cache_ok (bset b x s) o) as Hc1 by (apply cache_ok_field; try done; lia).
  rewrite (bind_done (bufp b) _ _ _ _ eq_refl) in E.
  destruct (_ =? 0); [|injection E as <-; eauto].
  assert (b ∈ o) as Hin by (by apply (order_elem _ _ b Hc)). apply list_elem_of_split in Hin as (o1 & o2 & ->).
  eapply (wp_done_inv (to_front b) (λ _ s', ∃ o', cache_ok s' o')); [|done].
  apply (wp_to_front b o1 o2); [done|eauto].
Qed.

Lemma bio_step_ok s s' o : bio_step s s' → cache_ok s o → ∃ o', cache_ok s' o'.
Proof.
  destruct 1 as [d n b s s' Hd Hr E|pid b s s' Hb Hr E|b s s' Hb E|b s Hb|b l s Hb|pid b s s' E
    |pid b s s' Hb Hr E|b s s' Hb Hr E|b s s' Hb Hr Hl E]; intros Hc.
  - destruct (bget_find_cases s o d n Hc) as [(i & (Hi & E1 & E2) & E')|(Hno & [(i & Hlru & E')|[_ E']])];
      rewrite E' in E; simplify_eq; exists o.
    + pose proof (co_ref _ _ Hc b Hi). specialize (Hr b).
      apply cache_ok_field; cbn; try done; rewrite u32_small by lia; lia.
    + destruct (lru_unused _ _ _ Hc Hlru) as [Hi Hr0]. apply cache_ok_bset; cbn; try done.
      right. intros j Hj Hcon. by apply (Hno j).
  - exists o. unfold acquiresleep in E. rewrite (bind_done (bufp b) _ _ _ _ eq_refl) in E.
    case_match; [done|]. injection E as <-. pose proof (co_ref _ _ Hc b Hb). by apply cache_ok_field.
  - exists o. unfold disk_rw in E. rewrite (bind_done get _ _ _ _ eq_refl) in E. case_match; [done|].
    injection E as <-. apply cache_ok_field; try done; [by apply Hc|by apply (co_lock _ _ Hc)].
  - exists o. apply cache_ok_field; try done; [by apply Hc|by apply (co_lock _ _ Hc)].
  - exists o. apply cache_ok_field; try done; [by apply Hc|by apply (co_lock _ _ Hc)].
  - exists o. unfold bwrite, disk_rw in E. rewrite (bind_done _ _ _ _ _ (holding_eq pid b s)) in E. case_bool_decide; [|done]. cbn [negb] in E.
    rewrite (bind_done get _ _ _ _ eq_refl) in E. case_match; [done|]. injection E as <-.
    destruct s. by eapply cache_ok_disk.
  - by eapply release_step.
  - exists o. injection E as <-. pose proof (co_ref _ _ Hc b Hb).
    apply cache_ok_field; cbn; try done; rewrite u32_small by lia; lia.
  - exists o. injection E as <-. pose proof (co_ref _ _ Hc b Hb).
    apply cache_ok_field; cbn; try done; rewrite u32_small by lia; [lia|]. intros E. apply Hl. lia.
Qed.


Definition blank_state : bio_st := Bio (replicate (S NBUF) (Buf false 0 0 None 0 0 0 [])) (BDisk 100 ∅ []).

Lemma blank_state_ok : blank_bufs blank_state.
Proof.
  split; [apply length_replicate|]. intros i. cbn [bc blank_state].
  destruct (decide (i < S NBUF)%nat); [by rewrite lookup_total_replicate_2|].
  by rewrite list_lookup_total_alt, lookup_ge_None_2 by (rewrite length_replicate; lia).
Qed.


(** C15: [bget] without the sleep lock.  A cached block is found and gains one
    reference; otherwise the unused buffer that was released longest ago (every
    buffer behind it in the ring is in use) is given to the block with one
    reference and no valid contents; the panic happens only when every buffer
    is in use. *)
Theorem bget_finds_or_recycles s o d n :
  cache_ok s o →
  match bget_find d n s with
  | Done (i, s') =>
      (block_of s d n i ∧ s' = bset i (set_refcnt (u32 (refcnt (bc s !!! i) + 1)) (bc s !!! i)) s)
      ∨ ((∀ j, ¬ block_of s d n j) ∧ lru s o i ∧ s' = bset i (recycle d n (bc s !!! i)) s)
  | Panic msg => msg = "bget: no buffers" ∧ ∀ i, (i < NBUF)%nat → refcnt (bc s !!! i) ≠ 0
  | _ => False
  end.
Proof.
  intros Hc. destruct (bget_find_cases s o d n Hc) as [(i & Hb & ->)|(Hno & [(i & Hl & ->)|[Ha ->]])]; auto.
Qed.

Lemma bget_finds_or_recycles_witness :
  ∃ s1 s2, binit blank_state = Done (tt, s1) ∧ bget_find 1 9 s1 = Done (0%nat, s2) ∧ lru s1 (rev (seq 0 NBUF)) 0.
Proof.
  destruct (binit blank_state) as [[[] s1]| | |] eqn:E; [|by vm_compute in E..].
  pose proof (wp_done_inv _ _ _ _ _ (wp_binit blank_state blank_state_ok) E) as (Hc & _).
  pose proof (bget_finds_or_recycles s1 (rev (seq 0 NBUF)) 1 9 Hc) as H.
  vm_compute in E. injection E as <-. eexists _, _. split; [reflexivity|]. split; [reflexivity|].
  destruct H as [((_ & E & _) & _)|(_ & H & _)]; [by vm_compute in E|exact H].
Defined.
