(* ===== verification/Pipe.v ===== *)
(** * kernel/pipe.c: pipes

    A pipe is a ring of [PIPESIZE] bytes with two free-running 32-bit counters.
    An activation of [pipewrite] or [piperead] runs until it returns or sleeps;
    it takes the caller's user memory as a parameter ([copyin] of one byte may
    fail, [copyout] of one byte may fail) and whether the caller was killed.
    The abstract pipe is the list of bytes not yet read. *)

From S2P Require Import Prelude.

Definition PIPESIZE : Z := 512.

Record pipe := Pipe {
  p_data : list Z;
  nread : Z;
  nwrite : Z;
  readopen : bool;
  writeopen : bool;
}.

(** How an activation ends: the call returns the count [i], it returns -1
    because it cannot go on ([i] bytes were moved before), or it sleeps. *)
Inductive pres := PRet (i : Z) | PDead (i : Z) | PSleep (i : Z).

(** A pipe with the processes asleep on [&pi->nread] and on [&pi->nwrite]. *)
Record pipe_sys := PSys { pp : pipe; rwait : list Z; wwait : list Z }.

Definition put (c : Z) (p : pipe) : pipe :=
  Pipe (<[Z.to_nat (nwrite p mod PIPESIZE) := c]> (p_data p)) (nread p) (u32 (nwrite p + 1))
    (readopen p) (writeopen p).

Definition full (p : pipe) : bool := nwrite p =? u32 (nread p + PIPESIZE).
Definition empty (p : pipe) : bool := nread p =? nwrite p.

(** The loop of [pipewrite] with [k] bytes to go; [uin i] is the byte at
    [addr + i], [killed i] what [killed(pr)] says with [i] bytes moved. *)
Fixpoint pipewrite_loop (k : nat) (killed : Z → bool) (uin : Z → option Z) (i : Z) (p : pipe) : pres * pipe :=
  match k with
  | O => (PRet i, p)
  | S k' =>
      if negb (readopen p) || killed i then (PDead i, p)
      else if full p then (PSleep i, p)
      else
        match uin i with
        | None => (PRet i, p)
        | Some c => pipewrite_loop k' killed uin (i + 1) (put c p)
        end
  end.

(** One activation of [pipewrite] by [pid], from the beginning ([i = 0]) or
    after a sleep. *)
Definition pipewrite (pid : Z) (killed : Z → bool) (uin : Z → option Z) (n i : Z) (s : pipe_sys) : pres * pipe_sys :=
  let '(r, p) := pipewrite_loop (Z.to_nat (n - i)) killed uin i (pp s) in
  (r, match r with
      | PDead _ => PSys p (rwait s) (wwait s)
      | PSleep _ => PSys p [] (pid :: wwait s)
      | PRet _ => PSys p [] (wwait s)
      end).

Definition take1 (p : pipe) : Z * pipe :=
  (p_data p !!! Z.to_nat (nread p mod PIPESIZE),
   Pipe (p_data p) (u32 (nread p + 1)) (nwrite p) (readopen p) (writeopen p)).

(** The copy loop of [piperead]: the bytes stored by [copyout] and the return
    value; [uout i] says whether the byte at [addr + i] can be written. *)
Fixpoint piperead_loop (k : nat) (uout : Z → bool) (i : Z) (p : pipe) : list Z * Z * pipe :=
  match k with
  | O => ([], i, p)
  | S k' =>
      if empty p then ([], i, p)
      else
        let '(c, p) := take1 p in
        if uout i then
          let '(l, r, p) := piperead_loop k' uout (i + 1) p in (c :: l, r, p)
        else ([], i, p)
  end.

(** One activation of [piperead] by [pid]. *)
Definition piperead (pid : Z) (killed : bool) (uout : Z → bool) (n : Z) (s : pipe_sys) : list Z * pres * pipe_sys :=
  if empty (pp s) && writeopen (pp s) then
    if killed then ([], PDead 0, s)
    else ([], PSleep 0, PSys (pp s) (pid :: rwait s) (wwait s))
  else
    let '(l, r, p) := piperead_loop (Z.to_nat n) uout 0 (pp s) in
    (l, PRet r, PSys p (rwait s) []).

(** [pipeclose]; the flag says that the page is freed. *)
Definition pipeclose (writable : bool) (s : pipe_sys) : bool * pipe_sys :=
  let p := pp s in
  let s :=
    if writable then PSys (Pipe (p_data p) (nread p) (nwrite p) (readopen p) false) [] (wwait s)
    else PSys (Pipe (p_data p) (nread p) (nwrite p) false (writeopen p)) (rwait s) [] in
  (negb (readopen (pp s)) && negb (writeopen (pp s)), s).

(** The pipe [pipealloc] sets up in a page that holds the bytes [l]. *)
Definition new_pipe (l : list Z) : pipe_sys := PSys (Pipe l 0 0 true true) [] [].

(** ** The bytes in the pipe *)

Definition count (p : pipe) : Z := u32 (nwrite p - nread p).

Definition contents (p : pipe) : list Z :=
  (λ k, p_data p !!! Z.to_nat ((nread p + Z.of_nat k) mod PIPESIZE)) <$> seq 0 (Z.to_nat (count p)).

Record pipe_ok (p : pipe) : Prop := {
  po_len : length (p_data p) = Z.to_nat PIPESIZE;
  po_nread : 0 ≤ nread p < 2 ^ 32;
  po_nwrite : 0 ≤ nwrite p < 2 ^ 32;
  po_count : count p ≤ PIPESIZE;
}.

Lemma u32_mod_PIPESIZE z : u32 z mod PIPESIZE = z mod PIPESIZE.
Proof. unfold u32, PIPESIZE. dlia. Qed.

Lemma length_contents p : pipe_ok p → Z.of_nat (length (contents p)) = count p.
Proof.
  intros _. unfold contents. rewrite length_fmap, length_seq. pose proof (u32_range (nwrite p - nread p)).
  unfold count. lia.
Qed.

Lemma full_iff p : pipe_ok p → full p = true ↔ count p = PIPESIZE.
Proof.
  intros [_ H1 H2 H3]. unfold full, count, u32, PIPESIZE in *. rewrite Z.eqb_eq. dlia.
Qed.

Lemma empty_iff p : pipe_ok p → empty p = true ↔ contents p = [].
Proof.
  intros Hp. pose proof (length_contents p Hp) as Hl. destruct Hp as [_ H1 H2 H3].
  unfold empty. rewrite Z.eqb_eq. split.
  - intros E. apply length_zero_iff_nil. unfold count in Hl. rewrite E, Z.sub_diag in Hl.
    change (u32 0) with 0 in Hl. lia.
  - intros E. rewrite E in Hl. simpl in Hl. unfold count, u32 in Hl. dlia.
Qed.

Lemma put_ok p c : pipe_ok p → full p = false → pipe_ok (put c p) ∧ contents (put c p) = contents p ++ [c].
Proof.
  intros Hp Hf. assert (count p ≠ PIPESIZE) as Hc.
  { intros E. apply (full_iff p Hp) in E. congruence. }
  destruct Hp as [H0 H1 H2 H3].
  assert (count (put c p) = count p + 1) as Ec by (unfold count, put, u32, PIPESIZE in *; cbn; dlia).
  pose proof (u32_range (nwrite p - nread p)) as Hr. fold (count p) in Hr. split.
  - split; [cbn; by rewrite length_insert|done|apply u32_range|lia].
  - unfold contents. rewrite Ec. replace (Z.to_nat (count p + 1)) with (S (Z.to_nat (count p))) by lia.
    rewrite seq_S, fmap_app. f_equal.
    + apply list_fmap_ext. intros i k Hk. apply lookup_seq in Hk as [-> Hk]. cbn.
      rewrite list_insert_lookup by (rewrite H0; unfold PIPESIZE; dlia).
      rewrite decide_False; [done|]. unfold count, u32, PIPESIZE in *. dlia.
    + cbn. f_equal. rewrite list_insert_lookup by (rewrite H0; unfold PIPESIZE; dlia).
      rewrite decide_True; [done|]. unfold count, u32, PIPESIZE in *. dlia.
Qed.

Lemma take1_ok p : pipe_ok p → empty p = false →
  pipe_ok (take1 p).2 ∧ contents p = (take1 p).1 :: contents (take1 p).2.
Proof.
  intros Hp He. assert (nread p ≠ nwrite p) as Hne by (by apply Z.eqb_neq).
  destruct Hp as [H0 H1 H2 H3].
  assert (count (take1 p).2 = count p - 1 ∧ 1 ≤ count p) as [Ec Hc1]
    by (unfold count, take1, u32, PIPESIZE in *; cbn; dlia).
  split.
  - split; [done|apply u32_range|done|lia].
  - unfold contents. rewrite Ec. replace (Z.to_nat (count p)) with (S (Z.to_nat (count p - 1))) by lia.
    simpl. f_equal; [by rewrite Z.add_0_r|]. rewrite <- seq_shift, <- list_fmap_compose.
    apply list_fmap_ext. intros i k Hk. cbn. do 2 f_equal.
    rewrite <- (u32_mod_PIPESIZE (nread p + Z.of_nat (S k))), <- (u32_mod_PIPESIZE (u32 _ + _)).
    f_equal. unfold u32. rewrite Z.add_mod_idemp_l by done. f_equal. lia.
Qed.

(** ** What an activation does to the bytes *)

(** The user bytes [i .. j - 1]. *)
Definition ubytes (uin : Z → option Z) (i j : Z) : list Z :=
  (λ k, default 0 (uin (i + Z.of_nat k))) <$> seq 0 (Z.to_nat (j - i)).

Definition moved (r : pres) : Z := match r with PRet i | PDead i | PSleep i => i end.

Lemma ubytes_cons uin i j c : uin i = Some c → i < j → ubytes uin i j = c :: ubytes uin (i + 1) j.
Proof.
  intros H1 H2. unfold ubytes. replace (Z.to_nat (j - i)) with (S (Z.to_nat (j - (i + 1)))) by lia.
  simpl. rewrite Z.add_0_r, H1. f_equal. rewrite <- seq_shift, <- list_fmap_compose.
  apply list_fmap_ext. intros ? k _. cbn. do 2 f_equal. lia.
Qed.

Lemma ubytes_nil uin i : ubytes uin i i = [].
Proof. unfold ubytes. by rewrite Z.sub_diag. Qed.

Definition same_ends (p p' : pipe) : Prop := readopen p' = readopen p ∧ writeopen p' = writeopen p.

Lemma pipewrite_loop_spec k killed uin i p r p' :
  pipe_ok p → pipewrite_loop k killed uin i p = (r, p') →
  pipe_ok p' ∧ same_ends p p' ∧ i ≤ moved r ≤ i + Z.of_nat k ∧
  contents p' = contents p ++ ubytes uin i (moved r) ∧
  match r with
  | PRet j => j = i + Z.of_nat k ∨ uin j = None
  | PDead j => readopen p' = false ∧ j = i ∨ killed j = true
  | PSleep j => full p' = true ∧ readopen p' = true ∧ j < i + Z.of_nat k
  end.
Proof.
  revert i p. induction k as [|k IH]; intros i p Hp; cbn [pipewrite_loop].
  { intros [= <- <-]. cbn. rewrite ubytes_nil, app_nil_r. split_and!; try done; lia. }
  destruct (negb (readopen p) || killed i) eqn:E1.
  { intros [= <- <-]. cbn. rewrite ubytes_nil, app_nil_r. split_and!; try done; try lia.
    apply orb_true_iff in E1 as [E1%negb_true_iff|E1]; [left|right]; done. }
  apply orb_false_iff in E1 as [Hr%negb_false_iff Hk].
  destruct (full p) eqn:E2.
  { intros [= <- <-]. cbn. rewrite ubytes_nil, app_nil_r. split_and!; try done; lia. }
  destruct (uin i) as [c|] eqn:E3.
  2:{ intros [= <- <-]. cbn. rewrite ubytes_nil, app_nil_r. split_and!; try done; try lia. by right. }
  intros Hl. destruct (put_ok p c Hp E2) as [Hp1 Hc1].
  apply IH in Hl as (H1 & H2 & H3 & H4 & H5); [|done].
  split; [done|]. split; [done|]. split; [lia|]. split.
  - rewrite H4, Hc1, <- app_assoc. f_equal. symmetry. apply (ubytes_cons _ _ _ _ E3). lia.
  - destruct r as [j|j|j]; cbn in *.
    + destruct H5; [left; lia|by right].
    + destruct H5 as [[H5 _]|]; [|by right]. destruct H2 as [H2 _]. cbn in H2. congruence.
    + split; [apply H5|]. split; [apply H5|lia].
Qed.

Lemma piperead_loop_spec k uout i p l r p' :
  pipe_ok p → piperead_loop k uout i p = (l, r, p') →
  pipe_ok p' ∧ same_ends p p' ∧ r = i + Z.of_nat (length l) ∧ (length l ≤ k)%nat ∧
  ((contents p = l ++ contents p' ∧ (r = i + Z.of_nat k ∨ contents p' = [])) ∨
   uout r = false ∧ r < i + Z.of_nat k ∧ ∃ c, contents p = l ++ c :: contents p').
Proof.
  revert i p l r. induction k as [|k IH]; intros i p l r Hp; cbn [piperead_loop].
  { intros [= <- <- <-]. simpl. split_and!; try done; try lia. left. split; [done|]. left. lia. }
  destruct (empty p) eqn:E1.
  { intros [= <- <- <-]. simpl. split_and!; try done; try lia. left. split; [done|].
    right. by apply empty_iff. }
  destruct (take1_ok p Hp E1) as [Hp1 Hc1]. destruct (take1 p) as [c q] eqn:Eq. cbn in Hp1, Hc1.
  assert (same_ends p q) as Hs by (by injection Eq as <- <-).
  destruct (uout i) eqn:E2.
  - destruct (piperead_loop k uout (i + 1) q) as [[l1 r1] p1] eqn:El. intros [= <- <- <-].
    apply IH in El as (H1 & H2 & H3 & H3' & H4); [|done]. unfold same_ends in *.
    split; [done|]. split; [split; etrans; [apply H2|apply Hs|apply H2|apply Hs]|].
    cbn [length]. split; [lia|]. split; [lia|]. rewrite Hc1.
    destruct H4 as [[H4 H5]|(H4 & H4' & x & H5)]; [left|right].
    + split; [by rewrite H4|]. destruct H5; [left; lia|by right].
    + split; [done|]. split; [lia|]. exists x. by rewrite H5.
  - intros [= <- <- <-]. simpl. split; [done|]. split; [done|]. split; [lia|]. split; [lia|].
    right. split; [done|]. split; [lia|]. by exists c.
Qed.
