(* ===== verification/PipeTheorems.v ===== *)
(** * What a pipe guarantees its readers and writers

    Any interleaving of activations of [pipewrite], [piperead], [pipeclose] and
    of kills is a sequence of events.  The bytes come out in the order they went
    in, and nobody sleeps on a condition that has become true. *)

From S2P Require Import Prelude Pipe.

Inductive pevent :=
  | PWrite (pid : Z) (killed : Z → bool) (uin : Z → option Z) (n i : Z)
  | PRead (pid : Z) (killed : bool) (uout : Z → bool) (n : Z)
  | PClose (writable : bool)
  | PKill (pid : Z).      (* kill wakes a sleeping process *)

(** The pipe with the bytes accepted from writers and delivered to readers. *)
Record history := Hist { h_sys : pipe_sys; h_in : list Z; h_out : list Z }.

Definition pstep (h : history) (e : pevent) : history :=
  match e with
  | PWrite pid killed uin n i =>
      let '(r, s) := pipewrite pid killed uin n i (h_sys h) in
      Hist s (h_in h ++ ubytes uin i (moved r)) (h_out h)
  | PRead pid killed uout n =>
      let '(l, _, s) := piperead pid killed uout n (h_sys h) in
      Hist s (h_in h) (h_out h ++ l)
  | PClose w => Hist (pipeclose w (h_sys h)).2 (h_in h) (h_out h)
  | PKill pid =>
      let s := h_sys h in
      Hist (PSys (pp s) (filter (pid ≠.) (rwait s)) (filter (pid ≠.) (wwait s))) (h_in h) (h_out h)
  end.

Definition prun (es : list pevent) (h : history) : history := foldl pstep h es.

Definition start (page : list Z) : history := Hist (new_pipe page) [] [].

(** Every reader has a writable buffer. *)
Definition reads_land (e : pevent) : Prop :=
  match e with PRead _ _ uout n => ∀ i, 0 ≤ i < n → uout i = true | _ => True end.

(** No writer is killed between two bytes of an activation. *)
Definition kills_between (e : pevent) : Prop :=
  match e with PWrite _ killed _ _ i => ∀ j, killed j = killed i | _ => True end.

Lemma start_ok page : length page = Z.to_nat PIPESIZE → pipe_ok (pp (h_sys (start page))).
Proof. intros H. split; [done|cbn; lia|cbn; lia|done]. Qed.

Lemma pipeclose_pipe w s : pipe_ok (pp s) →
  pipe_ok (pp (pipeclose w s).2) ∧ contents (pp (pipeclose w s).2) = contents (pp s).
Proof. intros [H1 H2 H3 H4]. by destruct w. Qed.

Lemma fifo_step e h :
  reads_land e → pipe_ok (pp (h_sys h)) → h_in h = h_out h ++ contents (pp (h_sys h)) →
  let h' := pstep h e in
  pipe_ok (pp (h_sys h')) ∧ h_in h' = h_out h' ++ contents (pp (h_sys h')).
Proof.
  intros He Hp Hf. destruct e as [pid killed uin n i|pid killed uout n|w|pid]; cbn [pstep].
  - unfold pipewrite. destruct (pipewrite_loop _ _ _ _ _) as [r p] eqn:E.
    apply pipewrite_loop_spec in E as (H1 & _ & _ & H2 & _); [|done].
    assert (∀ rw ww, pipe_ok (pp (PSys p rw ww)) ∧
      h_in h ++ ubytes uin i (moved r) = h_out h ++ contents (pp (PSys p rw ww))) as Hall.
    { intros. split; [done|]. cbn. by rewrite Hf, H2, app_assoc. }
    destruct r; apply Hall.
  - unfold piperead. destruct (empty _ && _) eqn:E0.
    { destruct killed; cbn; by rewrite app_nil_r. }
    destruct (piperead_loop _ _ _ _) as [[l r] p] eqn:E. cbn.
    apply piperead_loop_spec in E as (H1 & _ & H2 & H3 & H4); [|done]. split; [done|].
    destruct H4 as [[H4 _]|(H4 & H5 & _)].
    { by rewrite Hf, H4, app_assoc. }
    rewrite (He r) in H4; [done|lia].
  - destruct (pipeclose_pipe w (h_sys h) Hp) as [H1 H2]. split; [done|]. cbn [h_sys h_in h_out]. by rewrite H2.
  - done.
Qed.

(** ** Sleepers *)

(** Whoever sleeps has a reason to. *)
Definition no_lost_wakeup (s : pipe_sys) : Prop :=
  (rwait s ≠ [] → empty (pp s) = true ∧ writeopen (pp s) = true) ∧
  (wwait s ≠ [] → full (pp s) = true ∧ readopen (pp s) = true).

Lemma pipewrite_loop_full k killed uin i p :
  full p = true → (pipewrite_loop k killed uin i p).2 = p.
Proof. intros H. destruct k; [done|]. cbn. rewrite H. by destruct (negb _ || _). Qed.

Lemma pipewrite_loop_dead k (killed : Z → bool) uin i p j p' :
  pipe_ok p → (∀ j, killed j = killed i) → pipewrite_loop k killed uin i p = (PDead j, p') → p' = p.
Proof.
  intros Hp Hk H. destruct k as [|k]; [done|]. pose proof H as Hs.
  apply pipewrite_loop_spec in Hs as (_ & [Hr _] & _ & _ & Hd); [|done].
  cbn in H. destruct (negb (readopen p) || killed i) eqn:E; [by injection H as _ <-|].
  apply orb_false_iff in E as [E1%negb_false_iff E2]. rewrite (Hk j), Hr, E1, E2 in Hd. naive_solver.
Qed.

Lemma wakeup_write pid killed uin n i s :
  pipe_ok (pp s) → (∀ j, killed j = killed i) → no_lost_wakeup s →
  no_lost_wakeup (pipewrite pid killed uin n i s).2.
Proof.
  intros Hp Hk [Hr Hw]. unfold pipewrite. destruct (pipewrite_loop _ _ _ _ _) as [r p] eqn:E.
  assert (full (pp s) = true → p = pp s) as Hsame.
  { intros Hf. by rewrite <- (pipewrite_loop_full (Z.to_nat (n - i)) killed uin i (pp s) Hf), E. }
  pose proof (pipewrite_loop_spec _ _ _ _ _ _ _ Hp E) as (_ & _ & _ & _ & Hc).
  destruct r as [j|j|j]; split; cbn; intros Hne; try done.
  - destruct (Hw Hne) as [H1 H2]. by rewrite (Hsame H1).
  - rewrite (pipewrite_loop_dead _ _ _ _ _ _ _ Hp Hk E). auto.
  - rewrite (pipewrite_loop_dead _ _ _ _ _ _ _ Hp Hk E). auto.
  - split; apply Hc.
Qed.

Lemma wakeup_read pid killed uout n s :
  no_lost_wakeup s → no_lost_wakeup (piperead pid killed uout n s).2.
Proof.
  intros [Hr Hw]. unfold piperead. destruct (empty _ && _) eqn:E.
  - apply andb_true_iff in E as [E1 E2]. destruct killed; [done|]. by split.
  - destruct (piperead_loop _ _ _ _) as [[l r] p]. split; cbn; [|done]. intros Hne.
    destruct (Hr Hne) as [H1 H2]. by rewrite H1, H2 in E.
Qed.

Lemma wakeup_step e h :
  kills_between e → pipe_ok (pp (h_sys h)) → no_lost_wakeup (h_sys h) → no_lost_wakeup (h_sys (pstep h e)).
Proof.
  intros He Hp Hn. destruct e as [pid killed uin n i|pid killed uout n|w|pid]; cbn [pstep].
  - pose proof (wakeup_write pid killed uin n i _ Hp He Hn). by destruct (pipewrite _ _ _ _ _ _).
  - pose proof (wakeup_read pid killed uout n _ Hn). by destruct (piperead _ _ _ _ _) as [[??]?].
  - destruct Hn as [Hr Hw]. by destruct w; split.
  - destruct Hn as [Hr Hw]. split; cbn; intros Hne; [apply Hr|apply Hw]; intros E; by rewrite E in Hne.
Qed.

Lemma pstep_ok e h : pipe_ok (pp (h_sys h)) → pipe_ok (pp (h_sys (pstep h e))).
Proof.
  intros Hp. destruct e as [pid killed uin n i|pid killed uout n|w|pid]; cbn [pstep].
  - unfold pipewrite. destruct (pipewrite_loop _ _ _ _ _) as [r p] eqn:E.
    apply pipewrite_loop_spec in E as (? & _); [|done]. by destruct r.
  - unfold piperead. destruct (empty _ && _); [by destruct killed|].
    destruct (piperead_loop _ _ _ _) as [[l r] p] eqn:E. by apply piperead_loop_spec in E as (? & _).
  - apply pipeclose_pipe, Hp.
  - done.
Qed.

(** An invariant of the steps is an invariant of the runs. *)
Lemma prun_inv (I : history → Prop) (P : pevent → Prop) es h :
  (∀ e h, P e → pipe_ok (pp (h_sys h)) → I h → I (pstep h e)) →
  Forall P es → pipe_ok (pp (h_sys h)) → I h → pipe_ok (pp (h_sys (prun es h))) ∧ I (prun es h).
Proof.
  intros Hs Hes. revert h. induction Hes as [|e es He _ IH]; intros h Hp Hi; [done|].
  apply (IH (pstep h e)); [by apply pstep_ok|by apply Hs].
Qed.

(** ** The theorems *)


(** C23: A reader asleep in [piperead] faces an empty pipe with a writer, a
    writer asleep in [pipewrite] faces a full pipe with a reader; in particular
    the two never wait for each other. *)
Theorem pipe_no_lost_wakeup page es :
  length page = Z.to_nat PIPESIZE → Forall kills_between es →
  let s := h_sys (prun es (start page)) in
  no_lost_wakeup s ∧ (rwait s = [] ∨ wwait s = []).
Proof.
  intros Hl Hes s.
  destruct (prun_inv (λ h, no_lost_wakeup (h_sys h)) kills_between es (start page)) as [H1 H2];
    [|done|by apply start_ok|done|].
  { intros e h0 He Hp Hf. by apply wakeup_step. }
  split; [done|]. fold s in H1, H2. destruct H2 as [Hr Hw].
  destruct (rwait s); [by left|]. destruct (wwait s); [by right|].
  destruct Hr as [Hr _], Hw as [Hw _]; [done..|].
  apply (full_iff _ H1) in Hw. apply (empty_iff _ H1) in Hr.
  pose proof (length_contents _ H1) as Hc. rewrite Hr, Hw in Hc. done.
Qed.

(** A writer of 600 bytes goes to sleep, a reader takes 100, the writer
    resumes. *)
Definition demo_events : list pevent :=
  [PRead 2 false (λ _, true) 100;
   PWrite 1 (λ _, false) (λ i, Some (i mod 256)) 600 0;
   PRead 2 false (λ _, true) 100;
   PWrite 1 (λ _, false) (λ i, Some (i mod 256)) 600 512].


Lemma pipe_no_lost_wakeup_witness :
  no_lost_wakeup (h_sys (prun (take 2 demo_events) (start (replicate 512 0)))) ∧
  wwait (h_sys (prun (take 2 demo_events) (start (replicate 512 0)))) = [1].
Proof.
  split; [|by vm_compute].
  apply (pipe_no_lost_wakeup (replicate 512 0) (take 2 demo_events)); [done|]. repeat constructor.
Defined.

(** A writer that is killed between two bytes returns without the wakeup:
    the reader stays asleep although the pipe holds a byte. *)
Theorem killed_writer_strands_reader :
  let s := h_sys (prun [PRead 2 false (λ _, true) 1; PWrite 1 (λ i, 1 <=? i) (λ i, Some 65) 2 0] (start (replicate 512 0))) in
  rwait s = [2] ∧ contents (pp s) = [65] ∧ writeopen (pp s) = true.
Proof. by vm_compute. Qed.
