(* ===== verification/Ulib.v ===== *)
(** * user/ulib.c: the C library of the user programs

    A C string is the list of its bytes before the terminator, a pointer into
    it the suffix it points to.  [char] is unsigned on RISC-V.  Arrays that a
    routine overwrites are lists indexed from the start of the array. *)

From S2P Require Import Prelude.
From Stdlib Require Export Ascii.

Definition chr (a : ascii) : Z := Z.of_N (N_of_ascii a).
Arguments chr a%_char.

Fixpoint bytes (s : string) : list Z :=
  match s with
  | EmptyString => []
  | String a s' => chr a :: bytes s'
  end.

(** [*s] *)
Definition deref (s : list Z) : Z := default 0 (head s).

Definition is_cstring (s : list Z) : Prop := Forall (λ c, 0 < c < 256) s.

Fixpoint strcmp (p q : list Z) : Z :=
  match p with
  | c :: p' => if c =? deref q then strcmp p' (tail q) else c - deref q
  | [] => 0 - deref q
  end.

Fixpoint strlen_loop (s : list Z) (n : Z) : Z :=
  match s with [] => n | _ :: s' => strlen_loop s' (n + 1) end.
Definition strlen (s : list Z) : Z := u32 (strlen_loop s 0).

(** The suffix from the first [c], as [strchr] returns it. *)
Fixpoint strchr (s : list Z) (c : Z) : option (list Z) :=
  match s with
  | [] => None
  | x :: s' => if x =? c then Some s else strchr s' c
  end.

Definition is_digit (c : Z) : bool := (48 <=? c) && (c <=? 57).

Fixpoint atoi_loop (s : list Z) (n : Z) : Z :=
  match s with
  | c :: s' => if is_digit c then atoi_loop s' (s32 (n * 10 + c - 48)) else n
  | [] => n
  end.
Definition atoi (s : list Z) : Z := atoi_loop s 0.

(** ** Facts *)

Lemma strlen_eq s : Z.of_nat (length s) < 2 ^ 32 → strlen s = Z.of_nat (length s).
Proof.
  assert (∀ n, strlen_loop s n = n + Z.of_nat (length s)) as H.
  { induction s as [|c s IH]; intros n; cbn [strlen_loop length]; [lia|]. rewrite IH. lia. }
  intros Hs. unfold strlen. rewrite H, u32_small; lia.
Qed.

Lemma strcmp_eq p q : is_cstring p → is_cstring q → strcmp p q = 0 ↔ p = q.
Proof.
  intros Hp. revert q. induction Hp as [|c p Hc _ IH]; intros q Hq.
  - destruct Hq as [|d q Hd]; cbn; [done|]. split; [lia|done].
  - destruct Hq as [|d q Hd Hq]; cbn.
    + destruct (Z.eqb_spec c 0); [lia|]. split; [lia|done].
    + destruct (Z.eqb_spec c d) as [->|Hn]; cbn.
      * rewrite (IH q Hq). split; [by intros ->|by intros [=]].
      * split; [lia|]. intros [=]. lia.
Qed.

Lemma strchr_some s c r : strchr s c = Some r →
  ∃ pre post, s = pre ++ r ∧ r = c :: post ∧ c ∉ pre.
Proof.
  induction s as [|x s IH]; cbn; [done|]. destruct (Z.eqb_spec x c) as [->|Hn].
  - intros [= <-]. exists [], s. split_and!; [done|done|apply not_elem_of_nil].
  - intros (pre & post & -> & -> & H)%IH. exists (x :: pre), post. split_and!; [done|done|].
    rewrite elem_of_cons. naive_solver.
Qed.

Lemma strchr_none s c : strchr s c = None ↔ c ∉ s.
Proof.
  induction s as [|x s IH]; cbn; [split; [intros _; apply not_elem_of_nil|done]|].
  destruct (Z.eqb_spec x c) as [->|Hn]; rewrite elem_of_cons; naive_solver.
Qed.

Lemma strchr_app pre c post : c ∉ pre → strchr (pre ++ c :: post) c = Some (c :: post).
Proof.
  induction pre as [|x pre IH]; cbn; [by rewrite Z.eqb_refl|].
  rewrite not_elem_of_cons. intros [H1 H2]. destruct (Z.eqb_spec x c); [congruence|by apply IH].
Qed.

(** ** Routines that share their name with a kernel routine *)

Module ulib.

(** [gets(buf, max)] on the bytes that [read(0, &c, 1)] will return: the string
    stored and the input left. *)
Fixpoint gets_loop (k : nat) (input : list Z) : list Z * list Z :=
  match k, input with
  | S k', c :: input' =>
      if (c =? chr "010") || (c =? chr "013") then ([c], input')
      else let '(l, rest) := gets_loop k' input' in (c :: l, rest)
  | _, _ => ([], input)
  end.
Definition gets (max : Z) (input : list Z) : list Z * list Z := gets_loop (Z.to_nat (max - 1)) input.

Fixpoint memset_loop (n : nat) (i : nat) (c : Z) (a : list Z) : list Z :=
  match n with
  | O => a
  | S n' => memset_loop n' (S i) c (<[i := c mod 256]> a)
  end.
Definition memset (dst : nat) (c : Z) (n : Z) (a : list Z) : list Z := memset_loop (Z.to_nat n) dst c a.

(** [while(n-- > 0) *dst++ = *src++;] *)
Fixpoint move_up (n : nat) (dst src : nat) (a : list Z) : list Z :=
  match n with
  | O => a
  | S n' => move_up n' (S dst) (S src) (<[dst := a !!! src]> a)
  end.

(** [while(n-- > 0) *--dst = *--src;] from [dst + n] and [src + n]. *)
Fixpoint move_down (n : nat) (dst src : nat) (a : list Z) : list Z :=
  match n with
  | O => a
  | S n' => move_down n' dst src (<[(dst + n')%nat := a !!! (src + n')%nat]> a)
  end.

Definition memmove (dst src : nat) (n : Z) (a : list Z) : list Z :=
  if (dst <? src)%nat then move_up (Z.to_nat n) dst src a else move_down (Z.to_nat n) dst src a.

Definition memcpy (dst src : nat) (n : Z) (a : list Z) : list Z := memmove dst src n a.

Fixpoint memcmp_from (n : nat) (p1 p2 : list Z) : Z :=
  match n with
  | O => 0
  | S n' => if deref p1 =? deref p2 then memcmp_from n' (tail p1) (tail p2) else deref p1 - deref p2
  end.
Definition memcmp (s1 s2 : list Z) (n : Z) : Z := memcmp_from (Z.to_nat n) s1 s2.

(** [strcpy(s, t)] into the array [a] at [i]. *)
Fixpoint strcpy (i : nat) (t : list Z) (a : list Z) : list Z :=
  match t with
  | [] => <[i := 0]> a
  | c :: t' => strcpy (S i) t' (<[i := c]> a)
  end.

Lemma move_up_eq n dst src a :
  (dst < src)%nat → (src + n ≤ length a)%nat →
  ∀ i, move_up n dst src a !!! i =
       if decide (dst ≤ i < dst + n)%nat then a !!! (src + (i - dst))%nat else a !!! i.
Proof.
  revert dst src a. induction n as [|n IH]; intros dst src a Hlt Hle i; cbn [move_up].
  { rewrite decide_False by lia. done. }
  rewrite IH by (rewrite ?length_insert; lia).
  destruct (decide (i = dst)) as [->|Hi].
  - rewrite decide_False, decide_True by lia. rewrite list_insert_lookup, decide_True by lia. f_equal. lia.
  - rewrite !list_insert_lookup by lia.
    destruct (decide (S dst ≤ i < S dst + n)%nat).
    + rewrite !(decide_True (P := (dst ≤ i < dst + S n)%nat)), decide_False by lia. f_equal. lia.
    + rewrite !(decide_False (P := (dst ≤ i < dst + S n)%nat)), decide_False by lia. done.
Qed.

Lemma move_down_eq n dst src a :
  (src ≤ dst)%nat → (dst + n ≤ length a)%nat →
  ∀ i, move_down n dst src a !!! i =
       if decide (dst ≤ i < dst + n)%nat then a !!! (src + (i - dst))%nat else a !!! i.
Proof.
  revert a. induction n as [|n IH]; intros a Hlt Hle i; cbn [move_down].
  { rewrite decide_False by lia. done. }
  rewrite IH by (rewrite ?length_insert; lia).
  destruct (decide (i = dst + n)%nat) as [->|Hi].
  - rewrite decide_False, decide_True by lia. rewrite list_insert_lookup, decide_True by lia. f_equal. lia.
  - rewrite !list_insert_lookup by lia.
    destruct (decide (dst ≤ i < dst + n)%nat).
    + rewrite !(decide_True (P := (dst ≤ i < dst + S n)%nat)), decide_False by lia. done.
    + rewrite !(decide_False (P := (dst ≤ i < dst + S n)%nat)), decide_False by lia. done.
Qed.
End ulib.
