(* ===== verification/Grep.v ===== *)
(** * user/grep.c: the pattern matcher and the line loop

    [match_] against the language of the pattern, and [grep] against filtering
    the lines of the input.  [read] is a parameter: the bound that the [k]-th
    call puts on the number of bytes it returns, or an error. *)

From S2P Require Import Prelude Ulib.

(** ** The matcher *)

(** [matchstar(c, re, text)], with [here] for [matchhere(re, .)]. *)
Fixpoint matchstar (c : Z) (here : list Z → bool) (text : list Z) : bool :=
  here text ||
  match text with
  | [] => false
  | t :: text' => ((t =? c) || (c =? chr ".")) && matchstar c here text'
  end.

Fixpoint matchhere (re text : list Z) : bool :=
  match re with
  | [] => true
  | c :: re1 =>
      match re1 with
      | s :: re2 =>
          if s =? chr "*" then matchstar c (matchhere re2) text
          else
            match text with
            | t :: text' => ((c =? chr ".") || (c =? t)) && matchhere re1 text'
            | [] => false
            end
      | [] =>
          if c =? chr "$" then match text with [] => true | _ => false end
          else
            match text with
            | t :: text' => ((c =? chr ".") || (c =? t)) && matchhere re1 text'
            | [] => false
            end
      end
  end.

(** The [do .. while] of [match]. *)
Fixpoint match_loop (re text : list Z) : bool :=
  matchhere re text || match text with [] => false | _ :: text' => match_loop re text' end.

Definition match_ (re text : list Z) : bool :=
  if deref re =? chr "^" then matchhere (tail re) text else match_loop re text.

(** ** The language of a pattern *)

Inductive item := One (c : Z) | Star (c : Z).

Definition accepts (c t : Z) : Prop := c = chr "." ∨ c = t.

Inductive lang : list item → list Z → Prop :=
  | lang_nil : lang [] []
  | lang_one c t r s : accepts c t → lang r s → lang (One c :: r) (t :: s)
  | lang_stop c r s : lang r s → lang (Star c :: r) s
  | lang_more c t r s : accepts c t → lang (Star c :: r) s → lang (Star c :: r) (t :: s).

(** A pattern is a sequence of items, possibly tied to the start and to the
    end of the text. *)
Record pattern := Pat { from_start : bool; items : list item; to_end : bool }.

Fixpoint parse_items (re : list Z) : list item * bool :=
  match re with
  | [] => ([], false)
  | c :: re1 =>
      match re1 with
      | s :: re2 =>
          if s =? chr "*" then let '(l, e) := parse_items re2 in (Star c :: l, e)
          else let '(l, e) := parse_items re1 in (One c :: l, e)
      | [] => if c =? chr "$" then ([], true) else ([One c], false)
      end
  end.

Definition parse (re : list Z) : pattern :=
  if deref re =? chr "^"
  then let '(l, e) := parse_items (tail re) in Pat true l e
  else let '(l, e) := parse_items re in Pat false l e.

Definition pattern_matches (p : pattern) (text : list Z) : Prop :=
  ∃ pre mid post, text = pre ++ mid ++ post ∧ lang (items p) mid ∧
    (from_start p = true → pre = []) ∧ (to_end p = true → post = []).

(** ** The line loop *)

Definition BUFSIZE : nat := 1024.

(** The C string at the start of a buffer. *)
Fixpoint cstr (l : list Z) : list Z :=
  match l with [] => [] | c :: l' => if c =? 0 then [] else c :: cstr l' end.

(** The inner loop on the bytes [p] up to the terminator: what is written and
    the bytes after the last newline. *)
Fixpoint grep_lines (fuel : nat) (pattern p : list Z) : list Z * list Z :=
  match fuel with
  | O => ([], p)
  | S fuel' =>
      match strchr (cstr p) (chr "010") with
      | None => ([], p)
      | Some q =>
          let line := take (length (cstr p) - length q) p in
          let '(out, rest) := grep_lines fuel' pattern (drop (S (length line)) p) in
          ((if match_ pattern line then line ++ [chr "010"] else []) ++ out, rest)
      end
  end.

(** [grep(pattern, fd)] on the bytes [input] still to be read, with [buf] the
    bytes left over; [k] counts the calls of [read]. *)
Fixpoint grep_loop (fuel : nat) (read : nat → option nat) (pattern input buf : list Z) (k : nat) : option (list Z) :=
  match fuel with
  | O => None
  | S fuel' =>
      match read k with
      | None => Some []
      | Some most =>
          let n := ((S most `min` (BUFSIZE - length buf - 1)) `min` length input)%nat in
          if (n =? 0)%nat then Some []
          else
            let buf := buf ++ take n input in
            let '(out, rest) := grep_lines (length buf) pattern buf in
            out' ← grep_loop fuel' read pattern (drop n input) rest (S k);
            Some (out ++ out')
      end
  end.

Definition grep (read : nat → option nat) (pattern input : list Z) : option (list Z) :=
  grep_loop (S (length input)) read pattern input [] 0.

(** [main]: the exit status and the bytes written to standard output; [open]
    gives the contents of a file and how its reads behave. *)
Fixpoint grep_files (open : list Z → option ((nat → option nat) * list Z)) (pattern : list Z) (files : list (list Z)) : option (Z * list Z) :=
  match files with
  | [] => Some (0, [])
  | name :: files' =>
      match open name with
      | None => Some (1, bytes "grep: cannot open " ++ name ++ [chr "010"])
      | Some (read, input) =>
          out ← grep read pattern input;
          '(status, out') ← grep_files open pattern files';
          Some (status, out ++ out')
      end
  end.

Definition grep_main (open : list Z → option ((nat → option nat) * list Z)) (stdin : (nat → option nat) * list Z)
    (argv : list (list Z)) : option (Z * list Z) :=
  match argv with
  | [] | [_] => Some (1, [])
  | [_; pattern] => out ← grep stdin.1 pattern stdin.2; Some (0, out)
  | _ :: pattern :: files => grep_files open pattern files
  end.
