(* ===== verification/GrepTheorems.v ===== *)
(** * grep prints the lines its pattern matches *)

From S2P Require Import Prelude Ulib Grep.

(** ** The matcher decides the language *)

Lemma accepts_iff c t : (c =? chr ".") || (c =? t) = true ↔ accepts c t.
Proof. rewrite orb_true_iff, !Z.eqb_eq. done. Qed.

(** What [matchhere] decides: a prefix of the text, or all of it for a pattern
    that ends in [$]. *)
Definition here (re text : list Z) : Prop :=
  ∃ mid post, text = mid ++ post ∧ lang (parse_items re).1 mid ∧ ((parse_items re).2 = true → post = []).

Lemma here_star c re text :
  here (c :: chr "*" :: re) text ↔
  here re text ∨ ∃ t text', text = t :: text' ∧ accepts c t ∧ here (c :: chr "*" :: re) text'.
Proof.
  unfold here. cbn [parse_items]. rewrite Z.eqb_refl. destruct (parse_items re) as [l e]. cbn [fst snd]. split.
  - intros (mid & post & -> & Hl & He). inversion Hl; subst.
    + left. by exists mid, post.
    + right. eexists _, _. split; [done|]. split; [done|]. by eexists _, _.
  - intros [(mid & post & -> & Hl & He)|(t & text' & -> & Ha & mid & post & -> & Hl & He)].
    + exists mid, post. split_and!; [done|by constructor|done].
    + exists (t :: mid), post. split_and!; [done|by constructor|done].
Qed.

Lemma here_one c re text :
  head re ≠ Some (chr "*") → ¬ (c = chr "$" ∧ re = []) →
  here (c :: re) text ↔ ∃ t text', text = t :: text' ∧ accepts c t ∧ here re text'.
Proof.
  intros Hs Hd. unfold here.
  assert (parse_items (c :: re) = (One c :: (parse_items re).1, (parse_items re).2)) as ->.
  { destruct re as [|s re]; cbn [parse_items].
    - destruct (Z.eqb_spec c (chr "$")); [naive_solver|done].
    - destruct (Z.eqb_spec s (chr "*")); [by subst|]. by destruct (match re with [] => _ | _ => _ end). }
  cbn [fst snd]. split.
  - intros (mid & post & -> & Hl & He). inversion Hl; subst. eexists _, _. split; [done|]. split; [done|]. by eexists _, _.
  - intros (t & text' & -> & Ha & mid & post & -> & Hl & He). exists (t :: mid), post. split_and!; [done|by constructor|done].
Qed.

Lemma matchstar_here c re h text :
  (∀ t, h t = true ↔ here re t) → matchstar c h text = true ↔ here (c :: chr "*" :: re) text.
Proof.
  intros Hh. induction text as [|t text IH]; rewrite here_star; cbn [matchstar]; rewrite orb_true_iff, Hh.
  - naive_solver.
  - rewrite andb_true_iff, IH, orb_true_iff, !Z.eqb_eq. unfold accepts. naive_solver.
Qed.

Lemma matchhere_one c re text :
  head re ≠ Some (chr "*") → ¬ (c = chr "$" ∧ re = []) →
  (∀ t, matchhere re t = true ↔ here re t) →
  matchhere (c :: re) text = true ↔ here (c :: re) text.
Proof.
  intros Hs Hd IH. rewrite here_one by done.
  assert (matchhere (c :: re) text =
    match text with t :: text' => ((c =? chr ".") || (c =? t)) && matchhere re text' | [] => false end) as ->.
  { destruct re as [|s re]; cbn [matchhere].
    - destruct (Z.eqb_spec c (chr "$")); [naive_solver|done].
    - destruct (Z.eqb_spec s (chr "*")); [by subst|done]. }
  destruct text as [|t text]; [naive_solver|]. rewrite andb_true_iff, accepts_iff, IH. naive_solver.
Qed.

Lemma matchhere_here re text : matchhere re text = true ↔ here re text.
Proof.
  remember (length re) as n eqn:Hn. revert re Hn text.
  induction n as [n IH] using lt_wf_ind. intros re -> text.
  destruct re as [|c re].
  { split; [|done]. intros _. exists [], text. split_and!; [done|constructor|done]. }
  destruct re as [|s re].
  - destruct (Z.eqb_spec c (chr "$")) as [->|Hc].
    + unfold here. cbn. split.
      * intros H. destruct text; [|done]. exists [], []. split_and!; [done|constructor|done].
      * intros (mid & post & -> & Hl & He). inversion Hl; subst. by rewrite He.
    + apply matchhere_one; [done|naive_solver|]. intros t. by apply (IH 0%nat); [cbn; lia|].
  - destruct (Z.eqb_spec s (chr "*")) as [->|Hs].
    + cbn [matchhere]. rewrite Z.eqb_refl. apply matchstar_here. intros t.
      by apply (IH (length re)); [cbn; lia|].
    + apply matchhere_one; [naive_solver|naive_solver|]. intros t. by apply (IH (length (s :: re))); [cbn; lia|].
Qed.

Lemma match_loop_here re text :
  match_loop re text = true ↔ ∃ pre text', text = pre ++ text' ∧ here re text'.
Proof.
  induction text as [|t text IH]; cbn [match_loop]; rewrite orb_true_iff, matchhere_here.
  - split; [intros [H|]; [|done]|].
    + by exists [], [].
    + intros (pre & text' & E & H). symmetry in E. apply app_nil in E as [-> ->]. by left.
  - rewrite IH. split.
    + intros [H|(pre & text' & -> & H)]; [by exists [], (t :: text)|by exists (t :: pre), text'].
    + intros (pre & text' & E & H). destruct pre as [|x pre]; simplify_eq/=; [by left|right; by eexists _, _].
Qed.

(** C29: The matcher of grep decides the language of the pattern: [match]
    returns 1 exactly when some part of the text (tied to the start by [^] and to
    the end by [$]) is a word of the pattern's items. *)
Theorem match_decides re text : match_ re text = true ↔ pattern_matches (parse re) text.
Proof.
  unfold match_, parse, pattern_matches. destruct (deref re =? chr "^").
  - rewrite matchhere_here. unfold here. destruct (parse_items (tail re)) as [l e]. cbn. split.
    + intros (mid & post & -> & ? & ?). by exists [], mid, post.
    + intros (pre & mid & post & -> & ? & Hp & ?). rewrite (Hp eq_refl). by exists mid, post.
  - rewrite match_loop_here. unfold here. destruct (parse_items re) as [l e]. cbn. split.
    + intros (pre & ? & -> & mid & post & -> & ? & ?). by exists pre, mid, post.
    + intros (pre & mid & post & -> & ? & _ & ?). exists pre, (mid ++ post). split; [done|]. by exists mid, post.
Qed.

(** ** The line loop *)

(** Text as lines: each line is terminated by a newline. *)
Definition unlines (ls : list (list Z)) : list Z := ls ≫= λ l, l ++ [chr "010"].

Definition is_line (l : list Z) : Prop := Forall (λ c, c ≠ 0 ∧ c ≠ chr "010") l.

(** The lines of a text and what follows the last newline. *)
Definition no_nul (l : list Z) : Prop := Forall (λ c, c ≠ 0) l.

Lemma cstr_no_nul l : no_nul l → cstr l = l.
Proof. induction 1 as [|c l Hc _ IH]; cbn; [done|]. destruct (Z.eqb_spec c 0); [done|by rewrite IH]. Qed.

Lemma is_line_no_nul l : is_line l → no_nul l.
Proof. unfold is_line, no_nul. rewrite !Forall_forall. intros H c Hc. by destruct (H c Hc). Qed.

Lemma is_line_not_in l : is_line l → chr "010" ∉ l.
Proof. unfold is_line. intros H Hi. rewrite Forall_forall in H. by destruct (H _ Hi). Qed.

Lemma unlines_no_nul ls : Forall is_line ls → no_nul (unlines ls).
Proof.
  induction 1 as [|l ls Hl _ IH]; cbn; [constructor|]. apply Forall_app. split; [|done].
  apply Forall_app. split; [by apply is_line_no_nul|]. by repeat constructor.
Qed.

Definition grep_spec (re : list Z) (ls : list (list Z)) : list Z :=
  unlines (filter (λ l, match_ re l = true) ls).

Lemma unlines_cons l ls : unlines (l :: ls) = l ++ chr "010" :: unlines ls.
Proof. unfold unlines. cbn. by rewrite <- app_assoc. Qed.

Lemma grep_spec_cons re l ls :
  grep_spec re (l :: ls) = (if match_ re l then l ++ [chr "010"] else []) ++ grep_spec re ls.
Proof.
  unfold grep_spec. rewrite filter_cons. destruct (match_ re l); [|done].
  rewrite decide_True by done. by rewrite unlines_cons, <- app_assoc.
Qed.

Lemma grep_lines_spec fuel re ls rest :
  Forall is_line ls → is_line rest → (length ls ≤ fuel)%nat →
  grep_lines fuel re (unlines ls ++ rest) = (grep_spec re ls, rest).
Proof.
  intros Hls Hr. revert fuel. induction Hls as [|l ls Hl Hls IH]; intros fuel Hf.
  - assert (strchr (cstr rest) (chr "010") = None) as E.
    { rewrite cstr_no_nul by by apply is_line_no_nul. by apply strchr_none, is_line_not_in. }
    destruct fuel; cbn; [done|]. by rewrite E.
  - destruct fuel as [|fuel]; cbn [length] in Hf; [lia|]. cbn [grep_lines].
    rewrite unlines_cons, <- app_assoc, <- app_comm_cons.
    rewrite cstr_no_nul.
    2:{ apply Forall_app. split; [by apply is_line_no_nul|]. constructor; [done|].
        apply Forall_app. split; [by apply unlines_no_nul|by apply is_line_no_nul]. }
    rewrite strchr_app by by apply is_line_not_in.
    rewrite length_app. replace (length l + length (chr "010" :: unlines ls ++ rest) - length (chr "010" :: unlines ls ++ rest))%nat
      with (length l) by lia.
    rewrite take_app_length. cbn [length].
    replace (drop (S (length l)) (l ++ chr "010" :: unlines ls ++ rest)) with (unlines ls ++ rest).
    2:{ rewrite <- Nat.add_1_r, <- drop_drop, drop_app_length. done. }
    rewrite IH by lia. by rewrite grep_spec_cons.
Qed.

(** A prefix of a text is some of its lines and a part of the next one. *)
Lemma unlines_split ls pre post :
  Forall is_line ls → pre ++ post = unlines ls →
  ∃ ls1 ls2 rest, ls = ls1 ++ ls2 ∧ pre = unlines ls1 ++ rest ∧ rest ++ post = unlines ls2 ∧
    is_line rest ∧ ∀ B, Forall (λ l, (length l ≤ B)%nat) ls → (length rest ≤ B)%nat.
Proof.
  intros Hls. revert pre. induction Hls as [|l ls Hl Hls IH]; intros pre E.
  { apply app_nil in E as [-> ->]. exists [], [], []. split_and!; try done; [constructor|]. intros; cbn; lia. }
  rewrite unlines_cons in E. apply app_eq_inv in E as [(k & -> & E)|(k & -> & E)].
  - destruct k as [|c k]; cbn in E; injection E as <- E || idtac.
    + exists [], (l :: ls), l. rewrite app_nil_r, unlines_cons, E. split_and!; try done.
      intros B HB. by inversion HB.
    + destruct (IH k) as (ls1 & ls2 & rest & -> & -> & E2 & Hr & HB); [done|].
      exists (l :: ls1), ls2, rest. rewrite unlines_cons, <- app_assoc. split_and!; try done.
      intros B HB'. apply HB. by inversion HB'.
  - exists [], ((pre ++ k) :: ls), pre. rewrite unlines_cons, E, app_assoc. apply Forall_app in Hl as [Hl _]. split_and!; try done.
    intros B HB. inversion HB as [|? ? H]; subst. rewrite length_app in H. lia.
Qed.

Lemma unlines_app ls1 ls2 : unlines (ls1 ++ ls2) = unlines ls1 ++ unlines ls2.
Proof. apply bind_app. Qed.

Lemma grep_spec_app re ls1 ls2 : grep_spec re (ls1 ++ ls2) = grep_spec re ls1 ++ grep_spec re ls2.
Proof. unfold grep_spec. by rewrite filter_app, unlines_app. Qed.

Lemma length_unlines ls : (length ls ≤ length (unlines ls))%nat.
Proof. induction ls as [|l ls IH]; [done|]. rewrite unlines_cons, length_app. cbn. lia. Qed.

(** Every line fits the buffer next to the terminator. *)
Definition fits (ls : list (list Z)) : Prop := Forall (λ l, (length l ≤ BUFSIZE - 2)%nat) ls.

Lemma grep_loop_spec fuel read re ls input buf k :
  (∀ k, read k ≠ None) → Forall is_line ls → fits ls → is_line buf → (length buf ≤ BUFSIZE - 2)%nat →
  buf ++ input = unlines ls → (length input < fuel)%nat →
  grep_loop fuel read re input buf k = Some (grep_spec re ls).
Proof.
  intros Hread. revert ls input buf k. induction fuel as [|fuel IH]; intros ls input buf k Hls Hfit Hb Hlen E Hf; [lia|].
  cbn [grep_loop]. destruct (read k) as [most|] eqn:Er; [|by apply Hread in Er].
  set (n := ((S most `min` (BUFSIZE - length buf - 1)) `min` length input)%nat).
  destruct (Nat.eqb_spec n 0) as [Hn|Hn].
  - destruct input as [|c input]; [|unfold n, BUFSIZE in *; cbn [length] in Hn; lia].
    rewrite app_nil_r in E. subst buf. destruct ls as [|l ls]; [done|].
    rewrite unlines_cons in Hb. apply Forall_app in Hb as [_ Hb]. inversion Hb. naive_solver.
  - assert ((buf ++ take n input) ++ drop n input = unlines ls) as E' by (by rewrite <- app_assoc, take_drop).
    destruct (unlines_split ls _ _ Hls E') as (ls1 & ls2 & rest & -> & Ep & E2 & Hr & HB).
    apply Forall_app in Hls as [Hls1 Hls2]. pose proof (HB _ Hfit) as Hrl.
    apply Forall_app in Hfit as [_ Hfit2]. rewrite Ep, grep_lines_spec; [|done|done|].
    2:{ rewrite length_app. pose proof (length_unlines ls1). lia. }
    rewrite (IH ls2); [by cbn; rewrite grep_spec_app|done..|]. rewrite length_drop. lia.
Qed.

(** C30: Whatever pieces [read] delivers a file in, [grep] returns and prints
    exactly the lines that match, in order, when every line fits the buffer. *)
Theorem grep_filters_lines read re ls :
  (∀ k, read k ≠ None) → Forall is_line ls → fits ls →
  grep read re (unlines ls) = Some (unlines (filter (λ l, match_ re l = true) ls)).
Proof.
  intros Hread Hls Hfit. unfold grep. apply grep_loop_spec; [done..|constructor|cbn; lia|done|lia].
Qed.

Lemma grep_filters_lines_witness :
  grep (λ k, Some 2%nat) (bytes "^a.*c$") (unlines [bytes "abc"; bytes "xabc"; bytes "ac"]) =
  Some (unlines [bytes "abc"; bytes "ac"]).
Proof.
  rewrite (grep_filters_lines (λ k, Some 2%nat) (bytes "^a.*c$") [bytes "abc"; bytes "xabc"; bytes "ac"]);
    [by vm_compute|done| |].
  - by repeat constructor.
  - repeat constructor; cbn; lia.
Defined.

(** A line that fills the buffer makes the next [read] ask for 0 bytes:
    [grep] takes the 0 for the end of the file and skips the rest. *)
Theorem grep_stops_at_long_line :
  grep (λ k, Some 4096%nat) (bytes "a") (unlines [replicate 1023 97; bytes "a"]) = Some [].
Proof. by vm_compute. Qed.
