(* ===== verification/Printf.v ===== *)
(** * user/printf.c and kernel/printf.c: formatted output

    The output is the list of bytes given to [putc] or [consputc].  An argument
    of the variable argument list is a word or a string pointer; taking one that
    is not there, or of the wrong kind, and an index outside [buf] have no
    meaning ([None]). *)

From S2P Require Import Prelude Ulib.

Inductive vararg := AWord (x : Z) | AStr (s : option (list Z)).

Definition va_word (ap : list vararg) : option (Z * list vararg) :=
  match ap with AWord x :: ap' => Some (x, ap') | _ => None end.
Definition va_str (ap : list vararg) : option (option (list Z) * list vararg) :=
  match ap with AStr s :: ap' => Some (s, ap') | _ => None end.

(** [do buf[i++] = digits[x % base]; while((x /= base) != 0);] with [buf] the
    bytes stored so far; a 32-bit [x] needs at most 32 turns. *)
Fixpoint digit_loop (fuel : nat) (digits : list Z) (base x : Z) (buf : list Z) : option (list Z) :=
  match fuel with
  | O => None
  | S fuel' =>
      if (16 <=? length buf)%nat then None
      else
        c ← digits !! Z.to_nat (x mod base);
        let buf := buf ++ [c] in
        if x / base =? 0 then Some buf else digit_loop fuel' digits base (x / base) buf
  end.

(** [buf[i++] = '-'] *)
Definition push_sign (buf : list Z) : option (list Z) :=
  if (16 <=? length buf)%nat then None else Some (buf ++ [chr "-"]).

(** [digits[x >> 60]], [x <<= 4], sixteen times. *)
Fixpoint ptr_digits (n : nat) (digits : list Z) (x : Z) : list Z :=
  match n with
  | O => []
  | S n' => digits !!! Z.to_nat (Z.shiftr x 60) :: ptr_digits n' digits (u64 (Z.shiftl x 4))
  end.

Definition opt_string (s : option (list Z)) : list Z := default (bytes "(null)") s.

Module user.

Definition digits : list Z := bytes "0123456789ABCDEF".

Definition printint (xx base : Z) (sgn : bool) : option (list Z) :=
  let neg := sgn && (xx <? 0) in
  let x := if neg then u32 (- xx) else u32 xx in
  buf ← digit_loop 32 digits base x [];
  buf ← (if neg : bool then push_sign buf else Some buf);
  Some (rev buf).

Definition printptr (x : Z) : list Z := chr "0" :: chr "x" :: ptr_digits 16 digits x.

(** The conversion [%c], in state ['%']. *)
Definition convert (c : Z) (ap : list vararg) : option (list Z * list vararg) :=
  if c =? chr "d" then '(x, ap) ← va_word ap; l ← printint (s32 x) 10 true; Some (l, ap)
  else if c =? chr "l" then '(x, ap) ← va_word ap; l ← printint (s32 x) 10 false; Some (l, ap)
  else if c =? chr "x" then '(x, ap) ← va_word ap; l ← printint (s32 x) 16 false; Some (l, ap)
  else if c =? chr "p" then '(x, ap) ← va_word ap; Some (printptr (u64 x), ap)
  else if c =? chr "s" then '(s, ap) ← va_str ap; Some (opt_string s, ap)
  else if c =? chr "c" then '(x, ap) ← va_word ap; Some ([x mod 256], ap)
  else if c =? chr "%" then Some ([c], ap)
  else Some ([chr "%"; c], ap).

(** [vprintf] from a position of [fmt]; [pct] is [state == '%']. *)
Fixpoint vprintf (fmt : list Z) (ap : list vararg) (pct : bool) : option (list Z) :=
  match fmt with
  | [] => Some []
  | c :: fmt' =>
      if negb pct then
        if c =? chr "%" then vprintf fmt' ap true
        else l ← vprintf fmt' ap false; Some (c :: l)
      else
        '(l, ap) ← convert c ap;
        l' ← vprintf fmt' ap false;
        Some (l ++ l')
  end.

Definition printf (fmt : list Z) (ap : list vararg) : option (list Z) := vprintf fmt ap false.
End user.

Module kernel.

Definition digits : list Z := bytes "0123456789abcdef".

Definition printint (xx base : Z) (sign : bool) : option (list Z) :=
  let sign := sign && (xx <? 0) in
  let x := if sign then u32 (- xx) else u32 xx in
  buf ← digit_loop 32 digits base x [];
  buf ← (if sign : bool then push_sign buf else Some buf);
  Some (rev buf).

Definition printptr (x : Z) : list Z := chr "0" :: chr "x" :: ptr_digits 16 digits x.

(** The cases of the [switch]. *)
Definition convert (c : Z) (ap : list vararg) : option (list Z * list vararg) :=
  if c =? chr "d" then '(x, ap) ← va_word ap; l ← printint (s32 x) 10 true; Some (l, ap)
  else if c =? chr "x" then '(x, ap) ← va_word ap; l ← printint (s32 x) 16 true; Some (l, ap)
  else if c =? chr "p" then '(x, ap) ← va_word ap; Some (printptr (u64 x), ap)
  else if c =? chr "s" then '(s, ap) ← va_str ap; Some (opt_string s, ap)
  else if c =? chr "%" then Some ([chr "%"], ap)
  else Some ([chr "%"; c], ap).

Fixpoint printf (fmt : list Z) (ap : list vararg) : option (list Z) :=
  match fmt with
  | [] => Some []
  | c :: fmt' =>
      if negb (c =? chr "%") then l ← printf fmt' ap; Some (c :: l)
      else
        match fmt' with
        | [] => Some []
        | c :: fmt' =>
            '(l, ap) ← convert c ap;
            l' ← printf fmt' ap;
            Some (l ++ l')
        end
  end.

(** What [panic(s)] prints before it stops. *)
Definition panic (s : list Z) : option (list Z) :=
  a ← printf (bytes "panic: ") [];
  b ← printf s [];
  c ← printf [chr "010"] [];
  Some (a ++ b ++ c).

Fixpoint concat_args (ap : list (list Z)) : option (list Z) :=
  match ap with
  | [] => Some []
  | s :: ap' => a ← printf s []; b ← concat_args ap'; Some (a ++ b)
  end.

Definition panic_concat (ap : list (list Z)) : option (list Z) :=
  a ← printf (bytes "panic: ") [];
  b ← concat_args ap;
  c ← printf [chr "010"] [];
  Some (a ++ b ++ c).
End kernel.
