(* ===== verification/PrintfTheorems.v ===== *)
(** * printf prints numbers that read back, and the two printfs agree *)

From S2P Require Import Prelude Ulib Printf.

(** The value of a list of decimal digits, most significant first. *)
Definition dec_value (l : list Z) : Z := foldl (λ v c, v * 10 + c - 48) 0 l.

Definition decimal (l : list Z) : Prop := Forall (λ c, is_digit c = true) l.

Lemma s32_step a c : s32 (s32 a * 10 + c - 48) = s32 (a * 10 + c - 48).
Proof.
  assert (∀ x y, u32 x = u32 y → s32 x = s32 y) as H by (unfold s32; by intros x y ->).
  apply H. unfold s32. case_match; unfold u32; rewrite <- !Z.add_sub_assoc.
  - rewrite <- (Z.add_mod_idemp_l (_ * 10)), Z.mul_mod_idemp_l, Z.add_mod_idemp_l; done.
  - rewrite <- (Z.add_mod_idemp_l (_ * 10)), <- (Z.mul_mod_idemp_l (_ - _)), Zminus_mod_idemp_l,
      <- (Z_mod_plus_full (_ - _) 1), Z.mul_1_l, Z.sub_add, Z.mul_mod_idemp_l, Z.add_mod_idemp_l; done.
Qed.

Lemma s32_idem a : s32 (s32 a) = s32 a.
Proof. unfold s32, u32. repeat case_match; dlia. Qed.

Lemma atoi_value l : decimal l → atoi l = s32 (dec_value l).
Proof.
  unfold atoi, dec_value. intros Hl.
  assert (∀ a, atoi_loop l (s32 a) = s32 (foldl (λ v c, v * 10 + c - 48) a l)) as H; [|by apply (H 0)].
  induction Hl as [|c l Hc _ IH]; intros a; cbn [atoi_loop foldl]; [done|].
  rewrite Hc, s32_step. apply IH.
Qed.

Lemma dec_value_app l1 l2 :
  dec_value (l1 ++ l2) = dec_value l1 * 10 ^ Z.of_nat (length l2) + dec_value l2.
Proof.
  unfold dec_value. rewrite foldl_app. generalize (foldl (λ v c, v * 10 + c - 48) 0 l1). intros a.
  induction l2 as [|c l2 IH] using rev_ind; cbn; [lia|].
  rewrite !foldl_app, IH, length_app. cbn. rewrite Nat2Z.inj_add, Z.pow_add_r by lia. lia.
Qed.

(** The digits of the table below ten are the decimal digits, in both cases. *)
Definition decimal_table (digits : list Z) : Prop := ∀ d, 0 ≤ d < 10 → digits !! Z.to_nat d = Some (48 + d).

Lemma user_table : decimal_table user.digits.
Proof.
  intros d Hd. assert (d = 0 ∨ d = 1 ∨ d = 2 ∨ d = 3 ∨ d = 4 ∨ d = 5 ∨ d = 6 ∨ d = 7 ∨ d = 8 ∨ d = 9) as H by lia.
  repeat destruct H as [->|H]; [done..|by subst].
Qed.

Lemma kernel_table : decimal_table kernel.digits.
Proof.
  intros d Hd. assert (d = 0 ∨ d = 1 ∨ d = 2 ∨ d = 3 ∨ d = 4 ∨ d = 5 ∨ d = 6 ∨ d = 7 ∨ d = 8 ∨ d = 9) as H by lia.
  repeat destruct H as [->|H]; [done..|by subst].
Qed.

Lemma digit_loop_decimal k fuel digits x buf :
  decimal_table digits → 0 ≤ x < 10 ^ Z.of_nat k → (1 ≤ k ≤ fuel)%nat → (length buf + k ≤ 16)%nat →
  ∃ ds, digit_loop fuel digits 10 x buf = Some (buf ++ ds) ∧ (1 ≤ length ds ≤ k)%nat ∧
    decimal ds ∧ dec_value (rev ds) = x.
Proof.
  intros Ht. revert fuel x buf. induction k as [|k IH]; intros fuel x buf Hx Hf Hb; [lia|].
  destruct fuel as [|fuel]; [lia|]. cbn [digit_loop].
  rewrite (proj2 (Nat.leb_gt 16 _)) by lia. rewrite Ht by dlia. cbn [mbind option_bind].
  assert (is_digit (48 + x mod 10) = true) as Hd.
  { unfold is_digit. rewrite andb_true_iff, !Z.leb_le. dlia. }
  destruct (Z.eqb_spec (x / 10) 0) as [E|E].
  - exists [48 + x mod 10]. split; [done|]. split; [cbn; lia|]. split; [by repeat constructor|]. unfold dec_value. cbn. dlia.
  - assert (10 ^ Z.of_nat (S k) = 10 * 10 ^ Z.of_nat k) as Ep by (rewrite Nat2Z.inj_succ, Z.pow_succ_r; lia).
    destruct k as [|k].
    { exfalso. cbn in Hx. apply E. dlia. }
    destruct (IH fuel (x / 10) (buf ++ [48 + x mod 10])) as (ds & -> & Hl & Hds & Hv).
    + rewrite Ep in Hx. dlia.
    + lia.
    + rewrite length_app. cbn. lia.
    + exists ((48 + x mod 10) :: ds). rewrite <- app_assoc. split; [done|]. split; [cbn; lia|].
      split; [by constructor|]. cbn [rev]. rewrite dec_value_app, Hv. unfold dec_value. cbn. dlia.
Qed.

Lemma decimal_rev l : decimal l → decimal (rev l).
Proof. unfold decimal. rewrite !Forall_forall. intros H c Hc. apply H. by apply list_elem_of_In, in_rev, list_elem_of_In. Qed.

(** Both [printint]s, given their table. *)
Lemma printint_decimal digits n :
  decimal_table digits → -2 ^ 31 ≤ n < 2 ^ 31 →
  ∃ ds, (buf ← digit_loop 32 digits 10 (if n <? 0 then u32 (- n) else u32 n) [];
         buf ← (if n <? 0 then push_sign buf else Some buf);
         Some (rev buf)) = Some ((if n <? 0 then [chr "-"] else []) ++ ds) ∧
    decimal ds ∧ ds ≠ [] ∧ dec_value ds = Z.abs n.
Proof.
  intros Ht Hn. set (x := if n <? 0 then u32 (- n) else u32 n).
  assert (x = Z.abs n) as Ex.
  { unfold x, u32. destruct (Z.ltb_spec n 0); dlia. }
  destruct (digit_loop_decimal 10 32 digits x []) as (ds & -> & Hl & Hd & Hv); [done| |lia|cbn; lia|].
  { rewrite Ex. change (10 ^ Z.of_nat 10) with 10000000000. lia. }
  exists (rev ds). cbn [app mbind option_bind]. split; [|split; [by apply decimal_rev|]].
  - destruct (n <? 0); [|done]. unfold push_sign. rewrite (proj2 (Nat.leb_gt 16 _)) by lia. cbn.
    by rewrite rev_app_distr.
  - split; [|by rewrite Hv]. intros E. apply (f_equal length) in E. rewrite length_rev in E. cbn in E. lia.
Qed.

Lemma digit_loop_tables fuel d1 d2 x buf :
  decimal_table d1 → decimal_table d2 → digit_loop fuel d1 10 x buf = digit_loop fuel d2 10 x buf.
Proof.
  intros H1 H2. revert x buf. induction fuel as [|fuel IH]; intros x buf; cbn [digit_loop]; [done|].
  rewrite H1, H2 by dlia. cbn [mbind option_bind]. by rewrite IH.
Qed.

Lemma printint_agree n : kernel.printint n 10 true = user.printint n 10 true.
Proof.
  unfold kernel.printint, user.printint.
  by rewrite (digit_loop_tables _ _ _ _ _ kernel_table user_table).
Qed.

(** C31: What [printf("%d")] prints for a 32-bit number, in the kernel and in
    user space, is its sign and its decimal digits, and [atoi] reads a
    non-negative number back. *)
Theorem printint_reads_back n :
  -2 ^ 31 ≤ n < 2 ^ 31 →
  ∃ ds, user.printint n 10 true = Some ((if n <? 0 then [chr "-"] else []) ++ ds) ∧
    kernel.printint n 10 true = user.printint n 10 true ∧
    decimal ds ∧ dec_value ds = Z.abs n ∧ (0 ≤ n → atoi ds = n).
Proof.
  intros Hn. destruct (printint_decimal user.digits n user_table Hn) as (ds & Eu & Hd & _ & Hv).
  exists ds. split; [exact Eu|]. split; [apply printint_agree|]. split; [done|]. split; [done|].
  intros H0. rewrite atoi_value, Hv, s32_small; lia || done.
Qed.

Lemma printint_reads_back_witness :
  ∃ ds, user.printint (-2147483648) 10 true = Some (chr "-" :: ds) ∧ dec_value ds = 2147483648.
Proof.
  destruct (printint_reads_back (-2147483648)) as (ds & E & _ & _ & Hv & _); [lia|]. by exists ds.
Defined.

(** ** The two printfs *)

(** The conversions of a format. *)
Fixpoint conversions (fmt : list Z) (pct : bool) : list Z :=
  match fmt with
  | [] => []
  | c :: fmt' =>
      if negb pct then conversions fmt' (c =? chr "%") else c :: conversions fmt' false
  end.

(** Conversions with the same meaning on both sides. *)
Definition portable (c : Z) : Prop := c ∉ [chr "x"; chr "p"; chr "l"; chr "c"].

#[local] Opaque user.printint kernel.printint ptr_digits.

Lemma convert_agree c ap : portable c → kernel.convert c ap = user.convert c ap.
Proof.
  unfold portable. rewrite !not_elem_of_cons. intros (H1 & H2 & H3 & H4 & _).
  unfold kernel.convert, user.convert.
  rewrite (proj2 (Z.eqb_neq c (chr "x")) H1), (proj2 (Z.eqb_neq c (chr "p")) H2),
    (proj2 (Z.eqb_neq c (chr "l")) H3), (proj2 (Z.eqb_neq c (chr "c")) H4).
  destruct (c =? chr "d").
  { destruct ap as [|[x|s] ap]; cbn [va_word mbind option_bind]; [reflexivity| |reflexivity].
    rewrite printint_agree. reflexivity. }
  destruct (c =? chr "s"); [reflexivity|].
  destruct (Z.eqb_spec c (chr "%")); [by subst|reflexivity].
Qed.

(** C32: The kernel's [printf] and the user's print the same bytes for every
    format whose conversions are not one of [%x], [%p], [%l] and [%c]. *)
Theorem printf_same_output fmt ap :
  Forall portable (conversions fmt false) → kernel.printf fmt ap = user.printf fmt ap.
Proof.
  unfold user.printf. remember (length fmt) as n eqn:Hn. revert fmt ap Hn.
  induction n as [n IH] using lt_wf_ind. intros fmt ap -> Hp.
  destruct fmt as [|c fmt]; [done|]. cbn [kernel.printf user.vprintf negb]. cbn [conversions negb] in Hp.
  destruct (Z.eqb_spec c (chr "%")) as [->|Hc]; cbn [negb].
  - destruct fmt as [|c fmt]; [done|]. cbn [user.vprintf negb]. cbn [conversions negb] in Hp.
    inversion Hp as [|? ? H1 H2]; subst. rewrite convert_agree by done.
    destruct (user.convert c ap) as [[l ap']|]; [|done]. cbn [mbind option_bind].
    by rewrite (IH (length fmt)); [|cbn; lia|done|done].
  - by rewrite (IH (length fmt)); [|cbn; lia|done|done].
Qed.

Lemma printf_same_output_witness :
  kernel.printf (bytes "disk %d: %s 100%%") [AWord 3; AStr (Some (bytes "ok"))] = Some (bytes "disk 3: ok 100%").
Proof.
  rewrite (printf_same_output (bytes "disk %d: %s 100%%")); [by vm_compute|].
  repeat constructor; apply (bool_decide_unpack _); by vm_compute.
Defined.

(** [%x] is not portable: the kernel prints a word with its top bit set as
    a negative number. *)
Theorem kernel_hex_is_signed :
  kernel.printf (bytes "%x") [AWord 0xfffffff6] = Some (bytes "-a") ∧
  user.printf (bytes "%x") [AWord 0xfffffff6] = Some (bytes "FFFFFFF6").
Proof. by vm_compute. Qed.
