(* ===== verification/Sh.v ===== *)
(** * user/sh.c: the shell

    The parser works on the command line in place: a pointer is a position in
    [buf], a string of the tree is the pair of its first position and the
    position after it, and [nulterminate] stores the terminators.  [panic] of the
    shell is the [Panic] outcome.  [runcmd] is the sequence of system calls it
    makes, with what it does when a call fails. *)

From S2P Require Import Prelude Ulib.

Definition MAXARGS : Z := 10.

Definition O_RDONLY : Z := 0.
Definition O_WRONLY : Z := 1.
Definition O_CREATE : Z := 0x200.
Definition O_TRUNC : Z := 0x400.

(** The commands over a type of strings. *)
Inductive cmd (W : Type) :=
  | EXEC (argv : list W)
  | REDIR (c : cmd W) (file : W) (mode fd : Z)
  | PIPE (l r : cmd W)
  | LIST (l r : cmd W)
  | BACK (c : cmd W).
Arguments EXEC {W} argv.
Arguments REDIR {W} c file mode fd.
Arguments PIPE {W} l r.
Arguments LIST {W} l r.
Arguments BACK {W} c.

(** A string of the parse: [q] and [eq]. *)
Definition span : Type := nat * nat.

Definition whitespace : list Z := [32; 9; 13; 10; 11].
Definition symbols : list Z := bytes "<|>&;()".

Definition in_set (c : Z) (l : list Z) : bool := match strchr l c with Some _ => true | None => false end.

Section parser.
Context (buf : list Z).
Abbreviation es := (length buf).

(** [*s]; the line ends with a terminator at [es]. *)
Definition at_ (s : nat) : Z := default 0 (buf !! s).

(** [while(s < es && test( *s)) s++;] *)
Fixpoint skip_n (fuel : nat) (test : Z → bool) (s : nat) : nat :=
  match fuel with
  | O => s
  | S fuel' => if (s <? es)%nat && test (at_ s) then skip_n fuel' test (S s) else s
  end.
Definition skip (test : Z → bool) (s : nat) : nat := skip_n (es - s) test s.
Definition skip_ws : nat → nat := skip (λ c, in_set c whitespace).

(** The token, its span and the next position. *)
Definition gettoken_at (s : nat) : Z * span * nat :=
  let s := skip_ws s in
  let q := s in
  let c := at_ s in
  let '(r, s) :=
    if c =? 0 then (c, s)
    else if in_set c (bytes "|();&<") then (c, S s)
    else if c =? chr ">" then
      if at_ (S s) =? chr ">" then (chr "+", S (S s)) else (c, S s)
    else (chr "a", skip (λ c, negb (in_set c whitespace) && negb (in_set c symbols)) s) in
  (r, (q, s), skip_ws s).

Definition gettoken : M nat (Z * span) := λ s, let '(r, w, s') := gettoken_at s in Done (r, w, s').

Definition peek (toks : list Z) : M nat bool := λ s,
  let s := skip_ws s in
  Done (negb (at_ s =? 0) && in_set (at_ s) toks, s).

Fixpoint parseredirs (fuel : nat) (c : cmd span) : M nat (cmd span) :=
  match fuel with
  | O => out_of_fuel
  | S fuel' =>
      b ← peek (bytes "<>");
      if (b : bool) then
        '(tok, _) ← gettoken;
        '(t, w) ← gettoken;
        if negb (t =? chr "a") then panic "missing file for redirection"
        else
          let c :=
            if tok =? chr "<" then REDIR c w O_RDONLY 0
            else if tok =? chr ">" then REDIR c w (Z.lor (Z.lor O_WRONLY O_CREATE) O_TRUNC) 1
            else if tok =? chr "+" then REDIR c w (Z.lor O_WRONLY O_CREATE) 1
            else c in
          parseredirs fuel' c
      else ret c
  end.

(** [cmd->argv[argc] = q] for the [EXEC] node that [parseredirs] has wrapped. *)
Fixpoint add_arg (w : span) (c : cmd span) : cmd span :=
  match c with
  | EXEC argv => EXEC (argv ++ [w])
  | REDIR c w' mode fd => REDIR (add_arg w c) w' mode fd
  | _ => c
  end.

(** The loop of [parseexec]; [c] is [ret]. *)
Fixpoint parseargs (fuel : nat) (argc : Z) (c : cmd span) : M nat (cmd span) :=
  match fuel with
  | O => out_of_fuel
  | S fuel' =>
      b ← peek (bytes "|)&;");
      if (b : bool) then ret c
      else
        '(tok, w) ← gettoken;
        if tok =? 0 then ret c
        else if negb (tok =? chr "a") then panic "syntax"
        else
          let c := add_arg w c in
          let argc := argc + 1 in
          if MAXARGS <=? argc then panic "too many args"
          else
            c ← parseredirs fuel' c;
            parseargs fuel' argc c
  end.

(** [while(peek(ps, es, "&"))] of [parseline]. *)
Fixpoint parseback (fuel : nat) (c : cmd span) : M nat (cmd span) :=
  match fuel with
  | O => out_of_fuel
  | S fuel' =>
      b ← peek (bytes "&");
      if (b : bool) then gettoken;; parseback fuel' (BACK c) else ret c
  end.

Fixpoint parseline (fuel : nat) : M nat (cmd span) :=
  match fuel with
  | O => out_of_fuel
  | S fuel' =>
      c ← parsepipe fuel';
      c ← parseback fuel' c;
      b ← peek (bytes ";");
      if (b : bool) then gettoken;; r ← parseline fuel'; ret (LIST c r) else ret c
  end
with parsepipe (fuel : nat) : M nat (cmd span) :=
  match fuel with
  | O => out_of_fuel
  | S fuel' =>
      c ← parseexec fuel';
      b ← peek (bytes "|");
      if (b : bool) then gettoken;; r ← parsepipe fuel'; ret (PIPE c r) else ret c
  end
with parseblock (fuel : nat) : M nat (cmd span) :=
  match fuel with
  | O => out_of_fuel
  | S fuel' =>
      b ← peek (bytes "(");
      if negb b then panic "parseblock"
      else
        gettoken;;
        c ← parseline fuel';
        b ← peek (bytes ")");
        if negb b then panic "syntax - missing )"
        else
          gettoken;;
          parseredirs fuel' c
  end
with parseexec (fuel : nat) : M nat (cmd span) :=
  match fuel with
  | O => out_of_fuel
  | S fuel' =>
      b ← peek (bytes "(");
      if (b : bool) then parseblock fuel'
      else
        c ← parseredirs fuel' (EXEC []);
        parseargs fuel' 0 c
  end.

(** Every turn of the recursion consumes a character or goes one level down. *)
Definition parse_fuel : nat := 4 * es + 8.
End parser.

(** [nulterminate]: a terminator at the end of every string of the tree. *)
Fixpoint nulterminate (c : cmd span) (buf : list Z) : list Z :=
  match c with
  | EXEC argv => foldl (λ b w, <[w.2 := 0]> b) buf argv
  | REDIR c w _ _ => <[w.2 := 0]> (nulterminate c buf)
  | PIPE l r => nulterminate r (nulterminate l buf)
  | LIST l r => nulterminate r (nulterminate l buf)
  | BACK c => nulterminate c buf
  end.

(** [parsecmd(s)] on the line [s]: the tree and the buffer with its
    terminators. *)
Definition parsecmd (s : list Z) : outcome (cmd span * list Z) :=
  match parseline s (parse_fuel s) O with
  | Done (c, p) =>
      match peek s [] p with
      | Done (_, p) =>
          if negb (p =? length s)%nat then Panic "syntax"
          else Done (c, nulterminate c (s ++ [0]))
      | _ => Fault
      end
  | Panic msg => Panic msg
  | Fault => Fault
  | OutOfFuel => OutOfFuel
  end.

(** The C string at a position. *)
Fixpoint cstring (l : list Z) : list Z :=
  match l with [] => [] | c :: l' => if c =? 0 then [] else c :: cstring l' end.

(** The tree with its strings read from the buffer, as [runcmd] sees it. *)
Fixpoint strings (buf : list Z) (c : cmd span) : cmd (list Z) :=
  let str (w : span) := cstring (drop w.1 buf) in
  match c with
  | EXEC argv => EXEC (str <$> argv)
  | REDIR c w mode fd => REDIR (strings buf c) (str w) mode fd
  | PIPE l r => PIPE (strings buf l) (strings buf r)
  | LIST l r => LIST (strings buf l) (strings buf r)
  | BACK c => BACK (strings buf c)
  end.

(** ** Running commands *)

(** The system calls of a process up to its [exit] or [exec].  [Open] and
    [Exec] say what happens when the call fails; [Fork] has the child and the
    parent; [MkPipe] names the ends with the two descriptors it returns. *)
Inductive prog :=
  | Exit (status : Z)
  | Exec (argv : list (list Z)) (failed : prog)
  | Close (fd : Z) (k : prog)
  | Open (file : list Z) (mode : Z) (failed ok : prog)
  | Dup (fd : Z) (k : prog)
  | MkPipe (k : Z → Z → prog)
  | Fork (child parent : prog)
  | Wait (k : prog)
  | Complain (msg : list Z) (k : prog).

(** [runcmd(cmd)]; [fork1] and [pipe] are the successful calls: their failure
    is [panic]. *)
Fixpoint runcmd (c : cmd (list Z)) : prog :=
  match c with
  | EXEC [] => Exit 1
  | EXEC (a :: argv) => Exec (a :: argv) (Complain (bytes "exec " ++ a ++ bytes " failed" ++ [chr "010"]) (Exit 0))
  | REDIR c file mode fd =>
      Close fd
        (Open file mode
          (Complain (bytes "open " ++ file ++ bytes " failed" ++ [chr "010"]) (Exit 1))
          (runcmd c))
  | LIST l r => Fork (runcmd l) (Wait (runcmd r))
  | PIPE l r =>
      MkPipe (λ p0 p1,
        Fork (Close 1 (Dup p1 (Close p0 (Close p1 (runcmd l)))))
          (Fork (Close 0 (Dup p0 (Close p0 (Close p1 (runcmd r)))))
            (Close p0 (Close p1 (Wait (Wait (Exit 0)))))))
  | BACK c => Fork (runcmd c) (Exit 0)
  end.

(** [getcmd] and the loop of [main] on the bytes of standard input: what the
    shell does with each line. *)
Inductive shell_action := Chdir (path : list Z) | Run (line : list Z).

Definition line_action (buf : list Z) : shell_action :=
  match buf with
  | a :: b :: c :: _ =>
      if (a =? chr "c") && (b =? chr "d") && (c =? 32) then Chdir (drop 3 (take (length buf - 1) buf)) else Run buf
  | _ => Run buf
  end.

Fixpoint shell_loop (fuel : nat) (input : list Z) : list shell_action :=
  match fuel with
  | O => []
  | S fuel' =>
      let '(buf, rest) := ulib.gets 100 input in
      let buf := cstring buf in
      if deref buf =? 0 then [] else line_action buf :: shell_loop fuel' rest
  end.

Definition shell (input : list Z) : list shell_action := shell_loop (S (length input)) input.
