(* ===== verification/ShLex.v ===== *)
(** * The tokens of a command line, and termination of the shell's parser

    [stream s ts] says that [gettoken] from position [s] delivers the tokens
    [ts] and then the end of the line. *)

From S2P Require Import Prelude Ulib Sh.

Definition is_ws (c : Z) : bool := in_set c whitespace.
Definition word_char (c : Z) : bool := negb (is_ws c) && negb (in_set c symbols).

Lemma in_set_iff c l : in_set c l = true ↔ c ∈ l.
Proof.
  unfold in_set. destruct (strchr l c) as [r|] eqn:E.
  - apply strchr_some in E as (pre & post & -> & -> & _). split; [|done]. intros _. set_solver.
  - apply strchr_none in E. done.
Qed.

Section lex.
Context (buf : list Z).
Abbreviation es := (length buf).

Lemma skip_n_spec fuel test s :
  (s ≤ es)%nat → (es - s ≤ fuel)%nat →
  let s' := skip_n buf fuel test s in
  (s ≤ s' ≤ es)%nat ∧ (∀ i, (s ≤ i < s')%nat → test (at_ buf i) = true) ∧
  (s' = es ∨ test (at_ buf s') = false).
Proof.
  revert s. induction fuel as [|fuel IH]; intros s Hs Hf; cbn [skip_n].
  { split; [lia|]. split; [lia|]. left. lia. }
  destruct (Nat.ltb_spec s es) as [Hlt|Hge]; cbn [andb].
  - destruct (test (at_ buf s)) eqn:Et.
    + destruct (IH (S s)) as (H1 & H2 & H3); [lia|lia|]. split; [lia|]. split; [|done].
      intros i Hi. destruct (decide (i = s)) as [->|]; [done|]. apply H2. lia.
    + split; [lia|]. split; [lia|]. by right.
  - split; [lia|]. split; [lia|]. left. lia.
Qed.

Lemma skip_spec test s :
  (s ≤ es)%nat →
  let s' := skip buf test s in
  (s ≤ s' ≤ es)%nat ∧ (∀ i, (s ≤ i < s')%nat → test (at_ buf i) = true) ∧
  (s' = es ∨ test (at_ buf s') = false).
Proof. intros Hs. apply skip_n_spec; lia. Qed.

(** [skip] goes to the first position where the test fails. *)
Lemma skip_to test s s' :
  (s ≤ s' ≤ es)%nat → (∀ i, (s ≤ i < s')%nat → test (at_ buf i) = true) →
  (s' = es ∨ test (at_ buf s') = false) → skip buf test s = s'.
Proof.
  intros H1 H2 H3. destruct (skip_spec test s) as (G1 & G2 & G3); [lia|].
  destruct (lt_eq_lt_dec (skip buf test s) s') as [[Hlt| ->]|Hgt]; [|done|].
  - destruct G3 as [G3|G3]; [lia|]. rewrite H2 in G3 by lia. done.
  - destruct H3 as [H3|H3]; [lia|]. rewrite G2 in H3 by lia. done.
Qed.

Lemma at_end : at_ buf es = 0.
Proof. unfold at_. by rewrite lookup_ge_None_2. Qed.

Lemma at_some s : at_ buf s ≠ 0 → (s < es)%nat.
Proof.
  unfold at_. intros H. destruct (decide (s < es)%nat); [done|]. rewrite lookup_ge_None_2 in H by lia. done.
Qed.

Lemma skip_ws_idem s : (s ≤ es)%nat → skip_ws buf (skip_ws buf s) = skip_ws buf s.
Proof.
  intros Hs. destruct (skip_spec is_ws s Hs) as (H1 & H2 & H3). apply skip_to; [|lia|done].
  unfold skip_ws. fold is_ws. split; [done|lia].
Qed.

Lemma skip_ws_bounds s : (s ≤ es)%nat → (s ≤ skip_ws buf s ≤ es)%nat.
Proof. intros Hs. by destruct (skip_spec is_ws s Hs) as (H1 & H2 & H3). Qed.

Lemma gettoken_skip s : (s ≤ es)%nat → gettoken_at buf (skip_ws buf s) = gettoken_at buf s.
Proof. intros Hs. unfold gettoken_at. by rewrite skip_ws_idem. Qed.

(** After the white space there is the end or a character that starts a token. *)
Lemma skip_ws_stop s : (s ≤ es)%nat → skip_ws buf s = es ∨ is_ws (at_ buf (skip_ws buf s)) = false.
Proof. intros Hs. by destruct (skip_spec is_ws s Hs) as (H1 & H2 & H3). Qed.

(** A token other than the end advances. *)
Lemma gettoken_progress s r w s' :
  (s ≤ es)%nat → gettoken_at buf s = (r, w, s') → (s ≤ s' ≤ es)%nat ∧ (r ≠ 0 → (s < s')%nat).
Proof.
  intros Hs. unfold gettoken_at. pose proof (skip_ws_bounds s Hs) as Hb. pose proof (skip_ws_stop s Hs) as Hstop.
  set (q := skip_ws buf s) in *.
  destruct (Z.eqb_spec (at_ buf q) 0) as [E0|E0].
  { intros [= <- <- <-]. pose proof (skip_ws_bounds q). split; [lia|]. congruence. }
  assert (q < es)%nat as Hq by by apply at_some.
  destruct (in_set (at_ buf q) _) eqn:E1.
  { intros [= <- <- <-]. pose proof (skip_ws_bounds (S q)). split; lia. }
  destruct (Z.eqb_spec (at_ buf q) (chr ">")) as [E2|E2].
  { destruct (Z.eqb_spec (at_ buf (S q)) (chr ">")) as [E3|E3]; intros [= <- <- <-].
    - assert (S q < es)%nat by (apply at_some; by rewrite E3). pose proof (skip_ws_bounds (S (S q))). split; lia.
    - pose proof (skip_ws_bounds (S q)). split; lia. }
  intros [= <- <- <-]. change (λ c, negb (in_set c whitespace) && negb (in_set c symbols)) with word_char.
  destruct (skip_spec word_char q) as (H1 & H2 & H3); [lia|].
  assert (skip buf word_char q ≠ q) as Hne.
  { intros E. rewrite E in H3. destruct H3 as [?|H3]; [lia|]. destruct Hstop as [?|Hw]; [lia|].
    unfold word_char in H3. rewrite Hw in H3. cbn in H3. apply negb_false_iff, in_set_iff in H3.
    assert (at_ buf q ∉ bytes "|();&<") as Hn by (intros Hi%in_set_iff; congruence).
    cbn in H3, Hn, E2. set_solver. }
  pose proof (skip_ws_bounds (skip buf word_char q)). split; lia.
Qed.

(** ** Termination *)

(** From a position with enough fuel, a parser returns at a later position or
    panics. *)
Definition advances {A} (m : M nat A) (s : nat) : Prop := wsafe m (λ _ s', (s ≤ s' ≤ es)%nat) s.

(** The next token is not the end. *)
Definition more (s : nat) : Prop := (gettoken_at buf s).1.1 ≠ 0.

Lemma gettoken_char s : (s ≤ es)%nat → at_ buf (skip_ws buf s) ≠ 0 → more s.
Proof.
  intros Hs Hc. unfold more, gettoken_at. rewrite (proj2 (Z.eqb_neq _ _) Hc).
  destruct (in_set _ _); [done|]. destruct (_ =? _); [|done]. by destruct (_ =? _).
Qed.

Lemma wsafe_peek toks (Q : bool → nat → Prop) s :
  (s ≤ es)%nat → (∀ b s', (s ≤ s' ≤ es)%nat → (b = true → more s') → Q b s') → wsafe (peek buf toks) Q s.
Proof.
  intros Hs HQ. unfold wsafe, peek. pose proof (skip_ws_bounds s Hs). apply HQ; [lia|].
  intros [H1%negb_true_iff _]%andb_true_iff. apply gettoken_char; [lia|].
  rewrite skip_ws_idem by done. by apply Z.eqb_neq.
Qed.

Lemma wsafe_gettoken (Q : Z * span → nat → Prop) s :
  (s ≤ es)%nat →
  (∀ r w s', (s ≤ s' ≤ es)%nat → (r ≠ 0 ∨ more s → (s < s')%nat) → Q (r, w) s') → wsafe (gettoken buf) Q s.
Proof.
  intros Hs HQ. unfold more in HQ. unfold wsafe, gettoken. destruct (gettoken_at buf s) as [[r w] s'] eqn:E.
  destruct (gettoken_progress s r w s' Hs E). apply HQ; [done|]. cbn. tauto.
Qed.


Lemma advances_redirs fuel c s : (s ≤ es)%nat → (es - s < fuel)%nat → advances (parseredirs buf fuel c) s.
Proof.
  unfold advances. revert c s. induction fuel as [|fuel IH]; intros c s Hs Hf; [lia|]. cbn [parseredirs].
  apply wsafe_bind, wsafe_peek; [done|]. intros [] s1 H1 Hm; [|by apply wsafe_ret].
  apply wsafe_bind, wsafe_gettoken; [lia|]. intros r w s2 H2 Hp2. specialize (Hp2 (or_intror (Hm eq_refl))).
  apply wsafe_bind, wsafe_gettoken; [lia|]. intros r2 w2 s3 H3 _.
  destruct (negb _); [apply wsafe_panic|]. eapply wsafe_mono; [apply IH; lia|]. cbn. intros _ s'. lia.
Qed.

Lemma advances_args fuel argc c s : (s ≤ es)%nat → (es - s < fuel)%nat → advances (parseargs buf fuel argc c) s.
Proof.
  unfold advances. revert argc c s. induction fuel as [|fuel IH]; intros argc c s Hs Hf; [lia|]. cbn [parseargs].
  apply wsafe_bind, wsafe_peek; [done|]. intros [] s1 H1 _; [by apply wsafe_ret|].
  apply wsafe_bind, wsafe_gettoken; [lia|]. intros r w s2 H2 Hp2.
  destruct (Z.eqb_spec r 0) as [|Hr]; [apply wsafe_ret; lia|]. specialize (Hp2 (or_introl Hr)).
  destruct (negb _); [apply wsafe_panic|]. destruct (_ <=? _); [apply wsafe_panic|].
  apply wsafe_bind. eapply wsafe_mono; [apply advances_redirs; lia|]. cbn. intros c' s3 H3.
  eapply wsafe_mono; [apply IH; lia|]. cbn. intros _ s'. lia.
Qed.

Lemma advances_back fuel c s : (s ≤ es)%nat → (es - s < fuel)%nat → advances (parseback buf fuel c) s.
Proof.
  unfold advances. revert c s. induction fuel as [|fuel IH]; intros c s Hs Hf; [lia|]. cbn [parseback].
  apply wsafe_bind, wsafe_peek; [done|]. intros [] s1 H1 Hm; [|by apply wsafe_ret].
  apply wsafe_bind, wsafe_gettoken; [lia|]. intros r w s2 H2 Hp2. specialize (Hp2 (or_intror (Hm eq_refl))).
  eapply wsafe_mono; [apply IH; lia|]. cbn. intros _ s'. lia.
Qed.

Lemma advances_parse fuel s : (s ≤ es)%nat →
  ((4 * (es - s) + 4 ≤ fuel)%nat → advances (parseline buf fuel) s) ∧
  ((4 * (es - s) + 3 ≤ fuel)%nat → advances (parsepipe buf fuel) s) ∧
  ((4 * (es - s) + 1 ≤ fuel)%nat → advances (parseblock buf fuel) s) ∧
  ((4 * (es - s) + 2 ≤ fuel)%nat → advances (parseexec buf fuel) s).
Proof.
  unfold advances. revert s. induction fuel as [|fuel IH]; intros s Hs; [lia|].
  split_and!; intros Hf; cbn [parseline parsepipe parseblock parseexec].
  - destruct (IH s Hs) as (_ & Hp & _). apply wsafe_bind. eapply wsafe_mono; [apply Hp; lia|]. cbn. intros c s1 H1.
    apply wsafe_bind. eapply wsafe_mono; [apply advances_back; lia|]. cbn. intros c2 s2 H2.
    apply wsafe_bind, wsafe_peek; [lia|]. intros [] s3 H3 Hm; [|apply wsafe_ret; lia].
    apply wsafe_bind, wsafe_gettoken; [lia|]. intros r w s4 H4 Hp4. specialize (Hp4 (or_intror (Hm eq_refl))).
    apply wsafe_bind. eapply wsafe_mono; [apply IH; lia|]. cbn. intros c5 s5 H5. apply wsafe_ret. lia.
  - destruct (IH s Hs) as (_ & _ & _ & He). apply wsafe_bind. eapply wsafe_mono; [apply He; lia|]. cbn. intros c s1 H1.
    apply wsafe_bind, wsafe_peek; [lia|]. intros [] s3 H3 Hm; [|apply wsafe_ret; lia].
    apply wsafe_bind, wsafe_gettoken; [lia|]. intros r w s4 H4 Hp4. specialize (Hp4 (or_intror (Hm eq_refl))).
    apply wsafe_bind. eapply wsafe_mono; [apply IH; lia|]. cbn. intros c5 s5 H5. apply wsafe_ret. lia.
  - apply wsafe_bind, wsafe_peek; [lia|]. intros [] s1 H1 Hm; [|apply wsafe_panic].
    apply wsafe_bind, wsafe_gettoken; [lia|]. intros r w s2 H2 Hp2. specialize (Hp2 (or_intror (Hm eq_refl))).
    apply wsafe_bind. eapply wsafe_mono; [apply IH; lia|]. cbn. intros c s3 H3.
    apply wsafe_bind, wsafe_peek; [lia|]. intros [] s4 H4 _; [|apply wsafe_panic].
    apply wsafe_bind, wsafe_gettoken; [lia|]. intros r5 w5 s5 H5 _.
    eapply wsafe_mono; [apply advances_redirs; lia|]. cbn. intros _ s'. lia.
  - apply wsafe_bind, wsafe_peek; [lia|]. intros [] s1 H1 _.
    + eapply wsafe_mono; [apply IH; lia|]. cbn. intros _ s'. lia.
    + apply wsafe_bind. eapply wsafe_mono; [apply advances_redirs; lia|]. cbn. intros c s2 H2.
      eapply wsafe_mono; [apply advances_args; lia|]. cbn. intros _ s'. lia.
Qed.
End lex.

(** C26: The shell's parser terminates on every command line: it returns a
    tree or it stops with a syntax error, within the fuel of [parse_fuel]. *)
Theorem parsecmd_terminates line :
  match parsecmd line with Done _ | Panic _ => True | Fault | OutOfFuel => False end.
Proof.
  unfold parsecmd. destruct (advances_parse line (parse_fuel line) 0) as (H & _); [lia|].
  specialize (H ltac:(unfold parse_fuel; lia)). unfold advances, wsafe in H.
  destruct (parseline _ _ _) as [[c p]| | |]; [|done..]. cbn. by destruct (negb _).
Qed.
