(* ===== verification/ShParse.v ===== *)
(** * Parsing what was printed: the shell's grammar

    [ptoks] prints a command tree as tokens, with parentheses where the grammar
    of sh.c needs them; the parser rebuilds the tree. *)

From S2P Require Import Prelude Ulib Sh ShLex.

Inductive token := TWord (w : list Z) | TSym (c : Z).

Definition tok_code (t : token) : Z := match t with TWord _ => chr "a" | TSym c => c end.

(** The character [peek] sees. *)
Definition first_char (t : token) : Z :=
  match t with TWord w => deref w | TSym c => if c =? chr "+" then chr ">" else c end.

Definition is_word (w : list Z) : Prop := w ≠ [] ∧ Forall (λ c, word_char c = true ∧ c ≠ 0) w.

Definition token_ok (t : token) : Prop :=
  match t with TWord w => is_word w | TSym c => c ∈ bytes "|();&<>+" end.

Section parse.
Context (buf : list Z).
Abbreviation es := (length buf).

(** The span [w] of the line holds the word [l] and ends before a character
    that is not part of a word. *)
Definition holds (w : span) (l : list Z) : Prop :=
  (w.1 ≤ w.2 ≤ es)%nat ∧ take (w.2 - w.1) (drop w.1 buf) = l ∧ is_word l ∧
  (w.2 = es ∨ word_char (at_ buf w.2) = false).

Definition span_ok (t : token) (w : span) : Prop :=
  match t with TWord l => holds w l | TSym _ => True end.

Inductive stream : nat → list token → Prop :=
  | stream_nil s : (s ≤ es)%nat → skip_ws buf s = es → stream s []
  | stream_cons s t w s' ts :
      (s ≤ es)%nat → gettoken_at buf s = (tok_code t, w, s') → at_ buf (skip_ws buf s) = first_char t →
      token_ok t → span_ok t w → stream s' ts → stream s (t :: ts).

Lemma stream_bound s ts : stream s ts → (s ≤ es)%nat.
Proof. by destruct 1. Qed.

Lemma stream_skip s ts : stream s ts → stream (skip_ws buf s) ts.
Proof.
  intros H. pose proof (stream_bound _ _ H) as Hs. pose proof (skip_ws_bounds buf s Hs).
  destruct H as [s _ E|s t w s' ts _ Hg Hc Ht Hw Hts].
  - apply stream_nil; [lia|]. by rewrite skip_ws_idem.
  - apply (stream_cons _ t w s'); try done; [lia|by rewrite gettoken_skip|by rewrite skip_ws_idem].
Qed.

Lemma first_char_nonzero t : token_ok t → first_char t ≠ 0.
Proof.
  destruct t as [w|c]; cbn.
  - intros [Hne Hw]. destruct w as [|c w]; [done|]. inversion Hw. cbn. naive_solver.
  - destruct (c =? chr "+"); [done|]. intros H ->. apply (bool_decide_unpack _) in H || idtac.
    revert H. cbn. set_solver.
Qed.

Lemma wp_peek_stream toks s ts (Q : bool → nat → Prop) :
  stream s ts →
  (∀ s', stream s' ts → Q (match ts with [] => false | t :: _ => in_set (first_char t) toks end) s') →
  wp (peek buf toks) Q s.
Proof.
  intros H HQ. unfold wp, peek. pose proof (stream_skip _ _ H) as Hk.
  destruct H as [s Hs E|s t w s' ts Hs Hg Hc Ht Hw Hts].
  - rewrite E, at_end in *. cbn. by apply HQ.
  - rewrite Hc. rewrite (proj2 (Z.eqb_neq _ _) (first_char_nonzero t Ht)). by apply HQ.
Qed.

Lemma wp_gettoken_stream s t ts (Q : Z * span → nat → Prop) :
  stream s (t :: ts) → (∀ w s', span_ok t w → stream s' ts → Q (tok_code t, w) s') → wp (gettoken buf) Q s.
Proof.
  intros H HQ. unfold wp, gettoken. inversion H as [|? ? w s' ? Hs Hg Hc Ht Hw Hts]; subst.
  rewrite Hg. by apply HQ.
Qed.

Lemma wp_gettoken_end s (Q : Z * span → nat → Prop) :
  stream s [] → (∀ w s', stream s' [] → Q (0, w) s') → wp (gettoken buf) Q s.
Proof.
  intros H HQ. unfold wp, gettoken, gettoken_at. inversion H as [? Hs E|]; subst. rewrite E, at_end. cbn.
  apply HQ. apply stream_skip. apply stream_nil; [lia|]. rewrite <- E at 1. rewrite skip_ws_idem; done.
Qed.

(** The parsed tree stands for a tree of words. *)
Fixpoint rep (c : cmd span) (t : cmd (list Z)) : Prop :=
  match c, t with
  | EXEC a, EXEC b => Forall2 holds a b
  | REDIR c w m f, REDIR t l m' f' => rep c t ∧ holds w l ∧ m = m' ∧ f = f'
  | PIPE l r, PIPE l' r' => rep l l' ∧ rep r r'
  | LIST l r, LIST l' r' => rep l l' ∧ rep r r'
  | BACK c, BACK t => rep c t
  | _, _ => False
  end.
End parse.

(** ** Printing *)

Inductive level := Line | Back | Pipe | Simple.

Definition parens (l : list token) : list token := TSym (chr "(") :: l ++ [TSym (chr ")")].

(** The token of a redirection. *)
Definition redir_tok (mode : Z) : token :=
  TSym (if mode =? O_RDONLY then chr "<"
        else if mode =? Z.lor O_WRONLY O_CREATE then chr "+" else chr ">").

Fixpoint ptoks (lv : level) (t : cmd (list Z)) : list token :=
  match t with
  | EXEC argv => TWord <$> argv
  | REDIR c file mode _ => ptoks Simple c ++ [redir_tok mode; TWord file]
  | PIPE l r =>
      let p := ptoks Simple l ++ TSym (chr "|") :: ptoks Pipe r in
      match lv with Simple => parens p | _ => p end
  | LIST l r =>
      let p := ptoks Back l ++ TSym (chr ";") :: ptoks Line r in
      match lv with Line => p | _ => parens p end
  | BACK c =>
      let p := ptoks Back c ++ [TSym (chr "&")] in
      match lv with Line | Back => p | _ => parens p end
  end.

(** The trees of the shell: words without special characters, fewer than
    [MAXARGS] arguments, the three forms of redirection. *)
Fixpoint tree_ok (t : cmd (list Z)) : Prop :=
  match t with
  | EXEC argv => Forall is_word argv ∧ Z.of_nat (length argv) < MAXARGS
  | REDIR c file mode fd =>
      tree_ok c ∧ is_word file ∧
      ((mode = O_RDONLY ∧ fd = 0) ∨ (mode = Z.lor (Z.lor O_WRONLY O_CREATE) O_TRUNC ∧ fd = 1) ∨
       (mode = Z.lor O_WRONLY O_CREATE ∧ fd = 1))
  | PIPE l r | LIST l r => tree_ok l ∧ tree_ok r
  | BACK c => tree_ok c
  end.

(** ** Decomposition of trees along the grammar *)

Definition rewrap {W} (c : cmd W) (rs : list (W * Z * Z)) : cmd W :=
  foldl (λ c r, REDIR c r.1.1 r.1.2 r.2) c rs.

Definition rtoks (rs : list (list Z * Z * Z)) : list token := rs ≫= λ r, [redir_tok r.1.2; TWord r.1.1].

Definition redir_ok (r : list Z * Z * Z) : Prop :=
  is_word r.1.1 ∧
  ((r.1.2 = O_RDONLY ∧ r.2 = 0) ∨ (r.1.2 = Z.lor (Z.lor O_WRONLY O_CREATE) O_TRUNC ∧ r.2 = 1) ∨
   (r.1.2 = Z.lor O_WRONLY O_CREATE ∧ r.2 = 1)).

Definition is_redir {W} (t : cmd W) : bool := match t with REDIR _ _ _ _ => true | _ => false end.
Definition is_back {W} (t : cmd W) : bool := match t with BACK _ => true | _ => false end.

Lemma rewrap_snoc {W} (c : cmd W) rs r : rewrap c (rs ++ [r]) = REDIR (rewrap c rs) r.1.1 r.1.2 r.2.
Proof. unfold rewrap. by rewrite foldl_app. Qed.

Lemma rtoks_app rs1 rs2 : rtoks (rs1 ++ rs2) = rtoks rs1 ++ rtoks rs2.
Proof. apply bind_app. Qed.

Lemma simple_shape t :
  ∃ base rs, t = rewrap base rs ∧ is_redir base = false ∧ ptoks Simple t = ptoks Simple base ++ rtoks rs ∧
    (tree_ok t → tree_ok base ∧ Forall redir_ok rs).
Proof.
  induction t as [argv|c IH file mode fd|l IHl r IHr|l IHl r IHr|c IH].
  2:{ destruct IH as (base & rs & -> & Hb & Hp & Hok). exists base, (rs ++ [(file, mode, fd)]).
      rewrite rewrap_snoc, rtoks_app, app_assoc, <- Hp. split_and!; try done.
      intros (H1 & H2 & H3). destruct (Hok H1). split; [done|]. apply Forall_app. split; [done|]. by apply Forall_singleton. }
  all: eexists _, []; rewrite app_nil_r; split_and!; [done|done|done|]; intros; split; [done|constructor].
Qed.

Lemma back_shape t :
  ∃ core n, t = Nat.iter n BACK core ∧ is_back core = false ∧
    ptoks Back t = ptoks Pipe core ++ replicate n (TSym (chr "&")) ∧ (tree_ok t → tree_ok core).
Proof.
  induction t as [argv|c IH file mode fd|l IHl r IHr|l IHl r IHr|c IH].
  5:{ destruct IH as (core & n & -> & Hb & Hp & Hok). exists core, (S n). split_and!; try done.
      cbn [ptoks]. rewrite Hp, <- app_assoc. f_equal. by rewrite <- replicate_S_end. }
  all: eexists _, 0%nat; rewrite app_nil_r; split_and!; done.
Qed.

Definition follows (cs : list Z) (ts : list token) : Prop :=
  match ts with [] => True | TSym c :: _ => c ∈ cs | TWord _ :: _ => False end.

(** What [peek] says about a symbol that may follow. *)
Lemma follows_peek cs toks ts b :
  follows cs ts → Forall (λ c, c ≠ chr "+" ∧ in_set c toks = b) cs →
  match ts with [] => b | t :: _ => in_set (first_char t) toks end = b.
Proof.
  destruct ts as [|[w|c] ts]; cbn; [done|done|]. intros Hc Hall. rewrite Forall_forall in Hall.
  destruct (Hall _ Hc) as [Hn <-]. by rewrite (proj2 (Z.eqb_neq _ _) Hn).
Qed.

Ltac peek_false := eapply follows_peek; [eassumption|]; repeat constructor.

Section grammar.
Context (buf : list Z).

Lemma rep_back n c t : rep buf c t → rep buf (Nat.iter n BACK c) (Nat.iter n BACK t).
Proof. intros H. by induction n. Qed.

(** The redirections after a command. *)
Lemma wp_redirs rs fuel c t s rest :
  rep buf c t → Forall redir_ok rs → stream buf s (rtoks rs ++ rest) →
  match rest with [] => false | t :: _ => in_set (first_char t) (bytes "<>") end = false →
  (length rs < fuel)%nat →
  wp (parseredirs buf fuel c) (λ c' s', rep buf c' (rewrap t rs) ∧ stream buf s' rest) s.
Proof.
  intros Hc Hrs. revert fuel c t s Hc. induction Hrs as [|[[file mode] fd] rs [Hw Hm] Hrs IH]; intros fuel c t s Hc Hs Hrest Hf;
    (destruct fuel as [|fuel]; [cbn in Hf; lia|]); cbn [parseredirs].
  - apply wp_bind, (wp_peek_stream buf _ _ _ _ Hs). intros s1 Hs1. cbn [rtoks mbind list_bind app]. rewrite Hrest. by apply wp_ret.
  - cbn [length] in Hf. change (rtoks ((file, mode, fd) :: rs)) with (redir_tok mode :: TWord file :: rtoks rs) in Hs.
    apply wp_bind, (wp_peek_stream buf _ _ _ _ Hs). intros s1 Hs1. cbn [app].
    assert (in_set (first_char (redir_tok mode)) (bytes "<>") = true) as ->.
    { cbn in Hm. by destruct Hm as [[-> _]|[[-> _]|[-> _]]]. }
    apply wp_bind, (wp_gettoken_stream buf _ _ _ _ Hs1). intros w1 s2 _ Hs2.
    apply wp_bind, (wp_gettoken_stream buf _ _ _ _ Hs2). intros w2 s3 Hw2 Hs3. cbn [tok_code Z.eqb Pos.eqb negb chr].
    cbn in Hm. destruct Hm as [[-> ->]|[[-> ->]|[-> ->]]]; apply IH; done || lia.
Qed.

Lemma wp_args_stop fuel argc c s rest :
  stream buf s rest → follows (bytes "|)&;") rest →
  wp (parseargs buf (S fuel) argc c) (λ c' s', c' = c ∧ stream buf s' rest) s.
Proof.
  intros Hs Hf. cbn [parseargs]. apply wp_bind, (wp_peek_stream buf _ _ _ _ Hs). intros s1 Hs1.
  destruct rest as [|t rest].
  - apply wp_bind, (wp_gettoken_end buf _ _ Hs1). intros w s2 Hs2. by apply wp_ret.
  - rewrite (follows_peek _ (bytes "|)&;") (t :: rest) true Hf); [by apply wp_ret|]. by repeat constructor.
Qed.

Lemma holds_word w l : holds buf w l → is_word l.
Proof. by intros (_ & _ & ? & _). Qed.

Lemma word_first w toks : is_word w → Forall (λ c, in_set c symbols = true) toks → in_set (deref w) toks = false.
Proof.
  intros [Hne Hw] Ht. destruct w as [|c w]; [done|]. inversion Hw as [|? ? [Hc _] _]; subst. cbn.
  apply not_true_iff_false. intros Hi%in_set_iff. rewrite Forall_forall in Ht. apply Ht in Hi.
  unfold word_char in Hc. rewrite Hi, andb_false_r in Hc. done.
Qed.

(** The arguments of a simple command, with its redirections at the end. *)
Lemma wp_args argv fuel a0 b0 s rs rest :
  Forall2 (holds buf) a0 b0 → Z.of_nat (length b0 + length argv) < MAXARGS → Forall redir_ok rs →
  (argv = [] → rs = []) → stream buf s ((TWord <$> argv) ++ rtoks rs ++ rest) → follows (bytes "|)&;") rest →
  (length argv + length rs + 1 < fuel)%nat →
  wp (parseargs buf fuel (Z.of_nat (length a0)) (EXEC a0))
    (λ c s', rep buf c (rewrap (EXEC (b0 ++ argv)) rs) ∧ stream buf s' rest) s.
Proof.
  revert fuel a0 b0 s. induction argv as [|w argv IH]; intros fuel a0 b0 s Ha Hlen Hrs Hnil Hs Hfol Hf;
    (destruct fuel as [|fuel]; [lia|]).
  - rewrite Hnil in * by done. eapply wp_mono; [by apply (wp_args_stop _ _ _ _ rest)|]. cbn.
    intros c s' [-> Hs']. split; [|done]. cbn. by rewrite app_nil_r.
  - cbn [parseargs]. cbn [fmap list_fmap app] in Hs.
    apply wp_bind, (wp_peek_stream buf _ _ _ _ Hs). intros s1 Hs1.
    assert (is_word w) as Hw by (inversion Hs1; done).
    cbn [first_char]. rewrite (word_first w) by (done || by repeat constructor).
    apply wp_bind, (wp_gettoken_stream buf _ _ _ _ Hs1). intros sp s2 Hsp Hs2. cbn [tok_code Z.eqb Pos.eqb negb chr].
    change (chr "a" =? 0) with false. change (chr "a" =? chr "a") with true. cbn [negb add_arg].
    cbn [length] in Hlen, Hf. pose proof (Forall2_length _ _ _ Ha) as Hla.
    rewrite (proj2 (Z.leb_gt _ _)) by lia.
    assert (Forall2 (holds buf) (a0 ++ [sp]) (b0 ++ [w])) as Ha' by (apply Forall2_app; [done|by apply Forall2_cons; split]).
    apply wp_bind. destruct argv as [|w' argv].
    + eapply wp_mono; [apply (wp_redirs rs _ _ (EXEC (b0 ++ [w])) _ rest); [done|done|done| |cbn in *; lia]|].
      { eapply follows_peek; [done|]. by repeat constructor. }
      cbn beta. intros c s3 [Hr3 Hs3]. destruct fuel as [|fuel]; [lia|].
      eapply wp_mono; [by apply (wp_args_stop _ _ _ _ rest)|]. cbn beta. intros c' s' [-> Hs']. done.
    + assert (is_word w') as Hw' by (inversion Hs2; done).
      eapply wp_mono; [apply (wp_redirs [] _ _ (EXEC (b0 ++ [w])) _ ((TWord <$> (w' :: argv)) ++ rtoks rs ++ rest));
        [done|constructor|done|apply word_first; [done|by repeat constructor]|cbn in *; lia]|].
      cbn beta. intros c s3 [Hr3 Hs3]. cbn [rewrap foldl] in Hr3.
      destruct c as [a1| | | |]; try done. cbn [rep] in Hr3.
      replace (Z.of_nat (length a0) + 1) with (Z.of_nat (length a1)).
      2:{ apply Forall2_length in Hr3. rewrite length_app in Hr3. cbn in Hr3. lia. }
      replace (b0 ++ w :: w' :: argv) with ((b0 ++ [w]) ++ w' :: argv) by (by rewrite <- app_assoc).
      apply IH; [done| |done|done|done|done|cbn in *; lia]. rewrite length_app. cbn in *. lia.
Qed.

Lemma wp_backs n fuel c t s rest :
  rep buf c t → stream buf s (replicate n (TSym (chr "&")) ++ rest) → follows (bytes ";)") rest → (n < fuel)%nat →
  wp (parseback buf fuel c) (λ c' s', rep buf c' (Nat.iter n BACK t) ∧ stream buf s' rest) s.
Proof.
  revert fuel c t s. induction n as [|n IH]; intros fuel c t s Hc Hs Hfol Hf;
    (destruct fuel as [|fuel]; [lia|]); cbn [parseback]; apply wp_bind, (wp_peek_stream buf _ _ _ _ Hs); intros s1 Hs1.
  - cbn [replicate app]. rewrite (follows_peek _ (bytes "&") rest false Hfol); [by apply wp_ret|]. by repeat constructor.
  - cbn [replicate app] in *. apply wp_bind, (wp_gettoken_stream buf _ _ _ _ Hs1). intros w s2 _ Hs2.
    rewrite Nat.iter_succ_r. apply (IH _ (BACK c) (BACK t)); [done|done|done|lia].
Qed.

Definition line_ok fuel : Prop := ∀ t s rest,
  tree_ok t → stream buf s (ptoks Line t ++ rest) → follows (bytes ")") rest → (4 * length (ptoks Line t) + 4 ≤ fuel)%nat →
  wp (parseline buf fuel) (λ c s', rep buf c t ∧ stream buf s' rest) s.

Definition pipe_ok fuel : Prop := ∀ t s rest,
  tree_ok t → stream buf s (ptoks Pipe t ++ rest) → follows (bytes ")&;") rest → (4 * length (ptoks Pipe t) + 3 ≤ fuel)%nat →
  wp (parsepipe buf fuel) (λ c s', rep buf c t ∧ stream buf s' rest) s.

Definition exec_ok fuel : Prop := ∀ t s rest,
  tree_ok t → stream buf s (ptoks Simple t ++ rest) → follows (bytes "|)&;") rest → (4 * length (ptoks Simple t) + 2 ≤ fuel)%nat →
  wp (parseexec buf fuel) (λ c s', rep buf c t ∧ stream buf s' rest) s.

Definition block_ok fuel : Prop := ∀ t rs s rest,
  tree_ok t → Forall redir_ok rs → stream buf s (parens (ptoks Line t) ++ rtoks rs ++ rest) →
  follows (bytes "|)&;") rest → (4 * length (parens (ptoks Line t) ++ rtoks rs) + 1 ≤ fuel)%nat →
  wp (parseblock buf fuel) (λ c s', rep buf c (rewrap t rs) ∧ stream buf s' rest) s.

Lemma follows_mono cs cs' ts : follows cs ts → (∀ c, c ∈ cs → c ∈ cs') → follows cs' ts.
Proof. destruct ts as [|[w|c] ts]; cbn; auto. Qed.

Lemma length_rtoks rs : length (rtoks rs) = (2 * length rs)%nat.
Proof. induction rs as [|r rs IH]; [done|]. change (rtoks (r :: rs)) with (redir_tok r.1.2 :: TWord r.1.1 :: rtoks rs). cbn. lia. Qed.

(** A command at the level of [&], and what is left of the line for [;]. *)
Lemma wp_back_level fuel t s rest :
  pipe_ok fuel → tree_ok t → stream buf s (ptoks Back t ++ rest) → follows (bytes ";)") rest →
  (4 * length (ptoks Back t) + 3 ≤ fuel)%nat →
  wp (c ← parsepipe buf fuel; parseback buf fuel c) (λ c s', rep buf c t ∧ stream buf s' rest) s.
Proof.
  intros Hp Hok Hs Hfol Hf. destruct (back_shape t) as (core & n & -> & Hb & E & Hcok).
  rewrite E, <- app_assoc in Hs. rewrite E, length_app, length_replicate in Hf.
  apply wp_bind. eapply wp_mono; [apply (Hp core _ (replicate n (TSym (chr "&")) ++ rest)); [by apply Hcok|done| |lia]|].
  - destruct n; cbn; [|set_solver]. eapply follows_mono; [done|]. cbn. set_solver.
  - cbn beta. intros c s1 [Hr Hs1]. apply wp_backs; [done|done|done|lia].
Qed.

Lemma line_step fuel : pipe_ok fuel → line_ok fuel → line_ok (S fuel).
Proof.
  intros Hp Hl t s rest Hok Hs Hfol Hf. cbn [parseline].
  eapply (wp_ext ((parsepipe buf fuel ≫= λ c, parseback buf fuel c) ≫= λ c, _)); [intros s0; apply bind_assoc|].
  apply wp_bind.
  assert (ptoks Line t = ptoks Back t ∨ ∃ l r, t = LIST l r) as [E|(l & r & ->)].
  { destruct t; [by left..| |by left]. right. by eexists _, _. }
  { rewrite E in Hs, Hf. eapply wp_mono; [apply (wp_back_level fuel t _ rest); [done|done|done| |lia]|].
    { eapply follows_mono; [done|]. cbn. set_solver. }
    cbn beta. intros c' s1 [Hr Hs1]. apply wp_bind, (wp_peek_stream buf _ _ _ _ Hs1). intros s2 Hs2.
    rewrite (follows_peek _ (bytes ";") rest false Hfol) by (by repeat constructor). by apply wp_ret. }
  destruct Hok as [Hokl Hokr]. cbn [ptoks] in Hs, Hf. rewrite length_app in Hf. cbn [length] in Hf.
  rewrite <- app_assoc in Hs. cbn [app] in Hs.
  eapply wp_mono; [apply (wp_back_level fuel l _ (TSym (chr ";") :: ptoks Line r ++ rest)); [done|done|done| |lia]|].
  { cbn. set_solver. }
  cbn beta. intros c' s1 [Hr Hs1]. apply wp_bind, (wp_peek_stream buf _ _ _ _ Hs1). intros s2 Hs2.
  change (in_set (first_char (TSym (chr ";"))) (bytes ";")) with true. cbv iota.
  apply wp_bind, (wp_gettoken_stream buf _ _ _ _ Hs2). intros w s3 _ Hs3.
  apply wp_bind. eapply wp_mono; [apply (Hl r _ rest); [done|done|done|lia]|]. cbn beta. intros c2 s4 [Hr2 Hs4].
  by apply wp_ret.
Qed.

Lemma pipe_step fuel : exec_ok fuel → pipe_ok fuel → pipe_ok (S fuel).
Proof.
  intros He Hp t s rest Hok Hs Hfol Hf. cbn [parsepipe]. apply wp_bind.
  assert (ptoks Pipe t = ptoks Simple t ∨ ∃ l r, t = PIPE l r) as [E|(l & r & ->)].
  { destruct t; [by left..| |by left|by left]. right. by eexists _, _. }
  { rewrite E in Hs, Hf. eapply wp_mono; [apply (He t _ rest); [done|done| |lia]|].
    { eapply follows_mono; [done|]. cbn. set_solver. }
    cbn beta. intros c' s1 [Hr Hs1]. apply wp_bind, (wp_peek_stream buf _ _ _ _ Hs1). intros s2 Hs2.
    rewrite (follows_peek _ (bytes "|") rest false Hfol) by (by repeat constructor). by apply wp_ret. }
  destruct Hok as [Hokl Hokr]. cbn [ptoks] in Hs, Hf. rewrite length_app in Hf. cbn [length] in Hf.
  rewrite <- app_assoc in Hs. cbn [app] in Hs.
  eapply wp_mono; [apply (He l _ (TSym (chr "|") :: ptoks Pipe r ++ rest)); [done|done| |lia]|].
  { cbn. set_solver. }
  cbn beta. intros c' s1 [Hr Hs1]. apply wp_bind, (wp_peek_stream buf _ _ _ _ Hs1). intros s2 Hs2.
  change (in_set (first_char (TSym (chr "|"))) (bytes "|")) with true. cbv iota.
  apply wp_bind, (wp_gettoken_stream buf _ _ _ _ Hs2). intros w s3 _ Hs3.
  apply wp_bind. eapply wp_mono; [apply (Hp r _ rest); [done|done|done|lia]|]. cbn beta. intros c2 s4 [Hr2 Hs4].
  by apply wp_ret.
Qed.

Lemma block_step fuel : line_ok fuel → block_ok (S fuel).
Proof.
  intros Hl t rs s rest Hok Hrs Hs Hfol Hf. cbn [parseblock]. unfold parens in Hs, Hf. cbn [app] in Hs.
  rewrite <- app_assoc in Hs. cbn [app length] in Hs, Hf. rewrite !length_app, length_rtoks in Hf. cbn [length] in Hf.
  apply wp_bind, (wp_peek_stream buf _ _ _ _ Hs). intros s1 Hs1.
  change (in_set (first_char (TSym (chr "("))) (bytes "(")) with true. cbn [negb].
  apply wp_bind, (wp_gettoken_stream buf _ _ _ _ Hs1). intros w s2 _ Hs2.
  apply wp_bind. eapply wp_mono; [apply (Hl t _ (TSym (chr ")") :: rtoks rs ++ rest)); [done|done|cbn; set_solver|lia]|].
  cbn beta. intros c s3 [Hr Hs3]. apply wp_bind, (wp_peek_stream buf _ _ _ _ Hs3). intros s4 Hs4.
  change (in_set (first_char (TSym (chr ")"))) (bytes ")")) with true. cbn [negb].
  apply wp_bind, (wp_gettoken_stream buf _ _ _ _ Hs4). intros w5 s5 _ Hs5.
  apply (wp_redirs rs); [done|done|done| |lia]. eapply follows_peek; [done|]. by repeat constructor.
Qed.

Lemma exec_step fuel : block_ok fuel → exec_ok (S fuel).
Proof.
  intros Hb t s rest Hok Hs Hfol Hf. cbn [parseexec].
  destruct (simple_shape t) as (base & rs & -> & Hbase & E & Hok'). destruct (Hok' Hok) as [Hokb Hrs].
  rewrite E, <- app_assoc in Hs. rewrite E in Hf.
  apply wp_bind, (wp_peek_stream buf _ _ _ _ Hs). intros s1 Hs1.
  assert (ptoks Simple base = parens (ptoks Line base) ∨ ∃ argv, base = EXEC argv) as [Ep|(argv & ->)].
  { destruct base; [right; by eexists|done|by left..]. }
  { rewrite Ep in Hs1, Hf |- *. apply Hb; [done|done|done|done|lia]. }
  destruct Hokb as [Hwords Hlen]. cbn [ptoks] in Hs1, Hf. rewrite length_app, length_fmap, length_rtoks in Hf.
  assert (match (TWord <$> argv) ++ rtoks rs ++ rest with [] => false | t :: _ => in_set (first_char t) (bytes "(") end = false) as Hno.
  { destruct Hwords as [|w argv Hw]; [|apply word_first; [done|by repeat constructor]].
    destruct Hrs as [|[[f m] d] rs [_ Hm]]; cbn [fmap list_fmap app rtoks mbind list_bind].
    - eapply follows_peek; [done|]. by repeat constructor.
    - cbn in Hm. by destruct Hm as [[-> _]|[[-> _]|[-> _]]]. }
  cbn [ptoks]. rewrite Hno. apply wp_bind. destruct argv as [|w argv].
  - cbn [fmap list_fmap app length] in *.
    eapply wp_mono; [apply (wp_redirs rs _ _ (EXEC []) _ rest); [constructor|done|done| |lia]|].
    { eapply follows_peek; [done|]. by repeat constructor. }
    cbn beta. intros c s2 [Hr Hs2]. destruct fuel as [|fuel]; [lia|].
    eapply wp_mono; [by apply (wp_args_stop _ _ _ _ rest)|]. cbn beta. by intros c' s' [-> Hs'].
  - assert (is_word w) as Hw by (inversion Hwords; done).
    eapply wp_mono; [apply (wp_redirs [] _ _ (EXEC []) _ ((TWord <$> (w :: argv)) ++ rtoks rs ++ rest));
      [constructor|constructor|done|apply word_first; [done|by repeat constructor]|cbn; lia]|].
    cbn beta. intros c s2 [Hr Hs2]. destruct c as [a| | | |]; try done. apply Forall2_length in Hr as Hr'.
    destruct a; [|done]. change 0 with (Z.of_nat (length (@nil span))).
    apply (wp_args (w :: argv) fuel [] []); [constructor|done|done|done|done|done|cbn [length] in *; lia].
Qed.

Lemma parse_ok fuel : line_ok fuel ∧ pipe_ok fuel ∧ block_ok fuel ∧ exec_ok fuel.
Proof.
  induction fuel as [|fuel (Hl & Hp & Hb & He)].
  - split_and!; repeat intro; lia.
  - split_and!; [by apply line_step|by apply pipe_step|by apply block_step|by apply exec_step].
Qed.
End grammar.
