(* ===== verification/ShTheorems.v ===== *)
(** * The shell reads back the commands it could print, and wires pipelines *)

From S2P Require Import Prelude Ulib Sh ShLex ShParse.

(** ** Text of a token list *)

Definition tok_text (t : token) : list Z :=
  match t with TWord w => w | TSym c => if c =? chr "+" then bytes ">>" else [c] end.

Definition render (ts : list token) : list Z := ts ≫= λ t, tok_text t ++ [32].

Lemma render_cons t ts : render (t :: ts) = tok_text t ++ 32 :: render ts.
Proof. unfold render. cbn. by rewrite <- app_assoc. Qed.

Lemma at_app pre c post : at_ (pre ++ c :: post) (length pre) = c.
Proof. unfold at_. by rewrite list_lookup_middle. Qed.

Lemma at_word pre w post i : (i < length w)%nat → at_ (pre ++ w ++ post) (length pre + i) = w !!! i.
Proof.
  intros Hi. unfold at_. rewrite lookup_app_r by lia. rewrite lookup_app_l by lia.
  replace (length pre + i - length pre)%nat with i by lia.
  by rewrite (list_lookup_lookup_total_lt w i Hi).
Qed.

Lemma tok_first t : token_ok t → ∃ l, tok_text t = first_char t :: l ∧ is_ws (first_char t) = false.
Proof.
  destruct t as [w|c]; cbn.
  - intros [Hne Hw]. destruct w as [|c w]; [done|]. exists w. split; [done|].
    inversion Hw as [|? ? [Hc _] _]; subst. cbn. unfold word_char in Hc. by apply andb_true_iff in Hc as [Hc%negb_true_iff _].
  - intros Hc. assert (Forall (λ c, is_ws (if c =? chr "+" then chr ">" else c) = false) (bytes "|();&<>+")) as Hall
      by (by repeat constructor).
    rewrite Forall_forall in Hall. specialize (Hall c Hc). destruct (c =? chr "+"); eauto.
Qed.

(** White space before a token, and the space after it. *)
Lemma skip_ws_here pre c post : is_ws c = false → skip_ws (pre ++ c :: post) (length pre) = length pre.
Proof.
  intros Hc. apply skip_to; [rewrite length_app; cbn; lia|lia|]. right. by rewrite at_app.
Qed.

Lemma skip_ws_render pre ts :
  Forall token_ok ts → skip_ws (pre ++ 32 :: render ts) (length pre) = S (length pre).
Proof.
  intros Hts. apply skip_to.
  - rewrite length_app. cbn. lia.
  - intros i Hi. replace i with (length pre) by lia. by rewrite at_app.
  - destruct Hts as [|t ts Ht Hts].
    + left. rewrite length_app. cbn. lia.
    + right. destruct (tok_first t Ht) as (l & E & Hw).
      rewrite render_cons, E. cbn [app].
      replace (pre ++ 32 :: first_char t :: l ++ 32 :: render ts) with ((pre ++ [32]) ++ first_char t :: l ++ 32 :: render ts)
        by (by rewrite <- app_assoc).
      replace (S (length pre)) with (length (pre ++ [32])) by (rewrite length_app; cbn; lia).
      by rewrite at_app.
Qed.

Lemma skip_word pre w post :
  Forall (λ c, word_char c = true ∧ c ≠ 0) w →
  skip (pre ++ w ++ 32 :: post) word_char (length pre) = (length pre + length w)%nat.
Proof.
  intros Hw. apply skip_to.
  - rewrite !length_app. cbn. lia.
  - intros i Hi. replace i with (length pre + (i - length pre))%nat by lia. rewrite at_word by lia.
    rewrite Forall_forall in Hw. apply Hw. apply list_elem_of_lookup_total_2. lia.
  - right. rewrite app_assoc. rewrite <- length_app. by rewrite at_app.
Qed.

(** The cases of [gettoken] for a symbol [c] at [n]. *)
Lemma symbol_token c l r n (g : nat → nat) :
  c ∈ bytes "|();&<>+" → tok_text (TSym c) = first_char (TSym c) :: l →
  let d := first_char (TSym c) in
  (if in_set d (bytes "|();&<") then (d, S n)
   else if d =? chr ">" then if deref (l ++ 32 :: r) =? chr ">" then (chr "+", S (S n)) else (d, S n)
   else (chr "a", g n)) = (c, if c =? chr "+" then S (S n) else S n).
Proof.
  intros Hc El. cbn [bytes] in Hc.
  repeat (apply elem_of_cons in Hc as [->|Hc];
    [vm_compute in El; injection El as <-; vm_compute; reflexivity|]).
  by apply not_elem_of_nil in Hc.
Qed.

Lemma length_symbol c : length (tok_text (TSym c)) = if c =? chr "+" then 2%nat else 1%nat.
Proof. cbn. by destruct (c =? chr "+"). Qed.

(** [gettoken] on the text of a token. *)
Lemma gettoken_render pre t ts :
  token_ok t → Forall token_ok ts →
  let buf := pre ++ render (t :: ts) in
  gettoken_at buf (length pre) =
    (tok_code t, (length pre, length pre + length (tok_text t))%nat, (length pre + length (tok_text t) + 1)%nat).
Proof.
  intros Ht Hts buf. destruct (tok_first t Ht) as (l & El & Hws).
  assert (buf = pre ++ first_char t :: l ++ 32 :: render ts) as Eb.
  { unfold buf. by rewrite render_cons, El. }
  assert (skip_ws buf (length pre) = length pre) as Es by (rewrite Eb; by apply skip_ws_here).
  assert (at_ buf (length pre) = first_char t) as Ec by (rewrite Eb; apply at_app).
  assert (skip_ws buf (length pre + length (tok_text t)) = (length pre + length (tok_text t) + 1)%nat) as Ee.
  { unfold buf. rewrite render_cons, app_assoc, <- length_app, skip_ws_render by done. lia. }
  unfold gettoken_at. rewrite Es, Ec. pose proof (first_char_nonzero t Ht) as Hnz.
  rewrite (proj2 (Z.eqb_neq _ _) Hnz).
  destruct t as [w|c]; cbn [tok_text tok_code first_char] in *.
  - destruct Ht as [Hne Hw].
    assert (∀ toks, Forall (λ c, in_set c symbols = true) toks → in_set (deref w) toks = false) as Hno.
    { intros toks Htk. by apply word_first. }
    rewrite Hno by (by repeat constructor).
    assert ((deref w =? chr ">") = false) as ->.
    { apply Z.eqb_neq. intros E. specialize (Hno [chr ">"]). rewrite E in Hno. discriminate Hno. by repeat constructor. }
    change (λ c, negb (in_set c whitespace) && negb (in_set c symbols)) with word_char.
    assert (skip buf word_char (length pre) = (length pre + length w)%nat) as ->.
    { unfold buf. rewrite render_cons. by apply skip_word. }
    by rewrite Ee.
  - assert (at_ buf (S (length pre)) = deref (l ++ 32 :: render ts)) as En.
    { rewrite Eb. replace (pre ++ _ :: l ++ 32 :: render ts) with ((pre ++ [if c =? chr "+" then chr ">" else c]) ++ l ++ 32 :: render ts)
        by (by rewrite <- app_assoc). unfold at_, deref. rewrite lookup_app_r by (rewrite length_app; cbn; lia).
      rewrite length_app. cbn [length]. replace (S (length pre) - (length pre + 1))%nat with 0%nat by lia.
      by destruct (l ++ 32 :: render ts). }
    rewrite En. cbn [token_ok] in Ht. rewrite (symbol_token c l (render ts) (length pre) _ Ht El).
    change (if c =? chr "+" then bytes ">>" else [c]) with (tok_text (TSym c)) in Ee |- *. rewrite length_symbol in Ee |- *.
    replace (if c =? chr "+" then S (S (length pre)) else S (length pre))
      with (length pre + (if (c =? chr "+")%Z then 2 else 1))%nat by (destruct (c =? chr "+"); lia).
    by rewrite Ee.
Qed.

Lemma stream_render pre ts :
  Forall token_ok ts → stream (pre ++ render ts) (length pre) ts.
Proof.
  intros Hts. revert pre. induction Hts as [|t ts Ht Hts IH]; intros pre.
  - apply stream_nil; rewrite app_nil_r; [lia|]. apply skip_to; [lia|lia|by left].
  - pose proof (gettoken_render pre t ts Ht Hts) as Hg. destruct (tok_first t Ht) as (l & El & Hws).
    assert (pre ++ render (t :: ts) = (pre ++ tok_text t ++ [32]) ++ render ts) as E
      by (rewrite render_cons, <- !app_assoc; done).
    eapply stream_cons; [|exact Hg| |done| |].
    + rewrite length_app. lia.
    + rewrite render_cons, El. cbn [app]. rewrite skip_ws_here by done. apply at_app.
    + destruct t as [w|c]; [|done]. cbn [span_ok tok_text]. unfold holds. cbn [fst snd]. split; [|split; [|split]].
      * rewrite length_app, render_cons, length_app. cbn. lia.
      * rewrite drop_app_length, render_cons. cbn [tok_text].
        replace (length pre + length w - length pre)%nat with (length w) by lia. apply take_app_length.
      * done.
      * right. rewrite render_cons. cbn [tok_text]. rewrite app_assoc, <- length_app, at_app. done.
    + rewrite E. replace (length pre + length (tok_text t) + 1)%nat with (length (pre ++ tok_text t ++ [32])); [apply IH|].
      rewrite !length_app. cbn. lia.
Qed.

(** ** Terminators *)

Section terminators.
Context (buf : list Z).
Abbreviation es := (length buf).

(** A buffer that still has every word of the line. *)
Definition keeps_words (b : list Z) : Prop :=
  length b = S es ∧ ∀ i, (i < es)%nat → word_char (at_ buf i) = true → b !! i = Some (at_ buf i).

(** The strings of a tree are terminated. *)
Fixpoint terminated (b : list Z) (c : cmd span) : Prop :=
  match c with
  | EXEC argv => Forall (λ w : span, b !! w.2 = Some 0) argv
  | REDIR c w _ _ => terminated b c ∧ b !! w.2 = Some 0
  | PIPE l r | LIST l r => terminated b l ∧ terminated b r
  | BACK c => terminated b c
  end.

Lemma keeps_words_start : keeps_words (buf ++ [0]).
Proof.
  split; [rewrite length_app; cbn; lia|]. intros i Hi _. rewrite lookup_app_l by done.
  unfold at_. destruct (buf !! i) eqn:E; [done|]. apply lookup_ge_None in E. lia.
Qed.

Lemma keeps_words_insert b w l : holds buf w l → keeps_words b → keeps_words (<[w.2 := 0]> b).
Proof.
  intros (_ & _ & _ & Hend) [Hlen Hw]. split; [by rewrite length_insert|]. intros i Hi Hc.
  rewrite list_lookup_insert_ne; [by apply Hw|]. intros E. destruct Hend as [Hend|Hend]; [lia|congruence].
Qed.

(** Storing terminators keeps the ones already there. *)
Definition zeros_kept (b b' : list Z) : Prop := ∀ i, b !! i = Some 0 → b' !! i = Some 0.

Lemma zeros_insert b i : zeros_kept b (<[i := 0]> b).
Proof.
  intros j Hj. destruct (decide (i = j)) as [->|]; [|by rewrite list_lookup_insert_ne].
  apply list_lookup_insert_eq. by eapply lookup_lt_Some.
Qed.

Lemma terminated_mono b b' c : zeros_kept b b' → terminated b c → terminated b' c.
Proof.
  intros Hz. induction c as [argv|c IH w m f|l IHl r IHr|l IHl r IHr|c IH]; cbn; try naive_solver.
  rewrite !Forall_forall. naive_solver.
Qed.

Lemma nulterminate_argv argv b bs :
  Forall2 (holds buf) argv bs → keeps_words b →
  let b' := foldl (λ b (w : span), <[w.2 := 0]> b) b argv in
  keeps_words b' ∧ Forall (λ w : span, b' !! w.2 = Some 0) argv ∧ zeros_kept b b'.
Proof.
  intros Ha. revert b. induction Ha as [|w l argv ls Hw Ha IH]; intros b Hb; cbn; [split; [done|]; split; [constructor|by intros i]|].
  destruct (IH (<[w.2 := 0]> b)) as (H1 & H2 & H3); [by eapply keeps_words_insert|].
  split; [done|]. split; [|intros i Hi; by apply H3, zeros_insert].
  constructor; [|done]. apply H3, list_lookup_insert_eq. destruct Hb as [-> _]. destruct Hw as ((_ & Hle) & _). lia.
Qed.

Lemma nulterminate_spec c t b :
  rep buf c t → keeps_words b →
  keeps_words (nulterminate c b) ∧ terminated (nulterminate c b) c ∧ zeros_kept b (nulterminate c b).
Proof.
  revert t b. induction c as [argv|c IH w m f|l IHl r IHr|l IHl r IHr|c IH]; intros t b Hr Hb;
    destruct t as [ls|t file mode fd|l' r'|l' r'|t]; try done; cbn [nulterminate].
  - by apply (nulterminate_argv argv b ls).
  - destruct Hr as (Hr & Hw & _). destruct (IH t b Hr Hb) as (H1 & H2 & H3). split; [by eapply keeps_words_insert|].
    split; [split; [|]|].
    + eapply terminated_mono; [|done]. apply zeros_insert.
    + apply list_lookup_insert_eq. destruct H1 as [-> _]. destruct Hw as ((_ & Hle) & _). lia.
    + intros i Hi. by apply zeros_insert, H3.
  - destruct Hr as [Hl Hr]. destruct (IHl _ _ Hl Hb) as (H1 & H2 & H3). destruct (IHr _ _ Hr H1) as (G1 & G2 & G3).
    split; [done|]. split; [split; [by eapply terminated_mono|done]|]. intros i Hi. by apply G3, H3.
  - destruct Hr as [Hl Hr]. destruct (IHl _ _ Hl Hb) as (H1 & H2 & H3). destruct (IHr _ _ Hr H1) as (G1 & G2 & G3).
    split; [done|]. split; [split; [by eapply terminated_mono|done]|]. intros i Hi. by apply G3, H3.
  - by apply (IH t).
Qed.

Lemma cstring_word l post : Forall (λ c, word_char c = true ∧ c ≠ 0) l → cstring (l ++ 0 :: post) = l.
Proof. induction 1 as [|c l [_ Hc] _ IH]; cbn; [done|]. by rewrite (proj2 (Z.eqb_neq _ _) Hc), IH. Qed.

Lemma string_at b w l :
  keeps_words b → b !! w.2 = Some 0 → holds buf w l → cstring (drop w.1 b) = l.
Proof.
  intros [Hlen Hb] H0 ((H1 & H2) & Ht & [Hne Hw] & _). destruct w as [q e]. cbn [fst snd] in *.
  replace (drop q b) with (l ++ 0 :: drop (S e) b); [by apply cstring_word|].
  rewrite <- (take_drop (e - q) (drop q b)). f_equal.
  - subst l. apply list_eq. intros i. destruct (decide (i < e - q)%nat) as [Hi|Hi].
    + rewrite !lookup_take_lt, !lookup_drop by lia.
      assert (word_char (at_ buf (q + i)) = true) as Hc.
      { rewrite Forall_forall in Hw. apply Hw, list_elem_of_lookup. exists i.
        rewrite lookup_take_lt, lookup_drop by lia. unfold at_.
        destruct (buf !! (q + i)%nat) eqn:E; [done|]. apply lookup_ge_None in E. lia. }
      rewrite Hb by (done || lia). unfold at_.
      destruct (buf !! (q + i)%nat) eqn:E; [done|]. apply lookup_ge_None in E. lia.
    + rewrite !lookup_take_ge by lia. done.
  - rewrite drop_drop. replace (q + (e - q))%nat with e by lia. symmetry. by apply drop_S.
Qed.

Lemma strings_rep b c t : keeps_words b → terminated b c → rep buf c t → strings b c = t.
Proof.
  intros Hb. revert t. induction c as [argv|c IH w m f|l IHl r IHr|l IHl r IHr|c IH]; intros t Ht Hr;
    destruct t as [ls|t file mode fd|l' r'|l' r'|t]; try done; cbn in *.
  - f_equal. revert Ht. induction Hr as [|w l argv ls Hw Ha IH]; [done|]. intros Ht. inversion Ht; subst. cbn.
    rewrite (string_at b w l) by done. f_equal. by apply IH.
  - destruct Hr as (Hr & Hw & -> & ->), Ht as [Ht H0]. by rewrite (IH t), (string_at b w file).
  - destruct Hr, Ht. by rewrite (IHl l'), (IHr r').
  - destruct Hr, Ht. by rewrite (IHl l'), (IHr r').
  - by rewrite (IH t).
Qed.
End terminators.

(** ** Round trip *)

Lemma ptoks_ok lv t : tree_ok t → Forall token_ok (ptoks lv t).
Proof.
  revert lv. induction t as [argv|c IH file mode fd|l IHl r IHr|l IHl r IHr|c IH]; intros lv Hok; cbn [ptoks].
  - destruct Hok as [Hw _]. apply Forall_fmap. done.
  - destruct Hok as (Hc & Hf & Hm). apply Forall_app. split; [by apply IH|]. constructor; [|by constructor].
    unfold redir_tok. cbn. repeat case_match; set_solver.
  - destruct Hok as [Hl Hr].
    assert (Forall token_ok (ptoks Simple l ++ TSym (chr "|") :: ptoks Pipe r)) as H.
    { apply Forall_app. split; [by apply IHl|]. constructor; [cbn; set_solver|by apply IHr]. }
    destruct lv; try done. unfold parens. constructor; [cbn; set_solver|]. apply Forall_app. split; [done|].
    constructor; [cbn; set_solver|constructor].
  - destruct Hok as [Hl Hr].
    assert (Forall token_ok (ptoks Back l ++ TSym (chr ";") :: ptoks Line r)) as H.
    { apply Forall_app. split; [by apply IHl|]. constructor; [cbn; set_solver|by apply IHr]. }
    destruct lv; try done; unfold parens; (constructor; [cbn; set_solver|]); (apply Forall_app; split; [done|]);
      (constructor; [cbn; set_solver|constructor]).
  - assert (Forall token_ok (ptoks Back c ++ [TSym (chr "&")])) as H.
    { apply Forall_app. split; [by apply IH|]. constructor; [cbn; set_solver|constructor]. }
    destruct lv; try done; unfold parens; (constructor; [cbn; set_solver|]); (apply Forall_app; split; [done|]);
      (constructor; [cbn; set_solver|constructor]).
Qed.

Lemma length_render ts : Forall token_ok ts → (length ts ≤ length (render ts))%nat.
Proof.
  induction 1 as [|t ts Ht _ IH]; [done|]. rewrite render_cons, length_app. cbn [length]. lia.
Qed.

(** C25: Every command tree survives printing and parsing: the shell's parser,
    applied to the text of the tree, returns a tree whose strings, as [runcmd]
    reads them from the line after [nulterminate], are the ones printed. *)
Theorem parse_print_roundtrip t :
  tree_ok t →
  ∃ c b, parsecmd (render (ptoks Line t)) = Done (c, b) ∧ strings b c = t.
Proof.
  intros Hok. set (line := render (ptoks Line t)).
  pose proof (ptoks_ok Line t Hok) as Htok.
  pose proof (stream_render [] (ptoks Line t) Htok) as Hs. cbn [app length] in Hs. fold line in Hs.
  destruct (parse_ok line (parse_fuel line)) as (Hl & _).
  pose proof (length_render _ Htok) as Hlen. fold line in Hlen.
  assert (wp (parseline line (parse_fuel line)) (λ c s', rep line c t ∧ stream line s' []) 0%nat) as Hwp.
  { apply Hl; [done|by rewrite app_nil_r|done|unfold parse_fuel; lia]. }
  apply wp_inv in Hwp as (c & p & Ep & Hr & Hp).
  unfold parsecmd. rewrite Ep. unfold peek. inversion Hp as [? Hb Hk|]; subst. rewrite Hk, Nat.eqb_refl. cbn [negb].
  destruct (nulterminate_spec line c t (line ++ [0]) Hr (keeps_words_start line)) as (H1 & H2 & _).
  eexists c, _. split; [done|]. by apply (strings_rep line).
Qed.

(** [(ls > x; cat < x | wc >> y &)] *)
Definition demo_tree : cmd (list Z) :=
  LIST (REDIR (EXEC [bytes "ls"]) (bytes "x") (Z.lor (Z.lor O_WRONLY O_CREATE) O_TRUNC) 1)
    (BACK (PIPE (REDIR (EXEC [bytes "cat"; bytes "-n"]) (bytes "x") O_RDONLY 0)
                (REDIR (LIST (EXEC [bytes "wc"]) (EXEC [])) (bytes "y") (Z.lor O_WRONLY O_CREATE) 1))).

Lemma parse_print_roundtrip_witness :
  ∃ c b, parsecmd (render (ptoks Line demo_tree)) = Done (c, b) ∧ strings b c = demo_tree.
Proof.
  apply (parse_print_roundtrip demo_tree).
  assert (∀ s, bool_decide (bytes s ≠ []) && forallb (λ c, word_char c && negb (c =? 0)) (bytes s) = true → is_word (bytes s)) as Hw.
  { intros s [H1%bool_decide_eq_true H2]%andb_true_iff. split; [done|]. apply Forall_forall. intros c Hc.
    apply list_elem_of_In in Hc. apply forallb_forall with (x := c) in H2; [|done].
    apply andb_true_iff in H2 as [H2 H3%negb_true_iff]. split; [done|]. by apply Z.eqb_neq. }
  cbn [demo_tree tree_ok]. split_and!; repeat (apply Forall_cons; split); try (apply Hw; by vm_compute);
    try apply Forall_nil_2; try done; auto.
Defined.

(** ** Descriptors of a pipeline *)

(** What an open descriptor refers to. *)
Inductive fobj := Inherited (n : nat) | File (name : list Z) (mode : Z) | PipeR (id : nat) | PipeW (id : nat).

Abbreviation fdtable := (list (option fobj)).

Fixpoint lowest_free (fds : fdtable) : option nat :=
  match fds with
  | [] => None
  | None :: _ => Some O
  | Some _ :: fds' => S <$> lowest_free fds'
  end.

Definition alloc_fd (o : fobj) (fds : fdtable) : option (nat * fdtable) :=
  fd ← lowest_free fds; Some (fd, <[fd := Some o]> fds).

Inductive pevent := EvExec (argv : list (list Z)) (fds : fdtable) | EvExit (status : Z) (fds : fdtable).

(** Every [exec] and [exit] of the processes of a program, with the descriptors
    of the process, when opens and execs succeed; [id] numbers the pipes. *)
Fixpoint run (p : prog) (id : nat) (fds : fdtable) : list pevent :=
  match p with
  | Exit st => [EvExit st fds]
  | Exec argv _ => [EvExec argv fds]
  | Close fd k => run k id (<[Z.to_nat fd := None]> fds)
  | Open file mode failed ok =>
      match alloc_fd (File file mode) fds with
      | Some (_, fds) => run ok id fds
      | None => run failed id fds
      end
  | Dup fd k =>
      match fds !! Z.to_nat fd with
      | Some (Some o) => match alloc_fd o fds with Some (_, fds) => run k id fds | None => run k id fds end
      | _ => run k id fds
      end
  | MkPipe k =>
      match alloc_fd (PipeR id) fds with
      | None => [EvExit 1 fds]
      | Some (p0, fds1) =>
          match alloc_fd (PipeW id) fds1 with
          | None => [EvExit 1 fds]
          | Some (p1, fds2) => run (k (Z.of_nat p0) (Z.of_nat p1)) (S id) fds2
          end
      end
  | Fork child parent => run child id fds ++ run parent id fds
  | Wait k => run k id fds
  | Complain _ k => run k id fds
  end.

Lemma lowest_free_spec fds i :
  lowest_free fds = Some i → fds !! i = Some None ∧ ∀ j, (j < i)%nat → ∃ o, fds !! j = Some (Some o).
Proof.
  revert i. induction fds as [|[o|] fds IH]; intros i; cbn; [done| |].
  - destruct (lowest_free fds) as [k|]; [|done]. intros [= <-]. destruct (IH k eq_refl) as [H1 H2]. split; [done|].
    intros [|j] Hj; [by exists o|]. apply H2. lia.
  - intros [= <-]. split; [done|lia].
Qed.

Lemma lowest_free_intro fds i :
  fds !! i = Some None → (∀ j, (j < i)%nat → ∃ o, fds !! j = Some (Some o)) → lowest_free fds = Some i.
Proof.
  revert i. induction fds as [|x fds IH]; intros i Hi Hj; [done|]. destruct i as [|i].
  - cbn in Hi. by injection Hi as ->.
  - destruct (Hj 0%nat) as [o Ho]; [lia|]. cbn in Ho. injection Ho as ->. cbn. rewrite (IH i); [done|done|].
    intros j Hlt. apply (Hj (S j)). lia.
Qed.

(** [close(fd); dup(p); close(p0); close(p1)] moves an end of the pipe to [fd]. *)
Lemma move_end fds fd p0 p1 o o' keep k id :
  (fd < p0)%nat → (p0 < p1)%nat → fds !! p0 = Some None → fds !! p1 = Some None → fds !! fd = Some (Some keep) →
  (∀ j, (j < fd)%nat → ∃ o, fds !! j = Some (Some o)) →
  let fds2 := <[p1 := Some o']> (<[p0 := Some o]> fds) in
  run (Close (Z.of_nat fd) (Dup (Z.of_nat p1) (Close (Z.of_nat p0) (Close (Z.of_nat p1) k)))) id fds2
    = run k id (<[fd := Some o']> fds) ∧
  run (Close (Z.of_nat fd) (Dup (Z.of_nat p0) (Close (Z.of_nat p0) (Close (Z.of_nat p1) k)))) id fds2
    = run k id (<[fd := Some o]> fds).
Proof.
  intros H1 H2 Hp0 Hp1 Hfd Hlow fds2. cbn [run]. rewrite !Nat2Z.id.
  pose proof (lookup_lt_Some _ _ _ Hp1) as L1.
  assert (∀ x : option fobj, <[p1 := None]> (<[p0 := None]> (<[fd := x]> (<[fd := None]> fds2))) = <[fd := x]> fds) as Hback.
  { intros x. apply list_eq. intros j. unfold fds2.
    destruct (decide (j = p1)) as [->|].
    { rewrite list_lookup_insert_eq by (rewrite !length_insert; lia). rewrite list_lookup_insert_ne by lia. done. }
    rewrite list_lookup_insert_ne by done. destruct (decide (j = p0)) as [->|].
    { rewrite list_lookup_insert_eq by (rewrite !length_insert; lia). rewrite list_lookup_insert_ne by lia. done. }
    rewrite list_lookup_insert_ne by done. destruct (decide (j = fd)) as [->|].
    { rewrite !list_lookup_insert_eq by (rewrite ?length_insert; lia). done. }
    rewrite !list_lookup_insert_ne by done. done. }
  assert (lowest_free (<[fd := None]> fds2) = Some fd) as Hl.
  { apply lowest_free_intro.
    - apply list_lookup_insert_eq. unfold fds2. rewrite !length_insert. lia.
    - intros j Hj. unfold fds2. rewrite !list_lookup_insert_ne by lia. by apply Hlow. }
  unfold alloc_fd. rewrite Hl. cbn [mbind option_bind].
  assert ((<[fd := None]> fds2) !! p1 = Some (Some o') ∧ (<[fd := None]> fds2) !! p0 = Some (Some o)) as [-> ->].
  { unfold fds2. rewrite !(list_lookup_insert_ne _ fd) by lia. split.
    - apply list_lookup_insert_eq. rewrite length_insert. lia.
    - rewrite list_lookup_insert_ne by lia. apply list_lookup_insert_eq. lia. }
  by rewrite !Hback.
Qed.

(** C27: A pipeline [l | r] started with standard input and output open runs [l]
    with its output, and only its output, on the write end and [r] with its
    input on the read end; the other copies of the ends are closed, in the
    shell too, so that the reader sees the end of the input. *)
Theorem pipeline_descriptors l r id fds i o p0 p1 :
  fds !! 0%nat = Some (Some i) → fds !! 1%nat = Some (Some o) →
  lowest_free fds = Some p0 → lowest_free (<[p0 := Some (PipeR id)]> fds) = Some p1 →
  run (runcmd (PIPE l r)) id fds =
    run (runcmd l) (S id) (<[1%nat := Some (PipeW id)]> fds) ++
    run (runcmd r) (S id) (<[0%nat := Some (PipeR id)]> fds) ++
    [EvExit 0 fds].
Proof.
  intros H0 H1 Hp0 Hp1. apply lowest_free_spec in Hp0 as Hs0. destruct Hs0 as [Hf0 Hb0].
  apply lowest_free_spec in Hp1 as Hs1. destruct Hs1 as [Hf1 Hb1]. pose proof (lookup_lt_Some _ _ _ Hf0) as L0.
  assert (1 < p0)%nat as Hlt0.
  { destruct p0 as [|[|p0]]; [congruence|congruence|lia]. }
  assert (p0 ≠ p1) as Hne by (intros <-; rewrite list_lookup_insert_eq in Hf1 by done; done).
  rewrite list_lookup_insert_ne in Hf1 by done.
  assert (p0 < p1)%nat as Hlt1.
  { destruct (decide (p1 < p0)%nat) as [Hc|]; [|lia]. destruct (Hb0 p1 Hc) as [x Hx]. congruence. }
  cbn [runcmd run]. unfold alloc_fd at 1. rewrite Hp0. cbn [mbind option_bind]. unfold alloc_fd at 1. rewrite Hp1. cbn [mbind option_bind].
  destruct (move_end fds 1 p0 p1 (PipeR id) (PipeW id) o (runcmd l) (S id)) as [E1 _]; [lia|lia|done|done|done| |].
  { intros j Hj. exists i. by replace j with 0%nat by lia. }
  destruct (move_end fds 0 p0 p1 (PipeR id) (PipeW id) i (runcmd r) (S id)) as [_ E2]; [lia|lia|done|done|done|lia|].
  f_equal; [exact E1|]. f_equal; [exact E2|].
  rewrite !Nat2Z.id. do 2 f_equal. apply list_eq. intros j. destruct (decide (j = p1)) as [->|].
  { rewrite list_lookup_insert_eq by (rewrite !length_insert; by eapply lookup_lt_Some). done. }
  rewrite list_lookup_insert_ne by done. destruct (decide (j = p0)) as [->|].
  { rewrite list_lookup_insert_eq by (rewrite !length_insert; done). done. }
  by rewrite !list_lookup_insert_ne by done.
Qed.

Lemma pipeline_descriptors_witness :
  let fds := [Some (Inherited 0); Some (Inherited 1); Some (Inherited 2); None; None] in
  run (runcmd (PIPE (EXEC [bytes "ls"]) (EXEC [bytes "wc"]))) 7 fds =
    [EvExec [bytes "ls"] [Some (Inherited 0); Some (PipeW 7); Some (Inherited 2); None; None];
     EvExec [bytes "wc"] [Some (PipeR 7); Some (Inherited 1); Some (Inherited 2); None; None];
     EvExit 0 fds].
Proof.
  intros fds.
  rewrite (pipeline_descriptors (EXEC [bytes "ls"]) (EXEC [bytes "wc"]) 7 fds (Inherited 0) (Inherited 1) 3 4); reflexivity.
Defined.
