(* ===== verification/Spinlock.v ===== *)
(** * kernel/spinlock.c: spin locks and the interrupt flag

    A lock is its [locked] word and the CPU recorded in [cpu]; a CPU has its
    [push_off] depth, the saved flag and the interrupt-enable flag.  [acquire] and
    [release] are sequences of the atomic actions they perform, so that several
    CPUs can be interleaved between them (SpinTheorems.v). *)

From S2P Require Import Prelude.

Record spinlock := Lock { locked : bool; lcpu : option nat }.
#[export] Instance spinlock_inhabited : Inhabited spinlock := populate (Lock false None).

Record icpu := ICpu { noff : Z; intena : bool; intr : bool }.
#[export] Instance icpu_inhabited : Inhabited icpu := populate (ICpu 0 false false).

Record spin := Spin { lks : list spinlock; icpus : list icpu }.

Definition upd_lock (l : nat) (x : spinlock) : M spin unit := modify (λ s, Spin (<[l := x]> (lks s)) (icpus s)).
Definition upd_icpu (c : nat) (x : icpu) : M spin unit := modify (λ s, Spin (lks s) (<[c := x]> (icpus s))).

Definition initlock (l : nat) : M spin unit := upd_lock l (Lock false None).

(** [mycpu()] is the CPU [c] that runs the code. *)
Section cpu.
Context (c : nat).

Definition intr_on : M spin unit := x ← gets (λ s, icpus s !!! c); upd_icpu c (ICpu (noff x) (intena x) true).
Definition intr_off : M spin unit := x ← gets (λ s, icpus s !!! c); upd_icpu c (ICpu (noff x) (intena x) false).
Definition intr_get : M spin bool := gets (λ s, intr (icpus s !!! c)).

Definition push_off : M spin unit :=
  old ← intr_get;
  intr_off;;
  x ← gets (λ s, icpus s !!! c);
  (if noff x =? 0 then upd_icpu c (ICpu (noff x) old (intr x)) else ret tt);;
  x ← gets (λ s, icpus s !!! c);
  upd_icpu c (ICpu (noff x + 1) (intena x) (intr x)).

Definition pop_off : M spin unit :=
  on ← intr_get;
  if (on : bool) then panic "pop_off - interruptible"
  else
    x ← gets (λ s, icpus s !!! c);
    if noff x <? 1 then panic "pop_off"
    else
      upd_icpu c (ICpu (noff x - 1) (intena x) (intr x));;
      x ← gets (λ s, icpus s !!! c);
      if (noff x =? 0) && intena x then intr_on else ret tt.

Definition holding (l : nat) : M spin bool :=
  k ← gets (λ s, lks s !!! l);
  ret (locked k && bool_decide (lcpu k = Some c)).

(** [acquire] up to the loop, one turn of the loop, and the rest. *)
Definition acquire_begin (l : nat) : M spin unit :=
  push_off;;
  h ← holding l;
  if (h : bool) then panic "acquire" else ret tt.

Definition test_and_set (l : nat) : M spin bool :=
  k ← gets (λ s, lks s !!! l);
  upd_lock l (Lock true (lcpu k));;
  ret (locked k).

Definition acquire_end (l : nat) : M spin unit :=
  k ← gets (λ s, lks s !!! l);
  upd_lock l (Lock (locked k) (Some c)).

(** Without other CPUs: a lock that is held stays held, the loop spins. *)
Definition acquire (l : nat) : M spin unit :=
  acquire_begin l;;
  busy ← test_and_set l;
  if (busy : bool) then out_of_fuel else acquire_end l.

(** [release] up to the fence, and the rest. *)
Definition release_begin (l : nat) : M spin unit :=
  h ← holding l;
  if negb h then panic "release"
  else
    k ← gets (λ s, lks s !!! l);
    upd_lock l (Lock (locked k) None).

Definition release_end (l : nat) : M spin unit :=
  k ← gets (λ s, lks s !!! l);
  upd_lock l (Lock false (lcpu k));;
  pop_off.

Definition release (l : nat) : M spin unit := release_begin l;; release_end l.
End cpu.
