(* ===== verification/SpinTheorems.v ===== *)
(** * Mutual exclusion and interrupts, for every interleaving of the CPUs *)

From S2P Require Import Prelude Spinlock.

(** Where a CPU is inside [acquire] or [release]. *)
Inductive mode := Idle | Spinning (l : nat) | Got (l : nat) | Releasing (l : nat).

#[export] Instance mode_inhabited : Inhabited mode := populate Idle.

(** The machine with the mode of each CPU and the locks it has acquired. *)
Record cfg := Cfg { sp : spin; modes : list mode; helds : list (list nat) }.

Inductive sevent :=
  | Begin (c l : nat)        (* acquire(l) is called *)
  | Turn (c : nat)           (* one turn of the loop *)
  | Mark (c : nat)           (* lk->cpu = mycpu() *)
  | Drop (c l : nat)         (* release(l) is called *)
  | Unlock (c : nat)         (* the rest of release *)
  | Intr (c : nat) (b : bool).  (* intr_on, intr_off outside any push_off *)

Definition run_spin (m : M spin unit) (c : nat) (md : mode) (h : list nat) (s : cfg) : option cfg :=
  match m (sp s) with
  | Done (_, sp') => Some (Cfg sp' (<[c := md]> (modes s)) (<[c := h]> (helds s)))
  | _ => None
  end.

(** [None]: the event cannot happen now, or the kernel panics. *)
Definition sstep (s : cfg) (e : sevent) : option cfg :=
  match e with
  | Begin c l =>
      match modes s !! c with
      | Some Idle => run_spin (acquire_begin c l) c (Spinning l) (helds s !!! c) s
      | _ => None
      end
  | Turn c =>
      match modes s !! c with
      | Some (Spinning l) =>
          match test_and_set l (sp s) with
          | Done (busy, sp') => Some (Cfg sp' (if busy then modes s else <[c := Got l]> (modes s)) (helds s))
          | _ => None
          end
      | _ => None
      end
  | Mark c =>
      match modes s !! c with
      | Some (Got l) => run_spin (acquire_end c l) c Idle (l :: helds s !!! c) s
      | _ => None
      end
  | Drop c l =>
      match modes s !! c with
      | Some Idle => run_spin (release_begin c l) c (Releasing l) (filter (l ≠.) (helds s !!! c)) s
      | _ => None
      end
  | Unlock c =>
      match modes s !! c with
      | Some (Releasing l) => run_spin (release_end c l) c Idle (helds s !!! c) s
      | _ => None
      end
  | Intr c b =>
      match modes s !! c with
      | Some Idle =>
          if noff (icpus (sp s) !!! c) =? 0
          then run_spin (if b then intr_on c else intr_off c) c Idle (helds s !!! c) s
          else None
      | _ => None
      end
  end.

Fixpoint srun (s : cfg) (es : list sevent) : option cfg :=
  match es with
  | [] => Some s
  | e :: es' => s' ← sstep s e; srun s' es'
  end.

(** ** The actions as updates *)

Section actions.
Implicit Types (s : spin) (c l : nat).

Definition set_icpu c x s : spin := Spin (lks s) (<[c := x]> (icpus s)).
Definition set_lk l x s : spin := Spin (<[l := x]> (lks s)) (icpus s).

Lemma push_off_eq c s :
  (c < length (icpus s))%nat →
  let x := icpus s !!! c in
  push_off c s = Done (tt, set_icpu c (ICpu (noff x + 1) (if noff x =? 0 then intr x else intena x) false) s).
Proof.
  intros Hc x. unfold push_off, intr_get, intr_off, upd_icpu, set_icpu, gets, modify, mbind, M_bind. cbn.
  rewrite list_insert_lookup, decide_True by done. cbn. fold x. destruct (noff x =? 0) eqn:E; cbn.
  - rewrite list_insert_lookup, decide_True by (done || by rewrite length_insert). cbn.
    by rewrite !list_insert_insert_eq.
  - rewrite list_insert_lookup, decide_True by done. cbn. by rewrite !list_insert_insert_eq.
Qed.

Lemma pop_off_eq c s :
  (c < length (icpus s))%nat → intr (icpus s !!! c) = false → 1 ≤ noff (icpus s !!! c) →
  let x := icpus s !!! c in
  pop_off c s = Done (tt, set_icpu c (ICpu (noff x - 1) (intena x) ((noff x - 1 =? 0) && intena x)) s).
Proof.
  intros Hc Hi Hn x. unfold pop_off, intr_get, intr_on, upd_icpu, set_icpu, gets, modify, mbind, M_bind. cbn.
  rewrite Hi. rewrite (proj2 (Z.ltb_ge _ _)) by done. cbn.
  rewrite list_insert_lookup, decide_True by done. cbn. fold x. destruct ((noff x - 1 =? 0) && intena x) eqn:E; cbn.
  - rewrite list_insert_lookup, decide_True by done. cbn. by rewrite !list_insert_insert_eq.
  - unfold x in *. by rewrite Hi.
Qed.

Lemma acquire_begin_inv c l s s' :
  (c < length (icpus s))%nat → acquire_begin c l s = Done (tt, s') →
  let x := icpus s !!! c in
  s' = set_icpu c (ICpu (noff x + 1) (if noff x =? 0 then intr x else intena x) false) s ∧
  (locked (lks s !!! l) = true → lcpu (lks s !!! l) ≠ Some c).
Proof.
  intros Hc H x. unfold acquire_begin in H. erewrite bind_done in H by (by apply push_off_eq).
  unfold holding, gets, mbind, M_bind in H. cbn in H.
  destruct (locked (lks s !!! l)) eqn:E1; cbn in H.
  - destruct (bool_decide _) eqn:E2; [done|]. apply bool_decide_eq_false in E2. injection H as E. split; [by symmetry|done].
  - injection H as E. split; [by symmetry|done].
Qed.

Lemma release_begin_inv c l s s' :
  release_begin c l s = Done (tt, s') →
  locked (lks s !!! l) = true ∧ lcpu (lks s !!! l) = Some c ∧ s' = set_lk l (Lock true None) s.
Proof.
  unfold release_begin, holding, gets, upd_lock, modify, mbind, M_bind. cbn.
  destruct (locked (lks s !!! l)) eqn:E1; cbn; [|done].
  destruct (bool_decide _) eqn:E2; [|done]. apply bool_decide_eq_true in E2. cbn. intros [= <-].
  split; [done|]. split; [done|]. by rewrite E1.
Qed.
End actions.

Section locks.
Context (ncpu nlock : nat).
Implicit Types (s : cfg) (c l : nat).

(** CPU [c] owns lock [l]: it has set the word and not yet cleared it. *)
Definition owns s c l : Prop :=
  l ∈ helds s !!! c ∨ modes s !!! c = Got l ∨ modes s !!! c = Releasing l.

Definition busy (m : mode) : Z := match m with Idle => 0 | _ => 1 end.

Record spin_ok s : Prop := {
  so_len : length (modes s) = ncpu ∧ length (helds s) = ncpu ∧ length (icpus (sp s)) = ncpu ∧ length (lks (sp s)) = nlock;
  so_spin c l : (c < ncpu)%nat → modes s !!! c = Spinning l → (l < nlock)%nat;
  so_owned c l : (c < ncpu)%nat → owns s c l → (l < nlock)%nat ∧ locked (lks (sp s) !!! l) = true;
  so_free l : (∀ c, (c < ncpu)%nat → ¬ owns s c l) → locked (lks (sp s) !!! l) = false;
  so_excl c c' l : (c < ncpu)%nat → (c' < ncpu)%nat → owns s c l → owns s c' l → c = c';
  so_cpu c l : lcpu (lks (sp s) !!! l) = Some c ↔ (c < ncpu)%nat ∧ l ∈ helds s !!! c;
  so_nodup c : (c < ncpu)%nat → NoDup (helds s !!! c);
  so_apart c l : (c < ncpu)%nat → modes s !!! c = Got l ∨ modes s !!! c = Releasing l → l ∉ helds s !!! c;
  so_noff c : (c < ncpu)%nat → noff (icpus (sp s) !!! c) = Z.of_nat (length (helds s !!! c)) + busy (modes s !!! c);
  so_intr c : (c < ncpu)%nat → 0 < noff (icpus (sp s) !!! c) → intr (icpus (sp s) !!! c) = false;
}.

(** A step of CPU [c] that leaves the locks alone: only its mode and its
    interrupt state change. *)
Lemma local_step s c md x :
  spin_ok s → (c < ncpu)%nat →
  (∀ l, md = Got l ↔ modes s !!! c = Got l) → (∀ l, md = Releasing l ↔ modes s !!! c = Releasing l) →
  (∀ l, md = Spinning l → (l < nlock)%nat) →
  noff x = Z.of_nat (length (helds s !!! c)) + busy md → (0 < noff x → intr x = false) →
  spin_ok (Cfg (set_icpu c x (sp s)) (<[c := md]> (modes s)) (<[c := helds s !!! c]> (helds s))).
Proof.
  intros [(L1 & L2 & L3 & L4) H2 H3 H4 H5 H6 H7 H8 H9 H10] Hc Hg Hr Hsp Hn Hi.
  set (s' := Cfg _ _ _).
  assert (∀ d, helds s' !!! d = helds s !!! d) as Eh.
  { intros d. cbn. rewrite list_insert_lookup by lia. case_decide; by subst. }
  assert (∀ d, modes s' !!! d = if decide (d = c) then md else modes s !!! d) as Em.
  { intros d. cbn. rewrite list_insert_lookup by lia. done. }
  assert (∀ d, icpus (sp s') !!! d = if decide (d = c) then x else icpus (sp s) !!! d) as Ei.
  { intros d. cbn. rewrite list_insert_lookup by lia. done. }
  assert (∀ d l, owns s' d l ↔ owns s d l) as Eo.
  { intros d l. unfold owns. rewrite Eh, Em. case_decide; [subst d|done]. by rewrite Hg, Hr. }
  split.
  - cbn. rewrite !length_insert. done.
  - intros d l Hd. rewrite Em. case_decide; [apply Hsp|by apply H2].
  - intros d l Hd. rewrite Eo. by apply H3.
  - intros l Hl. apply H4. intros d Hd. rewrite <- Eo. by apply Hl.
  - intros d d' l Hd Hd'. rewrite !Eo. by apply H5.
  - intros d l. rewrite Eh. by apply H6.
  - intros d Hd. rewrite Eh. by apply H7.
  - intros d l Hd. rewrite Eh, Em. case_decide; [subst d; rewrite Hg, Hr|]; by apply H8.
  - intros d Hd. rewrite Eh, Em, Ei. case_decide; [by subst d|by apply H9].
  - intros d Hd. rewrite Ei. case_decide; [done|by apply H10].
Qed.

(** A step of CPU [c] on lock [l] that no other CPU owns. *)
Lemma lock_step s c l md h x k :
  spin_ok s → (c < ncpu)%nat → (l < nlock)%nat →
  (∀ d, (d < ncpu)%nat → d ≠ c → ¬ owns s d l) →
  (∀ l', l' ≠ l → (l' ∈ h ↔ l' ∈ helds s !!! c) ∧ (md = Got l' ↔ modes s !!! c = Got l') ∧
                  (md = Releasing l' ↔ modes s !!! c = Releasing l')) →
  (locked k = true ↔ l ∈ h ∨ md = Got l ∨ md = Releasing l) →
  (lcpu k = if decide (l ∈ h) then Some c else None) →
  NoDup h → (∀ l', md = Got l' ∨ md = Releasing l' → l' ∉ h) → (∀ l', md ≠ Spinning l') →
  noff x = Z.of_nat (length h) + busy md → (0 < noff x → intr x = false) →
  spin_ok (Cfg (Spin (<[l := k]> (lks (sp s))) (<[c := x]> (icpus (sp s)))) (<[c := md]> (modes s)) (<[c := h]> (helds s))).
Proof.
  intros [(L1 & L2 & L3 & L4) H2 H3 H4 H5 H6 H7 H8 H9 H10] Hc Hl Hno Hoth Hlk Hcp Hnd Hap Hsp Hn Hi.
  set (s' := Cfg _ _ _).
  assert (∀ d, helds s' !!! d = if decide (d = c) then h else helds s !!! d) as Eh by (intros d; cbn; by rewrite list_insert_lookup by lia).
  assert (∀ d, modes s' !!! d = if decide (d = c) then md else modes s !!! d) as Em by (intros d; cbn; by rewrite list_insert_lookup by lia).
  assert (∀ d, icpus (sp s') !!! d = if decide (d = c) then x else icpus (sp s) !!! d) as Ei by (intros d; cbn; by rewrite list_insert_lookup by lia).
  assert (∀ j, lks (sp s') !!! j = if decide (j = l) then k else lks (sp s) !!! j) as Ek by (intros j; cbn; by rewrite list_insert_lookup by lia).
  assert (∀ d j, j ≠ l → owns s' d j ↔ owns s d j) as Eo.
  { intros d j Hj. unfold owns. rewrite Eh, Em. destruct (decide (d = c)) as [->|]; [|done]. destruct (Hoth j) as (-> & -> & ->); done. }
  assert (∀ d, (d < ncpu)%nat → owns s' d l ↔ d = c ∧ (l ∈ h ∨ md = Got l ∨ md = Releasing l)) as El.
  { intros d Hd. unfold owns. rewrite Eh, Em. destruct (decide (d = c)) as [->|E]; [naive_solver|].
    split; [intros Ho; by destruct (Hno d Hd E)|naive_solver]. }
  split.
  - cbn. rewrite !length_insert. done.
  - intros d j Hd. rewrite Em. destruct (decide (d = c)); [|by apply H2]. intros E. by destruct (Hsp j).
  - intros d j Hd. destruct (decide (j = l)) as [->|Hj].
    + rewrite El, Ek, decide_True by done. intros [-> Ho]. split; [done|]. by apply Hlk.
    + rewrite Eo, Ek, decide_False by done. by apply H3.
  - intros j Hj. rewrite Ek. destruct (decide (j = l)) as [->|E].
    + apply not_true_iff_false. intros Ho%Hlk. apply (Hj c Hc). by apply El.
    + apply H4. intros d Hd. rewrite <- Eo by done. by apply Hj.
  - intros d d' j Hd Hd'. destruct (decide (j = l)) as [->|Hj].
    + rewrite !El by done. intros [-> _] [-> _]. done.
    + rewrite !Eo by done. by apply H5.
  - intros d j. rewrite Ek, Eh. destruct (decide (j = l)) as [->|E].
    + rewrite Hcp. destruct (decide (l ∈ h)), (decide (d = c)) as [->|E']; [naive_solver| |naive_solver|].
      all: split; [naive_solver|]; intros [Hd Ho]; destruct (Hno d Hd E'); by left.
    + rewrite H6 by done. destruct (decide (d = c)) as [->|]; [|done]. by destruct (Hoth j) as (-> & _).
  - intros d Hd. rewrite Eh. destruct (decide (d = c)); [done|by apply H7].
  - intros d j Hd. rewrite Eh, Em. destruct (decide (d = c)); [apply Hap|by apply H8].
  - intros d Hd. rewrite Eh, Em, Ei. destruct (decide (d = c)); [done|by apply H9].
  - intros d Hd. rewrite Ei. destruct (decide (d = c)); [done|by apply H10].
Qed.

(** ** Every step keeps the invariant *)

Definition valid_event (e : sevent) : Prop := match e with Begin _ l | Drop _ l => (l < nlock)%nat | _ => True end.

Lemma mode_total s c m : length (modes s) = ncpu → modes s !! c = Some m → (c < ncpu)%nat ∧ modes s !!! c = m.
Proof. intros L H. split; [rewrite <- L; by eapply lookup_lt_Some|by apply list_lookup_total_correct]. Qed.

Lemma held_others s c l : spin_ok s → (c < ncpu)%nat → owns s c l → ∀ d, (d < ncpu)%nat → d ≠ c → ¬ owns s d l.
Proof. intros Hok Hc Ho d Hd Hne Ho'. apply Hne. by eapply (so_excl _ Hok). Qed.

Lemma step_begin s c l s' : spin_ok s → (l < nlock)%nat → sstep s (Begin c l) = Some s' → spin_ok s'.
Proof.
  intros Hok Hl. cbn. destruct (modes s !! c) as [[]|] eqn:Em; try done.
  pose proof (so_len _ Hok) as (L1 & L2 & L3 & L4). destruct (mode_total _ _ _ L1 Em) as [Hc Et].
  unfold run_spin. destruct (acquire_begin c l (sp s)) as [[[] s1]| | |] eqn:E; try done. intros [= <-].
  apply acquire_begin_inv in E as [-> _]; [|lia].
  apply local_step; try done; rewrite ?Et; try naive_solver.
  cbn. rewrite (so_noff _ Hok c Hc), Et. cbn. lia.
Qed.

Lemma step_turn s c s' : spin_ok s → sstep s (Turn c) = Some s' → spin_ok s'.
Proof.
  intros Hok. cbn. destruct (modes s !! c) as [[|l| |]|] eqn:Em; try done.
  pose proof (so_len _ Hok) as (L1 & L2 & L3 & L4). destruct (mode_total _ _ _ L1 Em) as [Hc Et].
  pose proof (so_spin _ Hok c l Hc Et) as Hl. intros [= <-].
  destruct (locked (lks (sp s) !!! l)) eqn:Eb.
  - assert (<[l := Lock true (lcpu (lks (sp s) !!! l))]> (lks (sp s)) = lks (sp s)) as ->.
    { apply list_insert_id. rewrite (list_lookup_lookup_total_lt (lks (sp s)) l) by lia. f_equal.
      destruct (lks (sp s) !!! l); cbn in *; by subst. }
    by destruct s as [[? ?] ? ?].
  - assert (∀ d, (d < ncpu)%nat → ¬ owns s d l) as Hno.
    { intros d Hd Ho. apply (so_owned _ Hok d l Hd) in Ho as [_ Ho]. congruence. }
    assert (l ∉ helds s !!! c) as Hh by (intros Hi; apply (Hno c Hc); by left).
    assert (lcpu (lks (sp s) !!! l) = None) as Hcp.
    { destruct (lcpu _) as [d|] eqn:E; [|done]. apply (so_cpu _ Hok) in E as [Hd Hi]. destruct (Hno d Hd). by left. }
    rewrite Hcp.
    replace (Spin (<[l := Lock true None]> (lks (sp s))) (icpus (sp s)))
      with (Spin (<[l := Lock true None]> (lks (sp s))) (<[c := icpus (sp s) !!! c]> (icpus (sp s))))
      by (f_equal; apply list_insert_id, list_lookup_lookup_total_lt; lia).
    replace (helds s) with (<[c := helds s !!! c]> (helds s)) at 1
      by (apply list_insert_id, list_lookup_lookup_total_lt; lia).
    apply lock_step; rewrite ?Et; [done|done|done|..].
    + intros d Hd _. by apply Hno.
    + naive_solver.
    + cbn. naive_solver.
    + by rewrite decide_False.
    + by apply (so_nodup _ Hok).
    + intros l' [[= <-]|?]; done.
    + done.
    + rewrite (so_noff _ Hok c Hc), Et. done.
    + by apply (so_intr _ Hok).
Qed.

Lemma step_mark s c s' : spin_ok s → sstep s (Mark c) = Some s' → spin_ok s'.
Proof.
  intros Hok. cbn. destruct (modes s !! c) as [[| |l|]|] eqn:Em; try done.
  pose proof (so_len _ Hok) as (L1 & L2 & L3 & L4). destruct (mode_total _ _ _ L1 Em) as [Hc Et].
  assert (owns s c l) as Ho by (by right; left). destruct (so_owned _ Hok c l Hc Ho) as [Hl Hlk].
  pose proof (so_apart _ Hok c l Hc (or_introl Et)) as Hh. intros [= <-]. cbn.
  rewrite <- (list_insert_id (icpus (sp s)) c (icpus (sp s) !!! c)) at 1 by (apply list_lookup_lookup_total_lt; lia).
  apply lock_step; rewrite ?Et; [done|done|done|..].
  - by apply held_others.
  - intros l' Hl'. rewrite elem_of_cons. naive_solver.
  - cbn. rewrite Hlk, elem_of_cons. naive_solver.
  - cbn. rewrite decide_True; [done|]. apply elem_of_cons. by left.
  - constructor; [done|]. by apply (so_nodup _ Hok).
  - naive_solver.
  - done.
  - rewrite (so_noff _ Hok c Hc), Et. cbn [length busy]. lia.
  - by apply (so_intr _ Hok).
Qed.

Lemma length_filter_remove (h : list nat) l : NoDup h → l ∈ h → length h = S (length (filter (l ≠.) h)).
Proof.
  induction 1 as [|x h Hx Hnd IH]; [by intros ?%elem_of_nil|]. rewrite elem_of_cons, filter_cons. intros Hl.
  destruct (decide (l = x)) as [->|Hne].
  - rewrite decide_False by (intros H; by apply H). cbn. f_equal. symmetry. apply (f_equal length).
    clear -Hx. induction h as [|y h IH]; [done|]. apply not_elem_of_cons in Hx as [H1 H2].
    rewrite filter_cons, decide_True by done. f_equal. by apply IH.
  - destruct Hl as [|Hl]; [done|]. rewrite decide_True by done. cbn. f_equal. by apply IH.
Qed.

Lemma step_drop s c l s' : spin_ok s → sstep s (Drop c l) = Some s' → spin_ok s'.
Proof.
  intros Hok. cbn. destruct (modes s !! c) as [[]|] eqn:Em; try done.
  pose proof (so_len _ Hok) as (L1 & L2 & L3 & L4). destruct (mode_total _ _ _ L1 Em) as [Hc Et].
  unfold run_spin. destruct (release_begin c l (sp s)) as [[[] s1]| | |] eqn:E; try done. intros [= <-].
  apply release_begin_inv in E as (Hlk & Hcp & ->). apply (so_cpu _ Hok) in Hcp as [_ Hh].
  assert (owns s c l) as Ho by (by left). destruct (so_owned _ Hok c l Hc Ho) as [Hl _].
  unfold set_lk. rewrite <- (list_insert_id (icpus (sp s)) c (icpus (sp s) !!! c)) at 1 by (apply list_lookup_lookup_total_lt; lia).
  assert (l ∉ filter (l ≠.) (helds s !!! c)) as Hnf by (rewrite list_elem_of_filter; naive_solver).
  apply lock_step; rewrite ?Et; [done|done|done|..].
  - by apply held_others.
  - intros l' Hl'. rewrite list_elem_of_filter. naive_solver.
  - naive_solver.
  - by rewrite decide_False.
  - apply NoDup_filter. by apply (so_nodup _ Hok).
  - intros l' [?|[= <-]]; done.
  - done.
  - rewrite (so_noff _ Hok c Hc), Et. rewrite (length_filter_remove _ l) by (done || by apply (so_nodup _ Hok)). cbn [busy]. lia.
  - by apply (so_intr _ Hok).
Qed.

Lemma step_unlock s c s' : spin_ok s → sstep s (Unlock c) = Some s' → spin_ok s'.
Proof.
  intros Hok. cbn. destruct (modes s !! c) as [[| | |l]|] eqn:Em; try done.
  pose proof (so_len _ Hok) as (L1 & L2 & L3 & L4). destruct (mode_total _ _ _ L1 Em) as [Hc Et].
  assert (owns s c l) as Ho by (by right; right). destruct (so_owned _ Hok c l Hc Ho) as [Hl Hlk].
  pose proof (so_apart _ Hok c l Hc (or_intror Et)) as Hh.
  pose proof (so_noff _ Hok c Hc) as Hn. rewrite Et in Hn. cbn in Hn.
  assert (lcpu (lks (sp s) !!! l) = None) as Hcp.
  { destruct (lcpu _) as [d|] eqn:E; [|done]. apply (so_cpu _ Hok) in E as [Hd Hi].
    assert (d = c) as -> by (by eapply (so_excl _ Hok); [..|by left|done]). done. }
  unfold run_spin, release_end. erewrite bind_done by done. erewrite bind_done by done. rewrite Hcp.
  rewrite pop_off_eq; cbn; [|lia|apply (so_intr _ Hok c Hc); lia|lia]. intros [= <-].
  apply lock_step; rewrite ?Et; [done|done|done|..].
  - by apply held_others.
  - naive_solver.
  - cbn. naive_solver.
  - by rewrite decide_False.
  - by apply (so_nodup _ Hok).
  - naive_solver.
  - done.
  - cbn. rewrite Hn. lia.
  - cbn. intros H. rewrite (proj2 (Z.eqb_neq _ _)) by lia. done.
Qed.

Lemma step_intr s c b s' : spin_ok s → sstep s (Intr c b) = Some s' → spin_ok s'.
Proof.
  intros Hok. cbn. destruct (modes s !! c) as [[]|] eqn:Em; try done.
  pose proof (so_len _ Hok) as (L1 & L2 & L3 & L4). destruct (mode_total _ _ _ L1 Em) as [Hc Et].
  destruct (Z.eqb_spec (noff (icpus (sp s) !!! c)) 0) as [E0|]; [|done].
  pose proof (so_noff _ Hok c Hc) as Hn.
  destruct b; intros [= <-]; (apply (local_step s c Idle); rewrite ?Et; [done..|cbn; by rewrite Hn, Et|cbn; lia]).
Qed.

Lemma step_ok s e s' : spin_ok s → valid_event e → sstep s e = Some s' → spin_ok s'.
Proof.
  intros Hok Hv Hs. destruct e as [c l|c|c|c l|c|c b].
  - by eapply step_begin.
  - by eapply step_turn.
  - by eapply step_mark.
  - by eapply step_drop.
  - by eapply step_unlock.
  - by eapply step_intr.
Qed.

Lemma run_ok s es s' : spin_ok s → Forall valid_event es → srun s es = Some s' → spin_ok s'.
Proof.
  intros Hok Hes. revert s Hok. induction Hes as [|e es He _ IH]; intros s Hok; cbn; [by intros [= <-]|].
  destruct (sstep s e) as [s1|] eqn:E; [|done]. apply IH. by eapply step_ok.
Qed.
End locks.

(** The machine after [initlock] of every lock. *)
Definition unlocked (ncpu nlock : nat) : cfg :=
  Cfg (Spin (replicate nlock (Lock false None)) (replicate ncpu (ICpu 0 false false)))
      (replicate ncpu Idle) (replicate ncpu []).

Lemma unlocked_ok ncpu nlock : spin_ok ncpu nlock (unlocked ncpu nlock).
Proof.
  set (s := unlocked ncpu nlock).
  assert (∀ l, lks (sp s) !!! l = Lock false None) as El.
  { intros l. cbn. destruct (decide (l < nlock)%nat); [by rewrite lookup_total_replicate_2|].
    rewrite list_lookup_total_alt, lookup_ge_None_2 by (rewrite length_replicate; lia). done. }
  assert (∀ c, helds s !!! c = [] ∧ modes s !!! c = Idle) as Ec.
  { intros c. cbn. destruct (decide (c < ncpu)%nat); [by rewrite !lookup_total_replicate_2|].
    rewrite !list_lookup_total_alt, !lookup_ge_None_2 by (rewrite length_replicate; lia). done. }
  assert (∀ c, (c < ncpu)%nat → icpus (sp s) !!! c = ICpu 0 false false) as Ei.
  { intros c Hc. cbn. by rewrite lookup_total_replicate_2. }
  assert (∀ c l, ¬ owns s c l) as Eo.
  { intros c l. unfold owns. destruct (Ec c) as [-> ->]. set_solver. }
  split.
  - cbn. by rewrite !length_replicate.
  - intros c l _ E. destruct (Ec c) as [_ E']. congruence.
  - intros c l _ Ho. by destruct (Eo c l).
  - intros l _. by rewrite El.
  - intros c c' l _ _ Ho. by destruct (Eo c l).
  - intros c l. rewrite El. destruct (Ec c) as [-> _]. cbn. set_solver.
  - intros c _. destruct (Ec c) as [-> _]. constructor.
  - intros c l _ E. destruct (Ec c) as [_ E']. rewrite E' in E. naive_solver.
  - intros c Hc. rewrite Ei by done. by destruct (Ec c) as [-> ->].
  - intros c Hc. by rewrite Ei.
Qed.

(** C21: However the CPUs are interleaved inside [acquire] and [release]: no two
    CPUs are in the critical section of one lock, [holding] is true exactly on the
    CPU that is, and a CPU that holds a lock (or waits for one) runs with
    interrupts disabled. *)
Theorem spinlock_mutual_exclusion ncpu nlock es s :
  Forall (valid_event nlock) es → srun (unlocked ncpu nlock) es = Some s →
  (∀ c c' l, (c < ncpu)%nat → (c' < ncpu)%nat → l ∈ helds s !!! c → l ∈ helds s !!! c' → c = c') ∧
  (∀ c l, (c < ncpu)%nat → holding c l (sp s) = Done (bool_decide (l ∈ helds s !!! c), sp s)) ∧
  (∀ c, (c < ncpu)%nat → helds s !!! c ≠ [] ∨ modes s !!! c ≠ Idle → intr (icpus (sp s) !!! c) = false).
Proof.
  intros Hes Hrun. pose proof (run_ok ncpu nlock _ _ _ (unlocked_ok ncpu nlock) Hes Hrun) as Hok. split_and!.
  - intros c c' l Hc Hc' H1 H2. apply (so_excl _ _ _ Hok c c' l Hc Hc'); by left.
  - intros c l Hc. unfold holding, gets, mbind, M_bind, mret, M_ret. do 2 f_equal.
    destruct (bool_decide_reflect (l ∈ helds s !!! c)) as [Hh|Hh].
    + destruct (so_owned _ _ _ Hok c l Hc) as [_ ->]; [by left|]. cbn. apply bool_decide_eq_true.
      by apply (so_cpu _ _ _ Hok).
    + apply andb_false_iff. right. apply bool_decide_eq_false. intros E. apply (so_cpu _ _ _ Hok) in E. naive_solver.
  - intros c Hc Hb. apply (so_intr _ _ _ Hok c Hc). rewrite (so_noff _ _ _ Hok c Hc).
    destruct Hb as [Hb|Hb].
    + destruct (helds s !!! c); [done|]. destruct (modes s !!! c); cbn; lia.
    + destruct (modes s !!! c); [done|cbn; lia..].
Qed.

(** Two CPUs race for a lock; the loser spins while the winner is inside. *)
Definition demo_race : list sevent :=
  [Intr 0 true; Begin 0 0; Begin 1 0; Turn 1; Turn 0; Mark 1; Turn 0; Drop 1 0; Turn 0; Unlock 1; Turn 0; Mark 0].

Lemma spinlock_mutual_exclusion_witness :
  ∃ s, srun (unlocked 2 1) demo_race = Some s ∧ helds s !!! 0%nat = [0%nat] ∧ intr (icpus (sp s) !!! 0%nat) = false.
Proof.
  eexists. split; [by vm_compute|]. split; [done|].
  refine (proj2 (proj2 (spinlock_mutual_exclusion 2 1 demo_race _ _ _)) 0%nat _ _); [|by vm_compute|lia|by left].
  repeat constructor.
Defined.
