(* ===== verification/Proc.v ===== *)
(** * kernel/proc.c: processes and the scheduler

    The process table, the CPUs' current processes and the pid counter are the
    core; the spin locks ([Spinlock.v]), the physical memory with the page tables
    ([Vm.v]) and the file layer (an interface) are the other parts of the state.
    The locks are numbered: [p->lock] of process [i] is lock [i].

    [swtch] to the scheduler ends an activation: [p->context] records where the
    process continues, and [resume] is the code that runs there. *)

From S2P Require Import Prelude Machine Kalloc Vm Spinlock Ulib Printf.

Definition NPROC : nat := 64.
Definition NCPU : nat := 8.
Definition NOFILE : nat := 16.
Definition TRAMPOLINE : Z := MAXVA - PGSIZE.
Definition TRAPFRAME : Z := TRAMPOLINE - PGSIZE.
Definition KSTACK (p : Z) : Z := TRAMPOLINE - (p + 1) * 2 * PGSIZE.

Definition PLOCK (i : nat) : nat := i.
Definition WAIT_LOCK : nat := NPROC.
Definition PID_LOCK : nat := S NPROC.

Inductive procstate := UNUSED | USED | SLEEPING | RUNNABLE | RUNNING | ZOMBIE.
#[export] Instance procstate_eq_dec : EqDecision procstate.
Proof. solve_decision. Defined.

(** Where a process continues when [swtch] gives it the CPU. *)
Inductive kont := KNone | KForkret | KYield | KSleep (lk : nat).

Record proc := Proc {
  state : procstate;
  chan : Z;
  p_killed : bool;
  xstate : Z;
  pid : Z;
  parent : option nat;
  kstack : Z;
  sz : Z;
  pagetable : Z;
  trapframe : Z;
  context : kont;
  saved_intena : bool;       (* the local variable of sched *)
  ofile : list Z;            (* struct file pointers, 0 for none *)
  cwd : Z;
  p_name : list Z;
}.
#[export] Instance proc_inhabited : Inhabited proc :=
  populate (Proc UNUSED 0 false 0 0 None 0 0 0 0 KNone false [] 0 []).

Definition set_state x p := Proc x (chan p) (p_killed p) (xstate p) (pid p) (parent p) (kstack p) (sz p) (pagetable p) (trapframe p) (context p) (saved_intena p) (ofile p) (cwd p) (p_name p).
Definition set_chan x p := Proc (state p) x (p_killed p) (xstate p) (pid p) (parent p) (kstack p) (sz p) (pagetable p) (trapframe p) (context p) (saved_intena p) (ofile p) (cwd p) (p_name p).
Definition set_killed x p := Proc (state p) (chan p) x (xstate p) (pid p) (parent p) (kstack p) (sz p) (pagetable p) (trapframe p) (context p) (saved_intena p) (ofile p) (cwd p) (p_name p).
Definition set_xstate x p := Proc (state p) (chan p) (p_killed p) x (pid p) (parent p) (kstack p) (sz p) (pagetable p) (trapframe p) (context p) (saved_intena p) (ofile p) (cwd p) (p_name p).
Definition set_pid x p := Proc (state p) (chan p) (p_killed p) (xstate p) x (parent p) (kstack p) (sz p) (pagetable p) (trapframe p) (context p) (saved_intena p) (ofile p) (cwd p) (p_name p).
Definition set_parent x p := Proc (state p) (chan p) (p_killed p) (xstate p) (pid p) x (kstack p) (sz p) (pagetable p) (trapframe p) (context p) (saved_intena p) (ofile p) (cwd p) (p_name p).
Definition set_kstack x p := Proc (state p) (chan p) (p_killed p) (xstate p) (pid p) (parent p) x (sz p) (pagetable p) (trapframe p) (context p) (saved_intena p) (ofile p) (cwd p) (p_name p).
Definition set_sz x p := Proc (state p) (chan p) (p_killed p) (xstate p) (pid p) (parent p) (kstack p) x (pagetable p) (trapframe p) (context p) (saved_intena p) (ofile p) (cwd p) (p_name p).
Definition set_pagetable x p := Proc (state p) (chan p) (p_killed p) (xstate p) (pid p) (parent p) (kstack p) (sz p) x (trapframe p) (context p) (saved_intena p) (ofile p) (cwd p) (p_name p).
Definition set_trapframe x p := Proc (state p) (chan p) (p_killed p) (xstate p) (pid p) (parent p) (kstack p) (sz p) (pagetable p) x (context p) (saved_intena p) (ofile p) (cwd p) (p_name p).
Definition set_context x p := Proc (state p) (chan p) (p_killed p) (xstate p) (pid p) (parent p) (kstack p) (sz p) (pagetable p) (trapframe p) x (saved_intena p) (ofile p) (cwd p) (p_name p).
Definition set_saved x p := Proc (state p) (chan p) (p_killed p) (xstate p) (pid p) (parent p) (kstack p) (sz p) (pagetable p) (trapframe p) (context p) x (ofile p) (cwd p) (p_name p).
Definition set_ofile x p := Proc (state p) (chan p) (p_killed p) (xstate p) (pid p) (parent p) (kstack p) (sz p) (pagetable p) (trapframe p) (context p) (saved_intena p) x (cwd p) (p_name p).
Definition set_cwd x p := Proc (state p) (chan p) (p_killed p) (xstate p) (pid p) (parent p) (kstack p) (sz p) (pagetable p) (trapframe p) (context p) (saved_intena p) (ofile p) x (p_name p).
Definition set_name x p := Proc (state p) (chan p) (p_killed p) (xstate p) (pid p) (parent p) (kstack p) (sz p) (pagetable p) (trapframe p) (context p) (saved_intena p) (ofile p) (cwd p) x.

Record pcore := Core {
  procs : list proc;
  nextpid : Z;
  initproc : option nat;
  cproc : list (option nat);      (* cpus[].proc *)
}.

(** What a process needs of the file layer (kernel/file.c, kernel/fs.c). *)
Class ProcFiles (F : Type) := {
  pf_filedup : Z → M F Z;
  pf_fileclose : Z → M F unit;
  pf_idup : Z → M F Z;
  pf_iput : Z → M F unit;
  pf_begin_op : M F unit;
  pf_end_op : M F unit;
  pf_root : M F Z;                (* namei("/") *)
  pf_fsinit : M F unit;
}.

Record kstate (D F : Type) := K { core : pcore; kspin : spin; mach : machine D; kfs : F; first_fork : bool }.
Arguments K {D F} _ _ _ _ _.
Arguments core {D F} _.
Arguments kspin {D F} _.
Arguments mach {D F} _.
Arguments kfs {D F} _.
Arguments first_fork {D F} _.

(** ** Page tables of processes *)

Section pagetables.
Context `{C : Config} {D : Type} (trampoline : Z).

Definition proc_pagetable (tf : Z) : M (machine D) Z :=
  pt ← uvmcreate;
  if pt =? 0 then ret 0
  else
    r ← mappages pt TRAMPOLINE PGSIZE trampoline (Z.lor PTE_R PTE_X);
    if r <? 0 then uvmfree pt 0;; ret 0
    else
      r ← mappages pt TRAPFRAME PGSIZE tf (Z.lor PTE_R PTE_W);
      if r <? 0 then uvmunmap pt TRAMPOLINE 1 false;; uvmfree pt 0;; ret 0
      else ret pt.

Definition proc_freepagetable (pt size : Z) : M (machine D) unit :=
  uvmunmap pt TRAMPOLINE 1 false;;
  uvmunmap pt TRAPFRAME 1 false;;
  uvmfree pt size.

Definition proc_mapstacks (kpgtbl : Z) : M (machine D) unit :=
  for_ 0 (Z.of_nat NPROC) (λ p,
    pa ← kalloc;
    if pa =? 0 then panic "kalloc"
    else kvmmap kpgtbl (KSTACK p) pa PGSIZE (Z.lor PTE_R PTE_W)).

Definition either_copyout (pt : Z) (user_dst : bool) (dst src len : Z) : M (machine D) Z :=
  if user_dst then copyout pt dst src len
  else memmove dst src len;; ret 0.

Definition either_copyin (pt : Z) (dst : Z) (user_src : bool) (src len : Z) : M (machine D) Z :=
  if user_src then copyin pt dst src len
  else memmove dst src len;; ret 0.
End pagetables.

(** Offsets in [struct trapframe]. *)
Definition TF_EPC : Z := 24.
Definition TF_SP : Z := 48.
Definition TF_A0 : Z := 112.
Definition SIZEOF_TRAPFRAME : Z := 288.

(** ** Processes *)

Section proc.
Context `{C : Config} {D F : Type} `{PF : ProcFiles F}.
Context (trampoline initcode proc_base : Z) (c : nat).

Abbreviation KM := (M (kstate D F)).

(** [&proc[i]], the channel [wait] sleeps on. *)
Definition proc_addr (i : nat) : Z := proc_base + 360 * Z.of_nat i.
Definition xstate_addr (i : nat) : Z := proc_addr i + 44.

Definition on_spin {A} (m : M spin A) : KM A := zoom kspin (λ t s, K (core s) t (mach s) (kfs s) (first_fork s)) m.
Definition on_mach {A} (m : M (machine D) A) : KM A := zoom mach (λ t s, K (core s) (kspin s) t (kfs s) (first_fork s)) m.
Definition on_files {A} (m : M F A) : KM A := zoom kfs (λ t s, K (core s) (kspin s) (mach s) t (first_fork s)) m.
Definition on_core (f : pcore → pcore) : KM unit := modify (λ s, K (f (core s)) (kspin s) (mach s) (kfs s) (first_fork s)).

Definition getp (i : nat) : KM proc := gets (λ s, procs (core s) !!! i).
Definition setp (i : nat) (f : proc → proc) : KM unit :=
  on_core (λ k, Core (<[i := f (procs k !!! i)]> (procs k)) (nextpid k) (initproc k) (cproc k)).

Definition acquire_ (l : nat) : KM unit := on_spin (acquire c l).
Definition release_ (l : nat) : KM unit := on_spin (release c l).

Definition myproc : KM (option nat) :=
  on_spin (push_off c);;
  p ← gets (λ s, cproc (core s) !!! c);
  on_spin (pop_off c);;
  ret p.

(** [myproc()] where the code uses the process. *)
Definition current : KM nat :=
  p ← myproc;
  match p with Some i => ret i | None => fault end.

Definition procinit : KM unit :=
  on_spin (initlock PID_LOCK);;
  on_spin (initlock WAIT_LOCK);;
  for_ 0 (Z.of_nat NPROC) (λ i,
    on_spin (initlock (PLOCK (Z.to_nat i)));;
    setp (Z.to_nat i) (set_state UNUSED);;
    setp (Z.to_nat i) (set_kstack (KSTACK i))).

Definition allocpid : KM Z :=
  acquire_ PID_LOCK;;
  n ← gets (λ s, nextpid (core s));
  on_core (λ k, Core (procs k) (s32 (nextpid k + 1)) (initproc k) (cproc k));;
  release_ PID_LOCK;;
  ret n.

Definition freeproc (i : nat) : KM unit :=
  p ← getp i;
  (if trapframe p =? 0 then ret tt else on_mach (kfree (trapframe p)));;
  setp i (set_trapframe 0);;
  p ← getp i;
  (if pagetable p =? 0 then ret tt else on_mach (proc_freepagetable (pagetable p) (sz p)));;
  setp i (λ p, set_state UNUSED (set_xstate 0 (set_killed false (set_chan 0 (set_name [] (set_parent None
            (set_pid 0 (set_sz 0 (set_pagetable 0 p))))))))).

(** The scan of [allocproc] returns with the lock of the free entry held. *)
Definition find_unused : KM (option nat) :=
  r ← for_exit 0 (Z.of_nat NPROC) (λ i,
        acquire_ (PLOCK (Z.to_nat i));;
        p ← getp (Z.to_nat i);
        if decide (state p = UNUSED) then ret (Some (Z.to_nat i))
        else release_ (PLOCK (Z.to_nat i));; ret None);
  ret r.

Definition allocproc : KM (option nat) :=
  r ← find_unused;
  match r with
  | None => ret None
  | Some i =>
      n ← allocpid;
      setp i (set_pid n);;
      setp i (set_state USED);;
      tf ← on_mach kalloc;
      setp i (set_trapframe tf);;
      if tf =? 0 then freeproc i;; release_ (PLOCK i);; ret None
      else
        pt ← on_mach (proc_pagetable trampoline tf);
        setp i (set_pagetable pt);;
        if pt =? 0 then freeproc i;; release_ (PLOCK i);; ret None
        else
          setp i (set_context KForkret);;
          ret (Some i)
  end.

(** [sizeof(initcode)] is 52; [allocproc]'s result is used without a check. *)
Definition userinit : KM unit :=
  r ← allocproc;
  on_core (λ k, Core (procs k) (nextpid k) r (cproc k));;
  match r with
  | None => fault
  | Some i =>
      p ← getp i;
      on_mach (uvmfirst (pagetable p) initcode 52);;
      setp i (set_sz PGSIZE);;
      on_mach (store 8 (trapframe p + TF_EPC) 0);;
      on_mach (store 8 (trapframe p + TF_SP) PGSIZE);;
      setp i (set_name (Ulib.bytes "initcode"));;
      d ← on_files pf_root;
      setp i (set_cwd d);;
      setp i (set_state RUNNABLE);;
      release_ (PLOCK i)
  end.

Definition growproc (n : Z) : KM Z :=
  i ← current;
  p ← getp i;
  if 0 <? n then
    size ← on_mach (uvmalloc (pagetable p) (sz p) (u64 (sz p + n)) PTE_W);
    if size =? 0 then ret (-1) else setp i (set_sz size);; ret 0
  else if n <? 0 then
    size ← on_mach (uvmdealloc (pagetable p) (sz p) (u64 (sz p + n)));
    setp i (set_sz size);; ret 0
  else ret 0.

Definition fork : KM Z :=
  i ← current;
  r ← allocproc;
  match r with
  | None => ret (-1)
  | Some np =>
      p ← getp i;
      q ← getp np;
      e ← on_mach (uvmcopy (pagetable p) (pagetable q) (sz p));
      if e <? 0 then freeproc np;; release_ (PLOCK np);; ret (-1)
      else
        setp np (set_sz (sz p));;
        on_mach (memmove (trapframe q) (trapframe p) SIZEOF_TRAPFRAME);;
        on_mach (store 8 (trapframe q + TF_A0) 0);;
        for_ 0 (Z.of_nat NOFILE) (λ k,
          let f := ofile p !!! Z.to_nat k in
          if f =? 0 then ret tt
          else
            f' ← on_files (pf_filedup f);
            setp np (λ q, set_ofile (<[Z.to_nat k := f']> (ofile q)) q));;
        d ← on_files (pf_idup (cwd p));
        setp np (set_cwd d);;
        setp np (set_name (take 15 (p_name p)));;
        q ← getp np;
        let n := pid q in
        release_ (PLOCK np);;
        acquire_ WAIT_LOCK;;
        setp np (set_parent (Some i));;
        release_ WAIT_LOCK;;
        acquire_ (PLOCK np);;
        setp np (set_state RUNNABLE);;
        release_ (PLOCK np);;
        ret n
  end.

Definition wakeup (ch : Z) : KM unit :=
  for_ 0 (Z.of_nat NPROC) (λ i,
    let i := Z.to_nat i in
    me ← myproc;
    if decide (me = Some i) then ret tt
    else
      h ← on_spin (holding c (PLOCK i));
      p ← getp i;
      if h && bool_decide (state p = USED) then ret tt
      else
        acquire_ (PLOCK i);;
        p ← getp i;
        (if bool_decide (state p = SLEEPING) && (chan p =? ch) then setp i (set_state RUNNABLE) else ret tt);;
        release_ (PLOCK i)).

Definition reparent (i : nat) : KM unit :=
  for_ 0 (Z.of_nat NPROC) (λ j,
    q ← getp (Z.to_nat j);
    if decide (parent q = Some i) then
      init ← gets (λ s, initproc (core s));
      setp (Z.to_nat j) (set_parent init);;
      match init with Some k => wakeup (proc_addr k) | None => wakeup 0 end
    else ret tt).

(** [sched]: the checks, and the rest of the scheduler's turn after [swtch]
    returns there.  [k] is where the process continues. *)
Definition sched (k : kont) : KM unit :=
  i ← current;
  h ← on_spin (holding c (PLOCK i));
  if negb h then panic "sched p->lock"
  else
    x ← gets (λ s, icpus (kspin s) !!! c);
    p ← getp i;
    if negb (noff x =? 1) then panic "sched locks"
    else if decide (state p = RUNNING) then panic "sched running"
    else if intr x then panic "sched interruptible"
    else
      setp i (set_saved (intena x));;
      setp i (set_context k);;
      on_core (λ s, Core (procs s) (nextpid s) (initproc s) (<[c := None]> (cproc s)));;
      release_ (PLOCK i).

Definition yield_ : KM unit :=
  i ← current;
  acquire_ (PLOCK i);;
  setp i (set_state RUNNABLE);;
  sched KYield.

Definition sleep (ch : Z) (lk : nat) : KM unit :=
  i ← current;
  acquire_ (PLOCK i);;
  release_ lk;;
  setp i (set_chan ch);;
  setp i (set_state SLEEPING);;
  sched (KSleep lk).

(** The scheduler's turn for process [i] up to [swtch]: [true] when it runs. *)
Definition scheduler_turn (i : nat) : KM bool :=
  acquire_ (PLOCK i);;
  p ← getp i;
  if decide (state p = RUNNABLE) then
    setp i (set_state RUNNING);;
    on_core (λ s, Core (procs s) (nextpid s) (initproc s) (<[c := Some i]> (cproc s)));;
    ret true
  else release_ (PLOCK i);; ret false.

Definition restore_intena (i : nat) : KM unit :=
  p ← getp i;
  on_spin (x ← gets (λ s, icpus s !!! c); upd_icpu c (ICpu (noff x) (saved_intena p) (intr x))).

(** The code at [p->context], up to the point where the process runs on with
    its locks as before. *)
Definition resume : KM unit :=
  i ← current;
  p ← getp i;
  match context p with
  | KForkret =>
      release_ (PLOCK i);;
      f ← gets first_fork;
      if (f : bool) then
        modify (λ s, K (core s) (kspin s) (mach s) (kfs s) false);;
        on_files pf_fsinit
      else ret tt
  | KYield => restore_intena i;; release_ (PLOCK i)
  | KSleep lk =>
      restore_intena i;;
      setp i (set_chan 0);;
      release_ (PLOCK i);;
      acquire_ lk
  | KNone => panic "zombie exit"
  end.

(** The part of [exit] that closes the files and drops the directory. *)
Definition exit_files (i : nat) : KM unit :=
  for_ 0 (Z.of_nat NOFILE) (λ fd,
    p ← getp i;
    let f := ofile p !!! Z.to_nat fd in
    if f =? 0 then ret tt
    else
      on_files (pf_fileclose f);;
      setp i (λ p, set_ofile (<[Z.to_nat fd := 0]> (ofile p)) p));;
  on_files pf_begin_op;;
  p ← getp i;
  on_files (pf_iput (cwd p));;
  on_files pf_end_op;;
  setp i (set_cwd 0).

Definition exit (status : Z) : KM unit :=
  i ← current;
  init ← gets (λ s, initproc (core s));
  if decide (init = Some i) then panic "init exiting"
  else
    exit_files i;;
    acquire_ WAIT_LOCK;;
    reparent i;;
    p ← getp i;
    match parent p with Some k => wakeup (proc_addr k) | None => wakeup 0 end;;
    acquire_ (PLOCK i);;
    setp i (set_xstate status);;
    setp i (set_state ZOMBIE);;
    release_ WAIT_LOCK;;
    sched KNone.

Definition setkilled (i : nat) : KM unit :=
  acquire_ (PLOCK i);;
  setp i (set_killed true);;
  release_ (PLOCK i).

Definition killed (i : nat) : KM bool :=
  acquire_ (PLOCK i);;
  p ← getp i;
  release_ (PLOCK i);;
  ret (p_killed p).

(** One child in the scan of [wait]: [Some r] leaves the function. *)
Definition wait_child (i : nat) (addr : Z) (j : nat) (havekids : bool) : KM (option Z * bool) :=
  q ← getp j;
  if decide (parent q = Some i) then
    acquire_ (PLOCK j);;
    q ← getp j;
    if decide (state q = ZOMBIE) then
      let n := pid q in
      me ← getp i;
      e ← (if addr =? 0 then ret 0
           else on_mach (store 4 (xstate_addr j) (u32 (xstate q));; copyout (pagetable me) addr (xstate_addr j) 4));
      if e <? 0 then release_ (PLOCK j);; release_ WAIT_LOCK;; ret (Some (-1), true)
      else
        freeproc j;;
        release_ (PLOCK j);;
        release_ WAIT_LOCK;;
        ret (Some n, true)
    else release_ (PLOCK j);; ret (None, true)
  else ret (None, havekids).

Definition wait_scan (i : nat) (addr : Z) : KM (option Z * bool) :=
  for_acc 0 (Z.of_nat NPROC) (None, false) (λ j r,
    match r.1 with
    | Some _ => ret r
    | None => wait_child i addr (Z.to_nat j) r.2
    end).

(** One turn of the loop of [wait], with [wait_lock] held: [None] when the
    process went to sleep. *)
Definition wait_turn (addr : Z) : KM (option Z) :=
  i ← current;
  '(r, havekids) ← wait_scan i addr;
  match r with
  | Some _ => ret r
  | None =>
      k ← (if negb havekids then ret true else killed i);
      if (k : bool) then release_ WAIT_LOCK;; ret (Some (-1))
      else sleep (proc_addr i) WAIT_LOCK;; ret None
  end.

Definition wait (addr : Z) : KM (option Z) :=
  current;;
  acquire_ WAIT_LOCK;;
  wait_turn addr.

Definition kill (n : Z) : KM Z :=
  r ← for_exit 0 (Z.of_nat NPROC) (λ i,
        let i := Z.to_nat i in
        acquire_ (PLOCK i);;
        p ← getp i;
        if pid p =? n then
          setp i (set_killed true);;
          p ← getp i;
          (if decide (state p = SLEEPING) then setp i (set_state RUNNABLE) else ret tt);;
          release_ (PLOCK i);;
          ret (Some 0)
        else release_ (PLOCK i);; ret None);
  ret (default (-1) r).

Definition state_name (x : procstate) : list Z :=
  match x with
  | UNUSED => Ulib.bytes "unused"
  | USED => Ulib.bytes "used"
  | SLEEPING => Ulib.bytes "sleep "
  | RUNNABLE => Ulib.bytes "runble"
  | RUNNING => Ulib.bytes "run   "
  | ZOMBIE => Ulib.bytes "zombie"
  end.

(** What [procdump] prints. *)
Definition procdump (k : pcore) : option (list Z) :=
  l ← foldr (λ p r,
    if decide (state p = UNUSED) then r
    else
      a ← kernel.printf (Ulib.bytes "%d %s %s") [AWord (pid p); AStr (Some (state_name (state p))); AStr (Some (p_name p))];
      b ← r;
      Some (a ++ [chr "010"] ++ b))
    (Some []) (procs k);
  Some (chr "010" :: l).
End proc.
