(* ===== verification/ProcFacts.v ===== *)
(** * The process table: invariant and the effect of the helpers of proc.c *)

From S2P Require Import Prelude Machine Kalloc Vm Spinlock Ulib Printf Proc.

(** What the invariant sees of a process. *)
Record view := View { v_state : procstate; v_chan : Z; v_pid : Z; v_parent : option nat }.

Definition view_of (p : proc) : view := View (state p) (chan p) (pid p) (parent p).

Section table.
Context (proc_base : Z).
Abbreviation addr := (proc_addr proc_base).
Implicit Types (k : pcore) (i j : nat) (v : view).

Definition vw k i : view := view_of (procs k !!! i).
Definition live v : Prop := v_state v ≠ UNUSED.
Definition active v : Prop := v_state v ≠ UNUSED ∧ v_state v ≠ ZOMBIE.

(** Process [j] sleeps in [wait]. *)
Definition waiting j v : Prop := v_state v = SLEEPING ∧ v_chan v = addr j.

Record table_ok k : Prop := {
  t_len : length (procs k) = NPROC ∧ length (cproc k) = NCPU;
  t_init : ∃ i, initproc k = Some i ∧ (i < NPROC)%nat ∧ active (vw k i);
  t_used i : (i < NPROC)%nat → v_state (vw k i) ≠ USED;
  t_unused i : (i < NPROC)%nat → v_state (vw k i) = UNUSED → vw k i = View UNUSED 0 0 None;
  t_pid i : (i < NPROC)%nat → live (vw k i) → 1 ≤ v_pid (vw k i) < nextpid k;
  t_uniq i j : (i < NPROC)%nat → (j < NPROC)%nat → live (vw k i) → live (vw k j) → v_pid (vw k i) = v_pid (vw k j) → i = j;
  t_parent i : (i < NPROC)%nat → live (vw k i) → initproc k ≠ Some i →
    ∃ j, v_parent (vw k i) = Some j ∧ (j < NPROC)%nat ∧ active (vw k j);
  t_pact i j : (i < NPROC)%nat → v_parent (vw k i) = Some j → (j < NPROC)%nat ∧ active (vw k j);
  t_cpu c i : (c < NCPU)%nat → cproc k !!! c = Some i → (i < NPROC)%nat ∧ v_state (vw k i) = RUNNING;
  t_running i : (i < NPROC)%nat → v_state (vw k i) = RUNNING → ∃ c, (c < NCPU)%nat ∧ cproc k !!! c = Some i;
  t_one c c' i : (c < NCPU)%nat → (c' < NCPU)%nat → cproc k !!! c = Some i → cproc k !!! c' = Some i → c = c';
  t_wait i j : (i < NPROC)%nat → (j < NPROC)%nat → waiting j (vw k j) → v_parent (vw k i) = Some j → v_state (vw k i) ≠ ZOMBIE;
}.

(** The invariant depends on the views only. *)
Definition same_views k k' : Prop :=
  length (procs k') = length (procs k) ∧ (∀ i, (i < NPROC)%nat → vw k' i = vw k i) ∧
  nextpid k' = nextpid k ∧ initproc k' = initproc k ∧ cproc k' = cproc k.

Lemma same_views_refl k : same_views k k.
Proof. by split_and!. Qed.

Lemma same_views_trans k1 k2 k3 : same_views k1 k2 → same_views k2 k3 → same_views k1 k3.
Proof.
  intros (A1 & A2 & A3 & A4 & A5) (B1 & B2 & B3 & B4 & B5). split_and!; try congruence.
  intros i Hi. by rewrite B2, A2.
Qed.

(** Processes change softly: a sleeper may be woken, a parent may be replaced
    by [init]. *)
Record soft k k' : Prop := {
  sf_len : length (procs k') = length (procs k) ∧ cproc k' = cproc k;
  sf_glob : nextpid k' = nextpid k ∧ initproc k' = initproc k;
  sf_state i : (i < NPROC)%nat → v_state (vw k' i) = v_state (vw k i) ∨
    (v_state (vw k i) = SLEEPING ∧ v_state (vw k' i) = RUNNABLE);
  sf_rest i : (i < NPROC)%nat → v_chan (vw k' i) = v_chan (vw k i) ∧ v_pid (vw k' i) = v_pid (vw k i);
  sf_parent i : (i < NPROC)%nat → v_parent (vw k' i) = v_parent (vw k i) ∨
    (live (vw k i) ∧ v_parent (vw k' i) = initproc k);
}.

Lemma soft_refl k : soft k k.
Proof. split; auto. Qed.

Lemma soft_trans k1 k2 k3 : soft k1 k2 → soft k2 k3 → soft k1 k3.
Proof.
  intros [[A0 A1] [A2 A2'] A3 A4 A5] [[B0 B1] [B2 B2'] B3 B4 B5]. split.
  - split; congruence.
  - split; congruence.
  - intros i Hi. destruct (A3 i Hi) as [A|[A A']], (B3 i Hi) as [B|[B B']]; [left|right|right|]; try split; congruence.
  - intros i Hi. destruct (A4 i Hi), (B4 i Hi). split; congruence.
  - intros i Hi. destruct (B5 i Hi) as [B|[B B']].
    + destruct (A5 i Hi) as [A|[A A']]; [left|right; split; [done|]]; congruence.
    + right. split; [|congruence]. unfold live in *. destruct (A3 i Hi) as [A|[A A']]; congruence.
Qed.

Lemma soft_active k k' i : soft k k' → (i < NPROC)%nat → active (vw k' i) ↔ active (vw k i).
Proof. intros H Hi. unfold active. destruct (sf_state _ _ H i Hi) as [->|[-> ->]]; [done|]. by split. Qed.

Lemma soft_live k k' i : soft k k' → (i < NPROC)%nat → live (vw k' i) ↔ live (vw k i).
Proof. intros H Hi. unfold live. destruct (sf_state _ _ H i Hi) as [->|[-> ->]]; [done|]. by split. Qed.

Lemma soft_running k k' i : soft k k' → (i < NPROC)%nat → v_state (vw k' i) = RUNNING ↔ v_state (vw k i) = RUNNING.
Proof. intros H Hi. destruct (sf_state _ _ H i Hi) as [->|[-> ->]]; [done|]. by split. Qed.

Lemma ok_soft k k' :
  table_ok k → soft k k' →
  (∀ i j, (i < NPROC)%nat → (j < NPROC)%nat → waiting j (vw k' j) → v_parent (vw k' i) = Some j → v_state (vw k' i) ≠ ZOMBIE) →
  table_ok k'.
Proof.
  intros [[H1 H1'] H2 H3 H4 H5 H6 H7 H7' H8 H9 H10 H11] Hs Hw.
  destruct (sf_len _ _ Hs) as [L1 L2], (sf_glob _ _ Hs) as [G1 G2]. destruct H2 as (n & Hn & Hn' & Hact). split.
  - by rewrite L1, L2.
  - exists n. rewrite G2. split; [done|]. split; [done|]. by apply (soft_active _ _ n Hs).
  - intros i Hi. destruct (sf_state _ _ Hs i Hi) as [->|[_ ->]]; [by apply H3|done].
  - intros i Hi Hu. destruct (sf_state _ _ Hs i Hi) as [E|[_ E]]; [|congruence]. rewrite Hu in E. symmetry in E.
    pose proof (H4 i Hi E) as Ev. destruct (sf_rest _ _ Hs i Hi) as [R1 R2], (sf_parent _ _ Hs i Hi) as [R3|[R3 _]].
    + rewrite Ev in R1, R2, R3. destruct (vw k' i); cbn in *. by subst.
    + by rewrite Ev in R3.
  - intros i Hi Hl. rewrite G1. destruct (sf_rest _ _ Hs i Hi) as [_ ->]. apply H5; [done|]. by apply (soft_live _ _ i Hs).
  - intros i j Hi Hj Hl Hl'. destruct (sf_rest _ _ Hs i Hi) as [_ ->], (sf_rest _ _ Hs j Hj) as [_ ->].
    apply H6; try done; by apply (soft_live _ _ _ Hs).
  - intros i Hi Hl Hni. rewrite G2 in Hni. apply (soft_live _ _ i Hs Hi) in Hl.
    destruct (sf_parent _ _ Hs i Hi) as [->|[_ ->]].
    + destruct (H7 i Hi Hl Hni) as (j & E & Hj & Ha). exists j. split; [done|]. split; [done|]. by apply (soft_active _ _ j Hs).
    + exists n. split; [done|]. split; [done|]. by apply (soft_active _ _ n Hs).
  - intros i j Hi. destruct (sf_parent _ _ Hs i Hi) as [->|[_ ->]].
    + intros E. destruct (H7' i j Hi E) as [Hj Ha]. split; [done|]. by apply (soft_active _ _ j Hs).
    + intros E. assert (j = n) as -> by congruence. split; [done|]. by apply (soft_active _ _ n Hs).
  - intros c i Hc. rewrite L2. intros E. destruct (H8 c i Hc E) as [Hi Hr]. split; [done|]. by apply (soft_running _ _ i Hs).
  - intros i Hi. rewrite L2, (soft_running _ _ i Hs Hi). by apply H9.
  - intros c c' i. rewrite L2. apply H10.
  - done.
Qed.

Lemma ok_views k k' : table_ok k → same_views k k' → table_ok k'.
Proof.
  intros Hok (H1 & H2 & H3 & H4 & H5). apply (ok_soft k k' Hok).
  - split; try done; intros i Hi; rewrite (H2 i Hi); auto.
  - intros i j Hi Hj. rewrite (H2 i Hi), (H2 j Hj). by apply (t_wait _ Hok).
Qed.

(** One process changes. *)
Record changes k k' i v : Prop := {
  ch_len : length (procs k') = length (procs k);
  ch_init : initproc k' = initproc k;
  ch_self : vw k' i = v;
  ch_rest j : (j < NPROC)%nat → j ≠ i → vw k' j = vw k j;
}.

Lemma ok_change k k' i v :
  table_ok k → changes k k' i v → (i < NPROC)%nat → nextpid k ≤ nextpid k' →
  v_state v ≠ USED →
  (v_state v = UNUSED → v = View UNUSED 0 0 None) →
  (live v → 1 ≤ v_pid v < nextpid k' ∧ ∀ j, (j < NPROC)%nat → j ≠ i → live (vw k j) → v_pid (vw k j) ≠ v_pid v) →
  (live v → initproc k ≠ Some i → ∃ j, v_parent v = Some j ∧ (j ≠ i ∨ active v) ∧ (j < NPROC)%nat ∧ active (vw k j)) →
  (v_parent v = v_parent (vw k i) ∨ initproc k ≠ Some i) →
  (¬ active v → initproc k ≠ Some i ∧ ∀ j, (j < NPROC)%nat → v_parent (vw k j) ≠ Some i) →
  (waiting i v → ∀ j, (j < NPROC)%nat → v_parent (vw k j) = Some i → v_state (vw k j) ≠ ZOMBIE) →
  (v_state v = ZOMBIE → ∀ j, (j < NPROC)%nat → v_parent v = Some j → ¬ waiting j (vw k j)) →
  length (cproc k') = NCPU →
  (∀ c j, (c < NCPU)%nat → j ≠ i → cproc k' !!! c = Some j ↔ cproc k !!! c = Some j) →
  (v_state v = RUNNING ↔ ∃ c, (c < NCPU)%nat ∧ cproc k' !!! c = Some i) →
  (∀ c c', (c < NCPU)%nat → (c' < NCPU)%nat → cproc k' !!! c = Some i → cproc k' !!! c' = Some i → c = c') →
  table_ok k'.
Proof.
  intros [[H1 H1'] H2 H3 H4 H5 H6 H7 H7' H8 H9 H10 H11] [C1 C2 C3 C4] Hi Hnp V1 V2 V3 V4 V4' V5 V6 V7 L P1 P2 P3.
  destruct H2 as (n & Hn & Hn' & Hact).
  assert (∀ j, (j < NPROC)%nat → vw k' j = if decide (j = i) then v else vw k j) as E.
  { intros j Hj. destruct (decide (j = i)) as [->|]; [done|by apply C4]. }
  assert (∀ j, (j < NPROC)%nat → active (vw k j) → j ≠ i ∨ active v → active (vw k' j)) as Ea.
  { intros j Hj Ha Hor. rewrite E by done. destruct (decide (j = i)) as [->|]; [naive_solver|done]. }
  split.
  - by rewrite C1, L.
  - exists n. rewrite C2. split; [done|]. split; [done|]. apply Ea; [done|done|].
    destruct (decide (n = i)) as [->|]; [|by left]. right. apply dec_stable. intros Hna. destruct (V5 Hna). congruence.
  - intros j Hj. rewrite E by done. destruct (decide (j = i)); [done|by apply H3].
  - intros j Hj. rewrite E by done. destruct (decide (j = i)); [done|by apply H4].
  - intros j Hj. rewrite E by done. destruct (decide (j = i)); [by intros [? _]%V3|]. intros Hl. pose proof (H5 j Hj Hl). lia.
  - intros a b Ha Hb. rewrite !E by done. destruct (decide (a = i)) as [->|], (decide (b = i)) as [->|]; try done.
    + intros [_ Hv]%V3 Hl Hp. by destruct (Hv b).
    + intros Hl [_ Hv]%V3 Hp. by destruct (Hv a).
    + by apply H6.
  - intros j Hj. rewrite C2, (E j Hj). destruct (decide (j = i)) as [->|Hne].
    + intros Hl Hni. destruct (V4 Hl Hni) as (p & Ep & Hpi & Hp & Ha). exists p. split; [done|]. split; [done|]. apply Ea; auto.
    + intros Hl Hni. destruct (H7 j Hj Hl Hni) as (p & Ep & Hp & Ha). exists p. split; [done|]. split; [done|]. apply Ea; [done|done|].
      destruct (decide (p = i)) as [->|]; [|by left]. right. apply dec_stable. intros Hna. by destruct (V5 Hna) as [_ Hno]; destruct (Hno j).
  - intros a b Ha Hp. enough ((b < NPROC)%nat ∧ active (vw k b) ∧ (b ≠ i ∨ active v)) as (H & H' & H'') by (split; [done|by apply Ea]).
    rewrite E in Hp by done. destruct (decide (a = i)) as [->|Hne].
    + destruct (decide (initproc k = Some i)) as [Hini|Hini].
      * destruct V4' as [Ev|]; [|done]. rewrite Ev in Hp. destruct (H7' i b Ha Hp). split; [done|]. split; [done|].
        right. apply dec_stable. intros Hna. by destruct (V5 Hna).
      * assert (live v) as Hl by (intros Hu; by rewrite (V2 Hu) in Hp). destruct (V4 Hl Hini) as (p & Ep & Hpi & Hpl & Hpa).
        assert (b = p) as -> by congruence. done.
    + destruct (H7' a b Ha Hp) as [H H']. split; [done|]. split; [done|].
      destruct (decide (b = i)) as [->|]; [|by left]. right. apply dec_stable. intros Hna. by destruct (V5 Hna) as [_ Hno]; destruct (Hno a).
  - intros c j Hc Hcj. destruct (decide (j = i)) as [->|Hne].
    + split; [done|]. rewrite E, decide_True by done. apply P2. by exists c.
    + apply P1 in Hcj; [|done|done]. destruct (H8 c j Hc Hcj) as [Hj Hr]. split; [done|]. by rewrite E, decide_False.
  - intros j Hj. rewrite (E j Hj). destruct (decide (j = i)) as [->|Hne]; [apply P2|].
    intros Hr. destruct (H9 j Hj Hr) as (c & Hc & Ec). exists c. split; [done|]. by apply P1.
  - intros c c' j Hc Hc'. destruct (decide (j = i)) as [->|Hne]; [by apply P3|]. rewrite !P1 by done. by apply H10.
  - intros a b Ha Hb. rewrite (E a Ha), (E b Hb). destruct (decide (a = i)) as [->|], (decide (b = i)) as [->|].
    + intros [Hw _] _ Hz. congruence.
    + intros Hw Hp Hz. by apply (V7 Hz b Hb).
    + intros Hw Hp. by apply V6.
    + by apply H11.
Qed.
End table.
