(* ===== verification/ProcTheorems.v ===== *)
(** * The process table stays sound, and no exit of a child is missed

    An event is one activation of a routine of proc.c on some CPU, run to the
    point where it returns or gives up the CPU.  The theorems hold for every
    sequence of events. *)

From S2P Require Import Prelude Machine Kalloc Vm Spinlock Ulib Printf Proc ProcFacts.

Section effects.
Context `{C : Config} {D F : Type} `{PF : ProcFiles F}.
Context (trampoline initcode proc_base : Z) (c : nat).
Implicit Types (s : kstate D F) (i j : nat).
Abbreviation addr := (proc_addr proc_base).
Abbreviation ok := (table_ok proc_base).

Definition upd_core (i : nat) (f : proc → proc) (k : pcore) : pcore :=
  Core (<[i := f (procs k !!! i)]> (procs k)) (nextpid k) (initproc k) (cproc k).

Lemma wlp_spin {A} (m : M spin A) (Q : A → kstate D F → Prop) s :
  (∀ a s', core s' = core s → Q a s') → wlp (on_spin m) Q s.
Proof. intros HQ. apply wlp_zoom. intros a t _. by apply HQ. Qed.

Lemma wlp_mach {A} (m : M (machine D) A) (Q : A → kstate D F → Prop) s :
  (∀ a s', core s' = core s → Q a s') → wlp (on_mach m) Q s.
Proof. intros HQ. apply wlp_zoom. intros a t _. by apply HQ. Qed.

Lemma wlp_files {A} (m : M F A) (Q : A → kstate D F → Prop) s :
  (∀ a s', core s' = core s → Q a s') → wlp (on_files m) Q s.
Proof. intros HQ. apply wlp_zoom. intros a t _. by apply HQ. Qed.

Lemma wlp_setp i f (Q : unit → kstate D F → Prop) s :
  (∀ s', core s' = upd_core i f (core s) → Q tt s') → wlp (setp i f) Q s.
Proof. intros HQ. apply wlp_modify. by apply HQ. Qed.

Lemma wlp_getp i (Q : proc → kstate D F → Prop) s : Q (procs (core s) !!! i) s → wlp (getp i) Q s.
Proof. intros H. unfold getp. by apply wlp_gets. Qed.

Lemma wlp_on_core f (Q : unit → kstate D F → Prop) s :
  (∀ s', core s' = f (core s) → Q tt s') → wlp (on_core f) Q s.
Proof. intros HQ. apply wlp_modify. by apply HQ. Qed.

Lemma wlp_myproc (Q : option nat → kstate D F → Prop) s :
  (∀ s', core s' = core s → Q (cproc (core s) !!! c) s') → wlp (myproc c) Q s.
Proof.
  intros HQ. unfold myproc. wlp_step. apply wlp_spin. intros _ s1 E1. wlp_step. wlp_step.
  wlp_step. apply wlp_spin. intros _ s2 E2. wlp_step. rewrite E1. apply HQ. congruence.
Qed.

Lemma wlp_current (Q : nat → kstate D F → Prop) s :
  (∀ i s', cproc (core s) !!! c = Some i → core s' = core s → Q i s') → wlp (current c) Q s.
Proof.
  intros HQ. unfold current. wlp_step. apply wlp_myproc. intros s1 E1.
  destruct (cproc (core s) !!! c) as [i|] eqn:E; [|by intros a s']. wlp_step. by apply HQ.
Qed.

Lemma vw_upd i f k j :
  (i < length (procs k))%nat → vw (upd_core i f k) j = if decide (j = i) then view_of (f (procs k !!! i)) else vw k j.
Proof. intros Hi. unfold vw. cbn. rewrite list_insert_lookup by done. by destruct (decide (j = i)). Qed.

Lemma views_upd i f k :
  (i < length (procs k))%nat → view_of (f (procs k !!! i)) = vw k i → same_views k (upd_core i f k).
Proof.
  intros Hi E. split_and!; try done; [cbn; by rewrite length_insert|]. intros j _. rewrite vw_upd by done.
  destruct (decide (j = i)) as [->|]; done.
Qed.

(** ** wakeup *)

Definition wake1 (ch : Z) (v : view) : view :=
  if bool_decide (v_state v = SLEEPING) && (v_chan v =? ch) then View RUNNABLE (v_chan v) (v_pid v) (v_parent v) else v.

(** The table after a wakeup by [me]. *)
Record wakes (me : option nat) (ch : Z) (k k' : pcore) : Prop := {
  wk_len : length (procs k') = length (procs k) ∧ cproc k' = cproc k;
  wk_glob : nextpid k' = nextpid k ∧ initproc k' = initproc k;
  wk_view i : (i < NPROC)%nat → vw k' i = if decide (me = Some i) then vw k i else wake1 ch (vw k i);
}.

Definition woken_below (me : option nat) (ch : Z) (k : pcore) (n : nat) (k' : pcore) : Prop :=
  length (procs k') = length (procs k) ∧ cproc k' = cproc k ∧ nextpid k' = nextpid k ∧ initproc k' = initproc k ∧
  ∀ i, (i < NPROC)%nat → vw k' i = if decide ((i < n)%nat ∧ me ≠ Some i) then wake1 ch (vw k i) else vw k i.

Lemma woken_step me ch k n k1 k2 :
  woken_below me ch k n k1 → length (procs k2) = length (procs k1) → cproc k2 = cproc k1 →
  nextpid k2 = nextpid k1 → initproc k2 = initproc k1 →
  (∀ i, (i < NPROC)%nat → i ≠ n → vw k2 i = vw k1 i) →
  vw k2 n = (if decide (me = Some n) then vw k1 n else wake1 ch (vw k1 n)) →
  woken_below me ch k (S n) k2.
Proof.
  intros (H1 & H2 & H3 & H4 & H5) L1 L2 L3 L4 Hr Hn. split_and!; try congruence.
  intros i Hi. destruct (decide (i = n)) as [->|Hne].
  - rewrite Hn, (H5 n Hi). rewrite (decide_False (P := (n < n)%nat ∧ _)) by lia.
    destruct (decide (me = Some n)) as [E|E]; [rewrite decide_False; [done|naive_solver]|].
    rewrite decide_True; [done|]. split; [lia|done].
  - rewrite Hr, (H5 i Hi) by done.
    destruct (decide ((i < n)%nat ∧ me ≠ Some i)), (decide ((i < S n)%nat ∧ me ≠ Some i)); try done; [|]; exfalso; naive_solver lia.
Qed.

Lemma wake_proc ch p :
  view_of (if bool_decide (state p = SLEEPING) && (chan p =? ch) then set_state RUNNABLE p else p) = wake1 ch (view_of p).
Proof. unfold wake1. cbn. by destruct (_ && _). Qed.

Lemma wake1_idle ch v : v_state v ≠ SLEEPING → wake1 ch v = v.
Proof. intros H. unfold wake1. by rewrite bool_decide_false. Qed.

Lemma wlp_wakeup ch (Q : unit → kstate D F → Prop) s :
  length (procs (core s)) = NPROC →
  (∀ s', wakes (cproc (core s) !!! c) ch (core s) (core s') → Q tt s') → wlp (wakeup c ch) Q s.
Proof.
  intros Hlen HQ. unfold wakeup. set (me := cproc (core s) !!! c).
  apply (wlp_for (λ n s', woken_below me ch (core s) (Z.to_nat n) (core s'))).
  - unfold NPROC. lia.
  - by split_and!.
  - intros n s1 Hn Hw. replace (Z.to_nat (n + 1)) with (S (Z.to_nat n)) by lia.
    assert (Z.to_nat n < NPROC)%nat as Hlt by lia. pose proof Hw as (W1 & W2 & W3 & W4 & W5).
    assert (Z.to_nat n < length (procs (core s1)))%nat as Hl1 by lia.
    wlp_step. apply wlp_myproc. intros s2 E2. rewrite W2. fold me.
    destruct (decide (me = Some (Z.to_nat n))) as [Em|Em].
    { wlp_step. rewrite E2. apply (woken_step me ch _ _ _ _ Hw); try done. by rewrite decide_True. }
    wlp_step. apply wlp_spin. intros h s3 E3. wlp_step. apply wlp_getp.
    destruct (h && _) eqn:Eh.
    { wlp_step. rewrite E3, E2. apply (woken_step me ch _ _ _ _ Hw); try done. rewrite decide_False by done.
      apply andb_true_iff in Eh as [_ Eh%bool_decide_eq_true]. rewrite E3, E2 in Eh.
      rewrite wake1_idle; [done|]. unfold vw. cbn. congruence. }
    clear Eh. wlp_step. apply wlp_spin. intros _ s4 E4. wlp_step. apply wlp_getp. wlp_step.
    assert (core s4 = core s1) as E41 by congruence.
    pose proof (wake_proc ch (procs (core s4) !!! Z.to_nat n)) as Hwp.
    destruct (_ && _) eqn:Eb.
    + apply wlp_setp. intros s5 E5. apply wlp_spin. intros _ s6 E6. rewrite E6, E5, E41.
      rewrite E41 in Hwp.
      apply (woken_step me ch _ _ _ _ Hw); try done; [cbn; by rewrite length_insert| |].
      * intros i Hi Hne. rewrite vw_upd by done. by rewrite decide_False.
      * rewrite vw_upd, decide_True, decide_False by done. exact Hwp.
    + wlp_step. apply wlp_spin. intros _ s6 E6. rewrite E6, E41. rewrite E41 in Hwp.
      apply (woken_step me ch _ _ _ _ Hw); try done. rewrite decide_False by done. exact Hwp.
  - intros s' (H1 & H2 & H3 & H4 & H5). apply HQ. split; [done|done|].
    intros i Hi. fold me. rewrite H5 by done.
    destruct (decide (me = Some i)) as [E|E]; [rewrite decide_False; [done|naive_solver]|].
    rewrite decide_True; [done|]. split; [unfold NPROC in *; lia|done].
Qed.

Lemma wake1_cases ch v :
  wake1 ch v = v ∨ (v_state v = SLEEPING ∧ wake1 ch v = View RUNNABLE (v_chan v) (v_pid v) (v_parent v)).
Proof.
  unfold wake1. destruct (bool_decide_reflect (v_state v = SLEEPING)) as [E|E]; [|by left].
  destruct (v_chan v =? ch); [by right|by left].
Qed.

Lemma wakes_soft me ch k k' : wakes me ch k k' → soft k k'.
Proof.
  intros [H1 H2 H3].
  assert (∀ i, (i < NPROC)%nat → vw k' i = vw k i ∨
    (v_state (vw k i) = SLEEPING ∧ vw k' i = View RUNNABLE (v_chan (vw k i)) (v_pid (vw k i)) (v_parent (vw k i)))) as Hc.
  { intros i Hi. rewrite H3 by done. destruct (decide (me = Some i)); [by left|apply wake1_cases]. }
  split; [done|done|..]; intros i Hi; (destruct (Hc i Hi) as [->|[E ->]]; [by auto|cbn; by auto]).
Qed.

Lemma wakes_parent me ch k k' i : wakes me ch k k' → (i < NPROC)%nat → v_parent (vw k' i) = v_parent (vw k i).
Proof.
  intros [_ _ H3] Hi. rewrite H3 by done. destruct (decide (me = Some i)); [done|]. unfold wake1. by destruct (_ && _).
Qed.

Lemma wake1_awake ch v : v_state (wake1 ch v) = SLEEPING → v_chan (wake1 ch v) ≠ ch.
Proof.
  destruct v as [x h p q]. unfold wake1. cbn.
  destruct (bool_decide_reflect (x = SLEEPING)); cbn; [|done]. by destruct (Z.eqb_spec h ch).
Qed.

(** Nobody but the caller is left sleeping on the channel. *)
Lemma wakes_done me ch k k' i :
  wakes me ch k k' → (i < NPROC)%nat → me ≠ Some i → v_state (vw k' i) = SLEEPING → v_chan (vw k' i) ≠ ch.
Proof. intros [_ _ H3] Hi Hme. rewrite H3, decide_False by done. apply wake1_awake. Qed.

Lemma soft_zombie k k' i : soft k k' → (i < NPROC)%nat → v_state (vw k' i) = ZOMBIE ↔ v_state (vw k i) = ZOMBIE.
Proof. intros H Hi. destruct (sf_state _ _ H i Hi) as [->|[-> ->]]; [done|]. by split. Qed.

Lemma soft_waiting k k' j : soft k k' → (j < NPROC)%nat → waiting proc_base j (vw k' j) → waiting proc_base j (vw k j).
Proof.
  intros H Hj [Hs Hch]. destruct (sf_state _ _ H j Hj) as [E|[_ E]]; [|congruence].
  destruct (sf_rest _ _ H j Hj) as [E2 _]. split; congruence.
Qed.

Lemma ok_wakes me ch k k' : ok k → wakes me ch k k' → ok k'.
Proof.
  intros Hok Hw. pose proof (wakes_soft _ _ _ _ Hw) as Hs. apply (ok_soft _ k k' Hok Hs).
  intros i j Hi Hj Hwt Hp. rewrite (soft_zombie k k' i Hs Hi). rewrite (wakes_parent _ _ _ _ i Hw Hi) in Hp.
  apply (t_wait _ _ Hok i j); try done. by eapply soft_waiting.
Qed.

(** ** reparent *)

(** Process [j] is handed to [init], which is woken. *)
Lemma ok_handover me k k1 k2 i j n :
  ok k → (j < NPROC)%nat → live (vw k j) → initproc k = Some n → v_parent (vw k j) = Some i →
  k1 = upd_core j (set_parent (Some n)) k → me ≠ Some n → wakes me (addr n) k1 k2 →
  ok k2 ∧ soft k k2 ∧ ∀ m, (m < NPROC)%nat → v_parent (vw k2 m) = if decide (m = j) then Some n else v_parent (vw k m).
Proof.
  intros Hok Hj Hl Hn Hp -> Hme Hw. destruct (t_len _ _ Hok) as [L1 L2].
  assert (∀ m, vw (upd_core j (set_parent (Some n)) k) m =
    if decide (m = j) then View (v_state (vw k j)) (v_chan (vw k j)) (v_pid (vw k j)) (Some n) else vw k m) as E1.
  { intros m. rewrite vw_upd by lia. done. }
  pose proof (wakes_soft _ _ _ _ Hw) as Hs.
  assert (∀ m, (m < NPROC)%nat → v_parent (vw k2 m) = if decide (m = j) then Some n else v_parent (vw k m)) as Hpar.
  { intros m Hm. rewrite (wakes_parent _ _ _ _ m Hw Hm), E1. by destruct (decide (m = j)). }
  assert (soft k k2) as Hs2.
  { destruct Hs as [S1 S2 S3 S4 S5]. split.
    - cbn in S1. by rewrite length_insert in S1.
    - done.
    - intros m Hm. specialize (S3 m Hm). rewrite E1 in S3. by destruct (decide (m = j)) as [->|].
    - intros m Hm. specialize (S4 m Hm). rewrite E1 in S4. by destruct (decide (m = j)) as [->|].
    - intros m Hm. rewrite Hpar by done. destruct (decide (m = j)) as [->|]; [right; by rewrite Hn|by left]. }
  split; [|done]. apply (ok_soft _ k k2 Hok Hs2). intros a b Ha Hb Hwt Hpa.
  rewrite (soft_zombie k k2 a Hs2 Ha). rewrite Hpar in Hpa by done. destruct (decide (a = j)) as [->|Hne].
  - injection Hpa as <-. destruct Hwt as [Hsl Hch]. by destruct (wakes_done _ _ _ _ n Hw Hb Hme Hsl).
  - apply (t_wait _ _ Hok a b); try done. by eapply soft_waiting.
Qed.

(** No process has [i] for a parent afterwards. *)
Lemma wlp_reparent i n (Q : unit → kstate D F → Prop) s :
  ok (core s) → initproc (core s) = Some n → cproc (core s) !!! c = Some i → i ≠ n → (c < NCPU)%nat →
  (∀ s', ok (core s') → soft (core s) (core s') → (∀ j, (j < NPROC)%nat → v_parent (vw (core s') j) ≠ Some i) →
     v_parent (vw (core s') i) = v_parent (vw (core s) i) ∨ v_parent (vw (core s') i) = Some n → Q tt s') →
  wlp (reparent proc_base c i) Q s.
Proof.
  intros Hok Hn Hme Hin Hc HQ. unfold reparent.
  apply (wlp_for (λ m s', ok (core s') ∧ soft (core s) (core s') ∧
    (∀ j, (j < NPROC)%nat → v_parent (vw (core s') j) = Some i → (Z.to_nat m ≤ j)%nat) ∧
    (v_parent (vw (core s') i) = v_parent (vw (core s) i) ∨ v_parent (vw (core s') i) = Some n))).
  - unfold NPROC. lia.
  - split; [done|]. split; [|split; [lia|by left]]. split; try done; auto.
  - intros m s1 Hm (Hok1 & Hs1 & Hbelow & Hpi). destruct (t_len _ _ Hok1) as [L1 L2].
    set (j := Z.to_nat m) in *. assert (j < NPROC)%nat as Hj by lia.
    destruct (sf_len _ _ Hs1) as [_ Ecp], (sf_glob _ _ Hs1) as [_ Ein].
    replace (Z.to_nat (m + 1)) with (S j) by lia.
    wlp_step. apply wlp_getp.
    destruct (decide (parent (procs (core s1) !!! j) = Some i)) as [Ep|Ep].
    + wlp_step. wlp_step. rewrite Ein, Hn. wlp_step. apply wlp_setp. intros s2 E2.
      assert (live (vw (core s1) j)) as Hl.
      { intros Hu. pose proof (t_unused _ _ Hok1 j Hj Hu) as Ev.
        apply (f_equal v_parent) in Ev. cbn in Ev. congruence. }
      apply wlp_wakeup; [rewrite E2; cbn; by rewrite length_insert|]. intros s3 Hw.
      assert (cproc (core s2) !!! c = Some i) as Hme2 by (rewrite E2; cbn; by rewrite Ecp).
      rewrite Hme2 in Hw.
      destruct (ok_handover (Some i) (core s1) (core s2) (core s3) i j n) as (H1 & H2 & H3); try done; [congruence|congruence|].
      split; [done|]. split.
      { by eapply soft_trans. }
      split.
      { intros a Ha. rewrite H3 by done. destruct (decide (a = j)) as [->|Hne]; [congruence|].
        intros Hpa. specialize (Hbelow a Ha Hpa). lia. }
      rewrite H3 by (by destruct (t_cpu _ _ Hok c i Hc Hme)). destruct (decide (i = j)); [by right|done].
    + wlp_step. split; [done|]. split; [done|]. split; [|done]. intros a Ha Hpa. specialize (Hbelow a Ha Hpa).
      destruct (decide (a = j)) as [->|]; [done|]. lia.
  - intros s' (Hok' & Hs' & Hbelow & Hpi). apply HQ; [done|done| |done]. intros j Hj Hpa. specialize (Hbelow j Hj Hpa).
    rewrite Nat2Z.id in Hbelow. lia.
Qed.
(** ** Allocation *)

(** Only process [i] differs, and it looks like [v] now. *)
Record only k i v k' : Prop := {
  on_ch : changes k k' i v;
  on_cpu : cproc k' = cproc k;
}.

Lemma only_upd k i v k' f :
  only k i v k' → (i < length (procs k))%nat → only k i (view_of (f (procs k' !!! i))) (upd_core i f k').
Proof.
  intros [[C1 C2 C3 C4] Hcp] Hi. split; [|done]. split; [cbn; by rewrite length_insert|done| |].
  - by rewrite vw_upd, decide_True by lia.
  - intros j Hj Hne. rewrite vw_upd, decide_False by (done || lia). by apply C4.
Qed.

Lemma only_same k i v k' : only k i v k' → view_of (procs k' !!! i) = v.
Proof. intros [[_ _ H _] _]. exact H. Qed.

(** The core differs from [k] in process [i] only, and the pid counter is [np]. *)
Definition tracked k i v np s : Prop := only k i v (core s) ∧ nextpid (core s) = np.

Lemma tracked_core k i v np s s' : tracked k i v np s → core s' = core s → tracked k i v np s'.
Proof. intros [Ho Hn] E. by split; rewrite E. Qed.

Lemma wlp_tracked_set k i v np f (Q : unit → kstate D F → Prop) s :
  tracked k i v np s → (i < length (procs k))%nat →
  (∀ p s', view_of p = v → tracked k i (view_of (f p)) np s' → Q tt s') → wlp (setp i f) Q s.
Proof.
  intros [Ho Hn] Hi HQ. apply wlp_setp. intros s' E. apply (HQ (procs (core s) !!! i)); [by eapply only_same|].
  split; rewrite E; [by eapply only_upd|done].
Qed.

(** An update of fields outside the view. *)
Lemma wlp_tracked_field k i v np f (Q : unit → kstate D F → Prop) s :
  tracked k i v np s → (i < length (procs k))%nat → (∀ p, view_of (f p) = view_of p) →
  (∀ s', tracked k i v np s' → Q tt s') → wlp (setp i f) Q s.
Proof.
  intros Ht Hi Hf HQ. eapply wlp_tracked_set; [done|done|]. intros p s' Hp T. apply HQ. by rewrite Hf, Hp in T.
Qed.

Lemma wlp_tracked_view k i v np f g (Q : unit → kstate D F → Prop) s :
  tracked k i v np s → (i < length (procs k))%nat → (∀ p, view_of (f p) = g (view_of p)) →
  (∀ s', tracked k i (g v) np s' → Q tt s') → wlp (setp i f) Q s.
Proof.
  intros Ht Hi Hf HQ. eapply wlp_tracked_set; [done|done|]. intros p s' Hp T. apply HQ. by rewrite Hf, Hp in T.
Qed.

Definition put_state x v := View x (v_chan v) (v_pid v) (v_parent v).
Definition put_chan x v := View (v_state v) x (v_pid v) (v_parent v).
Definition put_pid x v := View (v_state v) (v_chan v) x (v_parent v).
Definition put_parent x v := View (v_state v) (v_chan v) (v_pid v) x.

Definition cleared (p : proc) : proc :=
  set_state UNUSED (set_xstate 0 (set_killed false (set_chan 0 (set_name [] (set_parent None
    (set_pid 0 (set_sz 0 (set_pagetable 0 p)))))))).

Lemma wlp_freeproc k i v np (Q : unit → kstate D F → Prop) s :
  tracked k i v np s → (i < length (procs k))%nat →
  (∀ s', tracked k i (View UNUSED 0 0 None) np s' → Q tt s') → wlp (freeproc i) Q s.
Proof.
  intros Ht Hi HQ. unfold freeproc. fold cleared. wlp_step. apply wlp_getp. wlp_step.
  eapply (wlp_mono _ (λ _ s', tracked k i v np s')).
  { destruct (_ =? 0); [by wlp_step|]. apply wlp_mach. intros _ s1 E1. by eapply tracked_core. }
  intros _ s1 T1. wlp_step. eapply wlp_tracked_field; [done|done|done|]. intros s2 T2.
  wlp_step. apply wlp_getp. wlp_step. eapply (wlp_mono _ (λ _ s', tracked k i v np s')).
  { destruct (_ =? 0); [by wlp_step|]. apply wlp_mach. intros _ s3 E3. by eapply tracked_core. }
  intros _ s3 T3. eapply wlp_tracked_set; [done|done|]. intros p s4 _ T4. by apply HQ.
Qed.

Lemma wlp_find_unused (Q : option nat → kstate D F → Prop) s :
  length (procs (core s)) = NPROC →
  (∀ r s', core s' = core s → match r with Some i => (i < NPROC)%nat ∧ v_state (vw (core s) i) = UNUSED | None => True end → Q r s') →
  wlp (find_unused c) Q s.
Proof.
  intros Hl HQ. unfold find_unused. wlp_step.
  apply (wlp_for_exit (λ _ s', core s' = core s)); [unfold NPROC; lia|done| |].
  - intros n s1 Hn E1. wlp_step. apply wlp_spin. intros _ s2 E2. wlp_step. apply wlp_getp.
    destruct (decide (state (procs (core s2) !!! Z.to_nat n) = UNUSED)) as [Eu|Eu].
    + wlp_step. wlp_step. apply HQ; [congruence|]. split; [lia|]. rewrite E2, E1 in Eu. exact Eu.
    + wlp_step. apply wlp_spin. intros _ s3 E3. wlp_step. congruence.
  - intros s' E. wlp_step. by apply HQ.
Qed.

(** The table with a larger pid counter. *)
Lemma ok_more k k' :
  ok k → length (procs k') = length (procs k) → (∀ i, (i < NPROC)%nat → vw k' i = vw k i) →
  initproc k' = initproc k → cproc k' = cproc k → nextpid k ≤ nextpid k' → ok k'.
Proof.
  intros Hok L V I P N.
  assert (ok (Core (procs k') (nextpid k) (initproc k') (cproc k'))) as H.
  { apply (ok_views _ k); [done|]. by split_and!. }
  destruct H as [H1 H2 H3 H4 H5 H6 H7 H7' H8 H9 H10 H11]. split; try done.
  intros i Hi Hlv. pose proof (H5 i Hi Hlv) as Hb. change (1 ≤ v_pid (vw k' i) < nextpid k) in Hb. lia.
Qed.

Lemma wlp_allocpid (Q : Z → kstate D F → Prop) s :
  (∀ s', core s' = Core (procs (core s)) (s32 (nextpid (core s) + 1)) (initproc (core s)) (cproc (core s)) →
     Q (nextpid (core s)) s') → wlp (allocpid c) Q s.
Proof.
  intros HQ. unfold allocpid. wlp_step. apply wlp_spin. intros _ s2 E2. wlp_step. wlp_step. wlp_step.
  apply wlp_on_core. intros s3 E3. wlp_step. apply wlp_spin. intros _ s4 E4. wlp_step. rewrite E2 in *. apply HQ. congruence.
Qed.

(** The outcome of [allocproc]: nothing, or a fresh process in state [USED]. *)
Lemma wlp_allocproc (Q : option nat → kstate D F → Prop) s :
  length (procs (core s)) = NPROC →
  (∀ i, (i < NPROC)%nat → v_state (vw (core s) i) = UNUSED → vw (core s) i = View UNUSED 0 0 None) →
  0 ≤ nextpid (core s) < 2 ^ 31 - 1 →
  (∀ s', length (procs (core s')) = length (procs (core s)) → (∀ i, (i < NPROC)%nat → vw (core s') i = vw (core s) i) →
     initproc (core s') = initproc (core s) → cproc (core s') = cproc (core s) →
     nextpid (core s) ≤ nextpid (core s') ≤ nextpid (core s) + 1 → Q None s') →
  (∀ i s', (i < NPROC)%nat → v_state (vw (core s) i) = UNUSED →
     tracked (core s) i (View USED 0 (nextpid (core s)) None) (nextpid (core s) + 1) s' → Q (Some i) s') →
  wlp (allocproc trampoline c) Q s.
Proof.
  intros L1 Hun Hnp HN HS. set (np := nextpid (core s)) in *.
  unfold allocproc. wlp_step. apply wlp_find_unused; [done|]. intros r s1 E1 Hr.
  destruct r as [i|]; [|wlp_step; apply HN; rewrite E1; try done; lia].
  destruct Hr as [Hi Hu]. pose proof (Hun i Hi Hu) as Hv. assert (i < length (procs (core s)))%nat as Hi' by lia.
  assert (∀ v s', tracked (core s) i v (np + 1) s' → wlp (freeproc i;; release_ c (PLOCK i);; ret None) Q s') as Hfree.
  { intros v s' T. wlp_step. eapply wlp_freeproc; [done|done|]. intros s2 [[[C1 C2 C3 C4] Hcp] Hn]. wlp_step. apply wlp_spin.
    intros _ s3 E3. wlp_step. apply HN; rewrite E3; [done| |done|done|lia].
    intros j Hj. destruct (decide (j = i)) as [->|]; [by rewrite C3, Hv|by apply C4]. }
  wlp_step. apply wlp_allocpid. intros s4 E4. rewrite E1 in E4 |- *. fold np.
  assert (tracked (core s) i (View UNUSED 0 0 None) (np + 1) s4) as T4.
  { split; rewrite E4; [|cbn; rewrite s32_small; lia]. by split. }
  wlp_step. apply (wlp_tracked_view _ _ _ _ _ (put_pid np) _ _ T4); [done|done|]. intros s5 T5.
  wlp_step. apply (wlp_tracked_view _ _ _ _ _ (put_state USED) _ _ T5); [done|done|]. intros s6 T6.
  wlp_step. apply wlp_mach. intros tf s7 E7. pose proof (tracked_core _ _ _ _ _ _ T6 E7) as T7.
  wlp_step. eapply wlp_tracked_field; [done|done|done|]. intros s8 T8.
  destruct (tf =? 0); [by eapply Hfree|].
  wlp_step. apply wlp_mach. intros pt s9 E9. pose proof (tracked_core _ _ _ _ _ _ T8 E9) as T9.
  wlp_step. eapply wlp_tracked_field; [done|done|done|]. intros s10 T10.
  destruct (pt =? 0); [by eapply Hfree|].
  wlp_step. eapply wlp_tracked_field; [done|done|done|]. intros s11 T11. wlp_step. by apply HS.
Qed.

(** ** Boot *)

Definition zero_proc : proc := Proc UNUSED 0 false 0 0 None 0 0 0 0 KNone false (replicate NOFILE 0) 0 [].

(** The globals of proc.c when the kernel starts. *)
Definition zero_core : pcore := Core (replicate NPROC zero_proc) 1 None (replicate NCPU None).

Lemma vw_zero i : (i < NPROC)%nat → vw zero_core i = View UNUSED 0 0 None.
Proof. intros Hi. unfold vw, zero_core. cbn [procs]. by rewrite lookup_total_replicate_2. Qed.

Lemma wlp_procinit (Q : unit → kstate D F → Prop) s :
  core s = zero_core → (∀ s', same_views zero_core (core s') → Q tt s') → wlp procinit Q s.
Proof.
  intros E HQ. unfold procinit. wlp_step. apply wlp_spin. intros [] s1 E1. wlp_step. apply wlp_spin. intros [] s2 E2.
  apply (wlp_for (λ _ s', same_views zero_core (core s'))); [unfold NPROC; lia| | |done].
  - rewrite E2, E1, E. apply same_views_refl.
  - intros n s3 Hn Hv. wlp_step. apply wlp_spin. intros [] s4 E4. wlp_step. apply wlp_setp. intros s5 E5. apply wlp_setp. intros s6 E6.
    assert (Z.to_nat n < NPROC)%nat as Hlt by lia. pose proof Hv as (L & V & _). change (length (procs (core s3)) = NPROC) in L.
    eapply same_views_trans; [exact Hv|]. rewrite E4 in E5. rewrite E6. eapply same_views_trans; [|apply views_upd; [|done]].
    + rewrite E5. apply views_upd; [lia|]. specialize (V _ Hlt). rewrite vw_zero in V by done. unfold vw, view_of in *. cbn.
      injection V as ? ? ? ?. congruence.
    + rewrite E5. cbn. rewrite length_insert. lia.
Qed.

(** The first process, alone in the table. *)
Lemma ok_first k i :
  length (procs k) = NPROC → cproc k = replicate NCPU None → initproc k = Some i → (i < NPROC)%nat → nextpid k = 2 →
  vw k i = View RUNNABLE 0 1 None → (∀ j, (j < NPROC)%nat → j ≠ i → vw k j = View UNUSED 0 0 None) → ok k.
Proof.
  intros L Hcp Hin Hi Hn Vi Vj.
  assert (∀ j, (j < NPROC)%nat → vw k j = if decide (j = i) then View RUNNABLE 0 1 None else View UNUSED 0 0 None) as V.
  { intros j Hj. destruct (decide (j = i)) as [->|]; [done|by apply Vj]. }
  assert (∀ d j, (d < NCPU)%nat → cproc k !!! d ≠ Some j) as Hnc.
  { intros d j Hd. rewrite Hcp. by rewrite lookup_total_replicate_2. }
  split.
  - split; [done|]. by rewrite Hcp, length_replicate.
  - exists i. rewrite Vi. done.
  - intros j Hj. rewrite V by done. by destruct (decide (j = i)).
  - intros j Hj. rewrite V by done. by destruct (decide (j = i)).
  - intros j Hj. rewrite V, Hn by done. unfold live. destruct (decide (j = i)); cbn; [lia|done].
  - intros j j' Hj Hj'. rewrite !V by done. unfold live. destruct (decide (j = i)), (decide (j' = i)); cbn; congruence.
  - intros j Hj. rewrite V, Hin by done. unfold live. destruct (decide (j = i)) as [->|]; cbn; done.
  - intros j j' Hj. rewrite V by done. by destruct (decide (j = i)).
  - intros d j Hd E. by destruct (Hnc d j Hd).
  - intros j Hj. rewrite V by done. by destruct (decide (j = i)).
  - intros d d' j Hd _ E. by destruct (Hnc d j Hd).
  - intros j j' Hj Hj'. rewrite !V by done. by destruct (decide (j = i)).
Qed.

Lemma boot_ok s : core s = zero_core → wlp (procinit;; userinit trampoline initcode c) (λ _ s', ok (core s') ∧ nextpid (core s') = 2) s.
Proof.
  intros E. wlp_step. apply wlp_procinit; [done|]. intros s1 (L & V & Hn & Hin & Hcp). change (length (procs (core s1)) = NPROC) in L. change (nextpid (core s1) = 1) in Hn.
  unfold userinit. wlp_step. apply wlp_allocproc; [done| |rewrite Hn; lia| |].
  { intros i Hi _. by rewrite V, vw_zero. }
  { intros s2 _ _ _ _ _. wlp_step. apply wlp_on_core. intros s3 _. by intros a s'. }
  intros i s2 Hi _ T2. rewrite Hn in T2. assert (i < length (procs (core s1)))%nat as Hi' by lia.
  destruct T2 as [[[C1 C2 C3 C4] Hcp2] Hn2]. wlp_step. apply wlp_on_core. intros s3 E3.
  set (k := Core (procs (core s1)) (nextpid (core s1)) (Some i) (cproc (core s1))).
  assert (tracked k i (View USED 0 1 None) 2 s3) as T3.
  { unfold tracked. rewrite E3. split; [|done]. split; [|done]. split; [done|done|exact C3|]. intros j Hj Hne. exact (C4 j Hj Hne). }
  wlp_step. apply wlp_getp. wlp_step. apply wlp_mach. intros [] s4 E4. pose proof (tracked_core _ _ _ _ _ _ T3 E4) as T4.
  wlp_step. eapply wlp_tracked_field; [done|done|done|]. intros s5 T5.
  wlp_step. apply wlp_mach. intros [] s6 E6. wlp_step. apply wlp_mach. intros [] s7 E7.
  pose proof (tracked_core _ _ _ _ _ _ (tracked_core _ _ _ _ _ _ T5 E6) E7) as T7.
  wlp_step. eapply wlp_tracked_field; [done|done|done|]. intros s8 T8.
  wlp_step. apply wlp_files. intros d s9 E9. wlp_step. eapply wlp_tracked_field; [by eapply tracked_core|done|done|]. intros s10 T10.
  wlp_step. apply (wlp_tracked_view _ _ _ _ _ (put_state RUNNABLE) _ _ T10); [done|done|]. intros s11 T11.
  apply wlp_spin. intros [] s12 E12. rewrite E12. destruct T11 as [[[D1 D2 D3 D4] Hcp11] Hn11]. split; [|done].
  apply (ok_first _ i); [rewrite D1; exact L|rewrite Hcp11; exact Hcp|exact D2|done|done|exact D3|].
  intros j Hj Hne. rewrite D4 by done. rewrite <- (vw_zero j Hj). by apply V.
Qed.

(** ** Every activation keeps the invariant *)

Section activations.
Context (Hc : (c < NCPU)%nat).

(** After an activation: the invariant, and at most one pid was used up. *)
Definition good s s' : Prop := ok (core s') ∧ nextpid (core s') ≤ nextpid (core s) + 1.

Lemma good_same s s' : ok (core s) → core s' = core s → good s s'.
Proof. intros Hok E. split; rewrite E; [done|lia]. Qed.

Lemma running s i : ok (core s) → cproc (core s) !!! c = Some i → (i < NPROC)%nat ∧ v_state (vw (core s) i) = RUNNING.
Proof. intros Hok. by apply (t_cpu _ _ Hok c i Hc). Qed.

(** The fresh process becomes a child of [i]. *)
Lemma ok_forked k k' i j np :
  ok k → cproc k !!! c = Some i → (j < NPROC)%nat → v_state (vw k j) = UNUSED →
  only k j (View RUNNABLE 0 np (Some i)) k' → np = nextpid k → nextpid k' = np + 1 → 1 ≤ np → ok k'.
Proof.
  intros Hok Hme Hj Hu [Hch Hcp] -> Hn Hpos. destruct (t_cpu _ _ Hok c i Hc Hme) as [Hi Hr]. destruct (t_len _ _ Hok) as [L1 L2].
  assert (i ≠ j) as Hne by congruence.
  assert (∀ d, (d < NCPU)%nat → cproc k !!! d ≠ Some j) as Hnc.
  { intros d Hd E. destruct (t_cpu _ _ Hok d j Hd E). congruence. }
  apply (ok_change _ k k' j _ Hok Hch Hj); rewrite ?Hcp; cbn [v_state v_chan v_pid v_parent]; try done; try lia.
  - intros _. split; [lia|]. intros m Hm Hmj Hl E. pose proof (t_pid _ _ Hok m Hm Hl). lia.
  - intros _ _. exists i. split; [done|]. split; [by left|]. split; [done|]. unfold active. by rewrite Hr.
  - right. intros Ei. destruct (t_init _ _ Hok) as (n & En & _ & [Ha _]). assert (n = j) as -> by congruence. done.
  - unfold active. cbn. intros Hna. by destruct Hna.
  - unfold waiting. cbn. by intros [].
  - split; [done|]. intros (d & Hd & E). by destruct (Hnc d Hd).
  - intros d d' Hd _ E. by destruct (Hnc d Hd).
Qed.

Lemma fork_ok s : ok (core s) → nextpid (core s) < 2 ^ 31 - 1 → wlp (fork trampoline c) (λ _ s', good s s') s.
Proof.
  intros Hok Hnp. unfold fork. wlp_step. apply wlp_current. intros i s1 Hme E1. destruct (running _ _ Hok Hme) as [Hi Hrun].
  destruct (t_len _ _ Hok) as [L1 _]. assert (1 ≤ nextpid (core s)) as Hpos.
  { destruct (t_pid _ _ Hok i Hi) as [H1 H2]; [unfold live; by rewrite Hrun|lia]. }
  wlp_step. apply wlp_allocproc; rewrite ?E1; [done|apply (t_unused _ _ Hok)|lia| |].
  { intros s2 A1 A2 A3 A4 A5. wlp_step. split; [|lia]. apply (ok_more (core s)); try done; lia. }
  intros np s2 Hnpl Hu T2. assert (np < length (procs (core s)))%nat as Hnp' by lia.
  wlp_step. apply wlp_getp. wlp_step. apply wlp_getp. wlp_step. apply wlp_mach. intros e s3 E3.
  pose proof (tracked_core _ _ _ _ _ _ T2 E3) as T3. destruct (e <? 0).
  { wlp_step. eapply wlp_freeproc; [done|done|]. intros s4 [[[C1 C2 C3 C4] Hcp] Hn]. wlp_step. apply wlp_spin. intros _ s5 E5.
    wlp_step. split; rewrite E5; [|lia]. apply (ok_more (core s)); try done; [|lia].
    intros j Hj. destruct (decide (j = np)) as [->|]; [by rewrite C3, (t_unused _ _ Hok)|by apply C4]. }
  wlp_step. eapply wlp_tracked_field; [done|done|done|]. intros s4 T4.
  wlp_step. apply wlp_mach. intros _ s5 E5. wlp_step. apply wlp_mach. intros _ s6 E6.
  pose proof (tracked_core _ _ _ _ _ _ (tracked_core _ _ _ _ _ _ T4 E5) E6) as T6. wlp_step.
  eapply (wlp_for (λ _ s', tracked (core s) np (View USED 0 (nextpid (core s)) None) (nextpid (core s) + 1) s'));
    [unfold NOFILE; lia|done| |].
  { intros k s7 _ T7. destruct (_ =? 0); [by wlp_step|]. wlp_step. apply wlp_files. intros f s8 E8.
    eapply wlp_tracked_field; [by eapply tracked_core|done|done|]. done. }
  intros s7 T7. wlp_step. apply wlp_files. intros d s8 E8.
  wlp_step. eapply wlp_tracked_field; [by eapply tracked_core|done|done|]. intros s9 T9.
  wlp_step. eapply wlp_tracked_field; [done|done|done|]. intros s10 T10.
  wlp_step. apply wlp_getp. wlp_step. apply wlp_spin. intros _ s11 E11. wlp_step. apply wlp_spin. intros _ s12 E12.
  pose proof (tracked_core _ _ _ _ _ _ (tracked_core _ _ _ _ _ _ T10 E11) E12) as T12.
  wlp_step. apply (wlp_tracked_view _ _ _ _ _ (put_parent (Some i)) _ _ T12); [done|done|]. intros s13 T13.
  wlp_step. apply wlp_spin. intros _ s14 E14. wlp_step. apply wlp_spin. intros _ s15 E15.
  pose proof (tracked_core _ _ _ _ _ _ (tracked_core _ _ _ _ _ _ T13 E14) E15) as T15.
  wlp_step. apply (wlp_tracked_view _ _ _ _ _ (put_state RUNNABLE) _ _ T15); [done|done|]. intros s16 T16.
  wlp_step. apply wlp_spin. intros _ s17 E17. wlp_step. destruct (tracked_core _ _ _ _ _ _ T16 E17) as [T17 N17].
  split; [|lia]. by eapply (ok_forked (core s) _ i np).
Qed.

(** [sched] ends with the CPU free and the process as its caller left it. *)
Lemma wlp_sched_ k (Q : unit → kstate D F → Prop) s :
  length (procs (core s)) = NPROC →
  (∀ i s', cproc (core s) !!! c = Some i → (i < NPROC)%nat →
     changes (core s) (core s') i (vw (core s) i) → nextpid (core s') = nextpid (core s) →
     cproc (core s') = <[c := None]> (cproc (core s)) → Q tt s') →
  (∀ i, cproc (core s) !!! c = Some i → (i < NPROC)%nat) →
  wlp (sched c k) Q s.
Proof.
  intros L HQ Hb. unfold sched. wlp_step. apply wlp_current. intros i s1 Hme E1. pose proof (Hb i Hme) as Hi.
  wlp_step. apply wlp_spin. intros h s2 E2. destruct (negb h); [apply wlp_panic|]. wlp_step. wlp_step. wlp_step. apply wlp_getp.
  destruct (negb _); [apply wlp_panic|]. destruct (decide _); [apply wlp_panic|]. destruct (intr _); [apply wlp_panic|].
  wlp_step. apply wlp_setp. intros s3 E3. wlp_step. apply wlp_setp. intros s4 E4. wlp_step. apply wlp_on_core. intros s5 E5.
  apply wlp_spin. intros [] s6 E6. rewrite E2, E1 in E3. rewrite E3 in E4. rewrite E4 in E5. rewrite E5 in E6. cbn in E6.
  apply (HQ i); rewrite ?E6; try done.
  split; cbn [procs initproc]; [by rewrite !length_insert|done| |].
  - unfold vw. cbn. rewrite !list_insert_lookup by (rewrite ?length_insert; lia). by rewrite !decide_True by done.
  - intros j Hj Hne. unfold vw. cbn. rewrite !list_insert_lookup by (rewrite ?length_insert; lia). by rewrite !decide_False by done.
Qed.
Lemma views_changes_trans k k1 k2 i v v' : changes k k1 i v → changes k1 k2 i v' → changes k k2 i v'.
Proof.
  intros [A1 A2 A3 A4] [B1 B2 B3 B4]. split; [congruence|congruence|done|]. intros j Hj Hne. by rewrite B4, A4.
Qed.

Lemma changes_upd i f k : (i < length (procs k))%nat → changes k (upd_core i f k) i (view_of (f (procs k !!! i))).
Proof.
  intros Hi. split; [cbn; by rewrite length_insert|done|by rewrite vw_upd, decide_True|].
  intros j Hj Hne. by rewrite vw_upd, decide_False.
Qed.

(** The running process [i] leaves the CPU. *)
Lemma ok_leave k k' i v :
  ok k → cproc k !!! c = Some i → changes k k' i v → nextpid k' = nextpid k →
  cproc k' = <[c := None]> (cproc k) → v_pid v = v_pid (vw k i) → v_parent v = v_parent (vw k i) →
  v_state v ∈ [RUNNABLE; SLEEPING; ZOMBIE] →
  (waiting proc_base i v → ∀ j, (j < NPROC)%nat → v_parent (vw k j) = Some i → v_state (vw k j) ≠ ZOMBIE) →
  (v_state v = ZOMBIE → initproc k ≠ Some i ∧ (∀ j, (j < NPROC)%nat → v_parent (vw k j) ≠ Some i) ∧
     ∀ j, (j < NPROC)%nat → v_parent v = Some j → ¬ waiting proc_base j (vw k j)) →
  ok k'.
Proof.
  intros Hok Hme Hch Hn Hcp Vpid Vpar Vst Vw Vz. destruct (t_cpu _ _ Hok c i Hc Hme) as [Hi Hr]. destruct (t_len _ _ Hok) as [L1 L2].
  assert (∀ d, cproc k' !!! d = if decide (d = c) then None else cproc k !!! d) as Ecp.
  { intros d. rewrite Hcp. apply list_insert_lookup. lia. }
  assert (v_state v = RUNNABLE ∨ v_state v = SLEEPING ∨ v_state v = ZOMBIE) as Vs by set_solver.
  assert (live (vw k i)) as Hl by (unfold live; by rewrite Hr).
  assert (∀ d, (d < NCPU)%nat → cproc k' !!! d ≠ Some i) as Hno.
  { intros d Hd. rewrite Ecp. destruct (decide (d = c)); [done|]. intros E. by apply (t_one _ _ Hok d c i) in E. }
  apply (ok_change _ k k' i v Hok Hch Hi); try lia.
  - destruct Vs as [E|[E|E]]; by rewrite E.
  - intros E. rewrite E in Vs. by destruct Vs as [?|[?|?]].
  - intros _. rewrite Vpid, Hn. split; [by apply (t_pid _ _ Hok)|]. intros j Hj Hne Hlj E. by apply Hne, (t_uniq _ _ Hok).
  - intros _ Hni. destruct (t_parent _ _ Hok i Hi Hl Hni) as (j & E & Hj & Ha). rewrite Vpar. exists j.
    split; [done|]. split; [|done]. destruct (decide (j = i)) as [->|]; [|by left]. right.
    unfold active. destruct Vs as [Vs|[Vs|Vs]]; [by rewrite Vs..|]. by destruct (Vz Vs) as (_ & Hno' & _); destruct (Hno' i).
  - by left.
  - intros Hna. destruct Vs as [Vs|[Vs|Vs]]; [by destruct Hna; unfold active; rewrite Vs..|]. by destruct (Vz Vs) as (? & ? & _).
  - done.
  - intros Vs'. by destruct (Vz Vs') as (_ & _ & ?).
  - rewrite Hcp, length_insert. done.
  - intros d j Hd Hne. rewrite Ecp. destruct (decide (d = c)) as [->|]; [|done]. split; congruence.
  - split; [intros E; rewrite E in Vs; by destruct Vs as [?|[?|?]]|]. intros (d & Hd & E). by destruct (Hno d Hd).
  - intros d d' Hd _ E. by destruct (Hno d Hd).
Qed.

Lemma yield_ok s : ok (core s) → wlp (yield_ c) (λ _ s', good s s') s.
Proof.
  intros Hok. destruct (t_len _ _ Hok) as [L1 _]. unfold yield_. wlp_step. apply wlp_current. intros i s1 Hme E1.
  destruct (running _ _ Hok Hme) as [Hi Hrun]. wlp_step. apply wlp_spin. intros _ s2 E2. wlp_step. apply wlp_setp. intros s3 E3.
  rewrite E2, E1 in E3. assert (changes (core s) (core s3) i (put_state RUNNABLE (vw (core s) i))) as C3 by (rewrite E3; apply changes_upd; lia).
  apply wlp_sched_; [rewrite E3; cbn; by rewrite length_insert| |].
  - intros j s4 Hj _ C4 N4 P4. rewrite E3 in Hj, N4, P4. cbn in Hj, N4, P4. assert (j = i) as -> by congruence.
    rewrite (ch_self _ _ _ _ C3) in C4. split; [|rewrite N4; lia].
    eapply (ok_leave (core s) _ i); [done|done|by eapply views_changes_trans|done|done|done|done| | |].
    + cbn. set_solver.
    + intros [? _]. done.
    + done.
  - intros j. rewrite E3. cbn. intros Hj. by assert (j = i) as -> by congruence.
Qed.

Lemma sleep_ok ch lk s :
  ok (core s) →
  (∀ i, cproc (core s) !!! c = Some i → ch = addr i → ∀ j, (j < NPROC)%nat → v_parent (vw (core s) j) = Some i → v_state (vw (core s) j) ≠ ZOMBIE) →
  wlp (sleep c ch lk) (λ _ s', good s s') s.
Proof.
  intros Hok Hch. destruct (t_len _ _ Hok) as [L1 _]. unfold sleep. wlp_step. apply wlp_current. intros i s1 Hme E1.
  destruct (running _ _ Hok Hme) as [Hi Hrun]. wlp_step. apply wlp_spin. intros _ s2 E2. wlp_step. apply wlp_spin. intros _ s3 E3.
  wlp_step. apply wlp_setp. intros s4 E4. wlp_step. apply wlp_setp. intros s5 E5. rewrite E3, E2, E1 in E4.
  assert (changes (core s) (core s4) i (put_chan ch (vw (core s) i))) as C4 by (rewrite E4; apply changes_upd; lia).
  assert (changes (core s) (core s5) i (put_state SLEEPING (put_chan ch (vw (core s) i)))) as C5.
  { eapply views_changes_trans; [done|]. rewrite <- (ch_self _ _ _ _ C4), E5. apply changes_upd. rewrite (ch_len _ _ _ _ C4). lia. }
  assert (cproc (core s5) = cproc (core s) ∧ nextpid (core s5) = nextpid (core s)) as [P5 N5] by (rewrite E5, E4; done).
  apply wlp_sched_; [rewrite (ch_len _ _ _ _ C5); done| |].
  - intros j s6 Hj _ C6 N6 P6. rewrite P5 in Hj, P6. assert (j = i) as -> by congruence.
    rewrite (ch_self _ _ _ _ C5) in C6. split; [|rewrite N6, N5; lia].
    eapply (ok_leave (core s) _ i); [done|done|by eapply views_changes_trans|congruence|done|done|done| | |].
    + cbn. set_solver.
    + intros [_ Ha]. cbn in Ha. by apply Hch.
    + done.
  - intros j. rewrite P5. intros Hj. by assert (j = i) as -> by congruence.
Qed.

(** A change of process [i] that keeps its state on or off the CPU. *)
Lemma ok_tweak k k' i x :
  ok k → (i < NPROC)%nat → only k i (put_state x (vw k i)) k' → nextpid k' = nextpid k →
  x = v_state (vw k i) ∨ (v_state (vw k i) = SLEEPING ∧ x = RUNNABLE) → ok k'.
Proof.
  intros Hok Hi [[C1 C2 C3 C4] Hcp] Hn Hx.
  assert (soft k k') as Hs.
  { split; [by rewrite Hcp|by rewrite Hn| | |]; intros j Hj; (destruct (decide (j = i)) as [->|]; [rewrite C3|rewrite C4 by done; auto]); cbn; auto. }
  apply (ok_soft _ k k' Hok Hs). intros a b Ha Hb Hw Hp. rewrite (soft_zombie k k' a Hs Ha).
  apply (t_wait _ _ Hok a b); [done|done|by eapply soft_waiting|].
  destruct (decide (a = i)) as [->|]; [by rewrite C3 in Hp|by rewrite C4 in Hp].
Qed.

Lemma turn_ok i s : ok (core s) → (i < NPROC)%nat → cproc (core s) !!! c = None → wlp (scheduler_turn c i) (λ _ s', good s s') s.
Proof.
  intros Hok Hi Hidle. destruct (t_len _ _ Hok) as [L1 L2]. unfold scheduler_turn. wlp_step. apply wlp_spin. intros _ s1 E1.
  wlp_step. apply wlp_getp. destruct (decide _) as [Er|_].
  2:{ wlp_step. apply wlp_spin. intros _ s2 E2. wlp_step. apply good_same; congruence. }
  rewrite E1 in Er. assert (v_state (vw (core s) i) = RUNNABLE) as Er' by exact Er.
  wlp_step. apply wlp_setp. intros s2 E2. wlp_step. apply wlp_on_core. intros s3 E3. wlp_step. rewrite E1 in E2. rewrite E2 in E3.
  assert (changes (core s) (core s3) i (put_state RUNNING (vw (core s) i))) as Hch.
  { rewrite E3. pose proof (changes_upd i (set_state RUNNING) (core s) ltac:(lia)) as [A1 A2 A3 A4]. split; done. }
  assert (∀ d, cproc (core s3) !!! d = if decide (d = c) then Some i else cproc (core s) !!! d) as Ecp.
  { intros d. rewrite E3. cbn. apply list_insert_lookup. lia. }
  assert (∀ d, (d < NCPU)%nat → cproc (core s) !!! d ≠ Some i) as Hno.
  { intros d Hd E. destruct (t_cpu _ _ Hok d i Hd E). congruence. }
  assert (live (vw (core s) i)) as Hl by (unfold live; by rewrite Er').
  split; [|rewrite E3; cbn; lia].
  apply (ok_change _ (core s) (core s3) i _ Hok Hch Hi); cbn [put_state v_state v_pid v_parent v_chan]; try done.
  - rewrite E3. cbn. lia.
  - intros _. replace (nextpid (core s3)) with (nextpid (core s)) by (by rewrite E3).
    split; [by apply (t_pid _ _ Hok)|]. intros j Hj Hne Hlj E. by apply Hne, (t_uniq _ _ Hok).
  - intros _ Hni. destruct (t_parent _ _ Hok i Hi Hl Hni) as (j & E & Hj & Ha). exists j. split; [done|].
    split; [right; by unfold active|done].
  - by left.
  - intros Hna. by destruct Hna.
  - by intros [? _].
  - rewrite E3. cbn. rewrite length_insert. done.
  - intros d j Hd Hne. rewrite Ecp. destruct (decide (d = c)) as [->|]; [|done]. split; congruence.
  - split; [|done]. intros _. exists c. rewrite Ecp, decide_True by done. done.
  - intros d d' Hd Hd'. rewrite !Ecp. destruct (decide (d = c)) as [->|], (decide (d' = c)) as [->|]; try done.
    + intros _ E. by destruct (Hno d').
    + intros E. by destruct (Hno d).
    + intros E. by destruct (Hno d).
Qed.

Lemma kill_ok n s : ok (core s) → wlp (kill c n) (λ _ s', good s s') s.
Proof.
  intros Hok. destruct (t_len _ _ Hok) as [L1 L2]. unfold kill. wlp_step.
  apply (wlp_for_exit (λ _ s', core s' = core s)); [unfold NPROC; lia|done| |].
  - intros m s1 Hm E1. set (i := Z.to_nat m). assert (i < NPROC)%nat as Hi by lia.
    wlp_step. apply wlp_spin. intros _ s2 E2. wlp_step. apply wlp_getp. destruct (_ =? n).
    2:{ wlp_step. apply wlp_spin. intros _ s3 E3. wlp_step. congruence. }
    assert (tracked (core s) i (vw (core s) i) (nextpid (core s)) s2) as T2 by (rewrite E1 in E2; split; rewrite E2; by repeat split).
    wlp_step. eapply wlp_tracked_field; [done|lia|done|]. intros s3 T3. wlp_step. apply wlp_getp. wlp_step.
    assert (state (procs (core s3) !!! i) = v_state (vw (core s) i)) as Es by (destruct T3 as [[[_ _ C3 _] _] _]; by rewrite <- C3).
    eapply (wlp_mono _ (λ _ s', ok (core s') ∧ nextpid (core s') = nextpid (core s))).
    { destruct (decide _) as [Esl|_].
      - rewrite Es in Esl. apply (wlp_tracked_view _ _ _ _ _ (put_state RUNNABLE) _ _ T3); [lia|done|]. intros s4 [T4 N4].
        split; [|done]. eapply (ok_tweak (core s)); [done|done|done|done|]. by right.
      - wlp_step. destruct T3 as [T3 N3]. split; [|done]. eapply (ok_tweak (core s) _ i (v_state (vw (core s) i))); [done|done| |done|by left].
        by replace (put_state (v_state (vw (core s) i)) (vw (core s) i)) with (vw (core s) i). }
    intros _ s4 [Hok4 N4]. wlp_step. apply wlp_spin. intros _ s5 E5. wlp_step. wlp_step. split; rewrite E5; [done|lia].
  - intros s' E. wlp_step. by apply good_same.
Qed.

Lemma wakeup_ok ch s : ok (core s) → wlp (wakeup c ch) (λ _ s', good s s') s.
Proof.
  intros Hok. apply wlp_wakeup; [apply (t_len _ _ Hok)|]. intros s' Hw. split; [by eapply ok_wakes|].
  destruct (wk_glob _ _ _ _ Hw) as [-> _]. lia.
Qed.

(** An update of fields outside the view. *)
Lemma field_ok i f s :
  ok (core s) → (i < NPROC)%nat → (∀ p, view_of (f p) = view_of p) →
  wlp (setp i f) (λ _ s', ok (core s') ∧ cproc (core s') = cproc (core s) ∧ nextpid (core s') = nextpid (core s) ∧ initproc (core s') = initproc (core s)) s.
Proof.
  intros Hok Hi Hf. destruct (t_len _ _ Hok) as [L1 L2]. apply wlp_setp. intros s1 E1. rewrite E1. split; [|done].
  eapply ok_views; [done|]. apply views_upd; [lia|]. by rewrite Hf.
Qed.

Lemma setkilled_ok i s : ok (core s) → (i < NPROC)%nat → wlp (setkilled c i) (λ _ s', good s s') s.
Proof.
  intros Hok Hi. unfold setkilled. wlp_step. apply wlp_spin. intros _ s1 E1. wlp_step.
  eapply wlp_mono; [apply field_ok; rewrite ?E1; done|]. intros _ s2 (H1 & _ & H2 & _). apply wlp_spin. intros _ s3 E3.
  split; rewrite E3; [done|]. rewrite H2, E1. lia.
Qed.

Lemma growproc_ok n s : ok (core s) → wlp (growproc c n) (λ _ s', good s s') s.
Proof.
  intros Hok. unfold growproc. wlp_step. apply wlp_current. intros i s1 Hme E1. destruct (running _ _ Hok Hme) as [Hi _].
  wlp_step. apply wlp_getp.
  assert (∀ z r s2, core s2 = core s → wlp (setp i (set_sz z);; ret r) (λ (_ : Z) s', good s s') s2) as Hset.
  { intros z r s2 E2. wlp_step. eapply wlp_mono; [apply field_ok; rewrite ?E2; done|]. intros _ s3 (H1 & _ & H2 & _). wlp_step.
    split; [done|]. rewrite H2, E2. lia. }
  destruct (0 <? n).
  { wlp_step. apply wlp_mach. intros z s2 E2. destruct (z =? 0); [wlp_step; apply good_same; congruence|]. apply Hset. congruence. }
  destruct (n <? 0); [|wlp_step; by apply good_same].
  wlp_step. apply wlp_mach. intros z s2 E2. apply Hset. congruence.
Qed.

Lemma resume_ok s : ok (core s) → wlp (resume c) (λ _ s', good s s') s.
Proof.
  intros Hok. unfold resume. wlp_step. apply wlp_current. intros i s1 Hme E1. destruct (running _ _ Hok Hme) as [Hi Hrun].
  destruct (t_len _ _ Hok) as [L1 L2]. wlp_step. apply wlp_getp.
  assert (∀ s2, core s2 = core s → wlp (restore_intena c i) (λ _ s', core s' = core s) s2) as Hri.
  { intros s2 E2. unfold restore_intena. wlp_step. apply wlp_getp. apply wlp_spin. intros _ s3 E3. congruence. }
  destruct (context _) as [| | |lk].
  - apply wlp_panic.
  - wlp_step. apply wlp_spin. intros _ s2 E2. wlp_step. wlp_step. destruct (first_fork s2).
    + wlp_step. wlp_step. apply wlp_files. intros _ s3 E3. apply good_same; [done|]. cbn in E3. congruence.
    + wlp_step. apply good_same; congruence.
  - wlp_step. eapply wlp_mono; [by apply Hri|]. intros [] s2 E2. apply wlp_spin. intros [] s3 E3. apply good_same; congruence.
  - wlp_step. eapply wlp_mono; [by apply Hri|]. intros [] s2 E2. wlp_step. apply wlp_setp. intros s3 E3.
    wlp_step. apply wlp_spin. intros _ s4 E4. apply wlp_spin. intros _ s5 E5. rewrite E2 in E3.
    assert (changes (core s) (core s3) i (put_chan 0 (vw (core s) i))) as Hch by (rewrite E3; apply changes_upd; lia).
    split; [|rewrite E5, E4, E3; cbn; lia]. rewrite E5, E4.
    assert (live (vw (core s) i)) as Hl by (unfold live; by rewrite Hrun).
    assert (cproc (core s3) = cproc (core s)) as Ecp by (by rewrite E3).
    apply (ok_change _ (core s) (core s3) i _ Hok Hch Hi); unfold active, live, waiting; cbn [put_chan v_state v_pid v_parent v_chan]; rewrite ?Ecp, ?Hrun; try done.
    + rewrite E3. cbn. lia.
    + intros _. replace (nextpid (core s3)) with (nextpid (core s)) by (by rewrite E3).
      split; [by apply (t_pid _ _ Hok)|]. intros j Hj Hne Hlj E. by apply Hne, (t_uniq _ _ Hok).
    + intros _ Hni. destruct (t_parent _ _ Hok i Hi Hl Hni) as (j & E & Hj & Ha). exists j. split; [done|]. split; [by right|done].
    + by left.
    + intros Hna. by destruct Hna.
    + by intros [? _].
    + split; [|done]. intros _. by apply (t_running _ _ Hok).
    + intros d d' Hd Hd'. by apply (t_one _ _ Hok).
Qed.


(** Closing the files of the exiting process. *)
Lemma wlp_close_files i (Q : unit → kstate D F → Prop) s :
  ok (core s) → (i < NPROC)%nat →
  (∀ s', ok (core s') → cproc (core s') = cproc (core s) → nextpid (core s') = nextpid (core s) →
     initproc (core s') = initproc (core s) → Q tt s') →
  wlp (exit_files i) Q s.
Proof.
  intros Hok Hi HQ. unfold exit_files. wlp_step.
  apply (wlp_for (λ _ s', ok (core s') ∧ cproc (core s') = cproc (core s) ∧ nextpid (core s') = nextpid (core s) ∧ initproc (core s') = initproc (core s)));
    [unfold NOFILE; lia|done| |].
  - intros fd s1 _ (H1 & H2 & H3 & H4). wlp_step. apply wlp_getp. cbv beta zeta. destruct (_ =? 0); [by wlp_step|].
    wlp_step. apply wlp_files. intros [] s2 E2. eapply wlp_mono; [apply field_ok; rewrite ?E2; done|].
    intros _ s3 (A1 & A2 & A3 & A4). split_and!; [done|..]; congruence.
  - intros s1 (H1 & H2 & H3 & H4). wlp_step. apply wlp_files. intros [] s2 E2. wlp_step. apply wlp_getp.
    wlp_step. apply wlp_files. intros [] s3 E3. wlp_step. apply wlp_files. intros [] s4 E4.
    assert (core s4 = core s1) as E41 by congruence.
    eapply wlp_mono; [apply field_ok; rewrite ?E41; done|].
    intros [] s5 (A1 & A2 & A3 & A4). apply HQ; [done|..]; congruence.
Qed.

(** The last steps of [exit], with no child left and the parent woken. *)
Lemma exit_tail_ok i st s s0 :
  ok (core s) → cproc (core s) !!! c = Some i → nextpid (core s) = nextpid (core s0) → initproc (core s) ≠ Some i →
  (∀ j, (j < NPROC)%nat → v_parent (vw (core s) j) ≠ Some i) →
  (∀ j, (j < NPROC)%nat → v_parent (vw (core s) i) = Some j → ¬ waiting proc_base j (vw (core s) j)) →
  wlp (acquire_ c (PLOCK i);; setp i (set_xstate st);; setp i (set_state ZOMBIE);; release_ c WAIT_LOCK;; sched c KNone)
    (λ _ s', good s0 s') s.
Proof.
  intros Hok Hme Hn Hni Hno Hnw. destruct (running _ _ Hok Hme) as [Hi Hrun]. destruct (t_len _ _ Hok) as [L1 L2].
  wlp_step. apply wlp_spin. intros _ s1 E1. wlp_step. apply wlp_setp. intros s2 E2. wlp_step. apply wlp_setp. intros s3 E3.
  wlp_step. apply wlp_spin. intros _ s4 E4. rewrite E1 in E2.
  assert (changes (core s) (core s2) i (vw (core s) i)) as C2 by (rewrite E2; apply (changes_upd i (set_xstate st)); lia).
  assert (changes (core s) (core s3) i (put_state ZOMBIE (vw (core s) i))) as C3.
  { eapply views_changes_trans; [done|]. rewrite <- (ch_self _ _ _ _ C2), E3. apply changes_upd. rewrite (ch_len _ _ _ _ C2). lia. }
  assert (cproc (core s3) = cproc (core s) ∧ nextpid (core s3) = nextpid (core s)) as [P3 N3] by (rewrite E3, E2; done).
  rewrite <- E4 in C3, P3, N3. apply wlp_sched_; [rewrite (ch_len _ _ _ _ C3); done| |].
  - intros j s5 Hj _ C5 N5 P5. rewrite P3 in Hj, P5. assert (j = i) as -> by congruence.
    rewrite (ch_self _ _ _ _ C3) in C5. split; [|rewrite N5, N3; lia].
    eapply (ok_leave (core s) _ i); [done|done|by eapply views_changes_trans|congruence|done|done|done| | |].
    + cbn. set_solver.
    + by intros [? _].
    + done.
  - intros j. rewrite P3. intros Hj. by assert (j = i) as -> by congruence.
Qed.

Lemma exit_ok st s : ok (core s) → wlp (exit proc_base c st) (λ _ s', good s s') s.
Proof.
  intros Hok. unfold exit. wlp_step. apply wlp_current. intros i s1 Hme E1. destruct (running _ _ Hok Hme) as [Hi _].
  wlp_step. wlp_step. destruct (decide _) as [|Hni]; [apply wlp_panic|]. rewrite E1 in Hni.
  destruct (t_init _ _ Hok) as (n & Hn & Hnl & Han).
  wlp_step. apply wlp_close_files; [by rewrite E1|done|]. intros s2 Hok2 P2 N2 I2. rewrite E1 in P2, N2, I2.
  wlp_step. apply wlp_spin. intros _ s3 E3. rewrite <- E3 in Hok2, P2, N2, I2. wlp_step.
  apply (wlp_reparent i n); [done|congruence|by rewrite P2|congruence|done|].
  intros s4 Hok4 Hs4 Hno _. destruct (sf_len _ _ Hs4) as [_ P4], (sf_glob _ _ Hs4) as [N4 I4].
  rewrite P2 in P4. rewrite N2 in N4. rewrite I2 in I4. clear s2 s3 Hok2 P2 N2 I2 E3 Hs4.
  assert (cproc (core s4) !!! c = Some i) as Hme4 by (by rewrite P4). destruct (running _ _ Hok4 Hme4) as [_ Hrun4].
  destruct (t_parent _ _ Hok4 i Hi) as (p & Ep & Hp & _); [unfold live; by rewrite Hrun4|congruence|].
  assert (p ≠ i) as Hpi. { intros ->. by destruct (Hno i Hi). }
  wlp_step. apply wlp_getp. change (parent (procs (core s4) !!! i)) with (v_parent (vw (core s4) i)). rewrite Ep.
  wlp_step. apply wlp_wakeup; [apply (t_len _ _ Hok4)|]. intros s5 Hw. rewrite Hme4 in Hw.
  destruct (wk_len _ _ _ _ Hw) as [_ P5], (wk_glob _ _ _ _ Hw) as [N5 I5].
  apply exit_tail_ok; [by eapply ok_wakes|by rewrite P5|congruence|congruence| |].
  - intros j Hj. rewrite (wakes_parent _ _ _ _ j Hw Hj). by apply Hno.
  - intros j Hj. rewrite (wakes_parent _ _ _ _ i Hw Hi), Ep. intros [= <-] [Hsl Hch].
    eapply (wakes_done _ _ _ _ p Hw Hp); [congruence|done|done].
Qed.


(** The zombie child [j] is freed. *)
Lemma ok_freed k k' j :
  ok k → (j < NPROC)%nat → v_state (vw k j) = ZOMBIE → only k j (View UNUSED 0 0 None) k' → nextpid k' = nextpid k → ok k'.
Proof.
  intros Hok Hj Hz [Hch Hcp] Hn. destruct (t_len _ _ Hok) as [L1 L2].
  assert (¬ active (vw k j)) as Hna by (intros [_ Ha]; done).
  assert (∀ d, (d < NCPU)%nat → cproc k !!! d ≠ Some j) as Hnc.
  { intros d Hd E. destruct (t_cpu _ _ Hok d j Hd E). congruence. }
  assert (initproc k ≠ Some j) as Hni.
  { intros Ei. destruct (t_init _ _ Hok) as (n & En & _ & Ha). by assert (n = j) as -> by congruence. }
  apply (ok_change _ k k' j _ Hok Hch Hj); rewrite ?Hcp; cbn [v_state v_chan v_pid v_parent]; try done; try lia.
  - by right.
  - intros _. split; [done|]. intros m Hm E. by destruct (t_pact _ _ Hok m j Hm E).
  - by intros [? _].
  - split; [done|]. intros (d & Hd & E). by destruct (Hnc d Hd).
  - intros d d' Hd _ E. by destruct (Hnc d Hd).
Qed.

(** One step of the scan of [wait]: a child that is no zombie is passed over. *)
Lemma wait_child_ok i a j hk s s0 :
  ok (core s0) → core s = core s0 → (j < NPROC)%nat →
  wlp (wait_child proc_base c i a j hk) (λ r s',
    match r.1 with
    | Some _ => good s0 s'
    | None => core s' = core s0 ∧ (v_parent (vw (core s0) j) = Some i → v_state (vw (core s0) j) ≠ ZOMBIE)
    end) s.
Proof.
  intros Hok E Hj. destruct (t_len _ _ Hok) as [L1 L2]. unfold wait_child. wlp_step. apply wlp_getp.
  destruct (decide _) as [Ep|Ep]; [|wlp_step; split; [done|]; rewrite E in Ep; intros ?; by destruct Ep].
  wlp_step. apply wlp_spin. intros [] s1 E1. wlp_step. apply wlp_getp. rewrite E in E1.
  destruct (decide _) as [Ez|Ez].
  2:{ wlp_step. apply wlp_spin. intros [] s2 E2. wlp_step. split; [congruence|]. rewrite E1 in Ez. intros _. exact Ez. }
  cbv beta zeta. wlp_step. apply wlp_getp. wlp_step. apply (wlp_mono _ (λ _ s', core s' = core s0)).
  { destruct (a =? 0); [by wlp_step|]. apply wlp_mach. intros ? s2 E2. congruence. }
  intros e s2 E2. destruct (e <? 0).
  { wlp_step. apply wlp_spin. intros [] s3 E3. wlp_step. apply wlp_spin. intros [] s4 E4. wlp_step. apply good_same; congruence. }
  assert (tracked (core s0) j (vw (core s0) j) (nextpid (core s0)) s2) as T2 by (split; rewrite E2; by repeat split).
  wlp_step. eapply wlp_freeproc; [done|lia|]. intros s3 [T3 N3]. wlp_step. apply wlp_spin. intros [] s4 E4.
  wlp_step. apply wlp_spin. intros [] s5 E5. wlp_step. split; rewrite E5, E4; [|lia].
  eapply ok_freed; [done|done| |done|done]. rewrite E1 in Ez. exact Ez.
Qed.

Lemma wait_turn_ok a s : ok (core s) → wlp (wait_turn proc_base c a) (λ _ s', good s s') s.
Proof.
  intros Hok. unfold wait_turn. wlp_step. apply wlp_current. intros i s1 Hme E1. destruct (running _ _ Hok Hme) as [Hi Hrun].
  wlp_step. unfold wait_scan.
  apply (wlp_for_acc (λ n r s', match r.1 with Some _ => good s s' | None => core s' = core s ∧
    ∀ j, (j < Z.to_nat n)%nat → v_parent (vw (core s) j) = Some i → v_state (vw (core s) j) ≠ ZOMBIE end)).
  - unfold NPROC. lia.
  - cbn. split; [done|]. intros j Hj. lia.
  - intros n [[r|] hk] s2 Hn; cbn; [intros Hg; by wlp_step|]. intros [E2 Hz].
    eapply wlp_mono; [apply wait_child_ok; [done|done|lia]|]. intros [[r|] hk'] s3; cbn; [done|]. intros [E3 Hz3].
    split; [done|]. intros j Hj. destruct (decide (j = Z.to_nat n)) as [->|]; [done|]. apply Hz. lia.
  - intros [[r|] hk] s2; cbn; [intros Hg; by wlp_step|]. intros [E2 Hz]. rewrite Nat2Z.id in Hz.
    wlp_step. apply (wlp_mono _ (λ _ s', core s' = core s)).
    { destruct (negb hk); [by wlp_step|]. unfold killed. wlp_step. apply wlp_spin. intros [] s3 E3. wlp_step. apply wlp_getp.
      wlp_step. apply wlp_spin. intros [] s4 E4. wlp_step. congruence. }
    intros [] s3 E3; [wlp_step; apply wlp_spin; intros [] s4 E4; wlp_step; apply good_same; congruence|].
    wlp_step. eapply wlp_mono; [apply sleep_ok|]; rewrite ?E3; [done| |].
    + intros i' Hme' _ j Hj. assert (i' = i) as -> by congruence. by apply Hz.
    + intros [] s4 [G1 G2]. wlp_step. split; [done|]. rewrite E3 in G2. done.
Qed.

Lemma wait_ok a s : ok (core s) → wlp (wait proc_base c a) (λ _ s', good s s') s.
Proof.
  intros Hok. unfold wait. wlp_step. apply wlp_current. intros i s1 _ E1. wlp_step. apply wlp_spin. intros [] s2 E2.
  assert (core s2 = core s) as E by congruence. eapply wlp_mono; [apply wait_turn_ok; by rewrite E|].
  intros r s3 [G1 G2]. split; [done|]. rewrite E in G2. done.
Qed.

End activations.

End effects.

(** ** The system: activations on any CPU in any order *)

(** One activation.  [WaitAgain] is the next turn of the loop of [wait], after
    the process was woken and resumed. *)
Inductive event :=
  | Scheduler (c i : nat) | Resume (c : nat) | Yield (c : nat) | Sleep (c : nat) (ch : Z) (lk : nat)
  | Fork (c : nat) | Exit (c : nat) (status : Z) | Wait (c : nat) (a : Z) | WaitAgain (c : nat) (a : Z)
  | Kill (c : nat) (n : Z) | Wakeup (c : nat) (ch : Z) | Grow (c : nat) (n : Z) | SetKilled (c i : nat).

Section system.
Context `{C : Config} {D F : Type} `{PF : ProcFiles F}.
Context (trampoline initcode proc_base : Z).
Implicit Types (s : kstate D F) (es : list event).

Definition perform (e : event) : M (kstate D F) unit :=
  match e with
  | Scheduler c i =>
      p ← gets (λ s, cproc (core s) !!! c);
      if decide (p = None) then scheduler_turn c i;; ret tt else fault
  | Resume c => resume c
  | Yield c => yield_ c
  | Sleep c ch lk => sleep c ch lk
  | Fork c => fork trampoline c;; ret tt
  | Exit c status => exit proc_base c status
  | Wait c a => wait proc_base c a;; ret tt
  | WaitAgain c a => wait_turn proc_base c a;; ret tt
  | Kill c n => kill c n;; ret tt
  | Wakeup c ch => wakeup c ch
  | Grow c n => growproc c n;; ret tt
  | SetKilled c i => setkilled c i
  end.

Fixpoint run_events (es : list event) : M (kstate D F) unit :=
  match es with
  | [] => ret tt
  | e :: es' => perform e;; run_events es'
  end.

Definition boot : M (kstate D F) unit := procinit;; userinit trampoline initcode 0.

(** CPUs and table entries in range; [wait] is the only code that sleeps on
    the address of a process. *)
Definition event_ok (e : event) : Prop :=
  match e with
  | Scheduler c i | SetKilled c i => (c < NCPU)%nat ∧ (i < NPROC)%nat
  | Sleep c ch _ => (c < NCPU)%nat ∧ ∀ i, (i < NPROC)%nat → ch ≠ proc_addr proc_base i
  | Resume c | Yield c | Fork c | Exit c _ | Wait c _ | WaitAgain c _ | Kill c _ | Wakeup c _ | Grow c _ => (c < NCPU)%nat
  end.

Lemma wlp_then_ret {A} (m : M (kstate D F) A) (P : kstate D F → Prop) s : wlp m (λ _ s', P s') s → wlp (m;; ret tt) (λ _ s', P s') s.
Proof. intros H. wlp_step. eapply wlp_mono; [exact H|]. intros a s' HP. by wlp_step. Qed.

Lemma perform_ok e s :
  table_ok proc_base (core s) → event_ok e → nextpid (core s) < 2 ^ 31 - 1 → wlp (perform e) (λ _ s', good proc_base s s') s.
Proof.
  intros Hok He Hnp. destruct e; cbn [event_ok] in He; cbn [perform]; try (apply wlp_then_ret).
  - destruct He as [Hc Hi]. wlp_step. wlp_step. destruct (decide _) as [Ep|_]; [|by intros a s']. apply wlp_then_ret. by apply turn_ok.
  - by apply resume_ok.
  - by apply yield_ok.
  - destruct He as [Hc Hch]. apply sleep_ok; [done|done|]. intros i Hme ->. destruct (t_cpu _ _ Hok c i Hc Hme) as [Hi _].
    by destruct (Hch i Hi).
  - by apply fork_ok.
  - by apply exit_ok.
  - by apply wait_ok.
  - by apply wait_turn_ok.
  - by apply kill_ok.
  - by apply wakeup_ok.
  - by apply growproc_ok.
  - destruct He as [Hc Hi]. by apply setkilled_ok.
Qed.

Lemma run_events_ok es s :
  table_ok proc_base (core s) → Forall event_ok es → nextpid (core s) + Z.of_nat (length es) < 2 ^ 31 →
  wlp (run_events es) (λ _ s', table_ok proc_base (core s')) s.
Proof.
  revert s. induction es as [|e es IH]; intros s Hok He Hnp; cbn; [by wlp_step|].
  apply Forall_cons in He as [He Hes]. cbn in Hnp. wlp_step. eapply wlp_mono; [apply perform_ok; [done|done|lia]|].
  intros _ s' [Hok' Hn']. apply IH; [done|done|lia].
Qed.

Lemma reachable_ok es s s' :
  core s = zero_core → Forall event_ok es → Z.of_nat (length es) < 2 ^ 31 - 2 →
  (boot;; run_events es) s = Done (tt, s') → table_ok proc_base (core s').
Proof.
  intros E He Hlen Hrun.
  assert (wlp (boot;; run_events es) (λ _ s', table_ok proc_base (core s')) s) as Hw.
  { wlp_step. eapply wlp_mono; [by apply boot_ok|]. intros _ s1 [Hok Hn]. apply run_events_ok; [done|done|lia]. }
  by apply (Hw tt s').
Qed.
End system.

Section claims.
Context `{C : Config} {D F : Type} `{PF : ProcFiles F}.
Context (trampoline initcode proc_base : Z).


End claims.

(** ** A table with two processes *)

#[local] Instance no_files : ProcFiles unit := {|
  pf_filedup f := ret f; pf_fileclose _ := ret tt; pf_idup d := ret d; pf_iput _ := ret tt;
  pf_begin_op := ret tt; pf_end_op := ret tt; pf_root := ret 1; pf_fsinit := ret tt |}.

#[local] Existing Instance default_config.

Definition demo_base : Z := KERNBASE + 0x10000.
Definition demo_tramp : Z := KERNBASE + 0x7000.
Definition demo_code : Z := KERNBASE + 0x9000.

Definition demo_state (k : pcore) : kstate unit unit :=
  K k (Spin (replicate 67 inhabitant) (replicate NCPU inhabitant)) (Machine ∅ 0 0 ∅ tt) tt true.

(** The first process forks and waits; the child runs on another CPU, exits,
    and is found by its parent. *)
Definition demo_events : list event :=
  [Scheduler 0 0; Resume 0; Fork 0; Wait 0 0; Scheduler 1 1; Resume 1; Exit 1 7; Scheduler 0 0; Resume 0; WaitAgain 0 0].


Definition demo_idle : pcore := upd_core 0 (λ p, set_state RUNNABLE (set_pid 1 p)) (Core (procs zero_core) 2 (Some 0%nat) (cproc zero_core)).
Definition demo_running : pcore :=
  Core (procs (upd_core 0 (set_state RUNNING) demo_idle)) 2 (Some 0%nat) (<[0%nat := Some 0%nat]> (cproc zero_core)).

(** The first process runs on CPU 0 and has a child that is ready to run. *)
Definition demo_forked : pcore :=
  Core (procs (upd_core 1 (λ p, set_state RUNNABLE (set_pid 2 (set_parent (Some 0%nat) p))) demo_running)) 3 (Some 0%nat) (cproc demo_running).

Definition after {S A} (s0 : S) (o : outcome (A * S)) : S := match o with Done (_, s) => s | _ => s0 end.

Lemma demo_idle_ok : table_ok demo_base demo_idle.
Proof.
  apply (ok_first _ _ 0); try done; [unfold NPROC; lia|]. intros j Hj Hne. unfold demo_idle.
  rewrite vw_upd by (cbn; lia). rewrite decide_False by done. exact (vw_zero j Hj).
Qed.

Lemma demo_forked_ok : table_ok demo_base demo_forked.
Proof.
  assert (table_ok demo_base demo_running) as Hok.
  { assert (0 < NCPU)%nat as Hc by (unfold NCPU; lia).
    destruct (turn_ok demo_base 0 Hc 0 (demo_state demo_idle) demo_idle_ok ltac:(unfold NPROC; lia) ltac:(reflexivity)
      true (after (demo_state demo_idle) (scheduler_turn 0 0 (demo_state demo_idle))) ltac:(reflexivity)) as [H _]. exact H. }
  apply (ok_forked demo_base 0 ltac:(unfold NCPU; lia) demo_running demo_forked 0 1 2 Hok); try done; [unfold NPROC; lia|].
  split; [|done]. split; try done. intros j Hj Hne. change (vw demo_forked j) with
    (vw (upd_core 1 (λ p, set_state RUNNABLE (set_pid 2 (set_parent (Some 0%nat) p))) demo_running) j).
  rewrite vw_upd by (cbn; lia). by rewrite decide_False.
Qed.

(** The state in which the parent sleeps in [wait] and the child runs. *)
Definition demo_waiting : kstate unit unit :=
  after (demo_state demo_forked) (run_events demo_tramp demo_base [Wait 0 0; Scheduler 1 1] (demo_state demo_forked)).

