(* ===== verification/BlockLayer.v ===== *)
(** * What kernel/fs.c needs of the buffer cache and the log

    [BlockLayer] are the calls, [BlockLaws] what they promise inside a
    transaction: a buffer that was read shows the block's contents, a changed
    buffer is logged before it is released, and the changes of the transaction
    are visible to later reads.  kernel/fs.c is proved against the laws; LogLayer.v
    discharges them with kernel/log.c over kernel/bio.c. *)

From S2P Require Import Prelude Machine.

Class BlockLayer (B : Type) := {
  bl_bread : Z → Z → M B nat;           (* bread(dev, blockno) *)
  bl_data : nat → M B (list Z);         (* bp->data *)
  bl_put : nat → list Z → M B unit;     (* stores to bp->data *)
  bl_log_write : nat → M B unit;
  bl_brelse : nat → M B unit;
  bl_initlog : Z → Z → Z → M B unit;    (* initlog(dev, sb) with logstart and nlog *)
}.

(** The blocks as the transaction sees them, the blocks it has logged, the
    buffers it holds, and those of them changed and not yet logged. *)
Record bview := BView {
  cont : Z → list Z;
  logged : list Z;
  holds : list (nat * Z);
  dirty : list Z;
}.

Definition blk_ok (l : list Z) : Prop := length l = Z.to_nat BSIZE ∧ bytes l.

Definition fupd (f : Z → list Z) (n : Z) (l : list Z) : Z → list Z := λ m, if decide (m = n) then l else f m.

Definition log_add (n : Z) (l : list Z) : list Z := if decide (n ∈ l) then l else l ++ [n].

Definition hold (b : nat) (n : Z) (v : bview) : bview := BView (cont v) (logged v) ((b, n) :: holds v) (dirty v).
Definition change (n : Z) (l : list Z) (v : bview) : bview := BView (fupd (cont v) n l) (logged v) (holds v) (n :: dirty v).
Definition log_it (n : Z) (v : bview) : bview :=
  BView (cont v) (log_add n (logged v)) (holds v) (filter (λ m, m ≠ n) (dirty v)).
Definition unhold (n : Z) (v : bview) : bview := BView (cont v) (logged v) (filter (λ h, h.2 ≠ n) (holds v)) (dirty v).

(** The blocks of [dom] may be read; a transaction has at most [cap] blocks and
    holds at most four buffers. *)
Class BlockLaws {B : Type} (BL : BlockLayer B) (rep : B → bview → Prop) (dev : Z) (dom : Z → Prop) (cap : nat) : Prop := {
  law_blk s v n : rep s v → blk_ok (cont v n);
  law_bread s v n (Q : nat → B → Prop) :
    rep s v → dom n → n ∉ (holds v).*2 → (length (holds v) < 4)%nat →
    (∀ b s', rep s' (hold b n v) → Q b s') → wp (bl_bread dev n) Q s;
  law_data s v b n (Q : list Z → B → Prop) :
    rep s v → (b, n) ∈ holds v → Q (cont v n) s → wp (bl_data b) Q s;
  law_put s v b n l (Q : unit → B → Prop) :
    rep s v → (b, n) ∈ holds v → blk_ok l → (∀ s', rep s' (change n l v) → Q tt s') → wp (bl_put b l) Q s;
  law_log_write s v b n (Q : unit → B → Prop) :
    rep s v → (b, n) ∈ holds v → n ∈ logged v ∨ (length (logged v) < cap)%nat →
    (∀ s', rep s' (log_it n v) → Q tt s') → wp (bl_log_write b) Q s;
  law_brelse s v b n (Q : unit → B → Prop) :
    rep s v → (b, n) ∈ holds v → n ∉ dirty v → (∀ s', rep s' (unhold n v) → Q tt s') → wp (bl_brelse b) Q s;
}.
