(* ===== verification/LogLayer.v ===== *)
(** * The log discharges the laws that kernel/fs.c relies on

    Inside a transaction of process [pid] a block is pinned once by the log when
    the transaction changed it and once more while its buffer is held. *)

From S2P Require Import Prelude Machine Bio BioFacts BioClient Log LogFacts LogCommit LogCrash LogTxn BlockLayer.

Section layer.
Context (d : Z) (Hd : d ≠ 0) (pid : Z) (start : Z) (t0 : log_st).

(** The blocks outside the log. *)
Definition home (n : Z) : Prop := 0 ≤ n < d_size (dsk (l_bio t0)) ∧ ¬ area start n.

#[export] Instance log_layer : BlockLayer log_st := {|
  bl_bread dev n := bio (bread pid dev n);
  bl_data b := x ← bio (bufp b); ret (data x);
  bl_put b l := bio (upd b (set_data l));
  bl_log_write b := log_write b;
  bl_brelse b := bio (brelse pid b);
  bl_initlog dev st nl := initlog pid dev st nl;
|}.

(** The most blocks a transaction may log so that four buffers can be held
    beside the logged ones. *)
Definition txn_cap : nat := 25.

Definition one (P : Prop) `{Decision P} : Z := if decide P then 1 else 0.

Record log_rep (s : log_st) (v : bview) : Prop := {
  lr_lists : lists d start s (logged v);
  lr_good : good d (l_bio s);
  lr_cont n : content d (l_bio s) n = cont v n;
  lr_rc n : rcof d (l_bio s) n = one (n ∈ logged v) + one (n ∈ (holds v).*2);
  lr_lk n : lkof d (l_bio s) n = if decide (n ∈ (holds v).*2) then Some pid else None;
  lr_held b n : (b, n) ∈ holds v → held d (l_bio s) n b pid;
  lr_nodup : NoDup (logged v) ∧ NoDup (holds v).*2;
  lr_small n : n ∈ logged v ∨ n ∈ (holds v).*2 → home n;
  lr_len : (length (logged v) ≤ txn_cap)%nat ∧ (length (holds v) ≤ 4)%nat;
  lr_clean n : n ∉ logged v → n ∉ dirty v → cont v n = dblock (dsk (l_bio s)) n;
  lr_blk n : blk_ok (cont v n);
  lr_ctl : same_ctl t0 s ∧ 1 ≤ l_outstanding s;
  lr_size : dsk (l_bio s) = dsk (l_bio t0) ∧ d_size (dsk (l_bio t0)) ≤ 2 ^ 31 ∧ Z.of_nat txn_cap < l_size s - 1;
}.

Lemma one_yes (P : Prop) `{Decision P} : P → one P = 1.
Proof. intros HP. unfold one. by rewrite decide_True. Qed.
Lemma one_no (P : Prop) `{Decision P} : ¬ P → one P = 0.
Proof. intros HP. unfold one. by rewrite decide_False. Qed.
Lemma one_range (P : Prop) `{Decision P} : 0 ≤ one P ≤ 1.
Proof. unfold one. case_decide; lia. Qed.

Lemma decide_iff {A} (P P' : Prop) `{Decision P} `{Decision P'} (a b : A) :
  (P ↔ P') → (if decide P then a else b) = (if decide P' then a else b).
Proof. intros HP. destruct (decide P), (decide P'); naive_solver. Qed.
Lemma one_iff (P P' : Prop) `{Decision P} `{Decision P'} : (P ↔ P') → one P = one P'.
Proof. apply decide_iff. Qed.
Lemma elem_cons_ne (m n : Z) l : m ≠ n → m ∈ n :: l ↔ m ∈ l.
Proof. rewrite elem_of_cons. naive_solver. Qed.
Lemma elem_snoc_ne (m n : Z) l : m ≠ n → m ∈ l ++ [n] ↔ m ∈ l.
Proof. rewrite elem_of_app, list_elem_of_singleton. naive_solver. Qed.

Lemma held_block v b n : (b, n) ∈ holds v → n ∈ (holds v).*2.
Proof. intros H. apply (list_elem_of_fmap_2 snd _ _ H). Qed.

Lemma holds_uniq (l : list (nat * Z)) b b' n : NoDup l.*2 → (b, n) ∈ l → (b', n) ∈ l → b = b'.
Proof.
  induction l as [|[c m] l IH]; [set_solver|]. intros [Hm Hnd]%NoDup_cons H1 H2.
  apply elem_of_cons in H1, H2. destruct H1 as [H1|H1], H2 as [H2|H2]; simplify_eq; auto.
  - destruct Hm. apply (list_elem_of_fmap_2 snd _ _ H2).
  - destruct Hm. apply (list_elem_of_fmap_2 snd _ _ H1).
Qed.

Lemma layer_bread s v n (Q : nat → log_st → Prop) :
  log_rep s v → home n → n ∉ (holds v).*2 → (length (holds v) < 4)%nat →
  (∀ b s', log_rep s' (hold b n v) → Q b s') → wp (bl_bread d n) Q s.
Proof.
  intros R Hn Hh Hl HQ. destruct R as [R1 R2 R3 R4 R5 R6 [R7 R7'] R8 [R9 R9'] R10 R11 [R12c R12] (R13 & R14 & R15)]. apply wp_bio.
  pose proof (one_range (n ∈ logged v)). pose proof (one_range (n ∈ (holds v).*2)). pose proof (R4 n) as Rn.
  apply (wp_bread d Hd pid n); [done| |lia|lia|by rewrite R5, decide_False|rewrite R13; apply Hn|].
  { right. exists (logged v ++ (holds v).*2). split.
    - intros m Hm. rewrite R4 in Hm. apply elem_of_app. unfold one in Hm. destruct (decide (m ∈ logged v)); [by left|].
      destruct (decide (m ∈ (holds v).*2)); [by right|]. done.
    - rewrite length_app, length_fmap. unfold txn_cap, NBUF in *. lia. }
  intros i b V H1 _ D1. apply HQ.
  split; cbn [l_bio set_bio hold cont logged holds dirty l_outstanding l_size fmap list_fmap]; rewrite ?D1; try done.
  - by apply lists_bio.
  - apply V.
  - intros m. rewrite (vu_content _ _ _ _ _ _ _ V). destruct (decide (m = n)); subst; apply R3.
  - intros m. rewrite (vu_rc _ _ _ _ _ _ _ V). destruct (decide (m = n)) as [E|E].
    + subst m. rewrite Rn, (one_no (n ∈ (holds v).*2)) by done. rewrite (one_yes (n ∈ n :: _)) by apply list_elem_of_here. lia.
    + rewrite R4. f_equal. symmetry. by apply one_iff, elem_cons_ne.
  - intros m. rewrite (vu_lk _ _ _ _ _ _ _ V), R5. destruct (decide (m = n)) as [->|E]; [by rewrite decide_True by apply list_elem_of_here|].
    symmetry. by apply decide_iff, elem_cons_ne.
  - intros c m [[= -> ->]|Hm]%elem_of_cons; [done|]. apply (vu_held _ _ _ _ _ _ _ V); [|by apply R6].
    intros ->. by apply held_block in Hm.
  - split; [done|]. by apply NoDup_cons.
  - intros m [Hm|[->|Hm]%elem_of_cons]; [auto|done|auto].
Qed.

Lemma layer_data s v b n (Q : list Z → log_st → Prop) :
  log_rep s v → (b, n) ∈ holds v → Q (cont v n) s → wp (bl_data b) Q s.
Proof.
  intros R Hb HQ. cbn [bl_data log_layer]. wp_step. apply wp_bio, wp_bufp. wp_step.
  pose proof (held_bounds _ _ _ _ _ (lr_good _ _ R) (lr_held _ _ R b n Hb)) as (_ & _ & _ & E & _ & _).
  rewrite <- E, (lr_cont _ _ R). by replace (set_bio (l_bio s) s) with s by by destruct s.
Qed.

Lemma layer_put s v b n l (Q : unit → log_st → Prop) :
  log_rep s v → (b, n) ∈ holds v → blk_ok l → (∀ s', log_rep s' (change n l v) → Q tt s') → wp (bl_put b l) Q s.
Proof.
  intros [R1 R2 R3 R4 R5 R6 [R7 R7'] R8 [R9 R9'] R10 R11 [R12c R12] (R13 & R14 & R15)] Hb Hbl HQ. apply wp_bio.
  pose proof (held_block _ _ _ Hb) as Hn.
  apply (wp_set_data d Hd pid n); [done|by apply R6|]. intros b1 V H1 D1. apply HQ.
  split; cbn [l_bio set_bio change cont logged holds dirty l_outstanding l_size]; rewrite ?D1; try done.
  - by apply lists_bio.
  - apply V.
  - intros m. rewrite (vu_content _ _ _ _ _ _ _ V). unfold fupd. by case_decide.
  - intros m. rewrite (vu_rc _ _ _ _ _ _ _ V). destruct (decide (m = n)); subst; by rewrite R4.
  - intros m. rewrite (vu_lk _ _ _ _ _ _ _ V), R5. destruct (decide (m = n)) as [->|]; [by rewrite decide_True|done].
  - intros c m Hm. destruct (decide (m = n)) as [->|Hne]; [|by apply (vu_held _ _ _ _ _ _ _ V), R6].
    by rewrite (holds_uniq _ _ _ _ R7' Hm Hb).
  - intros m Hm [Hne Hm']%not_elem_of_cons. unfold fupd. rewrite decide_False by done. by apply R10.
  - intros m. unfold fupd. by case_decide.
Qed.

Lemma layer_log_write s v b n (Q : unit → log_st → Prop) :
  log_rep s v → (b, n) ∈ holds v → n ∈ logged v ∨ (length (logged v) < txn_cap)%nat →
  (∀ s', log_rep s' (log_it n v) → Q tt s') → wp (bl_log_write b) Q s.
Proof.
  intros R Hb Hcap HQ. destruct R as [R1 R2 R3 R4 R5 R6 [R7 R7'] R8 [R9 R9'] R10 R11 [R12c R12] (R13 & R14 & R15)].
  pose proof (held_block _ _ _ Hb) as Hn. pose proof (one_range (n ∈ logged v)) as H01.
  assert (rcof d (l_bio s) n = one (n ∈ logged v) + 1) as Rn by (by rewrite R4, (one_yes (n ∈ (holds v).*2))).
  change (bl_log_write b) with (log_write b).
  apply (wp_log_write d Hd pid start n b s (logged v)); try done; try (unfold txn_cap, LOGSIZE, MAXOPBLOCKS in *; lia); [..| |].
  - intros m Hm. pose proof (proj1 (R8 m (or_introl Hm))). lia.
  - by apply R6.
  - intros Hin s' L B O SZ CM. apply HQ. unfold log_it, log_add. rewrite decide_True by done.
    split; cbn [cont logged holds dirty]; rewrite ?B, ?SZ; try done; [|by unfold same_ctl in *; rewrite ?O, ?SZ, ?CM].
    intros m Hm Hm'. apply R10; [done|]. intros Hd'. apply Hm', list_elem_of_filter. split; [|done]. by intros ->.
  - intros Hin s' L O SZ CM V H1 D1. apply HQ. unfold log_it, log_add. rewrite decide_False by done.
    rewrite R3, Rn, (one_no (n ∈ logged v)) in V by done.
    split; cbn [cont logged holds dirty]; rewrite ?D1, ?SZ; try done; [..|by unfold same_ctl in *; rewrite ?O, ?SZ, ?CM].
    + apply V.
    + intros m. rewrite (vu_content _ _ _ _ _ _ _ V). destruct (decide (m = n)); subst; [done|apply R3].
    + intros m. rewrite (vu_rc _ _ _ _ _ _ _ V). destruct (decide (m = n)) as [E|E].
      * subst. rewrite (one_yes (n ∈ _ ++ [n])), (one_yes (n ∈ (holds v).*2)); [done|done|]. apply elem_of_app. right. apply list_elem_of_here.
      * rewrite R4. f_equal. symmetry. by apply one_iff, elem_snoc_ne.
    + intros m. rewrite (vu_lk _ _ _ _ _ _ _ V), R5. destruct (decide (m = n)) as [->|]; [by rewrite decide_True|done].
    + intros c m Hm. destruct (decide (m = n)) as [->|Hne]; [|by apply (vu_held _ _ _ _ _ _ _ V), R6].
      by rewrite (holds_uniq _ _ _ _ R7' Hm Hb).
    + split; [|done]. apply NoDup_app. split_and!; [done| |apply NoDup_singleton]. intros m Hm ->%list_elem_of_singleton. done.
    + intros m [[Hm|Hm%list_elem_of_singleton]%elem_of_app|Hm]; [auto|subst; auto|auto].
    + rewrite length_app. cbn. destruct Hcap; [done|]. lia.
    + intros m Hm Hm'. apply not_elem_of_app in Hm as [Hm Hne]. apply R10; [done|]. intros Hd'. apply Hm', list_elem_of_filter. split; [|done].
      intros ->. apply Hne, list_elem_of_here.
Qed.

Lemma layer_brelse s v b n (Q : unit → log_st → Prop) :
  log_rep s v → (b, n) ∈ holds v → n ∉ dirty v → (∀ s', log_rep s' (unhold n v) → Q tt s') → wp (bl_brelse b) Q s.
Proof.
  intros R Hb Hdn HQ. destruct R as [R1 R2 R3 R4 R5 R6 [R7 R7'] R8 [R9 R9'] R10 R11 [R12c R12] (R13 & R14 & R15)].
  pose proof (held_block _ _ _ Hb) as Hn. apply wp_bio.
  assert (rcof d (l_bio s) n = one (n ∈ logged v) + 1) as Rn by (by rewrite R4, (one_yes (n ∈ (holds v).*2))).
  apply (wp_brelse d Hd pid n b); [done|by apply R6| |].
  { rewrite Rn, R3. intros E. apply R10; [|done]. intros Hl. rewrite one_yes in E by done. lia. }
  intros b1 V D1. rewrite Rn in V. apply HQ.
  assert (∀ m, m ∈ (holds (unhold n v)).*2 ↔ m ∈ (holds v).*2 ∧ m ≠ n) as Hun.
  { intros m. cbn. rewrite !list_elem_of_fmap. split.
    - intros ([c m'] & -> & [Hne Hin]%list_elem_of_filter). split; [by exists (c, m')|done].
    - intros (([c m'] & -> & Hin) & Hne). exists (c, m'). split; [done|]. by apply list_elem_of_filter. }
  split; cbn [l_bio set_bio l_outstanding l_size]; rewrite ?D1; try done.
  - by apply lists_bio.
  - apply V.
  - intros m. rewrite (vu_content _ _ _ _ _ _ _ V). cbn. destruct (decide (m = n)); subst; apply R3.
  - intros m. rewrite (vu_rc _ _ _ _ _ _ _ V). destruct (decide (m = n)) as [E|E]; cbn [logged unhold].
    + subst. rewrite (one_no (n ∈ _.*2)); [lia|]. rewrite Hun. naive_solver.
    + rewrite R4. f_equal. apply one_iff. rewrite Hun. naive_solver.
  - intros m. rewrite (vu_lk _ _ _ _ _ _ _ V), R5. destruct (decide (m = n)) as [->|E].
    + rewrite decide_False; [done|]. rewrite Hun. naive_solver.
    + apply decide_iff. rewrite Hun. naive_solver.
  - intros c m [Hne Hm]%list_elem_of_filter. apply (vu_held _ _ _ _ _ _ _ V); [done|by apply R6].
  - split; [done|]. clear -R7'. unfold unhold. cbn [holds]. induction (holds v) as [|[c m] l IH]; [done|].
    apply NoDup_cons in R7' as [Hm Hnd]. rewrite filter_cons. case_decide; [|by apply IH]. cbn. apply NoDup_cons.
    split; [|by apply IH]. intros (h & -> & [_ Hh]%list_elem_of_filter)%list_elem_of_fmap. by apply Hm, (list_elem_of_fmap_2 snd _ h).
  - intros m [Hm|Hm]; [auto|]. apply Hun in Hm as [Hm _]. auto.
  - split; [done|]. cbn. etrans; [apply length_filter|done].
Qed.

#[export] Instance log_laws : BlockLaws log_layer log_rep d home txn_cap := {|
  law_blk s v n R := lr_blk s v R n;
  law_bread := layer_bread;
  law_data := layer_data;
  law_put := layer_put;
  law_log_write := layer_log_write;
  law_brelse := layer_brelse;
|}.

End layer.
