(* ===== verification/Fs.v ===== *)
(** * kernel/fs.c: blocks, inodes, directories and paths

    The state is the block layer, the superblock, the inode table and the
    messages printed on the console.  An inode pointer is its index in the
    table.  On-disk structures are read and written at their offsets in the
    bytes of a block.  [readi] takes which copies to the destination succeed
    ([uout], always for a kernel destination) and returns the bytes delivered;
    [writei] takes what the copies from the source yield ([uin]).  [itable.lock]
    makes each routine on the table one step; a sleep lock held by somebody
    else blocks ([OutOfFuel]). *)

From S2P Require Import Prelude Machine Log BlockLayer.

(** ** kernel/fs.h *)

Definition ROOTDEV : Z := 1.
Definition ROOTINO : Z := 1.
Definition FSMAGIC : Z := 0x10203040.
Definition NINODE : nat := 50.
Definition NDIRECT : Z := 12.
Definition NINDIRECT : Z := BSIZE / 4.
Definition MAXFILE : Z := NDIRECT + NINDIRECT.
Definition SIZEOF_DINODE : Z := 64.
Definition IPB : Z := BSIZE / SIZEOF_DINODE.
Definition BPB : Z := BSIZE * 8.
Definition DIRSIZ : Z := 14.
Definition SIZEOF_DIRENT : Z := 16.
Definition T_DIR : Z := 1.
Definition T_FILE : Z := 2.
Definition T_DEVICE : Z := 3.

Record superblock := Super {
  magic : Z;
  size : Z;
  nblocks : Z;
  ninodes : Z;
  nlog : Z;
  logstart : Z;
  inodestart : Z;
  bmapstart : Z;
}.

Definition IBLOCK (i : Z) (sb : superblock) : Z := u32 (i / IPB + inodestart sb).
Definition BBLOCK (b : Z) (sb : superblock) : Z := u32 (b / BPB + bmapstart sb).

(** ** kernel/file.h *)

Record inode := Inode {
  i_dev : Z;
  i_inum : Z;
  i_ref : Z;
  i_lock : option Z;
  i_valid : bool;
  i_type : Z;
  i_major : Z;
  i_minor : Z;
  i_nlink : Z;
  i_size : Z;
  i_addrs : list Z;
}.
Definition zero_inode : inode := Inode 0 0 0 None false 0 0 0 0 0 (replicate 13 0).
#[export] Instance inode_inhabited : Inhabited inode := populate zero_inode.

Definition set_ref x ip := Inode (i_dev ip) (i_inum ip) x (i_lock ip) (i_valid ip) (i_type ip) (i_major ip) (i_minor ip) (i_nlink ip) (i_size ip) (i_addrs ip).
Definition set_ilock x ip := Inode (i_dev ip) (i_inum ip) (i_ref ip) x (i_valid ip) (i_type ip) (i_major ip) (i_minor ip) (i_nlink ip) (i_size ip) (i_addrs ip).
Definition set_ivalid x ip := Inode (i_dev ip) (i_inum ip) (i_ref ip) (i_lock ip) x (i_type ip) (i_major ip) (i_minor ip) (i_nlink ip) (i_size ip) (i_addrs ip).
Definition set_type x ip := Inode (i_dev ip) (i_inum ip) (i_ref ip) (i_lock ip) (i_valid ip) x (i_major ip) (i_minor ip) (i_nlink ip) (i_size ip) (i_addrs ip).
Definition set_nlink x ip := Inode (i_dev ip) (i_inum ip) (i_ref ip) (i_lock ip) (i_valid ip) (i_type ip) (i_major ip) (i_minor ip) x (i_size ip) (i_addrs ip).
Definition set_size x ip := Inode (i_dev ip) (i_inum ip) (i_ref ip) (i_lock ip) (i_valid ip) (i_type ip) (i_major ip) (i_minor ip) (i_nlink ip) x (i_addrs ip).
Definition set_addr k x ip := Inode (i_dev ip) (i_inum ip) (i_ref ip) (i_lock ip) (i_valid ip) (i_type ip) (i_major ip) (i_minor ip) (i_nlink ip) (i_size ip) (<[k := x]> (i_addrs ip)).
Definition recycle_inode dev inum ip := Inode dev inum 1 (i_lock ip) false (i_type ip) (i_major ip) (i_minor ip) (i_nlink ip) (i_size ip) (i_addrs ip).

(** ** struct dinode in the bytes of a block *)

Definition s16 (z : Z) : Z := if u16 z <? 2 ^ 15 then u16 z else u16 z - 2 ^ 16.
Definition get16 (l : list Z) (off : nat) : Z := le_combine (take 2 (drop off l)).
Definition put16 (l : list Z) (off : nat) (v : Z) : list Z := take off l ++ le_split 2 v ++ drop (off + 2) l.

Definition dinode_off (inum : Z) : nat := Z.to_nat (inum mod IPB * SIZEOF_DINODE).

(** [dip->type == 0] *)
Definition dinode_free (d : list Z) (o : nat) : bool := get16 d o =? 0.

(** [memset(dip, 0, sizeof( *dip)); dip->type = type;] *)
Definition dinode_init (type : Z) (d : list Z) (o : nat) : list Z :=
  put16 (take o d ++ replicate (Z.to_nat SIZEOF_DINODE) 0 ++ drop (o + Z.to_nat SIZEOF_DINODE) d) o type.

Fixpoint put_addrs (a : list Z) (o : nat) (d : list Z) : list Z :=
  match a with
  | [] => d
  | x :: a' => put_addrs a' (o + 4) (put32 d o x)
  end.

(** The stores of [iupdate]. *)
Definition dinode_store (ip : inode) (d : list Z) (o : nat) : list Z :=
  let d := put16 d o (i_type ip) in
  let d := put16 d (o + 2) (i_major ip) in
  let d := put16 d (o + 4) (i_minor ip) in
  let d := put16 d (o + 6) (i_nlink ip) in
  let d := put32 d (o + 8) (i_size ip) in
  put_addrs (i_addrs ip) (o + 12) d.

Definition get_addrs (d : list Z) (o : nat) : list Z := (λ k, get32 d (o + 4 * k)) <$> seq 0 13.

(** The loads of [ilock]. *)
Definition dinode_load (d : list Z) (o : nat) (ip : inode) : inode :=
  Inode (i_dev ip) (i_inum ip) (i_ref ip) (i_lock ip) (i_valid ip)
    (s16 (get16 d o)) (s16 (get16 d (o + 2))) (s16 (get16 d (o + 4))) (s16 (get16 d (o + 6)))
    (get32 d (o + 8)) (get_addrs d (o + 12)).

(** [memmove(sb, bp->data, sizeof( *sb))] *)
Definition sb_load (d : list Z) : superblock :=
  Super (get32 d 0) (get32 d 4) (get32 d 8) (get32 d 12) (get32 d 16) (get32 d 20) (get32 d 24) (get32 d 28).

Record fs_st (B : Type) := FS { blk : B; sb : superblock; inodes : list inode; console : list string }.
Arguments FS {B} _ _ _ _.
Arguments blk {B} _.
Arguments sb {B} _.
Arguments inodes {B} _.
Arguments console {B} _.

Section fs.
Context {B : Type} `{BL : BlockLayer B} (pid : Z).
Abbreviation FM := (M (fs_st B)).

Definition on_blk {A} (m : M B A) : FM A := zoom blk (λ t s, FS t (sb s) (inodes s) (console s)) m.
Definition bread (dev n : Z) : FM nat := on_blk (bl_bread dev n).
Definition data (b : nat) : FM (list Z) := on_blk (bl_data b).
Definition put_data (b : nat) (l : list Z) : FM unit := on_blk (bl_put b l).
Definition log_write (b : nat) : FM unit := on_blk (bl_log_write b).
Definition brelse (b : nat) : FM unit := on_blk (bl_brelse b).
Definition inode_at (i : nat) : FM inode := gets (λ s, inodes s !!! i).
Definition upd_inode (i : nat) (f : inode → inode) : FM unit :=
  modify (λ s, FS (blk s) (sb s) (<[i := f (inodes s !!! i)]> (inodes s)) (console s)).
Definition print (msg : string) : FM unit := modify (λ s, FS (blk s) (sb s) (inodes s) (console s ++ [msg])).

Definition readsb (dev : Z) : FM unit :=
  bp ← bread dev 1;
  d ← data bp;
  modify (λ s, FS (blk s) (sb_load d) (inodes s) (console s));;
  brelse bp.

Definition fsinit (dev : Z) : FM unit :=
  readsb dev;;
  x ← gets sb;
  if negb (magic x =? FSMAGIC) then panic "invalid file system"
  else on_blk (bl_initlog dev (logstart x) (nlog x)).

(** ** Blocks *)

Definition bzero (dev bno : Z) : FM unit :=
  bp ← bread dev bno;
  put_data bp (replicate (Z.to_nat BSIZE) 0);;
  log_write bp;;
  brelse bp.

(** The inner loop of [balloc] over the bits of one bitmap block. *)
Definition balloc_bits (dev b : Z) (bp : nat) : FM (option Z) :=
  x ← gets sb;
  for_exit 0 (Z.min BPB (size x - b)) (λ bi,
    d ← data bp;
    let m := Z.shiftl 1 (bi mod 8) in
    let c := d !!! Z.to_nat (bi / 8) in
    if Z.land c m =? 0 then
      put_data bp (<[Z.to_nat (bi / 8) := Z.lor c m]> d);;
      log_write bp;;
      brelse bp;;
      bzero dev (b + bi);;
      ret (Some (b + bi))
    else ret None).

Definition balloc (dev : Z) : FM Z :=
  x ← gets sb;
  r ← for_exit 0 ((size x + BPB - 1) / BPB) (λ k,
        let b := k * BPB in
        bp ← bread dev (BBLOCK b x);
        r ← balloc_bits dev b bp;
        match r with
        | Some _ => ret r
        | None => brelse bp;; ret None
        end);
  match r with
  | Some a => ret a
  | None => print "balloc: out of blocks";; ret 0
  end.

Definition bfree (dev b : Z) : FM unit :=
  x ← gets sb;
  bp ← bread dev (BBLOCK b x);
  let bi := b mod BPB in
  let m := Z.shiftl 1 (bi mod 8) in
  d ← data bp;
  let c := d !!! Z.to_nat (bi / 8) in
  if Z.land c m =? 0 then panic "freeing free block"
  else
    put_data bp (<[Z.to_nat (bi / 8) := Z.land c (Z.lnot m)]> d);;
    log_write bp;;
    brelse bp.

(** ** Inodes *)

Definition iinit : FM unit :=
  for_ 0 (Z.of_nat NINODE) (λ i, upd_inode (Z.to_nat i) (set_ilock None)).

(** The scan of the table: the entry of the inode, or the first free one. *)
Fixpoint iget_scan (l : list inode) (i : nat) (dev inum : Z) (empty : option nat) : nat + option nat :=
  match l with
  | [] => inr empty
  | ip :: l' =>
      if (0 <? i_ref ip) && (i_dev ip =? dev) && (i_inum ip =? inum) then inl i
      else
        iget_scan l' (S i) dev inum
          (match empty with Some _ => empty | None => if i_ref ip =? 0 then Some i else None end)
  end.

Definition iget (dev inum : Z) : FM nat :=
  t ← gets inodes;
  match iget_scan t 0 dev inum None with
  | inl i => upd_inode i (λ ip, set_ref (s32 (i_ref ip + 1)) ip);; ret i
  | inr None => panic "iget: no inodes"
  | inr (Some i) => upd_inode i (recycle_inode dev inum);; ret i
  end.

Definition ialloc (dev type : Z) : FM (option nat) :=
  x ← gets sb;
  r ← for_exit 1 (ninodes x) (λ inum,
        bp ← bread dev (IBLOCK inum x);
        d ← data bp;
        let o := dinode_off inum in
        if dinode_free d o then
          put_data bp (dinode_init type d o);;
          log_write bp;;
          brelse bp;;
          i ← iget dev inum;
          ret (Some i)
        else brelse bp;; ret None);
  match r with
  | Some i => ret (Some i)
  | None => print "ialloc: no inodes";; ret None
  end.

Definition iupdate (i : nat) : FM unit :=
  x ← gets sb;
  ip ← inode_at i;
  bp ← bread (i_dev ip) (IBLOCK (i_inum ip) x);
  d ← data bp;
  put_data bp (dinode_store ip d (dinode_off (i_inum ip)));;
  log_write bp;;
  brelse bp.

Definition idup (i : nat) : FM nat :=
  upd_inode i (λ ip, set_ref (s32 (i_ref ip + 1)) ip);;
  ret i.

Definition acquire_inode (i : nat) : FM unit :=
  ip ← inode_at i;
  match i_lock ip with
  | None => upd_inode i (set_ilock (Some pid))
  | Some _ => out_of_fuel
  end.

Definition ilock (i : nat) : FM unit :=
  ip ← inode_at i;
  if i_ref ip <? 1 then panic "ilock"
  else
    acquire_inode i;;
    ip ← inode_at i;
    if i_valid ip then ret tt
    else
      x ← gets sb;
      bp ← bread (i_dev ip) (IBLOCK (i_inum ip) x);
      d ← data bp;
      upd_inode i (dinode_load d (dinode_off (i_inum ip)));;
      brelse bp;;
      upd_inode i (set_ivalid true);;
      ip ← inode_at i;
      if i_type ip =? 0 then panic "ilock: no type" else ret tt.

Definition iunlock (i : nat) : FM unit :=
  ip ← inode_at i;
  if negb (bool_decide (i_lock ip = Some pid)) || (i_ref ip <? 1) then panic "iunlock"
  else upd_inode i (set_ilock None).

(** ** Inode content *)

(** Entry [bn] of the table of indirect blocks in block [addr]. *)
Definition bmap_entry (dev addr bn : Z) : FM Z :=
  bp ← bread dev addr;
  d ← data bp;
  let addr := get32 d (Z.to_nat (4 * bn)) in
  addr ← (if addr =? 0 then
            addr ← balloc dev;
            (if addr =? 0 then ret tt
             else
               d ← data bp;
               put_data bp (put32 d (Z.to_nat (4 * bn)) addr);;
               log_write bp);;
            ret addr
          else ret addr);
  brelse bp;;
  ret addr.

Definition bmap (i : nat) (bn : Z) : FM Z :=
  ip ← inode_at i;
  if bn <? NDIRECT then
    let addr := i_addrs ip !!! Z.to_nat bn in
    if addr =? 0 then
      addr ← balloc (i_dev ip);
      if addr =? 0 then ret 0
      else upd_inode i (set_addr (Z.to_nat bn) addr);; ret addr
    else ret addr
  else
    let bn := bn - NDIRECT in
    if bn <? NINDIRECT then
      let addr := i_addrs ip !!! Z.to_nat NDIRECT in
      addr ← (if addr =? 0 then
                addr ← balloc (i_dev ip);
                if addr =? 0 then ret 0
                else upd_inode i (set_addr (Z.to_nat NDIRECT) addr);; ret addr
              else ret addr);
      if addr =? 0 then ret 0 else bmap_entry (i_dev ip) addr bn
    else panic "bmap: out of range".

Definition itrunc (i : nat) : FM unit :=
  for_ 0 NDIRECT (λ k,
    ip ← inode_at i;
    let a := i_addrs ip !!! Z.to_nat k in
    if a =? 0 then ret tt
    else bfree (i_dev ip) a;; upd_inode i (set_addr (Z.to_nat k) 0));;
  ip ← inode_at i;
  let a := i_addrs ip !!! Z.to_nat NDIRECT in
  (if a =? 0 then ret tt
   else
     bp ← bread (i_dev ip) a;
     for_ 0 NINDIRECT (λ j,
       d ← data bp;
       let a := get32 d (Z.to_nat (4 * j)) in
       if a =? 0 then ret tt else bfree (i_dev ip) a);;
     brelse bp;;
     bfree (i_dev ip) a;;
     upd_inode i (set_addr (Z.to_nat NDIRECT) 0));;
  upd_inode i (set_size 0);;
  iupdate i.

Definition iput (i : nat) : FM unit :=
  ip ← inode_at i;
  (if (i_ref ip =? 1) && i_valid ip && (i_nlink ip =? 0) then
     acquire_inode i;;
     itrunc i;;
     upd_inode i (set_type 0);;
     iupdate i;;
     upd_inode i (set_ivalid false);;
     upd_inode i (set_ilock None)
   else ret tt);;
  upd_inode i (λ ip, set_ref (s32 (i_ref ip - 1)) ip).

Definition iunlockput (i : nat) : FM unit := iunlock i;; iput i.

Record stat := Stat { st_dev : Z; st_ino : Z; st_type : Z; st_nlink : Z; st_size : Z }.

Definition stati (i : nat) : FM stat :=
  ip ← inode_at i;
  ret (Stat (i_dev ip) (i_inum ip) (i_type ip) (i_nlink ip) (i_size ip)).

(** The loop of [readi]: the bytes of the copies that succeed, and [tot]. *)
Fixpoint readi_loop (fuel : nat) (i : nat) (uout : Z → bool) (off n tot : Z) (acc : list Z) : FM (list Z * Z) :=
  if tot <? n then
    match fuel with
    | O => out_of_fuel
    | S fuel' =>
        ip ← inode_at i;
        addr ← bmap i (off / BSIZE);
        if addr =? 0 then ret (acc, tot)
        else
          bp ← bread (i_dev ip) addr;
          let m := Z.min (n - tot) (BSIZE - off mod BSIZE) in
          d ← data bp;
          let c := take (Z.to_nat m) (drop (Z.to_nat (off mod BSIZE)) d) in
          if negb (uout tot) then brelse bp;; ret (acc, -1)
          else
            brelse bp;;
            readi_loop fuel' i uout (u32 (off + m)) n (u32 (tot + m)) (acc ++ c)
    end
  else ret (acc, tot).

Definition readi (i : nat) (uout : Z → bool) (off n : Z) : FM (list Z * Z) :=
  ip ← inode_at i;
  if (i_size ip <? off) || (u32 (off + n) <? off) then ret ([], 0)
  else
    let n := if i_size ip <? u32 (off + n) then u32 (i_size ip - off) else n in
    readi_loop (Z.to_nat (n / BSIZE + 2)) i uout off n 0 [].

(** The loop of [writei]: [tot] and the final [off].  [uin tot m] is what the
    copy of [m] bytes stores in the buffer, and whether it succeeds; a copy that
    fails may have stored some of the bytes. *)
Fixpoint writei_loop (fuel : nat) (i : nat) (uin : Z → Z → list Z * bool) (off n tot : Z) : FM (Z * Z) :=
  if tot <? n then
    match fuel with
    | O => out_of_fuel
    | S fuel' =>
        ip ← inode_at i;
        addr ← bmap i (off / BSIZE);
        if addr =? 0 then ret (tot, off)
        else
          bp ← bread (i_dev ip) addr;
          let m := Z.min (n - tot) (BSIZE - off mod BSIZE) in
          let '(l, ok) := uin tot m in
          d ← data bp;
          let o := Z.to_nat (off mod BSIZE) in
          put_data bp (take o d ++ l ++ drop (o + length l) d);;
          if negb ok then brelse bp;; ret (tot, off)
          else
            log_write bp;;
            brelse bp;;
            writei_loop fuel' i uin (u32 (off + m)) n (u32 (tot + m))
    end
  else ret (tot, off).

Definition writei (i : nat) (uin : Z → Z → list Z * bool) (off n : Z) : FM Z :=
  ip ← inode_at i;
  if (i_size ip <? off) || (u32 (off + n) <? off) then ret (-1)
  else if MAXFILE * BSIZE <? u32 (off + n) then ret (-1)
  else
    '(tot, off) ← writei_loop (Z.to_nat (n / BSIZE + 2)) i uin off n 0;
    ip ← inode_at i;
    (if i_size ip <? off then upd_inode i (set_size off) else ret tt);;
    iupdate i;;
    ret tot.
End fs.
