(* ===== verification/FsFacts.v ===== *)
(** * The allocation bitmap of kernel/fs.c

    [used C b]: the bitmap of the view [C] marks block [b].  [balloc] takes the
    first unmarked block, marks and clears it; [bfree] clears the mark. *)

From S2P Require Import Prelude Machine Log LogFacts BlockLayer Fs.

(** ** The block layer inside the file system's state *)

(** A block was rewritten and logged. *)
Definition wrote (n : Z) (l : list Z) (v : bview) : bview :=
  BView (fupd (cont v) n l) (log_add n (logged v)) (holds v) (dirty v).

Lemma filter_ne (n : Z) (l : list Z) : n ∉ l → filter (λ m, m ≠ n) l = l.
Proof.
  induction l as [|m l IH]; [done|]. intros [H1 H2]%not_elem_of_cons. rewrite filter_cons_True by done. by rewrite IH.
Qed.

Lemma filter_ne2 (n : Z) (l : list (nat * Z)) : n ∉ l.*2 → filter (λ h, h.2 ≠ n) l = l.
Proof.
  induction l as [|[b m] l IH]; [done|]. rewrite fmap_cons. intros [H1 H2]%not_elem_of_cons.
  rewrite filter_cons_True by done. by rewrite IH.
Qed.

Lemma wrote_view b n l v :
  n ∉ (holds v).*2 → n ∉ dirty v → unhold n (log_it n (change n l (hold b n v))) = wrote n l v.
Proof.
  intros H1 H2. unfold unhold, log_it, change, hold, wrote. cbn [cont logged holds dirty].
  rewrite (filter_cons_False _ n) by naive_solver. rewrite filter_ne by done.
  rewrite (filter_cons_False _ (b, n)) by naive_solver. by rewrite filter_ne2.
Qed.

Lemma unhold_view b n v : n ∉ (holds v).*2 → unhold n (hold b n v) = v.
Proof.
  intros H. unfold unhold, hold. cbn [cont logged holds dirty].
  rewrite (filter_cons_False _ (b, n)) by naive_solver. rewrite filter_ne2 by done. by destruct v.
Qed.

Lemma length_log_add n l : (length (log_add n l) ≤ S (length l))%nat.
Proof. unfold log_add. case_decide; rewrite ?length_app; cbn; lia. Qed.

Section fs.
Context {B : Type} {BL : BlockLayer B} (rep : B → bview → Prop) (dev : Z) (dom : Z → Prop) (cap : nat) `{!BlockLaws BL rep dev dom cap}.
Implicit Types (s : fs_st B) (v : bview).

Definition set_blk (t : B) s : fs_st B := FS t (sb s) (inodes s) (console s).

(** The block layer shows [v]; the superblock and the inodes are those of [s0]. *)
Record at_view (s0 s : fs_st B) v : Prop := {
  av_rep : rep (blk s) v;
  av_sb : sb s = sb s0;
  av_inodes : inodes s = inodes s0;
}.

Lemma at_view_refl s v : rep (blk s) v → at_view s s v.
Proof. by split. Qed.

(** A buffer may be read: the block is on the device and not held. *)
Definition readable v (n : Z) : Prop := dom n ∧ (n ∉ (holds v).*2) ∧ (length (holds v) < 4)%nat.

Lemma wp_fs_bread s0 s v n (Q : nat → fs_st B → Prop) :
  at_view s0 s v → readable v n → (∀ b s', at_view s0 s' (hold b n v) → Q b s') → wp (Fs.bread dev n) Q s.
Proof.
  intros [R1 R2 R3] (H1 & H2 & H3) HQ. apply wp_zoom. eapply law_bread; [done..|]. intros b t Ht. apply HQ. by split.
Qed.

Lemma wp_data s0 s v b n (Q : list Z → fs_st B → Prop) :
  at_view s0 s v → (b, n) ∈ holds v → (∀ s', at_view s0 s' v → Q (cont v n) s') → wp (Fs.data b) Q s.
Proof.
  intros [R1 R2 R3] Hb HQ. apply wp_zoom. eapply law_data; [done..|]. apply HQ. by split.
Qed.

Lemma wp_put s0 s v b n l (Q : unit → fs_st B → Prop) :
  at_view s0 s v → (b, n) ∈ holds v → blk_ok l → (∀ s', at_view s0 s' (change n l v) → Q tt s') → wp (put_data b l) Q s.
Proof.
  intros [R1 R2 R3] Hb Hl HQ. apply wp_zoom. eapply law_put; [done..|]. intros t Ht. apply HQ. by split.
Qed.

Lemma wp_fs_log_write s0 s v b n (Q : unit → fs_st B → Prop) :
  at_view s0 s v → (b, n) ∈ holds v → n ∈ logged v ∨ (length (logged v) < cap)%nat →
  (∀ s', at_view s0 s' (log_it n v) → Q tt s') → wp (Fs.log_write b) Q s.
Proof.
  intros [R1 R2 R3] Hb Hl HQ. apply wp_zoom. eapply law_log_write; [done..|]. intros t Ht. apply HQ. by split.
Qed.

Lemma wp_fs_brelse s0 s v b n (Q : unit → fs_st B → Prop) :
  at_view s0 s v → (b, n) ∈ holds v → n ∉ dirty v → (∀ s', at_view s0 s' (unhold n v) → Q tt s') → wp (Fs.brelse b) Q s.
Proof.
  intros [R1 R2 R3] Hb Hl HQ. apply wp_zoom. eapply law_brelse; [done..|]. intros t Ht. apply HQ. by split.
Qed.

Lemma av_blk s0 s v n : at_view s0 s v → blk_ok (cont v n).
Proof. intros R. eapply law_blk, R. Qed.

(** The end of every update: store, log, release. *)
Lemma wp_store_then {A} s0 s v b n l (k : M (fs_st B) A) (Q : A → fs_st B → Prop) :
  at_view s0 s (hold b n v) → n ∉ (holds v).*2 → n ∉ dirty v → blk_ok l →
  n ∈ logged v ∨ (length (logged v) < cap)%nat →
  (∀ s', at_view s0 s' (wrote n l v) → wp k Q s') →
  wp (put_data b l;; Fs.log_write b;; Fs.brelse b;; k) Q s.
Proof.
  intros R Hh Hd Hl Hcap HQ. wp_step. eapply wp_put; [done|apply list_elem_of_here|done|]. intros s1 R1.
  wp_step. eapply wp_fs_log_write; [done|apply list_elem_of_here|done|]. intros s2 R2.
  wp_step. eapply wp_fs_brelse; [done|apply list_elem_of_here| |].
  { intros [H _]%list_elem_of_filter. done. }
  intros s3 R3. rewrite wrote_view in R3 by done. by apply HQ.
Qed.

Lemma wp_fs_store s0 s v b n l (Q : unit → fs_st B → Prop) :
  at_view s0 s (hold b n v) → n ∉ (holds v).*2 → n ∉ dirty v → blk_ok l →
  n ∈ logged v ∨ (length (logged v) < cap)%nat →
  (∀ s', at_view s0 s' (wrote n l v) → Q tt s') →
  wp (put_data b l;; Fs.log_write b;; Fs.brelse b) Q s.
Proof.
  intros R Hh Hd Hl Hcap HQ. apply (wp_ext (put_data b l;; Fs.log_write b;; Fs.brelse b;; ret tt)).
  { intros s'. apply bind_ext. intros _ s1. apply bind_ext. intros _ s2. unfold mbind, M_bind, mret, M_ret.
    by destruct (Fs.brelse b s2) as [[[] ?]| | |]. }
  by apply (wp_store_then s0 s v b n l).
Qed.

(** Reading without changing. *)
Lemma wp_release s0 s v b n (Q : unit → fs_st B → Prop) :
  at_view s0 s (hold b n v) → n ∉ (holds v).*2 → n ∉ dirty v → (∀ s', at_view s0 s' v → Q tt s') → wp (Fs.brelse b) Q s.
Proof.
  intros R Hh Hd HQ. eapply wp_fs_brelse; [done|apply list_elem_of_here|done|]. intros s1 R1.
  rewrite unhold_view in R1 by done. by apply HQ.
Qed.

Lemma zeros_ok : blk_ok (replicate (Z.to_nat BSIZE) 0).
Proof. split; [by rewrite length_replicate|]. apply Forall_replicate. unfold byte. lia. Qed.

Lemma wp_bzero s0 s v n (Q : unit → fs_st B → Prop) :
  at_view s0 s v → readable v n → n ∉ dirty v → n ∈ logged v ∨ (length (logged v) < cap)%nat →
  (∀ s', at_view s0 s' (wrote n (replicate (Z.to_nat BSIZE) 0) v) → Q tt s') → wp (bzero dev n) Q s.
Proof.
  intros R Hr Hd Hcap HQ. unfold bzero. wp_step. eapply wp_fs_bread; [done|done|]. intros b s1 R1.
  destruct Hr as (_ & Hh & _). eapply wp_fs_store; [done|done|done|apply zeros_ok|done|done].
Qed.

(** ** Marks *)

Definition used (x : superblock) (C : Z → list Z) (b : Z) : bool :=
  Z.testbit (C (BBLOCK b x) !!! Z.to_nat (b mod BPB / 8)) (b mod BPB mod 8).

Definition mark (l : list Z) (bi : Z) : list Z :=
  <[Z.to_nat (bi / 8) := Z.lor (l !!! Z.to_nat (bi / 8)) (Z.shiftl 1 (bi mod 8))]> l.

Definition unmark (l : list Z) (bi : Z) : list Z :=
  <[Z.to_nat (bi / 8) := Z.land (l !!! Z.to_nat (bi / 8)) (Z.lnot (Z.shiftl 1 (bi mod 8)))]> l.

Lemma bit_testbit k j : 0 ≤ k → 0 ≤ j → Z.testbit (Z.shiftl 1 k) j = bool_decide (j = k).
Proof.
  intros Hk Hj. rewrite Z.shiftl_1_l. case_bool_decide as E; [subst; by apply Z.pow2_bits_true|].
  apply Z.pow2_bits_false. lia.
Qed.

Lemma land_bit c k : 0 ≤ k → (Z.land c (Z.shiftl 1 k) =? 0) = negb (Z.testbit c k).
Proof.
  intros Hk. destruct (Z.testbit c k) eqn:E; cbn.
  - apply Z.eqb_neq. intros H. apply (f_equal (λ z, Z.testbit z k)) in H.
    rewrite Z.land_spec, E, bit_testbit, bool_decide_true, Z.bits_0 in H by lia. done.
  - apply Z.eqb_eq, Z.bits_inj'. intros j Hj. rewrite Z.land_spec, Z.bits_0, bit_testbit by lia.
    case_bool_decide; [by subst; rewrite E|apply andb_false_r].
Qed.

Lemma lor_bit_byte c k : byte c → 0 ≤ k < 8 → byte (Z.lor c (Z.shiftl 1 k)).
Proof.
  unfold byte. intros Hc Hk. rewrite Z.shiftl_1_l. change 256 with (2 ^ 8) in *.
  assert (0 < 2 ^ k) by (apply Z.pow_pos_nonneg; lia).
  assert (2 ^ k < 2 ^ 8) by (apply Z.pow_lt_mono_r; lia).
  split; [apply Z.lor_nonneg; lia|].
  destruct (decide (Z.lor c (2 ^ k) = 0)) as [->|]; [lia|].
  apply Z.log2_lt_pow2; [enough (0 ≤ Z.lor c (2 ^ k)) by lia; apply Z.lor_nonneg; lia|].
  rewrite Z.log2_lor by lia. apply Z.max_lub_lt; [|rewrite Z.log2_pow2; lia].
  destruct (decide (c = 0)) as [->|]; [by rewrite Z.log2_nonpos|]. apply Z.log2_lt_pow2; lia.
Qed.

Lemma land_byte c z : byte c → byte (Z.land c z).
Proof.
  unfold byte. intros Hc. split; [apply Z.land_nonneg; lia|]. change 256 with (2 ^ 8) in *.
  destruct (decide (Z.land c z = 0)) as [->|Hz]; [lia|].
  assert (0 ≤ Z.land c z) by (apply Z.land_nonneg; lia).
  assert (c ≠ 0) by (intros ->; by rewrite Z.land_0_l in Hz).
  apply Z.log2_lt_pow2; [lia|].
  destruct (Z.le_gt_cases 8 (Z.log2 (Z.land c z))) as [Hle|]; [|done]. exfalso.
  pose proof (Z.bit_log2 (Z.land c z) ltac:(lia)) as Hb. rewrite Z.land_spec in Hb. apply andb_true_iff in Hb as [Hb _].
  rewrite Z.bits_above_log2 in Hb; [done|lia|]. assert (Z.log2 c < 8) by (apply Z.log2_lt_pow2; lia). lia.
Qed.

Lemma blk_byte l k : blk_ok l → 0 ≤ k < BSIZE → byte (l !!! Z.to_nat k).
Proof.
  intros [Hl Hb] Hk. eapply Forall_lookup_1; [exact Hb|]. apply list_lookup_lookup_total_lt. unfold BSIZE in *. lia.
Qed.

Lemma blk_insert l k c : blk_ok l → byte c → blk_ok (<[k := c]> l).
Proof. intros [Hl Hb] Hc. split; [by rewrite length_insert|]. by apply Forall_insert. Qed.

Lemma mark_ok l bi : blk_ok l → 0 ≤ bi < BPB → blk_ok (mark l bi).
Proof.
  intros Hl Hb. apply blk_insert; [done|]. apply lor_bit_byte; [|dlia]. apply blk_byte; [done|]. unfold BPB, BSIZE in *. dlia.
Qed.

Lemma unmark_ok l bi : blk_ok l → 0 ≤ bi < BPB → blk_ok (unmark l bi).
Proof. intros Hl Hb. apply blk_insert; [done|]. apply land_byte, blk_byte; [done|]. unfold BPB, BSIZE in *. dlia. Qed.

(** Bit [bj] of a bitmap block after [bi] was set or cleared. *)
Definition bit_at (l : list Z) (bi : Z) : bool := Z.testbit (l !!! Z.to_nat (bi / 8)) (bi mod 8).

Lemma bit_mark l bi bj :
  length l = Z.to_nat BSIZE → 0 ≤ bi < BPB → 0 ≤ bj < BPB →
  bit_at (mark l bi) bj = if decide (bj = bi) then true else bit_at l bj.
Proof.
  intros Hl Hi Hj. unfold bit_at, mark. assert (Z.to_nat (bi / 8) < length l)%nat by (rewrite Hl; unfold BPB, BSIZE in *; dlia).
  rewrite list_insert_lookup by done. destruct (decide (bj = bi)) as [->|Hne].
  - rewrite decide_True by done. rewrite Z.lor_spec, bit_testbit, bool_decide_true by dlia. apply orb_true_r.
  - destruct (decide (Z.to_nat (bj / 8) = Z.to_nat (bi / 8))) as [E|]; [|done]. rewrite E.
    rewrite Z.lor_spec, bit_testbit, bool_decide_false by dlia. apply orb_false_r.
Qed.

Lemma bit_unmark l bi bj :
  length l = Z.to_nat BSIZE → 0 ≤ bi < BPB → 0 ≤ bj < BPB →
  bit_at (unmark l bi) bj = if decide (bj = bi) then false else bit_at l bj.
Proof.
  intros Hl Hi Hj. unfold bit_at, unmark. assert (Z.to_nat (bi / 8) < length l)%nat by (rewrite Hl; unfold BPB, BSIZE in *; dlia).
  rewrite list_insert_lookup by done. destruct (decide (bj = bi)) as [->|Hne].
  - rewrite decide_True by done. rewrite Z.land_spec, Z.lnot_spec, bit_testbit, bool_decide_true by dlia. apply andb_false_r.
  - destruct (decide (Z.to_nat (bj / 8) = Z.to_nat (bi / 8))) as [E|]; [|done]. rewrite E.
    rewrite Z.land_spec, Z.lnot_spec, bit_testbit, bool_decide_false by dlia. apply andb_true_r.
Qed.

(** ** The layout of the disk *)

(** The bitmap lies before [ds], the first data block. *)
Record layout (x : superblock) (ds : Z) : Prop := {
  ly_size : 0 < size x < 2 ^ 30;
  ly_bmap : 0 ≤ bmapstart x ∧ bmapstart x + (size x - 1) / BPB < ds;
  ly_data : ds ≤ size x;
  ly_bmap_dom b : bmapstart x ≤ b ≤ bmapstart x + (size x - 1) / BPB → dom b;
  ly_data_dom b : ds ≤ b < size x → dom b;
}.

Lemma bblock_eq x ds b : layout x ds → 0 ≤ b < size x → BBLOCK b x = b / BPB + bmapstart x ∧ 0 ≤ BBLOCK b x < ds.
Proof.
  intros [L1 L2 L3] Hb. unfold BBLOCK. assert (0 ≤ b / BPB ≤ (size x - 1) / BPB) by (unfold BPB, BSIZE; dlia).
  rewrite u32_small; [|lia]. split; [done|]. lia.
Qed.

Lemma used_bit x C b : used x C b = bit_at (C (BBLOCK b x)) (b mod BPB).
Proof. done. Qed.

(** The marks after bit [a] was changed in its bitmap block. *)
Lemma used_upd x ds C l a b (p : bool) :
  layout x ds → 0 ≤ a < size x → 0 ≤ b < size x →
  (∀ bj, 0 ≤ bj < BPB → bit_at l bj = if decide (bj = a mod BPB) then p else bit_at (C (BBLOCK a x)) bj) →
  used x (fupd C (BBLOCK a x) l) b = if decide (b = a) then p else used x C b.
Proof.
  intros L Ha Hb Hl. rewrite !used_bit. destruct (bblock_eq x ds a L Ha) as [Ea _], (bblock_eq x ds b L Hb) as [Eb _].
  unfold fupd. rewrite Ea, Eb. assert (0 < BPB) by (unfold BPB, BSIZE; lia).
  destruct (decide (b / BPB + bmapstart x = a / BPB + bmapstart x)) as [E|E].
  - rewrite Hl by (apply Z.mod_pos_bound; lia). rewrite Ea.
    destruct (decide (b = a)) as [->|Hne]; [by rewrite decide_True by done|].
    rewrite decide_False, E; [done|]. intros E'. apply Hne.
    rewrite (Z.div_mod b BPB), (Z.div_mod a BPB) by lia. f_equal; [f_equal; lia|done].
  - rewrite decide_False; [done|]. intros ->. done.
Qed.

(** A change of a block that is not part of the bitmap. *)
Lemma used_frame x ds C n l b : layout x ds → ds ≤ n → 0 ≤ b < size x → used x (fupd C n l) b = used x C b.
Proof.
  intros L Hn Hb. rewrite !used_bit. destruct (bblock_eq x ds b L Hb) as [_ E]. unfold fupd. by rewrite decide_False by lia.
Qed.


(** ** balloc and bfree *)

(** Nothing is dirty, the blocks before the data area are marked, and the
    buffers held are of marked data blocks. *)
Record calm (x : superblock) (ds : Z) v : Prop := {
  cm_dirty : dirty v = [];
  cm_meta b : 0 ≤ b < ds → used x (cont v) b = true;
  cm_held n : n ∈ (holds v).*2 → ds ≤ n < size x ∧ used x (cont v) n = true;
  cm_holds : (length (holds v) < 4)%nat;
}.

Lemma calm_clean x ds v n : calm x ds v → n ∉ dirty v.
Proof. intros [-> _ _ _]. apply not_elem_of_nil. Qed.

Definition taken (x : superblock) (a : Z) v : bview :=
  wrote a (replicate (Z.to_nat BSIZE) 0) (wrote (BBLOCK a x) (mark (cont v (BBLOCK a x)) (a mod BPB)) v).

Lemma bmap_readable x ds v b : layout x ds → calm x ds v → 0 ≤ b < size x → readable v (BBLOCK b x).
Proof.
  intros L [D M H Hl] Hb. destruct (bblock_eq x ds b L Hb) as [E1 E]. destruct L as [L1 L2 L3 L4 L5].
  split; [apply L4; rewrite E1; pose proof (Z.div_pos b BPB); pose proof (Z.div_le_mono b (size x - 1) BPB); unfold BPB, BSIZE in *; lia|].
  split; [|done]. intros Hin. destruct (H _ Hin). lia.
Qed.

Lemma wp_balloc_bits x ds v s0 s bp k (Q : option Z → fs_st B → Prop) :
  layout x ds → calm x ds v → sb s0 = x → (length (logged v) + 2 ≤ cap)%nat → 0 ≤ k → k * BPB < size x →
  at_view s0 s (hold bp (BBLOCK (k * BPB) x) v) →
  (∀ a s', k * BPB ≤ a < size x → ds ≤ a → used x (cont v) a = false → (∀ b, k * BPB ≤ b < a → used x (cont v) b = true) →
     at_view s0 s' (taken x a v) → Q (Some a) s') →
  (∀ s', (∀ b, k * BPB ≤ b < size x → b < (k + 1) * BPB → used x (cont v) b = true) →
     at_view s0 s' (hold bp (BBLOCK (k * BPB) x) v) → Q None s') →
  wp (balloc_bits dev (k * BPB) bp) Q s.
Proof.
  intros L Hc Hsb Hcap Hk0 Hk R HS HN. unfold balloc_bits. wp_step. wp_step. rewrite (av_sb _ _ _ R), Hsb.
  assert (0 < BPB) as Hbpb by (unfold BPB, BSIZE; lia). set (n := Z.min BPB (size x - k * BPB)).
  pose proof (bmap_readable x ds v (k * BPB) L Hc ltac:(lia)) as (Hn1 & Hn2 & Hn3).
  apply (wp_for_exit (λ bi s', at_view s0 s' (hold bp (BBLOCK (k * BPB) x) v) ∧
    ∀ b, k * BPB ≤ b < k * BPB + bi → used x (cont v) b = true)); [lia|split; [done|lia]| |].
  - intros bi s1 Hbi [R1 Hu]. set (a := k * BPB + bi). assert (0 ≤ a < size x) as Ha by lia.
    assert (a mod BPB = bi) as Em by (unfold a; rewrite Z.add_comm, Z_mod_plus_full, Z.mod_small; lia).
    assert (BBLOCK a x = BBLOCK (k * BPB) x) as Eb.
    { unfold BBLOCK. do 2 f_equal. unfold a. rewrite Z.div_add_l, Z.div_mul, Z.div_small by lia. lia. }
    wp_step. eapply wp_data; [done|apply list_elem_of_here|]. intros s2 R2. cbn [cont hold].
    rewrite land_bit by dlia. fold (bit_at (cont v (BBLOCK (k * BPB) x)) bi).
    replace (bit_at _ bi) with (used x (cont v) a) by (by rewrite used_bit, Em, Eb).
    destruct (used x (cont v) a) eqn:Eu; cbn [negb].
    + wp_step. split; [done|]. intros b Hb. destruct (decide (b = a)) as [->|]; [done|]. apply Hu. lia.
    + assert (ds ≤ a) as Hds.
      { destruct (Z.le_gt_cases ds a) as [|Hlt]; [done|]. rewrite (cm_meta _ _ _ Hc) in Eu; [done|lia]. }
      change (<[Z.to_nat (bi / 8):=_]> _) with (mark (cont v (BBLOCK (k * BPB) x)) bi).
      eapply (wp_store_then s0 s2 v bp); [exact R2|done|by eapply calm_clean| | |].
      { apply mark_ok; [|unfold n in *; lia]. exact (av_blk _ _ _ _ R2). }
      { right. lia. }
      intros s3 R3. wp_step. eapply wp_bzero; [exact R3| | | |].
      { destruct L as [L1 L2 L3 L4 L5]. split; [apply L5; unfold a in *; lia|]. split; [|done]. cbn. intros Hin.
        destruct (cm_held _ _ _ Hc _ Hin) as [_ Hu']. fold a in Hu'. congruence. }
      { exact (calm_clean _ _ _ _ Hc). }
      { right. cbn. pose proof (length_log_add (BBLOCK (k * BPB) x) (logged v)). lia. }
      intros s4 R4. wp_step. apply HS; [lia|done|done| |].
      * intros b Hb. apply Hu. lia.
      * unfold taken. rewrite Em, Eb. exact R4.
  - intros s1 [R1 Hu]. apply HN; [|done]. intros b Hb Hb'. apply Hu. lia.
Qed.

Lemma wp_balloc x ds v s0 s (Q : Z → fs_st B → Prop) :
  layout x ds → calm x ds v → sb s0 = x → (length (logged v) + 2 ≤ cap)%nat → at_view s0 s v →
  (∀ a s', ds ≤ a < size x → used x (cont v) a = false → (∀ b, 0 ≤ b < a → used x (cont v) b = true) →
     at_view s0 s' (taken x a v) → Q a s') →
  (∀ s', (∀ b, 0 ≤ b < size x → used x (cont v) b = true) → at_view s0 s' v → Q 0 s') →
  wp (balloc dev) Q s.
Proof.
  intros L Hc Hsb Hcap R HS HN. unfold balloc. wp_step. wp_step. rewrite (av_sb _ _ _ R), Hsb.
  assert (0 < BPB) as Hbpb by (unfold BPB, BSIZE; lia). destruct (ly_size _ _ L) as [Hsz _]. wp_step.
  set (P := λ (r : option Z) s', match r with
    | Some a => (ds ≤ a < size x) ∧ used x (cont v) a = false ∧ (∀ b, 0 ≤ b < a → used x (cont v) b = true) ∧ at_view s0 s' (taken x a v)
    | None => (∀ b, 0 ≤ b < size x → used x (cont v) b = true) ∧ at_view s0 s' v end).
  eapply (wp_mono _ P).
  - apply (wp_for_exit (λ k s', at_view s0 s' v ∧ ∀ b, 0 ≤ b < size x → b < k * BPB → used x (cont v) b = true)).
    + dlia.
    + split; [done|]. lia.
    + intros k s1 Hk [R1 Hu]. assert (k * BPB < size x) as Hkb by (Z.to_euclidean_division_equations; nia).
      pose proof (bmap_readable x ds v (k * BPB) L Hc ltac:(nia)) as Hr.
      wp_step. eapply wp_fs_bread; [exact R1|exact Hr|]. intros bp s2 R2. destruct Hr as (_ & Hn2 & _).
      wp_step. eapply (wp_balloc_bits x ds v); try done; [lia| |].
      * intros a s3 Ha Hds Eu Hb R3. wp_step. cbn. split; [lia|]. split; [done|]. split; [|done].
        intros b Hb'. destruct (Z.le_gt_cases (k * BPB) b); [apply Hb; lia|apply Hu; lia].
      * intros s3 Hb R3. wp_step. eapply (wp_release s0 s3); [exact R3|done|by eapply calm_clean|]. intros s4 R4. wp_step.
        split; [done|]. intros b Hb1 Hb2. destruct (Z.le_gt_cases (k * BPB) b); [apply Hb; lia|apply Hu; lia].
    + intros s1 [R1 Hu]. split; [|done]. intros b Hb. apply Hu; [done|]. Z.to_euclidean_division_equations. nia.
  - intros [a|] s1; unfold P; cbv beta iota.
    + intros (H1 & H2 & H3 & H4). wp_step. by apply HS.
    + intros [Hu [R1 R2 R3]]. wp_step. unfold print. wp_step. wp_step. by apply HN.
Qed.

Lemma wp_bfree x ds v s0 s b (Q : unit → fs_st B → Prop) :
  layout x ds → calm x ds v → sb s0 = x → (length (logged v) < cap)%nat → at_view s0 s v → 0 ≤ b < size x →
  used x (cont v) b = true →
  (∀ s', at_view s0 s' (wrote (BBLOCK b x) (unmark (cont v (BBLOCK b x)) (b mod BPB)) v) → Q tt s') →
  wp (bfree dev b) Q s.
Proof.
  intros L Hc Hsb Hcap R Hb Hu HQ. unfold bfree. wp_step. wp_step. rewrite (av_sb _ _ _ R), Hsb.
  pose proof (bmap_readable x ds v b L Hc Hb) as Hr. wp_step. eapply wp_fs_bread; [exact R|exact Hr|]. intros bp s1 R1.
  destruct Hr as (_ & Hn2 & _). wp_step. eapply wp_data; [exact R1|apply list_elem_of_here|]. intros s2 R2. cbn [cont hold].
  assert (0 < BPB) as Hbpb by (unfold BPB, BSIZE; lia). pose proof (Z.mod_pos_bound b BPB Hbpb).
  rewrite land_bit by dlia. fold (bit_at (cont v (BBLOCK b x)) (b mod BPB)). rewrite <- used_bit, Hu. cbn [negb].
  eapply wp_fs_store; [exact R2|done|by eapply calm_clean| |right; lia|exact HQ].
  apply (unmark_ok _ (b mod BPB)); [|done]. exact (av_blk _ _ _ _ R2).
Qed.

End fs.
