(* ===== verification/FsFile.v ===== *)
(** * The contents of a file: kernel/fs.c, [bmap], [readi], [writei]

    A file is its table of block addresses; [fblk C a bn] is block [bn] of the
    file with addresses [a] in the view [C] of the disk, zeros where no block is
    allocated.  [bmap] changes no byte of any file; [writei] replaces the bytes it
    writes and nothing else; [readi] returns them. *)

From S2P Require Import Prelude Machine Log LogFacts BlockLayer Fs FsFacts.

Definition zblock : list Z := replicate (Z.to_nat BSIZE) 0.

Definition ind_of (a : list Z) : Z := a !!! Z.to_nat NDIRECT.

(** The address of block [bn], 0 for none. *)
Definition amap (C : Z → list Z) (a : list Z) (bn : Z) : Z :=
  if bn <? NDIRECT then a !!! Z.to_nat bn
  else if ind_of a =? 0 then 0 else get32 (C (ind_of a)) (Z.to_nat (4 * (bn - NDIRECT))).

Definition fblk (C : Z → list Z) (a : list Z) (bn : Z) : list Z :=
  if amap C a bn =? 0 then zblock else C (amap C a bn).

Definition in_file (bn : Z) : Prop := 0 ≤ bn < MAXFILE.

(** The blocks of the file. *)
Definition owned (C : Z → list Z) (a : list Z) (b : Z) : Prop :=
  b ≠ 0 ∧ (b = ind_of a ∨ ∃ bn, in_file bn ∧ amap C a bn = b).

Lemma get32_zeros n off : get32 (replicate n 0) off = 0.
Proof.
  unfold get32. rewrite drop_replicate, take_replicate. generalize (4 `min` (n - off))%nat. intros k.
  induction k as [|k IH]; [done|]. change (0 + 256 * le_combine (replicate k 0) = 0). by rewrite IH.
Qed.

Section file.
Context (dom : Z → Prop) (x : superblock) (ds : Z) (L : layout dom x ds) (Hds : 0 < ds).
Implicit Types (C : Z → list Z) (a : list Z) (b bn : Z).
Abbreviation used := (used x).

Definition is_bmap b : Prop := bmapstart x ≤ b ≤ bmapstart x + (size x - 1) / BPB.

Record file_ok C a : Prop := {
  fo_len : length a = 13%nat;
  fo_data b : owned C a b → ds ≤ b < size x ∧ used C b = true;
  fo_inj bn bn' : in_file bn → in_file bn' → amap C a bn ≠ 0 → amap C a bn = amap C a bn' → bn = bn';
  fo_ind bn : in_file bn → amap C a bn ≠ 0 → amap C a bn ≠ ind_of a;
}.

Lemma owned_map C a bn : in_file bn → amap C a bn ≠ 0 → owned C a (amap C a bn).
Proof. intros H1 H2. split; [done|]. right. by exists bn. Qed.

Lemma owned_ind C a : ind_of a ≠ 0 → owned C a (ind_of a).
Proof. intros H. split; [done|]. by left. Qed.

Lemma bblock_bmap b : 0 ≤ b < size x → is_bmap (BBLOCK b x).
Proof.
  intros Hb. destruct (bblock_eq _ _ _ b L Hb) as [-> _]. unfold is_bmap. unfold BPB, BSIZE. dlia.
Qed.

Lemma bmap_below b : is_bmap b → 0 ≤ b < ds.
Proof. intros Hb. destruct L as [_ L2 _ _ _]. unfold is_bmap in Hb. lia. Qed.

(** What an allocation changes: no byte of a file, and no marked block outside
    the file but the bitmap. *)
Record grows C a C' a' : Prop := {
  gr_ok : file_ok C' a';
  gr_used b : 0 ≤ b < size x → used C b = true → used C' b = true;
  gr_frame b : 0 ≤ b < size x → used C b = true → ¬ is_bmap b → ¬ owned C a b → C' b = C b;
  gr_blk bn : in_file bn → fblk C' a' bn = fblk C a bn;
  gr_map bn : in_file bn → amap C a bn ≠ 0 → amap C' a' bn = amap C a bn;
  gr_own b : owned C' a' b → owned C a b ∨ used C b = false;
}.

Lemma grows_refl C a : file_ok C a → grows C a C a.
Proof. intros H. split; auto. Qed.

Lemma grows_trans C1 a1 C2 a2 C3 a3 : grows C1 a1 C2 a2 → grows C2 a2 C3 a3 → grows C1 a1 C3 a3.
Proof.
  intros [A1 A2 A3 A4 A5 A6] [B1 B2 B3 B4 B5 B6]. split; [done|auto|..].
  - intros b Hb Hu Hn Ho. rewrite B3, A3; auto. intros [H|H]%A6; [done|congruence].
  - intros bn Hbn. by rewrite B4, A4.
  - intros bn Hbn Hne. rewrite B5, A5; auto. by rewrite A5.
  - intros b Hb. destruct (B6 b Hb) as [H|H]; [by apply A6|]. right. pose proof (fo_data _ _ B1 b Hb) as [Hr _].
    destruct (used C1 b) eqn:E; [|done]. rewrite A2 in H; [done| |done]. destruct L as [_ L2 _ _ _]. lia.
Qed.

(** *** A fresh block [n] is marked and cleared *)

Definition fresh C n : Z → list Z := fupd (fupd C (BBLOCK n x) (mark (C (BBLOCK n x)) (n mod BPB))) n zblock.

Section fresh.
Context (C : Z → list Z) (n : Z) (Hn : ds ≤ n < size x) (Hfree : used C n = false) (Hblk : ∀ m, blk_ok (C m)).

Lemma fresh_used b : 0 ≤ b < size x → used (fresh C n) b = if decide (b = n) then true else used C b.
Proof.
  intros Hb. assert (0 < BPB) as Hp by (unfold BPB, BSIZE; lia). assert (0 ≤ n < size x) as Hn' by lia.
  unfold fresh. rewrite (used_frame dom x ds) by (done || lia). apply (used_upd dom x ds); try done.
  intros bj Hbj. apply bit_mark; [apply Hblk|by apply Z.mod_pos_bound|done].
Qed.

Lemma fresh_self : fresh C n n = zblock.
Proof. unfold fresh, fupd. by rewrite decide_True. Qed.

Lemma fresh_other b : b ≠ n → ¬ is_bmap b → fresh C n b = C b.
Proof.
  intros H1 H2. unfold fresh, fupd. rewrite decide_False by done. rewrite decide_False; [done|].
  intros ->. apply H2, bblock_bmap. lia.
Qed.

Lemma fresh_data b : ds ≤ b → b ≠ n → fresh C n b = C b.
Proof. intros H1 H2. apply fresh_other; [done|]. intros H%bmap_below. lia. Qed.

Lemma not_owned_fresh a : file_ok C a → ¬ owned C a n.
Proof. intros Hf Ho. destruct (fo_data _ _ Hf _ Ho). congruence. Qed.

Lemma fresh_amap a bn : file_ok C a → amap (fresh C n) a bn = amap C a bn.
Proof.
  intros Hf. unfold amap. destruct (bn <? NDIRECT); [done|]. destruct (Z.eqb_spec (ind_of a) 0) as [|Hne]; [done|].
  pose proof (owned_ind C a Hne) as Ho. rewrite fresh_data; [done|apply (fo_data _ _ Hf _ Ho)|].
  intros E. rewrite E in Ho. by destruct (not_owned_fresh a Hf).
Qed.

Lemma fresh_owned a b : file_ok C a → owned (fresh C n) a b ↔ owned C a b.
Proof.
  intros Hf. unfold owned. split; (intros [H1 [H2|(bn & H2 & H3)]]; split; [done|by left|done|right]);
    exists bn; (split; [done|]); by rewrite fresh_amap in *.
Qed.

Lemma fresh_grows a : file_ok C a → grows C a (fresh C n) a.
Proof.
  intros Hf. split.
  - split; [apply Hf|..].
    + intros b Hb%fresh_owned; [|done]. destruct (fo_data _ _ Hf b Hb) as [Hr Hu]. split; [done|].
      rewrite fresh_used by lia. by case_decide.
    + intros bn bn'. rewrite !fresh_amap by done. apply Hf.
    + intros bn. rewrite fresh_amap by done. apply Hf.
  - intros b Hb Hu. rewrite fresh_used by done. by case_decide.
  - intros b Hb Hu Hnb _. apply fresh_other; [congruence|done].
  - intros bn Hbn. unfold fblk. rewrite fresh_amap by done. destruct (Z.eqb_spec (amap C a bn) 0) as [|Hne]; [done|].
    pose proof (owned_map C a bn Hbn Hne) as Ho. destruct (fo_data _ _ Hf _ Ho) as [Hr Hu].
    apply fresh_data; [lia|]. intros E. congruence.
  - intros bn Hbn _. by rewrite fresh_amap.
  - intros b Hb%fresh_owned; [by left|done].
Qed.

(** The fresh block becomes block [bn] of the file. *)
Lemma grows_place a bn C' a' :
  file_ok C a → in_file bn → amap C a bn = 0 → length a' = 13%nat → ind_of a' = ind_of a →
  (∀ bn', in_file bn' → amap C' a' bn' = if decide (bn' = bn) then n else amap C a bn') →
  (∀ b, b ≠ ind_of a ∨ ind_of a = 0 → C' b = fresh C n b) → grows C a C' a'.
Proof.
  intros Hf Hbn H0 Hlen Hind Hmap Hoth. pose proof (not_owned_fresh a Hf) as Hno.
  assert (∀ b, 0 ≤ b < size x → used C' b = if decide (b = n) then true else used C b) as Hu.
  { intros b Hb. rewrite <- (fresh_used b Hb). rewrite !used_bit. destruct (bblock_eq _ _ _ b L Hb) as [_ Hbb].
    rewrite Hoth; [done|]. destruct (decide (ind_of a = 0)) as [|Hi]; [by right|]. left.
    destruct (fo_data _ _ Hf _ (owned_ind C a Hi)). lia. }
  assert (∀ b, owned C' a' b ↔ b = n ∨ owned C a b) as Hown.
  { intros b. unfold owned. rewrite Hind. split.
    - intros [Hb [Hi|(bn' & Hbn' & E)]]; [right; auto|]. rewrite Hmap in E by done. destruct (decide (bn' = bn)); [by left|].
      right. split; [done|]. right. by exists bn'.
    - intros [->|[Hb [Hi|(bn' & Hbn' & E)]]]; [|auto|].
      + split; [lia|]. right. exists bn. split; [done|]. by rewrite Hmap, decide_True.
      + split; [done|]. right. exists bn'. split; [done|]. rewrite Hmap by done. case_decide; [congruence|done]. }
  assert (∀ bn', in_file bn' → amap C a bn' ≠ n) as Hne.
  { intros bn' Hbn' E. apply Hno. rewrite <- E. apply owned_map; [done|]. lia. }
  split.
  - split; [done|..].
    + intros b [->|Hb]%Hown; (rewrite Hu; [|try lia]); [by rewrite decide_True| |].
      * destruct (fo_data _ _ Hf _ Hb). split; [done|]. by case_decide.
      * destruct (fo_data _ _ Hf _ Hb). lia.
    + intros b1 b2 H1 H2. rewrite !Hmap by done. destruct (decide (b1 = bn)), (decide (b2 = bn)); try congruence.
      * intros _ E. by destruct (Hne b2).
      * intros _ E. by destruct (Hne b1).
      * by apply Hf.
    + intros b1 H1. rewrite Hmap, Hind by done. destruct (decide (b1 = bn)); [|by apply Hf].
      intros _ E. apply Hno. rewrite E. apply owned_ind. lia.
  - intros b Hb Hub. rewrite Hu by done. by case_decide.
  - intros b Hb Hub Hnb Hnown. rewrite Hoth; [apply fresh_other; [congruence|done]|].
    destruct (decide (ind_of a = 0)); [by right|]. left. intros ->. by apply Hnown, owned_ind.
  - intros b1 H1. unfold fblk. rewrite Hmap by done. destruct (decide (b1 = bn)) as [->|].
    + rewrite H0. cbn. destruct (Z.eqb_spec n 0) as [|]; [lia|]. rewrite Hoth, fresh_self; [done|].
      destruct (decide (ind_of a = 0)); [by right|]. left. intros E. apply Hno. rewrite E. by apply owned_ind.
    + destruct (Z.eqb_spec (amap C a b1) 0) as [|Hnz]; [done|]. rewrite Hoth.
      * apply fresh_data; [apply (fo_data _ _ Hf _ (owned_map _ _ _ H1 Hnz))|by apply Hne].
      * left. by apply Hf.
  - intros b1 H1 Hnz. rewrite Hmap by done. case_decide; [congruence|done].
  - intros b [->|Hb]%Hown; [by right|by left].
Qed.

(** ... or the table of indirect blocks. *)
Lemma ind_set a : file_ok C a → ind_of (<[Z.to_nat NDIRECT := n]> a) = n.
Proof. intros Hf. unfold ind_of. rewrite list_insert_lookup; [by rewrite decide_True|]. rewrite (fo_len _ _ Hf). cbv. lia. Qed.

Lemma amap_ind a bn :
  file_ok C a → ind_of a = 0 → in_file bn → amap (fresh C n) (<[Z.to_nat NDIRECT := n]> a) bn = amap C a bn.
Proof.
  intros Hf H0 Hbn. unfold amap. rewrite (ind_set a Hf), H0. destruct (Z.ltb_spec bn NDIRECT) as [Hlt|].
  - apply list_lookup_total_insert_ne. unfold NDIRECT, in_file in *. lia.
  - destruct (Z.eqb_spec n 0); [lia|]. rewrite fresh_self. apply get32_zeros.
Qed.

Lemma grows_ind a : file_ok C a → ind_of a = 0 → grows C a (fresh C n) (<[Z.to_nat NDIRECT := n]> a).
Proof.
  intros Hf H0. pose proof (not_owned_fresh a Hf) as Hno. pose proof (ind_set a Hf) as Hi.
  pose proof (λ bn, amap_ind a bn Hf H0) as Hmap. set (a' := <[_ := n]> a) in *.
  assert (∀ b, owned (fresh C n) a' b ↔ b = n ∨ owned C a b) as Hown.
  { intros b. unfold owned. rewrite Hi, H0. split.
    - intros [Hb [->|(bn & Hbn & E)]]; [by left|]. right. rewrite Hmap in E by done. split; [done|]. right. by exists bn.
    - intros [->|[Hb [?|(bn & Hbn & E)]]]; [split; [lia|by left]|done|]. split; [done|]. right. exists bn. by rewrite Hmap. }
  assert (∀ bn, in_file bn → amap C a bn ≠ 0 → amap C a bn ≠ n) as Hne.
  { intros bn Hbn Hnz E. apply Hno. rewrite <- E. by apply owned_map. }
  split.
  - split; [unfold a'; rewrite length_insert; apply Hf|..].
    + intros b [->|Hb]%Hown; [rewrite fresh_used, decide_True by lia; done|].
      destruct (fo_data _ _ Hf _ Hb). rewrite fresh_used by lia. split; [done|]. by case_decide.
    + intros b1 b2 H1 H2. rewrite !Hmap by done. by apply Hf.
    + intros b1 H1. rewrite Hmap, Hi by done. by apply Hne.
  - intros b Hb Hub. rewrite fresh_used by done. by case_decide.
  - intros b Hb Hub Hnb _. apply fresh_other; [congruence|done].
  - intros bn Hbn. unfold fblk. rewrite Hmap by done. destruct (Z.eqb_spec (amap C a bn) 0) as [|Hnz]; [done|].
    apply fresh_data; [apply (fo_data _ _ Hf _ (owned_map _ _ _ Hbn Hnz))|by apply Hne].
  - intros bn Hbn _. by apply Hmap.
  - intros b [->|Hb]%Hown; [by right|by left].
Qed.

Lemma ind_direct a bn : 0 ≤ bn < NDIRECT → ind_of (<[Z.to_nat bn := n]> a) = ind_of a.
Proof. intros Hbn. unfold ind_of. apply list_lookup_total_insert_ne. unfold NDIRECT in *. lia. Qed.

Lemma amap_direct a bn bn' :
  file_ok C a → 0 ≤ bn < NDIRECT → in_file bn' →
  amap (fresh C n) (<[Z.to_nat bn := n]> a) bn' = if decide (bn' = bn) then n else amap C a bn'.
Proof.
  intros Hf Hbn Hbn'. assert (Z.to_nat bn < length a)%nat as Hlt by (rewrite (fo_len _ _ Hf); unfold NDIRECT in *; lia).
  rewrite <- (fresh_amap a bn' Hf). unfold amap. rewrite (ind_direct a bn Hbn). destruct (Z.ltb_spec bn' NDIRECT) as [Hl|Hl].
  - rewrite list_insert_lookup by done. destruct (decide (bn' = bn)) as [->|]; [by rewrite decide_True|].
    unfold in_file in Hbn'. rewrite decide_False by lia. done.
  - by rewrite decide_False by lia.
Qed.

Lemma grows_direct a bn :
  file_ok C a → 0 ≤ bn < NDIRECT → amap C a bn = 0 →
  grows C a (fresh C n) (<[Z.to_nat bn := n]> a) ∧ amap (fresh C n) (<[Z.to_nat bn := n]> a) bn = n.
Proof.
  intros Hf Hbn H0. pose proof (ind_direct a bn Hbn) as Hi. pose proof (λ bn', amap_direct a bn bn' Hf Hbn) as Hm.
  assert (in_file bn) as Hin by (unfold in_file, MAXFILE, NINDIRECT, NDIRECT, BSIZE in *; dlia).
  split; [|by rewrite Hm, decide_True]. eapply grows_place; try done. by rewrite length_insert, (fo_len _ _ Hf).
Qed.

Lemma fresh_table a : file_ok C a → ind_of a ≠ 0 → fresh C n (ind_of a) = C (ind_of a).
Proof.
  intros Hf Hi. destruct (fo_data _ _ Hf _ (owned_ind C a Hi)) as [Hid _]. apply fresh_data; [lia|].
  intros E. apply (not_owned_fresh a Hf). rewrite <- E. by apply owned_ind.
Qed.

Lemma amap_entry a bn bn' :
  file_ok C a → NDIRECT ≤ bn < MAXFILE → ind_of a ≠ 0 → in_file bn' →
  amap (fupd (fresh C n) (ind_of a) (put32 (fresh C n (ind_of a)) (Z.to_nat (4 * (bn - NDIRECT))) n)) a bn' =
    if decide (bn' = bn) then n else amap C a bn'.
Proof.
  intros Hf Hbn Hi Hbn'. destruct L as [L1 _ _ _ _]. destruct (Hblk (ind_of a)) as [Hl _].
  unfold amap. destruct (Z.ltb_spec bn' NDIRECT) as [Hlt|Hge]; [by rewrite decide_False by lia|].
  destruct (Z.eqb_spec (ind_of a) 0); [done|]. unfold fupd. rewrite (decide_True (P := ind_of a = ind_of a)) by done.
  rewrite (fresh_table a Hf Hi). unfold in_file, MAXFILE, NINDIRECT in *. assert (BSIZE / 4 = 256) as E4 by reflexivity.
  destruct (decide (bn' = bn)) as [->|Hne].
  - rewrite get32_put32_eq, u32_small; [done|lia|rewrite Hl; unfold BSIZE in *; lia].
  - apply get32_put32_ne; [rewrite Hl; unfold BSIZE in *; lia|lia].
Qed.

Lemma grows_entry a bn :
  file_ok C a → NDIRECT ≤ bn < MAXFILE → ind_of a ≠ 0 → amap C a bn = 0 →
  let C' := fupd (fresh C n) (ind_of a) (put32 (fresh C n (ind_of a)) (Z.to_nat (4 * (bn - NDIRECT))) n) in
  grows C a C' a ∧ amap C' a bn = n.
Proof.
  intros Hf Hbn Hi H0 C'. pose proof (fresh_table a Hf Hi) as Ef. pose proof (λ bn', amap_entry a bn bn' Hf Hbn Hi) as Hm. fold C' in Hm.
  assert (in_file bn) as Hin by (unfold in_file, NDIRECT in *; lia).
  split; [|by rewrite Hm, decide_True]. apply (grows_place a bn); try done; [apply Hf|].
  intros b [Hb|Hb]; [|done]. unfold C', fupd. by rewrite decide_False.
Qed.

End fresh.
End file.

(** ** The routines *)

Definition with_addrs (a : list Z) (ip : inode) : inode :=
  Inode (i_dev ip) (i_inum ip) (i_ref ip) (i_lock ip) (i_valid ip) (i_type ip) (i_major ip) (i_minor ip) (i_nlink ip) (i_size ip) a.

Section routines.
Context {B : Type} {BL : BlockLayer B} (rep : B → bview → Prop) (dev : Z) (dom : Z → Prop) (cap : nat) `{!BlockLaws BL rep dev dom cap}.
Context (x : superblock) (ds : Z) (L : layout dom x ds) (Hds : 0 < ds).
Implicit Types (s : fs_st B) (C : Z → list Z) (lg a : list Z).
Abbreviation used := (used x).
Abbreviation at_view := (at_view rep).
Abbreviation file_ok := (file_ok x ds).
Abbreviation grows := (grows x ds).

(** A view with no buffer held. *)
Definition free_view C lg : bview := BView C lg [] [].

(** The state [s0] with the addresses [a] in inode [i]. *)
Definition set_addrs (i : nat) a s : fs_st B :=
  FS (blk s) (sb s) (<[i := with_addrs a (inodes s !!! i)]> (inodes s)) (console s).

Definition meta C : Prop := ∀ b, 0 ≤ b < ds → used C b = true.

Lemma calm_free C lg : meta C → calm x ds (free_view C lg).
Proof. intros HM. split; [done|done|set_solver|cbn; lia]. Qed.

Lemma meta_grows C a C' a' : meta C → grows C a C' a' → meta C'.
Proof. intros HM HG b Hb. apply (gr_used _ _ _ _ _ _ HG); [|by apply HM]. destruct L as [_ _ L3 _ _]. lia. Qed.

Lemma set_addrs_id i s : (i < length (inodes s))%nat → set_addrs i (i_addrs (inodes s !!! i)) s = s.
Proof.
  intros Hi. unfold set_addrs. rewrite list_insert_id; [by destruct s|].
  rewrite list_lookup_lookup_total_lt by done. by destruct (inodes s !!! i).
Qed.

Lemma set_addrs_at i a s : (i < length (inodes s))%nat → inodes (set_addrs i a s) !!! i = with_addrs a (inodes s !!! i).
Proof. intros Hi. cbn. by apply list_lookup_total_insert_eq. Qed.

Lemma set_addrs_twice i a a' s : (i < length (inodes s))%nat → set_addrs i a' (set_addrs i a s) = set_addrs i a' s.
Proof. intros Hi. unfold set_addrs. cbn. rewrite list_insert_insert_eq, list_lookup_total_insert_eq by done. done. Qed.

Lemma wp_set_addr s0 s v i k y (Q : unit → fs_st B → Prop) :
  at_view s0 s v → (∀ s', at_view (set_addrs i (<[k := y]> (i_addrs (inodes s0 !!! i))) s0) s' v → Q tt s') →
  wp (upd_inode i (set_addr k y)) Q s.
Proof.
  intros [R1 R2 R3] HQ. apply wp_modify, HQ. split; [done|done|]. cbn. by rewrite R3.
Qed.

Lemma wp_inode s0 s v i (Q : inode → fs_st B → Prop) :
  at_view s0 s v → Q (inodes s0 !!! i) s → wp (inode_at i) Q s.
Proof. intros [R1 R2 R3] HQ. apply wp_gets. by rewrite R3. Qed.

Lemma taken_free n C lg :
  taken x n (free_view C lg) = free_view (fresh x C n) (log_add n (log_add (BBLOCK n x) lg)).
Proof. done. Qed.

Lemma hold_readable C lg n : ds ≤ n < size x → readable dom (free_view C lg) n.
Proof. intros Hn. destruct L as [_ _ _ _ L5]. split; [by apply L5|]. split; [set_solver|cbn; lia]. Qed.

Lemma views_ok s0 s v n : at_view s0 s v → blk_ok (cont v n).
Proof. apply (av_blk rep dev dom cap). Qed.

(** [balloc] on such a view. *)
Lemma wp_balloc_free s0 s C lg (Q : Z → fs_st B → Prop) :
  at_view s0 s (free_view C lg) → sb s0 = x → meta C → (length lg + 2 ≤ cap)%nat →
  (∀ n s' lg', ds ≤ n < size x → used C n = false → at_view s0 s' (free_view (fresh x C n) lg') →
     (length lg' ≤ length lg + 2)%nat → Q n s') →
  (∀ s', (∀ b, 0 ≤ b < size x → used C b = true) → at_view s0 s' (free_view C lg) → Q 0 s') →
  wp (balloc dev) Q s.
Proof.
  intros R Hsb HM Hcap HS HN.
  eapply (wp_balloc rep dev dom cap x ds (free_view C lg)); [done|by apply calm_free|done|done|exact R| |].
  - intros n s' Hn Hf _ R'. rewrite taken_free in R'. eapply HS; [done|done|exact R'|].
    pose proof (length_log_add n (log_add (BBLOCK n x) lg)). pose proof (length_log_add (BBLOCK n x) lg). lia.
  - intros s' Hall R'. by apply HN.
Qed.

(** The entry is there. *)
Lemma wp_entry_mapped s0 s C lg ind bn (Q : Z → fs_st B → Prop) :
  at_view s0 s (free_view C lg) → ds ≤ ind < size x → get32 (C ind) (Z.to_nat (4 * bn)) ≠ 0 →
  (∀ s', at_view s0 s' (free_view C lg) → Q (get32 (C ind) (Z.to_nat (4 * bn))) s') → wp (bmap_entry dev ind bn) Q s.
Proof.
  intros R Hid Hnz HQ. unfold bmap_entry.
  wp_step. eapply (wp_fs_bread rep dev dom cap); [exact R|by apply hold_readable|]. intros bp s1 R1.
  wp_step. eapply (wp_data rep dev dom cap); [exact R1|apply list_elem_of_here|]. intros s2 R2. cbn [cont hold free_view].
  rewrite (proj2 (Z.eqb_neq _ _) Hnz).
  wp_step. wp_step. wp_step. eapply (wp_release rep dev dom cap); [exact R2|set_solver|set_solver|]. intros s3 R3. wp_step. by apply HQ.
Qed.

(** A mapped block is found without any change. *)
Lemma wp_bmap_mapped s0 s C lg i bn (Q : Z → fs_st B → Prop) :
  at_view s0 s (free_view C lg) → i_dev (inodes s0 !!! i) = dev → file_ok C (i_addrs (inodes s0 !!! i)) →
  in_file bn → amap C (i_addrs (inodes s0 !!! i)) bn ≠ 0 →
  (∀ s', at_view s0 s' (free_view C lg) → Q (amap C (i_addrs (inodes s0 !!! i)) bn) s') → wp (bmap i bn) Q s.
Proof.
  intros R Hdev Hf Hbn Hnz HQ. unfold bmap. wp_step. eapply wp_inode; [done|]. unfold amap in Hnz, HQ.
  destruct (bn <? NDIRECT) eqn:Ed.
  { destruct (Z.eqb_spec (i_addrs (inodes s0 !!! i) !!! Z.to_nat bn) 0); [done|]. wp_step. by apply HQ. }
  unfold in_file, MAXFILE in Hbn. rewrite (proj2 (Z.ltb_lt (bn - NDIRECT) NINDIRECT)) by lia.
  fold (ind_of (i_addrs (inodes s0 !!! i))) in *. destruct (Z.eqb_spec (ind_of (i_addrs (inodes s0 !!! i))) 0) as [|Hi]; [done|].
  wp_step. wp_step. destruct (Z.eqb_spec (ind_of (i_addrs (inodes s0 !!! i))) 0) as [|_]; [done|].
  destruct (fo_data _ _ _ _ Hf _ (owned_ind C _ Hi)) as [Hid _]. rewrite Hdev. by apply (wp_entry_mapped s0 s C lg).
Qed.

Lemma put32_ok l off y : blk_ok l → (off + 4 ≤ Z.to_nat BSIZE)%nat → blk_ok (put32 l off y).
Proof.
  intros [Hl Hb] Ho. split; [by rewrite length_put32; lia|]. unfold put32.
  apply Forall_app. split; [by apply Forall_take|]. apply Forall_app. split; [apply bytes_le_split|by apply Forall_drop].
Qed.

(** What [bmap] and its parts may leave behind. *)
Definition mapped C a lg bn (k : nat) (addr : Z) C' a' lg' : Prop :=
  grows C a C' a' ∧ (length lg' ≤ length lg + k)%nat ∧
  ((addr ≠ 0 ∧ amap C' a' bn = addr) ∨ (addr = 0 ∧ ∀ b, 0 ≤ b < size x → used C' b = true)).

Lemma wp_entry s0 s C lg a bn (Q : Z → fs_st B → Prop) :
  at_view s0 s (free_view C lg) → sb s0 = x → file_ok C a → ind_of a ≠ 0 → meta C → NDIRECT ≤ bn < MAXFILE →
  (length lg + 3 ≤ cap)%nat →
  (∀ addr s' C' lg', at_view s0 s' (free_view C' lg') → mapped C a lg bn 3 addr C' a lg' → Q addr s') →
  wp (bmap_entry dev (ind_of a) (bn - NDIRECT)) Q s.
Proof.
  intros R Hsb Hf Hi HM Hbn Hcap HQ. destruct (fo_data _ _ _ _ Hf _ (owned_ind C _ Hi)) as [Hid Hiu].
  assert (amap C a bn = get32 (C (ind_of a)) (Z.to_nat (4 * (bn - NDIRECT)))) as Em.
  { unfold amap. rewrite (proj2 (Z.ltb_ge bn NDIRECT)), (proj2 (Z.eqb_neq _ _) Hi) by lia. done. }
  destruct (decide (amap C a bn = 0)) as [E0|Hnz].
  2:{ rewrite Em in Hnz. apply (wp_entry_mapped s0 s C lg); [done|done|done|]. intros s1 R1. apply (HQ _ _ C lg); [done|].
      split; [by apply grows_refl|]. split; [lia|]. left. by rewrite Em. }
  unfold bmap_entry. wp_step. eapply (wp_fs_bread rep dev dom cap); [exact R|by apply hold_readable|]. intros bp s1 R1.
  wp_step. eapply (wp_data rep dev dom cap); [exact R1|apply list_elem_of_here|]. intros s2 R2. cbn [cont hold free_view].
  rewrite <- Em, E0. cbn [Z.eqb]. wp_step. wp_step.
  eapply (wp_balloc rep dev dom cap x ds (hold bp (ind_of a) (free_view C lg))); [done| |done|cbn; lia|exact R2| |].
  { split; [done|done| |cbn; lia]. cbn. by intros m ->%list_elem_of_singleton. }
  - intros n s3 Hn Hfree _ R3. cbn [cont hold free_view] in Hfree. rewrite (proj2 (Z.eqb_neq n 0)) by lia.
    assert (∀ m, blk_ok (C m)) as Hbk by (intros m; exact (views_ok _ _ _ m R)).
    pose proof (grows_entry dom x ds L Hds C n Hn Hfree Hbk a bn Hf Hbn Hi E0) as [HG Hm].
    set (lg1 := log_add n (log_add (BBLOCK n x) lg)).
    change (taken x n (hold bp (ind_of a) (free_view C lg))) with (hold bp (ind_of a) (free_view (fresh x C n) lg1)) in R3.
    assert (length lg1 ≤ length lg + 2)%nat as Hlen.
    { unfold lg1. pose proof (length_log_add n (log_add (BBLOCK n x) lg)). pose proof (length_log_add (BBLOCK n x) lg). lia. }
    wp_step. wp_step. eapply (wp_data rep dev dom cap); [exact R3|apply list_elem_of_here|]. intros s4 R4. cbn [cont hold free_view].
    wp_step. eapply (wp_put rep dev dom cap); [exact R4|apply list_elem_of_here| |].
    { apply put32_ok; [exact (views_ok _ _ _ (ind_of a) R4)|]. unfold MAXFILE, NINDIRECT in Hbn.
      assert (BSIZE / 4 = 256) as E4 by reflexivity. unfold BSIZE in *. lia. }
    intros s5 R5. eapply (wp_fs_log_write rep dev dom cap); [exact R5|apply list_elem_of_here|right; cbn; lia|]. intros s6 R6.
    wp_step. wp_step. eapply (wp_fs_brelse rep dev dom cap); [exact R6|apply list_elem_of_here| |].
    { intros [H _]%list_elem_of_filter. done. }
    intros s7 R7. rewrite wrote_view in R7 by set_solver. wp_step. eapply (HQ n s7); [exact R7|].
    split; [exact HG|]. split; [|left; split; [lia|exact Hm]]. cbn [logged free_view].
    pose proof (length_log_add (ind_of a) lg1). lia.
  - intros s3 Hall R3. cbn [Z.eqb]. wp_step. wp_step. wp_step. wp_step.
    eapply (wp_release rep dev dom cap); [exact R3|set_solver|set_solver|]. intros s4 R4. wp_step.
    apply (HQ _ _ C lg); [done|]. split; [by apply grows_refl|]. split; [lia|]. by right.
Qed.

Lemma wp_bmap s0 s C lg i bn (Q : Z → fs_st B → Prop) :
  let a := i_addrs (inodes s0 !!! i) in
  at_view s0 s (free_view C lg) → sb s0 = x → (i < length (inodes s0))%nat → i_dev (inodes s0 !!! i) = dev →
  file_ok C a → meta C → in_file bn → (length lg + 5 ≤ cap)%nat →
  (∀ addr s' C' lg' a', at_view (set_addrs i a' s0) s' (free_view C' lg') → mapped C a lg bn 5 addr C' a' lg' → Q addr s') →
  wp (bmap i bn) Q s.
Proof.
  intros a R Hsb Hi Hdev Hf HM Hbn Hcap HQ. destruct (decide (amap C a bn = 0)) as [E0|Hnz].
  2:{ apply (wp_bmap_mapped s0 s C lg); try done. intros s1 R1. rewrite <- (set_addrs_id i s0 Hi) in R1. apply (HQ _ _ C lg a R1).
      split; [by apply grows_refl|]. split; [lia|]. by left. }
  assert (∀ m, blk_ok (C m)) as Hbk by (intros m; exact (views_ok _ _ _ m R)).
  unfold bmap. wp_step. eapply wp_inode; [done|]. fold a. destruct (Z.ltb_spec bn NDIRECT) as [Hd|Hd].
  - assert (a !!! Z.to_nat bn = 0) as Ea by (unfold amap in E0; by rewrite (proj2 (Z.ltb_lt _ _) Hd) in E0).
    rewrite Ea. cbn [Z.eqb]. rewrite Hdev. wp_step. eapply wp_balloc_free; [done|done|done|lia| |].
    + intros n s1 lg1 Hn Hfree R1 Hlen. rewrite (proj2 (Z.eqb_neq n 0)) by lia.
      destruct (grows_direct dom x ds L Hds C n Hn Hfree Hbk a bn Hf) as [HG Hm]; [unfold in_file in Hbn; lia|done|].
      wp_step. eapply wp_set_addr; [exact R1|]. intros s2 R2. wp_step. apply (HQ _ _ _ _ _ R2).
      split; [exact HG|]. split; [lia|]. left. split; [lia|exact Hm].
    + intros s1 Hall R1. cbn [Z.eqb]. wp_step. rewrite <- (set_addrs_id i s0 Hi) in R1. apply (HQ _ _ C lg a R1).
      split; [by apply grows_refl|]. split; [lia|]. by right.
  - unfold in_file, MAXFILE in Hbn. rewrite (proj2 (Z.ltb_lt (bn - NDIRECT) NINDIRECT)) by lia. fold (ind_of a). rewrite Hdev.
    destruct (Z.eqb_spec (ind_of a) 0) as [Ei|Hni].
    + wp_step. wp_step. eapply wp_balloc_free; [done|done|done|lia| |].
      * intros n s1 lg1 Hn Hfree R1 Hlen. rewrite (proj2 (Z.eqb_neq n 0)) by lia.
        pose proof (grows_ind dom x ds L Hds C n Hn Hfree Hbk a Hf Ei) as HG. set (a' := <[Z.to_nat NDIRECT := n]> a) in *.
        assert (ind_of a' = n) as Ei'.
        { unfold ind_of, a'. apply list_lookup_total_insert_eq. rewrite (fo_len _ _ _ _ Hf). cbv. lia. }
        wp_step. eapply wp_set_addr; [exact R1|]. intros s2 R2. fold a a' in R2. wp_step. rewrite (proj2 (Z.eqb_neq n 0)) by lia.
        replace (bmap_entry dev n) with (bmap_entry dev (ind_of a')) by by rewrite Ei'.
        eapply (wp_entry (set_addrs i a' s0) s2 (fresh x C n) lg1 a');
          [exact R2|done|apply HG|rewrite Ei'; lia|by eapply meta_grows|unfold MAXFILE; lia|lia|].
        intros addr s3 C3 lg3 R3 (HG3 & Hl3 & Ho3). apply (HQ _ _ _ _ _ R3). split; [by eapply grows_trans|]. split; [lia|done].
      * intros s1 Hall R1. cbn [Z.eqb]. wp_step. cbn [Z.eqb]. wp_step. rewrite <- (set_addrs_id i s0 Hi) in R1. apply (HQ _ _ C lg a R1).
        split; [by apply grows_refl|]. split; [lia|]. by right.
    + wp_step. wp_step. rewrite (proj2 (Z.eqb_neq _ _) Hni).
      eapply (wp_entry s0 s C lg a); try done; [unfold MAXFILE; lia|lia|].
      intros addr s3 C3 lg3 R3 (HG3 & Hl3 & Ho3). rewrite <- (set_addrs_id i s0 Hi) in R3. apply (HQ _ _ _ _ _ R3).
      split; [done|]. split; [lia|done].
Qed.

(** ** Reading *)

(** Byte [k] of the file. *)
Definition fbyte C a (k : Z) : Z := fblk C a (k / BSIZE) !!! Z.to_nat (k mod BSIZE).

Definition fbytes C a (off n : Z) : list Z := fbyte C a <$> seqZ off n.

(** Every block below the size is there. *)
Definition no_holes C a (sz : Z) : Prop := ∀ bn, 0 ≤ bn → bn * BSIZE < sz → amap C a bn ≠ 0.

Lemma fbytes_app C a off n m : 0 ≤ n → 0 ≤ m → fbytes C a off (n + m) = fbytes C a off n ++ fbytes C a (off + n) m.
Proof. intros Hn Hm. unfold fbytes. rewrite seqZ_app by lia. by rewrite fmap_app. Qed.

(** A piece of one block. *)
Lemma fbytes_chunk C a off m :
  (∀ bn, length (fblk C a bn) = Z.to_nat BSIZE) → 0 ≤ off → 0 ≤ m → off mod BSIZE + m ≤ BSIZE →
  fbytes C a off m = take (Z.to_nat m) (drop (Z.to_nat (off mod BSIZE)) (fblk C a (off / BSIZE))).
Proof.
  intros Hl Ho Hm Hfit. assert (0 < BSIZE) as Hp by (unfold BSIZE; lia). pose proof (Z.mod_pos_bound off BSIZE Hp) as Hb.
  apply list_eq_same_length with (n := Z.to_nat m).
  - rewrite length_take, length_drop, Hl. lia.
  - unfold fbytes. rewrite length_fmap, length_seqZ. lia.
  - intros k y z Hk. unfold fbytes. rewrite list_lookup_fmap, lookup_seqZ_lt by lia. cbn. intros [= <-].
    rewrite lookup_take_lt, lookup_drop by lia. intros Hz. unfold fbyte.
    assert ((off + Z.of_nat k) / BSIZE = off / BSIZE) as E1.
    { rewrite (Z.div_mod off BSIZE) at 1 by lia. rewrite <- Z.add_assoc, (Z.mul_comm BSIZE), Z.div_add_l, (Z.div_small (_ + _)); lia. }
    assert ((off + Z.of_nat k) mod BSIZE = off mod BSIZE + Z.of_nat k) as E2.
    { rewrite (Z.div_mod off BSIZE) at 1 by lia. rewrite <- Z.add_assoc, (Z.mul_comm BSIZE), Z.add_comm, Z_mod_plus_full, Z.mod_small; lia. }
    rewrite E1, E2. apply list_lookup_total_correct. rewrite <- Hz. f_equal. lia.
Qed.


(** The blocks that [n] bytes from [off] touch. *)
Definition chunks (off n : Z) : Z := (off mod BSIZE + n + BSIZE - 1) / BSIZE.

Lemma chunks_next off n m :
  0 ≤ off → 0 < n → m = Z.min n (BSIZE - off mod BSIZE) →
  0 < m ≤ n ∧ off mod BSIZE + m ≤ BSIZE ∧ (n = m ∨ chunks (off + m) (n - m) ≤ chunks off n - 1) ∧ 1 ≤ chunks off n.
Proof.
  intros Ho Hn ->. assert (BSIZE = 1024) as HB by done. unfold chunks. rewrite HB. split; [dlia|]. split; [dlia|].
  split; [|dlia]. destruct (decide (n ≤ 1024 - off mod 1024)); [left; lia|]. right. dlia.
Qed.

Lemma chunks_fuel off n : 0 ≤ off → 0 ≤ n → chunks off n ≤ n / BSIZE + 2.
Proof. intros Ho Hn. unfold chunks. assert (BSIZE = 1024) as -> by done. dlia. Qed.

Lemma fblk_len s0 s v bn a : at_view s0 s v → length (fblk (cont v) a bn) = Z.to_nat BSIZE.
Proof. intros R. unfold fblk. destruct (_ =? 0); [done|]. apply (views_ok _ _ _ _ R). Qed.

Lemma wp_readi_loop fuel s0 s C lg i uout off n tot acc (Q : list Z * Z → fs_st B → Prop) :
  let a := i_addrs (inodes s0 !!! i) in
  at_view s0 s (free_view C lg) → i_dev (inodes s0 !!! i) = dev → file_ok C a →
  no_holes C a (off + (n - tot)) → off + (n - tot) ≤ MAXFILE * BSIZE → 0 ≤ off → 0 ≤ tot ≤ n → n < 2 ^ 31 → (∀ t, uout t = true) →
  (tot = n ∨ chunks off (n - tot) ≤ Z.of_nat fuel) →
  (∀ s', at_view s0 s' (free_view C lg) → Q (acc ++ fbytes C a off (n - tot), n) s') →
  wp (readi_loop fuel i uout off n tot acc) Q s.
Proof.
  intros a R Hdev Hf Hnh Hmax Ho Ht Hn Hu Hfuel HQ. revert s off tot acc R Hnh Hmax Ho Ht Hfuel HQ.
  induction fuel as [|fuel IH]; intros s off tot acc R Hnh Hmax Ho Ht Hfuel HQ;
    (destruct (decide (tot = n)) as [->|Hne];
     [cbn [readi_loop]; rewrite Z.ltb_irrefl; wp_step; replace (n - n) with 0 in HQ by lia; unfold fbytes in HQ;
      specialize (HQ s R); by rewrite app_nil_r in HQ|]).
  { destruct Hfuel as [|Hfuel]; [done|]. destruct (chunks_next off (n - tot) _ Ho ltac:(lia) eq_refl) as (_ & _ & _ & ?). lia. }
  destruct Hfuel as [|Hfuel]; [done|]. cbn [readi_loop]. rewrite (proj2 (Z.ltb_lt tot n)) by lia.
  destruct (chunks_next off (n - tot) _ Ho ltac:(lia) eq_refl) as (Hm & Hfit & Hnext & _).
  set (m := Z.min (n - tot) (BSIZE - off mod BSIZE)) in *. assert (BSIZE = 1024) as HB by done. assert (MAXFILE = 268) as HMX by done.
  assert (in_file (off / BSIZE)) as Hin by (unfold in_file; rewrite HB, HMX in *; dlia).
  wp_step. eapply wp_inode; [done|]. wp_step. eapply (wp_bmap_mapped s0 s C lg); [done|done|done|done| |].
  { apply Hnh; [|]; rewrite HB; dlia. }
  intros s1 R1. fold a. assert (amap C a (off / BSIZE) ≠ 0) as Hnz by (apply Hnh; rewrite HB; dlia).
  rewrite (proj2 (Z.eqb_neq _ _) Hnz), Hdev. destruct (fo_data _ _ _ _ Hf _ (owned_map C a _ Hin Hnz)) as [Hd _].
  wp_step. eapply (wp_fs_bread rep dev dom cap); [exact R1|by apply hold_readable|]. intros bp s2 R2.
  wp_step. eapply (wp_data rep dev dom cap); [exact R2|apply list_elem_of_here|]. intros s3 R3. cbn [cont hold free_view].
  rewrite Hu. cbn [negb]. wp_step. eapply (wp_release rep dev dom cap); [exact R3|set_solver|set_solver|]. intros s4 R4.
  rewrite !u32_small by (rewrite HB, HMX in *; lia).
  apply IH; [done| |lia|lia|lia| |].
  - by replace (off + m + (n - (tot + m))) with (off + (n - tot)) by lia.
  - replace (n - (tot + m)) with (n - tot - m) by lia. destruct Hnext as [|Hx]; [left; lia|right; lia].
  - intros s5 R5. specialize (HQ s5 R5). rewrite <- app_assoc.
    replace (take _ (drop _ (C (amap C a (off / BSIZE))))) with (fbytes C a off m).
    + rewrite <- fbytes_app by lia. by replace (m + (n - (tot + m))) with (n - tot) by lia.
    + rewrite fbytes_chunk; [|intros bn; exact (fblk_len _ _ _ bn a R)|lia|lia|lia].
      unfold fblk. by rewrite (proj2 (Z.eqb_neq _ _) Hnz).
Qed.

Lemma wp_readi s0 s C lg i uout off n (Q : list Z * Z → fs_st B → Prop) :
  let a := i_addrs (inodes s0 !!! i) in
  let sz := i_size (inodes s0 !!! i) in
  let k := if (sz <? off) || (2 ^ 32 <=? off + n) then 0 else Z.min n (sz - off) in
  at_view s0 s (free_view C lg) → i_dev (inodes s0 !!! i) = dev → file_ok C a →
  no_holes C a sz → 0 ≤ sz ≤ MAXFILE * BSIZE → 0 ≤ off < 2 ^ 32 → 0 ≤ n < 2 ^ 32 → (∀ t, uout t = true) →
  (∀ s', at_view s0 s' (free_view C lg) → Q (fbytes C a off k, k) s') →
  wp (readi i uout off n) Q s.
Proof.
  intros a sz k R Hdev Hf Hnh Hmax Ho Hn Hu HQ. unfold readi. wp_step. eapply wp_inode; [done|]. fold sz.
  assert (BSIZE = 1024) as HB by done. assert (MAXFILE = 268) as HMX by done. rewrite HB, HMX in Hmax.
  assert ((u32 (off + n) <? off) = (2 ^ 32 <=? off + n)) as E.
  { unfold u32. destruct (Z.leb_spec (2 ^ 32) (off + n)).
    - apply Z.ltb_lt. replace (off + n) with (off + n - 2 ^ 32 + 1 * 2 ^ 32) by lia. rewrite Z_mod_plus_full, Z.mod_small by lia. lia.
    - apply Z.ltb_ge. rewrite Z.mod_small by lia. lia. }
  rewrite E. unfold k in HQ. destruct (_ || _) eqn:Eb; [wp_step; by apply HQ|].
  apply orb_false_iff in Eb as [E1%Z.ltb_ge E2%Z.leb_gt]. rewrite u32_small by lia.
  assert ((if sz <? off + n then u32 (sz - off) else n) = Z.min n (sz - off)) as ->.
  { destruct (Z.ltb_spec sz (off + n)); [rewrite u32_small by lia|]; lia. }
  apply (wp_readi_loop _ s0 s C lg); try done; [..| |].
  - intros bn H1 H2. apply Hnh; lia.
  - rewrite HB, HMX. lia.
  - lia.
  - lia.
  - lia.
  - right. rewrite Z.sub_0_r. etrans; [apply chunks_fuel; lia|]. rewrite HB. dlia.
  - intros s' R'. rewrite Z.sub_0_r, app_nil_l. by apply HQ.
Qed.

End routines.
