(* ===== verification/FsWrite.v ===== *)
(** * Writing a file: kernel/fs.c, [writei] and [iupdate]

    [writes C a C' a' off l]: the file with addresses [a] in the disk view [C] has
    become the one with [a'] in [C']; the bytes [l] are at [off], every other byte
    is as before, and no marked block outside the file has changed but those of
    the bitmap. *)

From S2P Require Import Prelude Machine Log LogFacts BlockLayer Fs FsFacts FsFile.

Section writes.
Context (dom : Z → Prop) (x : superblock) (ds : Z) (L : layout dom x ds) (Hds : 0 < ds).
Implicit Types (C : Z → list Z) (a : list Z) (b bn : Z) (l : list Z).
Abbreviation used := (used x).
Abbreviation file_ok := (file_ok x ds).
Abbreviation grows := (grows x ds).
Abbreviation is_bmap := (is_bmap x).

Definition len l : Z := Z.of_nat (length l).

Record writes C a C' a' (off : Z) l : Prop := {
  wr_ok : file_ok C' a';
  wr_used b : 0 ≤ b < size x → used C b = true → used C' b = true;
  wr_frame b : 0 ≤ b < size x → used C b = true → ¬ is_bmap b → ¬ owned C a b → C' b = C b;
  wr_map bn : in_file bn → amap C a bn ≠ 0 → amap C' a' bn = amap C a bn;
  wr_own b : owned C' a' b → owned C a b ∨ used C b = false;
  wr_byte k : 0 ≤ k < MAXFILE * BSIZE →
    fbyte C' a' k = if decide (off ≤ k < off + len l) then l !!! Z.to_nat (k - off) else fbyte C a k;
  wr_there k : 0 ≤ k < MAXFILE * BSIZE → off ≤ k < off + len l → amap C' a' (k / BSIZE) ≠ 0;
}.

Lemma file_block k : 0 ≤ k < MAXFILE * BSIZE → in_file (k / BSIZE).
Proof. unfold in_file. assert (BSIZE = 1024) as -> by done. assert (MAXFILE = 268) as -> by done. dlia. Qed.

Lemma writes_grows C a C' a' off : 0 ≤ off → grows C a C' a' → writes C a C' a' off [].
Proof.
  intros Ho [G1 G2 G3 G4 G5 G6]. split; try done.
  - intros k Hk. rewrite decide_False by (unfold len; cbn [length]; lia). unfold fbyte. by rewrite G4 by (by apply file_block).
  - intros k Hk H1. unfold len in H1. cbn [length] in H1. lia.
Qed.

Lemma writes_trans C1 a1 C2 a2 C3 a3 off l l' :
  0 ≤ off → writes C1 a1 C2 a2 off l → writes C2 a2 C3 a3 (off + len l) l' → writes C1 a1 C3 a3 off (l ++ l').
Proof.
  intros Ho [A1 A2 A3 A4 A5 A6 A7] [B1 B2 B3 B4 B5 B6 B7]. assert (len (l ++ l') = len l + len l') as El.
  { unfold len. rewrite length_app. lia. }
  split; [done|auto|..].
  - intros b Hb Hu Hn Hno. rewrite B3, A3; auto. intros [H|H]%A5; [done|congruence].
  - intros bn Hbn Hne. rewrite B4, A4; auto. by rewrite A4.
  - intros b Hb. destruct (B5 b Hb) as [H|H]; [by apply A5|]. right. pose proof (fo_data _ _ _ _ B1 b Hb) as [Hr _].
    destruct (used C1 b) eqn:E; [|done]. rewrite A2 in H; [done| |done]. destruct L as [_ L2 _ _ _]. lia.
  - intros k Hk. rewrite B6, El by done. unfold len in *. destruct (decide (off + Z.of_nat (length l) ≤ k < _)) as [H|H].
    + rewrite decide_True by lia. rewrite lookup_total_app_r by lia. f_equal. lia.
    + rewrite A6 by done. destruct (decide (off ≤ k < off + Z.of_nat (length l))) as [H'|H'].
      * rewrite decide_True by lia. by rewrite lookup_total_app_l by lia.
      * by rewrite decide_False by lia.
  - intros k Hk H1. destruct (decide (k < off + len l)) as [Hlt|Hge]; [|apply B7; lia].
    rewrite B4; [apply A7; lia|by apply file_block|apply A7; lia].
Qed.

Definition splice (o : nat) l (d : list Z) : list Z := take o d ++ l ++ drop (o + length l) d.

Lemma splice_ok o l d : blk_ok d → bytes l → (o + length l ≤ Z.to_nat BSIZE)%nat → blk_ok (splice o l d).
Proof.
  intros [Hl Hb] Hbl Hfit. unfold splice. split.
  - rewrite !length_app, length_take, length_drop. lia.
  - apply Forall_app. split; [by apply Forall_take|]. apply Forall_app. split; [done|by apply Forall_drop].
Qed.

Lemma splice_lookup o l d k :
  (o + length l ≤ length d)%nat → (k < length d)%nat →
  splice o l d !!! k = if decide (o ≤ k < o + length l)%nat then l !!! (k - o)%nat else d !!! k.
Proof.
  intros Hfit Hk. unfold splice. assert (length (take o d) = o) as Ht by (rewrite length_take; lia).
  destruct (decide _) as [H|H].
  - rewrite lookup_total_app_r by lia. rewrite Ht. by rewrite lookup_total_app_l by lia.
  - destruct (decide (k < o)%nat) as [Hlt|Hge].
    + rewrite lookup_total_app_l by lia. by rewrite lookup_total_take_lt.
    + rewrite lookup_total_app_r by lia. rewrite Ht, lookup_total_app_r by lia. rewrite lookup_total_drop. f_equal. lia.
Qed.

(** The bytes [l] stored in block [bn] at [o]. *)
Lemma writes_chunk C a bn o l :
  file_ok C a → in_file bn → amap C a bn ≠ 0 → (∀ m, blk_ok (C m)) → 0 ≤ o → o + len l ≤ BSIZE →
  let C' := fupd C (amap C a bn) (splice (Z.to_nat o) l (C (amap C a bn))) in
  writes C a C' a (bn * BSIZE + o) l.
Proof.
  intros Hf Hbn Hnz Hblk Ho Hfit C'. set (n := amap C a bn) in *. pose proof (owned_map C a bn Hbn Hnz) as Hown. fold n in Hown.
  destruct (fo_data _ _ _ _ Hf _ Hown) as [Hr Hu]. pose proof (fo_ind _ _ _ _ Hf bn Hbn Hnz) as Hni. fold n in Hni.
  assert (∀ b, b ≠ n → C' b = C b) as Hoth by (intros b Hb; unfold C', fupd; by rewrite decide_False).
  assert (∀ bn', amap C' a bn' = amap C a bn') as Hm.
  { intros bn'. unfold amap. destruct (_ <? _); [done|]. destruct (_ =? 0); [done|]. by rewrite Hoth by done. }
  assert (∀ b, owned C' a b ↔ owned C a b) as Ho'.
  { intros b. unfold owned. setoid_rewrite Hm. done. }
  assert (∀ b, 0 ≤ b < size x → used C' b = used C b) as Hus by (intros b Hb; apply (used_frame dom x ds); done || lia).
  assert (BSIZE = 1024) as HB by done.
  split.
  - split; [apply Hf|..].
    + intros b Hb%Ho'. destruct (fo_data _ _ _ _ Hf _ Hb). rewrite Hus by lia. done.
    + intros b1 b2. rewrite !Hm. apply Hf.
    + intros b1. rewrite Hm. apply Hf.
  - intros b Hb. by rewrite Hus.
  - intros b Hb _ _ Hno. apply Hoth. by intros ->.
  - intros b1 _ _. apply Hm.
  - intros b Hb%Ho'. by left.
  - intros k Hk. pose proof (file_block k Hk) as Hkf. unfold fbyte, fblk. rewrite Hm. unfold len in *.
    destruct (Hblk n) as [Hl _]. rewrite HB in *. destruct (Z.eqb_spec (amap C a (k / 1024)) 0) as [E0|Hkz].
    + rewrite decide_False; [done|]. intros Hk'. apply Hnz. unfold n. replace bn with (k / 1024) by dlia. done.
    + destruct (decide (amap C a (k / 1024) = n)) as [En|En].
      * assert (k / 1024 = bn) as Ek by (apply (fo_inj _ _ _ _ Hf); done). rewrite En.
        unfold C', fupd. rewrite (decide_True (P := n = n)) by done. rewrite splice_lookup by (rewrite Hl; dlia).
        destruct (decide (bn * 1024 + o ≤ k < _)) as [H|H].
        -- rewrite decide_True by dlia. f_equal. dlia.
        -- rewrite decide_False by dlia. done.
      * rewrite Hoth, decide_False; [done| |done]. intros Hk'. apply En. replace (k / 1024) with bn by dlia. done.
  - intros k Hk H. rewrite Hm. replace (k / BSIZE) with bn; [done|]. unfold len in *. rewrite HB in *. dlia.
Qed.

(** A change of a block before the data area that is not part of the bitmap. *)
Lemma writes_meta C a C' a' off l m d :
  0 ≤ off → writes C a C' a' off l → 0 ≤ m < ds → ¬ is_bmap m →
  let C'' := fupd C' m d in
  file_ok C'' a' ∧ (∀ b, 0 ≤ b < size x → used C'' b = used C' b) ∧
  (∀ bn, amap C'' a' bn = amap C' a' bn) ∧ (∀ k, 0 ≤ k < MAXFILE * BSIZE → fbyte C'' a' k = fbyte C' a' k).
Proof.
  intros Ho [W1 _ _ _ _ _ _] Hm Hnb C''. 
  assert (∀ b, b ≠ m → C'' b = C' b) as Hoth by (intros b Hb; unfold C'', fupd; by rewrite decide_False).
  assert (∀ bn, amap C'' a' bn = amap C' a' bn) as Hmap.
  { intros bn. unfold amap. destruct (_ <? _); [done|]. destruct (Z.eqb_spec (ind_of a') 0) as [|Hi]; [done|].
    rewrite Hoth; [done|]. destruct (fo_data _ _ _ _ W1 _ (owned_ind C' a' Hi)). lia. }
  assert (∀ b, owned C'' a' b ↔ owned C' a' b) as Ho' by (intros b; unfold owned; by setoid_rewrite Hmap).
  assert (∀ b, 0 ≤ b < size x → used C'' b = used C' b) as Hus.
  { intros b Hb. rewrite !used_bit, Hoth; [done|]. intros E. apply Hnb. rewrite <- E. by eapply bblock_bmap. }
  split_and!; [|done|done|].
  - split; [apply W1|..].
    + intros b Hb%Ho'. destruct (fo_data _ _ _ _ W1 _ Hb). rewrite Hus by lia. done.
    + intros b1 b2. rewrite !Hmap. apply W1.
    + intros b1. rewrite Hmap. apply W1.
  - intros k Hk. unfold fbyte, fblk. rewrite Hmap. destruct (Z.eqb_spec (amap C' a' (k / BSIZE)) 0) as [|Hnz]; [done|].
    rewrite Hoth; [done|]. destruct (fo_data _ _ _ _ W1 _ (owned_map C' a' _ (file_block k Hk) Hnz)). lia.
Qed.

End writes.
