(* ===== verification/FsInode.v ===== *)
(** * Inodes on disk: kernel/fs.c, [iupdate], [ilock], [ialloc]

    The stores of [iupdate] to the bytes of an inode block are read back by the
    loads of [ilock], and leave the other inodes of the block alone. *)

From S2P Require Import Prelude Machine Log LogFacts BlockLayer Fs FsFacts FsFile FsWrite.

(** ** Fields *)

Definition fld (k : nat) (d : list Z) (o : nat) : list Z := take k (drop o d).

Lemma fld_splice_same l d o : (o + length l ≤ length d)%nat → fld (length l) (splice o l d) o = l.
Proof.
  intros H. unfold fld, splice. rewrite drop_app_length' by (rewrite length_take; lia). by rewrite take_app_length.
Qed.

Lemma fld_splice_ne k l d o o' :
  (o + length l ≤ length d)%nat → (o' + k ≤ o ∨ o + length l ≤ o')%nat → fld k (splice o l d) o' = fld k d o'.
Proof.
  intros H Hd. unfold fld. apply list_eq. intros j. destruct (decide (j < k)%nat) as [Hj|Hj]; [|by rewrite !lookup_take_ge by lia].
  rewrite !lookup_take_lt, !lookup_drop by done. unfold splice. destruct Hd as [Hd|Hd].
  - rewrite lookup_app_l by (rewrite length_take; lia). by rewrite lookup_take_lt by lia.
  - rewrite lookup_app_r by (rewrite length_take; lia). rewrite length_take, lookup_app_r by lia. rewrite lookup_drop. f_equal. lia.
Qed.

Lemma length_splice o l d : (o + length l ≤ length d)%nat → length (splice o l d) = length d.
Proof. intros H. unfold splice. rewrite !length_app, length_take, length_drop. lia. Qed.

Lemma put16_splice l o v : put16 l o v = splice o (le_split 2 v) l.
Proof. done. Qed.
Lemma put32_splice l o v : put32 l o v = splice o (le_split 4 v) l.
Proof. done. Qed.

Lemma length_put16 l o v : (o + 2 ≤ length l)%nat → length (put16 l o v) = length l.
Proof. intros H. rewrite put16_splice. by apply length_splice. Qed.

Lemma fld_put16 k l o v o' : (o + 2 ≤ length l)%nat → (o' + k ≤ o ∨ o + 2 ≤ o')%nat → fld k (put16 l o v) o' = fld k l o'.
Proof. intros H Hd. rewrite put16_splice. by apply fld_splice_ne. Qed.

Lemma fld_put32 k l o v o' : (o + 4 ≤ length l)%nat → (o' + k ≤ o ∨ o + 4 ≤ o')%nat → fld k (put32 l o v) o' = fld k l o'.
Proof. intros H Hd. rewrite put32_splice. by apply fld_splice_ne. Qed.

Lemma fld_put16_same l o v : (o + 2 ≤ length l)%nat → fld 2 (put16 l o v) o = le_split 2 v.
Proof. intros H. rewrite put16_splice. by apply (fld_splice_same (le_split 2 v)). Qed.

Lemma fld_put32_same l o v : (o + 4 ≤ length l)%nat → fld 4 (put32 l o v) o = le_split 4 v.
Proof. intros H. rewrite put32_splice. by apply (fld_splice_same (le_split 4 v)). Qed.

Lemma put16_ok l o v : blk_ok l → (o + 2 ≤ Z.to_nat BSIZE)%nat → blk_ok (put16 l o v).
Proof. intros Hl Ho. rewrite put16_splice. by apply splice_ok; [|apply bytes_le_split|]. Qed.

Lemma length_put_addrs a o d : (o + 4 * length a ≤ length d)%nat → length (put_addrs a o d) = length d.
Proof.
  revert o d. induction a as [|y a IH]; intros o d H; cbn [put_addrs length] in *; [done|].
  rewrite IH; rewrite length_put32 by lia; [done|lia].
Qed.

Lemma fld_put_addrs k a o d o' :
  (o + 4 * length a ≤ length d)%nat → (o' + k ≤ o ∨ o + 4 * length a ≤ o')%nat → fld k (put_addrs a o d) o' = fld k d o'.
Proof.
  revert o d. induction a as [|y a IH]; intros o d H Hd; cbn [put_addrs length] in *; [done|].
  rewrite IH; [|rewrite length_put32 by lia; lia|lia]. apply fld_put32; lia.
Qed.

Lemma fld_put_addrs_at a o d k :
  (o + 4 * length a ≤ length d)%nat → (k < length a)%nat → fld 4 (put_addrs a o d) (o + 4 * k) = le_split 4 (a !!! k).
Proof.
  revert o d k. induction a as [|y a IH]; intros o d k H Hk; cbn [put_addrs length] in *; [lia|]. destruct k as [|k].
  - rewrite Nat.mul_0_r, Nat.add_0_r, fld_put_addrs; [|rewrite length_put32 by lia; lia|lia]. apply fld_put32_same. lia.
  - replace (o + 4 * S k)%nat with (o + 4 + 4 * k)%nat by lia. rewrite IH; [done|rewrite length_put32 by lia; lia|lia].
Qed.

Lemma put_addrs_ok a o d : blk_ok d → (o + 4 * length a ≤ Z.to_nat BSIZE)%nat → blk_ok (put_addrs a o d).
Proof.
  revert o d. induction a as [|y a IH]; intros o d H Ho; cbn [put_addrs length] in *; [done|].
  apply IH; [|lia]. apply put32_ok; [done|lia].
Qed.

(** ** struct dinode *)

Lemma dinode_fits inum : 0 ≤ inum → (dinode_off inum + 64 ≤ Z.to_nat BSIZE)%nat.
Proof. intros H. unfold dinode_off, IPB, SIZEOF_DINODE. assert (BSIZE = 1024) as -> by done. change (1024 / 64) with 16. dlia. Qed.

Lemma dinode_store_ok ip d inum :
  blk_ok d → length (i_addrs ip) = 13%nat → 0 ≤ inum → blk_ok (dinode_store ip d (dinode_off inum)).
Proof.
  intros Hd Hl Hi. pose proof (dinode_fits inum Hi). unfold dinode_store. cbv zeta.
  apply put_addrs_ok; [|rewrite Hl; lia]. apply put32_ok; [|lia]. repeat (apply put16_ok; [|lia]). done.
Qed.

(** The values an inode can have in memory. *)
Record inode_ok (ip : inode) : Prop := {
  io_short : Forall (λ z, - 2 ^ 15 ≤ z < 2 ^ 15) [i_type ip; i_major ip; i_minor ip; i_nlink ip];
  io_size : 0 ≤ i_size ip < 2 ^ 32;
  io_addrs : length (i_addrs ip) = 13%nat ∧ Forall (λ z, 0 ≤ z < 2 ^ 32) (i_addrs ip);
}.

Lemma s16_split z : - 2 ^ 15 ≤ z < 2 ^ 15 → s16 (le_combine (le_split 2 z)) = z.
Proof.
  intros Hz. rewrite le_combine_split. change (2 ^ (8 * Z.of_nat 2)) with (2 ^ 16). unfold s16, u16.
  rewrite Zmod_mod. destruct (Z.ltb_spec (z mod 2 ^ 16) (2 ^ 15)); dlia.
Qed.

Lemma u32_split z : 0 ≤ z < 2 ^ 32 → le_combine (le_split 4 z) = z.
Proof. intros Hz. rewrite le_combine_split. change (2 ^ (8 * Z.of_nat 4)) with (2 ^ 32). by rewrite Z.mod_small. Qed.

Lemma dinode_load_fld d o ip :
  dinode_load d o ip = Inode (i_dev ip) (i_inum ip) (i_ref ip) (i_lock ip) (i_valid ip)
    (s16 (le_combine (fld 2 d o))) (s16 (le_combine (fld 2 d (o + 2)))) (s16 (le_combine (fld 2 d (o + 4))))
    (s16 (le_combine (fld 2 d (o + 6)))) (le_combine (fld 4 d (o + 8))) ((λ k, le_combine (fld 4 d (o + 12 + 4 * k))) <$> seq 0 13).
Proof. done. Qed.

(** The offsets of the fields are within the block. *)
Ltac fits :=
  first [lia | rewrite length_put_addrs by fits; fits | rewrite length_put32 by fits; fits | rewrite length_put16 by fits; fits].
Ltac field :=
  first [rewrite fld_put16_same by fits | rewrite fld_put32_same by fits | rewrite fld_put_addrs_at by fits
    | rewrite fld_put_addrs by fits; field | rewrite fld_put32 by fits; field | rewrite fld_put16 by fits; field].

(** What is stored is loaded. *)
Lemma dinode_load_store ip ip' d o :
  inode_ok ip → (o + 64 ≤ length d)%nat →
  dinode_load (dinode_store ip d o) o ip' =
    Inode (i_dev ip') (i_inum ip') (i_ref ip') (i_lock ip') (i_valid ip') (i_type ip) (i_major ip) (i_minor ip) (i_nlink ip) (i_size ip) (i_addrs ip).
Proof.
  intros [Hs Hz [Hl Ha]] Ho. rewrite !Forall_cons in Hs. destruct Hs as (H1 & H2 & H3 & H4 & _).
  rewrite dinode_load_fld. unfold dinode_store. cbv zeta. f_equal; [field; by apply s16_split..|field; by apply u32_split|].
  apply list_eq. intros k. rewrite list_lookup_fmap. destruct (decide (k < 13)%nat) as [Hk|Hk].
  - rewrite lookup_seq_lt by done. cbn [fmap option_fmap option_map]. field. destruct (lookup_lt_is_Some_2 (i_addrs ip) k) as [z Ez]; [lia|].
    rewrite Ez, Nat.add_0_l, (list_lookup_total_correct _ _ _ Ez). f_equal. apply u32_split. by apply (Forall_lookup_1 _ _ _ _ Ha Ez).
  - rewrite lookup_seq_ge by lia. symmetry. apply lookup_ge_None_2. lia.
Qed.

(** The other inodes of the block keep their bytes. *)
Lemma dinode_store_other ip d o k o' :
  length (i_addrs ip) = 13%nat → (o + 64 ≤ length d)%nat → (o' + k ≤ o ∨ o + 64 ≤ o')%nat →
  fld k (dinode_store ip d o) o' = fld k d o'.
Proof.
  intros Hl Ho Hd. unfold dinode_store. cbv zeta. rewrite fld_put_addrs by fits. rewrite fld_put32 by fits.
  by rewrite !fld_put16 by fits.
Qed.
