(* ===== verification/FsWritei.v ===== *)
(** * [iupdate] and [writei]: kernel/fs.c

    [writei] inside a transaction is the update of a byte array: the source's
    bytes are at the offset, the file grows when they reach past its end, and
    the inode on disk says so; see [written]. *)

From S2P Require Import Prelude Machine Log LogFacts BlockLayer Fs FsFacts FsFile FsWrite FsInode.

(** ** Pieces of the source *)

Definition sub (src : list Z) (t m : Z) : list Z := take (Z.to_nat m) (drop (Z.to_nat t) src).

(** A source every copy of which succeeds: [either_copyin] from [src]. *)
Definition source (src : list Z) (t m : Z) : list Z * bool := (sub src t m, true).

Lemma len_sub src t m : 0 ≤ t → 0 ≤ m → t + m ≤ len src → len (sub src t m) = m.
Proof. unfold len, sub. rewrite length_take, length_drop. lia. Qed.

Lemma sub_app src t m k : 0 ≤ t → 0 ≤ m → 0 ≤ k → sub src t m ++ sub src (t + m) k = sub src t (m + k).
Proof.
  intros Ht Hm Hk. unfold sub. rewrite !Z2Nat.inj_add by lia. rewrite <- drop_drop. generalize (drop (Z.to_nat t) src). intros l.
  apply list_eq. intros j. destruct (decide (j < Z.to_nat m)%nat).
  - rewrite (lookup_take_lt l (Z.to_nat m + _)) by lia. destruct (decide (j < length l)%nat).
    + rewrite lookup_app_l by (rewrite length_take; lia). by rewrite lookup_take_lt.
    + rewrite (lookup_ge_None_2 l) by lia. apply lookup_ge_None_2. rewrite length_app, !length_take, length_drop. lia.
  - destruct (decide (Z.to_nat m ≤ length l)%nat).
    + rewrite lookup_app_r by (rewrite length_take; lia). rewrite length_take, Nat.min_l by lia.
      destruct (decide (j < Z.to_nat m + Z.to_nat k)%nat).
      * rewrite !lookup_take_lt, lookup_drop by lia. f_equal. lia.
      * by rewrite !lookup_take_ge by lia.
    + rewrite !(lookup_ge_None_2 _ j); [done|rewrite length_take; lia|rewrite length_app, !length_take, length_drop; lia].
Qed.

Lemma sub_bytes src t m : bytes src → bytes (sub src t m).
Proof. intros H. by apply Forall_take, Forall_drop. Qed.

(** Log blocks for [n] bytes at [off]: per block touched, at most those of [bmap]
    (two allocations of two blocks and the indirect block) and the block itself. *)
Definition room (off n : Z) : nat := if decide (n = 0) then 0%nat else (6 * Z.to_nat (chunks off n))%nat.

Lemma room_next off n m :
  0 ≤ off → 0 < n → m = Z.min n (BSIZE - off mod BSIZE) →
  0 < m ≤ n ∧ off mod BSIZE + m ≤ BSIZE ∧ (room (off + m) (n - m) + 6 ≤ room off n)%nat.
Proof.
  intros Ho Hn Hm. destruct (chunks_next off n m Ho Hn Hm) as (H1 & H2 & H3 & H4). split; [done|]. split; [done|].
  unfold room. rewrite (decide_False (P := n = 0)) by lia. destruct (decide _); lia.
Qed.

Lemma file_end bn : 0 ≤ bn * BSIZE → bn * BSIZE < MAXFILE * BSIZE → in_file bn.
Proof. unfold in_file. assert (BSIZE = 1024) as -> by done. lia. Qed.

Section routines.
Context {B : Type} {BL : BlockLayer B} (rep : B → bview → Prop) (dev : Z) (dom : Z → Prop) (cap : nat) `{!BlockLaws BL rep dev dom cap}.
Context (x : superblock) (ds : Z) (L : layout dom x ds) (Hds : 0 < ds).
Implicit Types (s : fs_st B) (C : Z → list Z) (lg a : list Z).
Abbreviation used := (used x).
Abbreviation at_view := (at_view rep).
Abbreviation file_ok := (file_ok x ds).
Abbreviation writes := (writes x ds).
Abbreviation meta := (meta x ds).

Lemma wp_iupdate s0 s C lg i (Q : unit → fs_st B → Prop) :
  let ip := inodes s0 !!! i in
  let m := IBLOCK (i_inum ip) x in
  at_view s0 s (free_view C lg) → sb s0 = x → i_dev ip = dev → 0 ≤ i_inum ip → dom m → length (i_addrs ip) = 13%nat →
  (length lg < cap)%nat →
  (∀ s', at_view s0 s' (free_view (fupd C m (dinode_store ip (C m) (dinode_off (i_inum ip)))) (log_add m lg)) → Q tt s') →
  wp (iupdate i) Q s.
Proof.
  intros ip m R Hsb Hdev Hinum Hm Ha Hcap HQ. unfold iupdate. wp_step. apply wp_gets. rewrite (av_sb _ _ _ _ R), Hsb.
  wp_step. eapply wp_inode; [exact R|]. fold ip. fold m. rewrite Hdev.
  wp_step. eapply (wp_fs_bread rep dev dom cap); [exact R| |].
  { split; [done|]. split; [set_solver|cbn; lia]. }
  intros bp s1 R1. wp_step. eapply (wp_data rep dev dom cap); [exact R1|apply list_elem_of_here|]. intros s2 R2. cbn [cont hold free_view].
  eapply (wp_fs_store rep dev dom cap); [exact R2|set_solver|set_solver| |by right|exact HQ].
  apply dinode_store_ok; [exact (av_blk rep dev dom cap _ _ _ m R2)|done|done].
Qed.
(** What [writei_loop] leaves: [tot'] bytes are in the file. *)
Definition stored s0 i C lg src off n tot (r : Z * Z) s' : Prop :=
  ∃ C' lg' a', tot ≤ r.1 ≤ n ∧ r.2 = off + (r.1 - tot) ∧ at_view (set_addrs i a' s0) s' (free_view C' lg') ∧
    writes C (i_addrs (inodes s0 !!! i)) C' a' off (sub src tot (r.1 - tot)) ∧
    (length lg' ≤ length lg + room off (n - tot))%nat ∧
    (r.1 = n ∨ ∀ b, 0 ≤ b < size x → used C' b = true).

Lemma stored_none s0 s' i C lg src off n tot C' a' lg' :
  0 ≤ off → tot ≤ n → at_view (set_addrs i a' s0) s' (free_view C' lg') → grows x ds C (i_addrs (inodes s0 !!! i)) C' a' →
  (length lg' ≤ length lg + room off (n - tot))%nat → (tot = n ∨ ∀ b, 0 ≤ b < size x → used C' b = true) →
  stored s0 i C lg src off n tot (tot, off) s'.
Proof.
  intros Ho Ht R HG Hl HO. exists C', lg', a'. cbn [fst snd]. split; [lia|]. split; [lia|]. split; [done|]. split; [|done].
  replace (sub src tot (tot - tot)) with (@nil Z) by by rewrite Z.sub_diag. by apply (writes_grows x ds).
Qed.

(** One round: the chunk is in the file, and the rest follows. *)
Lemma stored_next s0 i C lg src off n tot m C1 a1 lg1 r s' :
  (i < length (inodes s0))%nat → 0 ≤ off → 0 ≤ tot → 0 ≤ m → tot + m ≤ n → n = len src →
  writes C (i_addrs (inodes s0 !!! i)) C1 a1 off (sub src tot m) → (length lg1 ≤ length lg + 6)%nat →
  (room (off + m) (n - tot - m) + 6 ≤ room off (n - tot))%nat →
  stored (set_addrs i a1 s0) i C1 lg1 src (off + m) n (tot + m) r s' → stored s0 i C lg src off n tot r s'.
Proof.
  intros Hi Ho Ht Hm Hn Hsrc W Hl Hroom (C' & lg' & a' & H1 & H2 & R & W' & Hl' & HO). exists C', lg', a'.
  rewrite set_addrs_twice in R by done. rewrite set_addrs_at in W' by done. cbn [i_addrs with_addrs] in W'.
  replace (n - (tot + m)) with (n - tot - m) in Hl' by lia.
  split; [lia|]. split; [lia|]. split; [done|]. split; [|split; [lia|done]].
  replace (r.1 - tot) with (m + (r.1 - (tot + m))) by lia. rewrite <- sub_app by lia.
  apply (writes_trans dom x ds L Hds C _ C1 a1); [done|done|]. rewrite len_sub by lia. done.
Qed.

Lemma chunk_writes C a bn off l :
  file_ok C a → in_file bn → amap C a bn ≠ 0 → (∀ m, blk_ok (C m)) → 0 ≤ off → bn = off / BSIZE → off mod BSIZE + len l ≤ BSIZE →
  writes C a (fupd C (amap C a bn) (splice (Z.to_nat (off mod BSIZE)) l (C (amap C a bn)))) a off l.
Proof.
  intros Hf Hbn Hnz Hblk Ho Hq Hfit. pose proof (writes_chunk dom x ds L Hds C a bn (off mod BSIZE) l Hf Hbn Hnz Hblk) as W.
  replace (bn * BSIZE + off mod BSIZE) with off in W.
  - apply W; [|done]. apply Z.mod_pos_bound. unfold BSIZE. lia.
  - subst bn. pose proof (Z.div_mod off BSIZE). unfold BSIZE in *. lia.
Qed.

Lemma wp_writei_loop fuel s0 s C lg i src off n tot :
  at_view s0 s (free_view C lg) → sb s0 = x → (i < length (inodes s0))%nat → i_dev (inodes s0 !!! i) = dev →
  file_ok C (i_addrs (inodes s0 !!! i)) → meta C → bytes src → n = len src → n < 2 ^ 32 → 0 ≤ tot ≤ n → 0 ≤ off →
  off + (n - tot) ≤ MAXFILE * BSIZE → (room off (n - tot) ≤ 6 * fuel)%nat → (length lg + room off (n - tot) ≤ cap)%nat →
  wp (writei_loop fuel i (source src) off n tot) (stored s0 i C lg src off n tot) s.
Proof.
  intros R Hsb Hi Hdev Hf HM Hsrc Hn Hn32 Ht Ho Hmax Hfuel Hcap.
  revert s0 s C lg off tot R Hsb Hi Hdev Hf HM Ht Ho Hmax Hfuel Hcap.
  induction fuel as [|fuel IH]; intros s0 s C lg off tot R Hsb Hi Hdev Hf HM Ht Ho Hmax Hfuel Hcap;
    (destruct (decide (tot = n)) as [Hd|Hne];
     [cbn [writei_loop]; rewrite (proj2 (Z.ltb_ge tot n)) by lia; wp_step; rewrite <- (set_addrs_id i s0 Hi) in R;
      eapply (stored_none s0); [done|lia|exact R|by apply grows_refl|lia|by left]|]).
  { exfalso. destruct (room_next off (n - tot) _ Ho ltac:(lia) eq_refl) as (_ & _ & ?). lia. }
  cbn [writei_loop]. rewrite (proj2 (Z.ltb_lt tot n)) by lia.
  destruct (room_next off (n - tot) _ Ho ltac:(lia) eq_refl) as (Hm & Hfit & Hroom).
  set (m := Z.min (n - tot) (BSIZE - off mod BSIZE)) in *.
  assert (in_file (off / BSIZE)) as Hin by (apply file_block; lia).
  assert (MAXFILE * BSIZE < 2 ^ 32) as HX by (vm_compute; done).
  wp_step. eapply wp_inode; [exact R|]. rewrite Hdev.
  wp_step. eapply (wp_bmap rep dev dom cap x ds L Hds s0 s C lg i (off / BSIZE)); try done; [lia|].
  intros addr s1 C1 lg1 a1 R1 (HG & Hl1 & [[Hnz Hmap]|[-> Hall]]).
  2:{ cbn [Z.eqb]. wp_step. eapply (stored_none s0); [done|lia|exact R1|exact HG|lia|by right]. }
  rewrite (proj2 (Z.eqb_neq _ _) Hnz). unfold source at 1.
  pose proof (gr_ok _ _ _ _ _ _ HG) as Hf1. assert (amap C1 a1 (off / BSIZE) ≠ 0) as Hnz1 by congruence.
  destruct (fo_data _ _ _ _ Hf1 _ (owned_map C1 a1 _ Hin Hnz1)) as [Hr _]. rewrite Hmap in Hr.
  wp_step. eapply (wp_fs_bread rep dev dom cap); [exact R1|by apply (hold_readable rep dev dom cap x ds L)|]. intros bp s2 R2.
  wp_step. eapply (wp_data rep dev dom cap); [exact R2|apply list_elem_of_here|]. intros s3 R3. cbn [cont hold free_view negb].
  assert (len (sub src tot m) = m) as Hlen by (apply len_sub; lia).
  assert (∀ k, blk_ok (C1 k)) as Hblk by (intros k; exact (av_blk rep dev dom cap _ _ _ k R3)).
  eapply (wp_store_then rep dev dom cap); [exact R3|set_solver|set_solver| |right; cbn; lia|].
  { apply (splice_ok _ _ _ (Hblk addr)); [by apply sub_bytes|]. unfold len in Hlen. pose proof (Z.mod_pos_bound off BSIZE ltac:(unfold BSIZE; lia)). lia. }
  intros s4 R4. rewrite !u32_small by lia. set (C2 := fupd C1 addr (splice (Z.to_nat (off mod BSIZE)) (sub src tot m) (C1 addr))). change (at_view (set_addrs i a1 s0) s4 (free_view C2 (log_add addr lg1))) in R4.
  assert (writes C (i_addrs (inodes s0 !!! i)) C2 a1 off (sub src tot m)) as W.
  { apply (writes_trans dom x ds L Hds C _ C1 a1 C2 a1 off [] (sub src tot m) Ho); [by apply (writes_grows x ds)|].
    unfold C2. rewrite <- Hmap, Z.add_0_r. apply chunk_writes; try done. lia. }
  pose proof (length_log_add addr lg1).
  eapply wp_mono; [apply (IH (set_addrs i a1 s0) s4 C2 (log_add addr lg1) (off + m) (tot + m)); try done; cbn [inodes set_addrs]|].
  - by rewrite length_insert.
  - rewrite list_lookup_total_insert_eq by done. done.
  - rewrite list_lookup_total_insert_eq by done. apply W.
  - intros b Hb. apply (wr_used _ _ _ _ _ _ _ _ W); [destruct L as [_ _ L3 _ _]; lia|by apply HM].
  - lia.
  - lia.
  - lia.
  - replace (n - (tot + m)) with (n - tot - m) by lia. lia.
  - replace (n - (tot + m)) with (n - tot - m) by lia. lia.
  - intros r s' HS. apply (stored_next s0 i C lg src off n tot m C2 a1 (log_add addr lg1)); try done; try lia.
Qed.

(** ** [writei] *)

Definition put_inode (i : nat) (ip : inode) s : fs_st B := FS (blk s) (sb s) (<[i := ip]> (inodes s)) (console s).

(** The file of inode [ip] with the bytes [l] stored at [off]. *)
Record written C (ip : inode) C' (ip' : inode) (off : Z) (l : list Z) : Prop := {
  wn_inode : ip' = with_addrs (i_addrs ip') (set_size (Z.max (i_size ip) (off + len l)) ip);
  wn_ok : file_ok C' (i_addrs ip');
  wn_holes : no_holes C' (i_addrs ip') (i_size ip');
  wn_byte k : 0 ≤ k < MAXFILE * BSIZE → fbyte C' (i_addrs ip') k =
    if decide (off ≤ k < off + len l) then l !!! Z.to_nat (k - off) else fbyte C (i_addrs ip) k;
  wn_disk : dinode_load (C' (IBLOCK (i_inum ip) x)) (dinode_off (i_inum ip)) ip' = ip';
  wn_others k o : (o + k ≤ dinode_off (i_inum ip) ∨ dinode_off (i_inum ip) + 64 ≤ o)%nat →
    fld k (C' (IBLOCK (i_inum ip) x)) o = fld k (C (IBLOCK (i_inum ip) x)) o;
  wn_used b : 0 ≤ b < size x → used C b = true → used C' b = true;
  wn_frame b : 0 ≤ b < size x → used C b = true → ¬ is_bmap x b → ¬ owned C (i_addrs ip) b → b ≠ IBLOCK (i_inum ip) x → C' b = C b;
}.

Lemma file_addrs C a : file_ok C a → length a = 13%nat ∧ Forall (λ z, 0 ≤ z < 2 ^ 32) a.
Proof.
  intros Hf. split; [apply Hf|]. apply Forall_lookup_2. intros k z Hk. destruct (decide (z = 0)) as [->|Hz]; [lia|].
  assert (owned C a z) as Hown; [|destruct (fo_data _ _ _ _ Hf z Hown) as [H _]; destruct L as [L1 _ _ _ _]; lia].
  pose proof (lookup_lt_Some _ _ _ Hk) as Hlt. rewrite (fo_len _ _ _ _ Hf) in Hlt. apply list_lookup_total_correct in Hk.
  destruct (decide (k = 12%nat)) as [->|Hne].
  - change (ind_of a = z) in Hk. subst z. by apply owned_ind.
  - assert (amap C a (Z.of_nat k) = z) as <-.
    { unfold amap, NDIRECT. rewrite (proj2 (Z.ltb_lt _ _)) by lia. by rewrite Nat2Z.id. }
    apply owned_map; [|done]. unfold in_file. assert (MAXFILE = 268) as -> by done. lia.
Qed.

Definition refused (sz off n : Z) : bool := (sz <? off) || (MAXFILE * BSIZE <? off + n).

(** What [writei] returns and leaves. *)
Definition writei_post s0 i C lg src off n (r : Z) s' : Prop :=
  let ip := inodes s0 !!! i in
  if refused (i_size ip) off n then r = -1 ∧ at_view s0 s' (free_view C lg)
  else ∃ C' lg' ip', 0 ≤ r ≤ n ∧ at_view (put_inode i ip' s0) s' (free_view C' lg') ∧
    written C ip C' ip' off (sub src 0 r) ∧ (length lg' ≤ length lg + room off n + 1)%nat ∧ lg' ≠ [] ∧
    (r = n ∨ ∀ b, 0 ≤ b < size x → used C' b = true).

(** The inode after the loop. *)
Definition resized (ip : inode) a' (off : Z) : inode := with_addrs a' (set_size (Z.max (i_size ip) off) ip).

Lemma written_intro C ip C' a' off l :
  inode_ok ip → 0 ≤ i_inum ip → 0 ≤ IBLOCK (i_inum ip) x < ds → ¬ is_bmap x (IBLOCK (i_inum ip) x) → meta C →
  no_holes C (i_addrs ip) (i_size ip) → file_ok C (i_addrs ip) → (∀ m, blk_ok (C' m)) →
  0 ≤ off ≤ i_size ip → i_size ip ≤ MAXFILE * BSIZE → off + len l ≤ MAXFILE * BSIZE →
  writes C (i_addrs ip) C' a' off l →
  let ip' := resized ip a' (off + len l) in
  let m := IBLOCK (i_inum ip) x in
  written C ip (fupd C' m (dinode_store ip' (C' m) (dinode_off (i_inum ip)))) ip' off l.
Proof.
  intros Hok Hinum Hm Hnb HM Hnh Hf Hblk Ho Hsz Hend W ip' m. set (d := dinode_store ip' (C' m) _).
  destruct (writes_meta dom x ds L Hds C (i_addrs ip) C' a' off l m d) as (F1 & F2 & F3 & F4); [lia|done|done|done|].
  assert (fupd C' m d m = d) as Ed by (unfold fupd; by rewrite decide_True).
  assert (C' m = C m) as Em.
  { destruct L as [_ _ L3 _ _]. apply (wr_frame _ _ _ _ _ _ _ _ W); [lia|apply HM; lia|done|]. intros Hown. destruct (fo_data _ _ _ _ Hf _ Hown). lia. }
  destruct (file_addrs C' a' (wr_ok _ _ _ _ _ _ _ _ W)) as [A1 A2]. pose proof (dinode_fits _ Hinum) as Hfit.
  assert (MAXFILE * BSIZE < 2 ^ 32) as HX by (vm_compute; done).
  split; cbn [i_addrs i_size ip' resized with_addrs set_size]; try done.
  - intros bn H1 H2. rewrite F3. assert (in_file bn) as Hin by (apply file_end; unfold BSIZE in *; lia).
    assert (BSIZE = 1024) as HB by done. destruct (decide (bn * BSIZE < i_size ip)) as [Hlt|Hge].
    + rewrite (wr_map _ _ _ _ _ _ _ _ W bn Hin); apply Hnh; lia.
    + replace bn with (bn * BSIZE / BSIZE) by (apply Z.div_mul; lia). apply (wr_there _ _ _ _ _ _ _ _ W); lia.
  - intros k Hk. rewrite F4 by done. apply (wr_byte _ _ _ _ _ _ _ _ W k Hk).
  - fold m. rewrite Ed. unfold d. rewrite dinode_load_store; [done| |rewrite (proj1 (Hblk m)); lia].
    split; [apply Hok| |done]. cbn [i_size ip' resized with_addrs set_size]. pose proof (io_size _ Hok). lia.
  - intros k o Hd. fold m. rewrite Ed. unfold d. rewrite <- Em. apply dinode_store_other; [done| |done]. rewrite (proj1 (Hblk m)). lia.
  - intros b Hb Hu. rewrite F2 by done. by apply (wr_used _ _ _ _ _ _ _ _ W).
  - intros b Hb Hu Hnbm Hno Hne. unfold fupd. rewrite decide_False by done. by apply (wr_frame _ _ _ _ _ _ _ _ W).
Qed.


Lemma wp_resize s0 s v i a' off (Q : unit → fs_st B → Prop) :
  at_view (set_addrs i a' s0) s v → (i < length (inodes s0))%nat →
  (∀ s', at_view (put_inode i (resized (inodes s0 !!! i) a' off) s0) s' v → Q tt s') →
  wp (if i_size (inodes s0 !!! i) <? off then upd_inode i (set_size off) else ret tt) Q s.
Proof.
  intros [R1 R2 R3] Hi HQ. cbn [sb inodes set_addrs] in *. destruct (Z.ltb_spec (i_size (inodes s0 !!! i)) off) as [H|H].
  - unfold upd_inode. wp_step. apply HQ. split; [done|done|]. cbn [inodes put_inode]. rewrite R3, list_lookup_total_insert_eq by done.
    rewrite list_insert_insert_eq. unfold resized. by rewrite Z.max_r by lia.
  - wp_step. apply HQ. split; [done|done|]. cbn [inodes put_inode]. rewrite R3. unfold resized. rewrite Z.max_l by lia.
    by destruct (inodes s0 !!! i).
Qed.

Lemma wp_writei s0 s C lg i src off n :
  let ip := inodes s0 !!! i in
  at_view s0 s (free_view C lg) → sb s0 = x → (i < length (inodes s0))%nat → i_dev ip = dev → inode_ok ip →
  0 ≤ i_inum ip → 0 ≤ IBLOCK (i_inum ip) x < ds → ¬ is_bmap x (IBLOCK (i_inum ip) x) → dom (IBLOCK (i_inum ip) x) →
  file_ok C (i_addrs ip) → meta C → no_holes C (i_addrs ip) (i_size ip) → i_size ip ≤ MAXFILE * BSIZE →
  bytes src → n = len src → n < 2 ^ 32 → 0 ≤ off < 2 ^ 32 → (length lg + room off n + 1 ≤ cap)%nat →
  wp (writei i (source src) off n) (writei_post s0 i C lg src off n) s.
Proof.
  intros ip R Hsb Hi Hdev Hok Hinum Hm Hnb Hdom Hf HM Hnh Hsz Hsrc Hn Hn32 Ho Hcap. unfold writei, writei_post. fold ip.
  assert (MAXFILE * BSIZE < 2 ^ 31) as HX by (vm_compute; done). assert (0 ≤ n) as Hn0 by (unfold len in Hn; lia).
  wp_step. eapply wp_inode; [exact R|]. fold ip. unfold refused. destruct (Z.ltb_spec (i_size ip) off) as [Hlt|Hge]; cbn [orb].
  { wp_step. done. }
  unfold u32 at 1. destruct (Z.ltb_spec (MAXFILE * BSIZE) (off + n)) as [Hbig|Hfit].
  - assert (((off + n) mod 2 ^ 32 <? off) = true ∨ u32 (off + n) = off + n) as [->|E]; [|by wp_step|].
    { destruct (decide (off + n < 2 ^ 32)) as [H|H]; [right; by rewrite u32_small by lia|left]. apply Z.ltb_lt. dlia. }
    change ((off + n) mod 2 ^ 32) with (u32 (off + n)). rewrite E. destruct (Z.ltb_spec (off + n) off); [by wp_step|].
    rewrite (proj2 (Z.ltb_lt _ _) Hbig). by wp_step.
  - rewrite Z.mod_small, u32_small by lia. rewrite (proj2 (Z.ltb_ge (off + n) off)), (proj2 (Z.ltb_ge _ (off + n))) by lia.
    wp_step. eapply wp_mono; [apply (wp_writei_loop _ s0 s C lg); try done; try lia|].
    { rewrite Z.sub_0_r. unfold room. destruct (decide _); [lia|]. pose proof (chunks_fuel off n ltac:(lia) Hn0). lia. }
    { rewrite Z.sub_0_r. lia. }
    intros [tot off'] s1 (C1 & lg1 & a1 & Ht & Hoff & R1 & W & Hl & HO). cbn [fst snd] in *. rewrite Z.sub_0_r in *.
    wp_step. eapply wp_inode; [exact R1|]. rewrite set_addrs_at by done. cbn [i_size with_addrs]. fold ip.
    wp_step. eapply wp_resize; [exact R1|done|]. intros s2 R2. fold ip in R2. subst off'.
    assert (∀ m, blk_ok (C1 m)) as Hblk by (intros m; exact (av_blk rep dev dom cap _ _ _ m R1)).
    assert (len (sub src 0 tot) = tot) as Hlen by (apply len_sub; lia).
    pose proof (written_intro C ip C1 a1 off (sub src 0 tot) Hok Hinum Hm Hnb HM Hnh Hf Hblk ltac:(lia) Hsz ltac:(lia) W) as HW.
    cbv zeta in HW. rewrite Hlen in HW. set (ip' := resized ip a1 (off + tot)) in *.
    assert (inodes (put_inode i ip' s0) !!! i = ip') as Eip by (cbn; by apply list_lookup_total_insert_eq).
    wp_step. eapply (wp_iupdate _ s2 C1 lg1 i); rewrite ?Eip; [exact R2|done|done|done|done| |lia|].
    { apply (fo_len _ _ _ _ (wr_ok _ _ _ _ _ _ _ _ W)). }
    intros s3 R3. wp_step. eexists _, _, ip'. split; [done|]. split; [exact R3|]. split; [exact HW|].
    pose proof (length_log_add (IBLOCK (i_inum ip') x) lg1). split; [lia|]. split.
    { unfold log_add. case_decide as Hin; [intros E; rewrite E in Hin; by apply elem_of_nil in Hin|]. by destruct lg1. }
    destruct HO as [HO|HO]; [by left|right].
    intros b Hb. destruct (writes_meta dom x ds L Hds C (i_addrs ip) C1 a1 off (sub src 0 tot) (IBLOCK (i_inum ip) x)
      (dinode_store ip' (C1 (IBLOCK (i_inum ip) x)) (dinode_off (i_inum ip)))) as (_ & F2 & _); [lia|done|done|done|].
    rewrite F2 by done. by apply HO.
Qed.
End routines.
