(* ===== verification/FsDir.v ===== *)
(** * kernel/fs.c: directories and paths

    Names and paths are lists of bytes; reading past the end of such a list reads
    the terminating 0.  A [char name[DIRSIZ]] buffer is a list of 14 bytes, whose
    earlier contents are kept where the code does not store. *)

From S2P Require Import Prelude Machine Log BlockLayer Fs FsWritei.

Definition SLASH : Z := 47.
Definition DOT : list Z := [46].
Definition DOTDOT : list Z := [46; 46].

(** [strncmp] of kernel/string.c on byte lists. *)
Fixpoint strncmp (n : nat) (p q : list Z) : Z :=
  match n with
  | O => 0
  | S n' =>
      let c := default 0 (head p) in
      let d := default 0 (head q) in
      if negb (c =? 0) && (c =? d) then strncmp n' (tail p) (tail q) else c - d
  end.

(** [strncpy] of kernel/string.c: the [n] bytes stored. *)
Fixpoint strncpy (n : nat) (t : list Z) : list Z :=
  match n with
  | O => []
  | S n' =>
      let c := default 0 (head t) in
      if c =? 0 then replicate n 0 else c :: strncpy n' (tail t)
  end.

Definition namecmp (s t : list Z) : Z := strncmp (Z.to_nat DIRSIZ) s t.

(** struct dirent *)
Definition de_inum (de : list Z) : Z := get16 de 0.
Definition de_name (de : list Z) : list Z := drop 2 de.
Definition dirent (inum : Z) (name : list Z) : list Z := le_split 2 inum ++ strncpy (Z.to_nat DIRSIZ) name.

Fixpoint skip_slashes (path : list Z) : list Z :=
  match path with
  | [] => []
  | c :: path' => if c =? SLASH then skip_slashes path' else path
  end.

(** The bytes up to the next slash, and the rest. *)
Fixpoint span_elem (path : list Z) : list Z * list Z :=
  match path with
  | [] => ([], [])
  | c :: path' =>
      if c =? SLASH then ([], path)
      else let '(s, rest) := span_elem path' in (c :: s, rest)
  end.

(** The rest of the path and the name buffer; [None] is the null pointer. *)
Definition skipelem (path name : list Z) : option (list Z * list Z) :=
  match skip_slashes path with
  | [] => None
  | path =>
      let '(s, rest) := span_elem path in
      let len := Z.of_nat (length s) in
      let name :=
        if DIRSIZ <=? len then take (Z.to_nat DIRSIZ) s ++ drop (Z.to_nat DIRSIZ) name
        else s ++ [0] ++ drop (length s + 1) name in
      Some (skip_slashes rest, name)
  end.

Section dir.
Context {B : Type} `{BL : BlockLayer B} (pid : Z).
Abbreviation FM := (M (fs_st B)).

Definition all_out (t : Z) : bool := true.

(** [readi(dp, 0, &de, off, sizeof(de))] *)
Definition read_dirent (dp : nat) (off : Z) (msg : string) : FM (list Z) :=
  '(de, r) ← readi dp all_out off SIZEOF_DIRENT;
  if negb (r =? SIZEOF_DIRENT) then panic msg else ret de.

(** The rounds of [for(off = 0; off < dp->size; off += sizeof(de))]. *)
Definition dirents (size : Z) : Z := (size + SIZEOF_DIRENT - 1) / SIZEOF_DIRENT.

(** The inode and the offset of the entry. *)
Definition dirlookup (dp : nat) (name : list Z) : FM (option (nat * Z)) :=
  ip ← inode_at dp;
  if negb (i_type ip =? T_DIR) then panic "dirlookup not DIR"
  else
    for_exit 0 (dirents (i_size ip)) (λ k,
      let off := k * SIZEOF_DIRENT in
      de ← read_dirent dp off "dirlookup read";
      if de_inum de =? 0 then ret None
      else if namecmp name (de_name de) =? 0 then
        i ← iget (i_dev ip) (de_inum de);
        ret (Some (i, off))
      else ret None).

Definition dirlink (dp : nat) (name : list Z) (inum : Z) : FM Z :=
  r ← dirlookup dp name;
  match r with
  | Some (i, _) => iput pid i;; ret (-1)
  | None =>
      ip ← inode_at dp;
      r ← for_exit 0 (dirents (i_size ip)) (λ k,
            let off := k * SIZEOF_DIRENT in
            de ← read_dirent dp off "dirlink read";
            ret (if de_inum de =? 0 then Some off else None));
      let off := default (dirents (i_size ip) * SIZEOF_DIRENT) r in
      r ← writei dp (source (dirent inum name)) off SIZEOF_DIRENT;
      ret (if r =? SIZEOF_DIRENT then 0 else -1)
  end.

(** The loop of [namex]: the inode and the name buffer. *)
Fixpoint namex_loop (fuel : nat) (path : list Z) (nameiparent : bool) (name : list Z) (ip : nat) : FM (option nat * list Z) :=
  match skipelem path name with
  | None => if nameiparent then iput pid ip;; ret (None, name) else ret (Some ip, name)
  | Some (path, name) =>
      match fuel with
      | O => out_of_fuel
      | S fuel' =>
          ilock pid ip;;
          x ← inode_at ip;
          if negb (i_type x =? T_DIR) then iunlockput pid ip;; ret (None, name)
          else if nameiparent && bool_decide (path = []) then iunlock pid ip;; ret (Some ip, name)
          else
            next ← dirlookup ip name;
            match next with
            | None => iunlockput pid ip;; ret (None, name)
            | Some (next, _) =>
                iunlockput pid ip;;
                namex_loop fuel' path nameiparent name next
            end
      end
  end.

Definition namex (cwd : nat) (path : list Z) (nameiparent : bool) (name : list Z) : FM (option nat * list Z) :=
  ip ← (match path with
        | c :: _ => if c =? SLASH then iget ROOTDEV ROOTINO else idup cwd
        | [] => idup cwd
        end);
  namex_loop (length path) path nameiparent name ip.

(** [name] is the uninitialised local buffer. *)
Definition namei (cwd : nat) (path name : list Z) : FM (option nat) :=
  '(r, _) ← namex cwd path false name;
  ret r.

Definition nameiparent (cwd : nat) (path name : list Z) : FM (option nat * list Z) := namex cwd path true name.
End dir.
