(* ===== verification/FsDirFacts.v ===== *)
(** * Directories as finite maps: kernel/fs.c, [dirlookup] and [dirlink]

    [dmap] reads the entries of a directory as a map from names to inode numbers;
    [dirlookup] looks a name up in it and [dirlink] adds a name to it. *)

From S2P Require Import Prelude Machine Log LogFacts BlockLayer Fs FsFacts FsFile FsWrite FsInode FsWritei FsDir.

(** ** Names *)

(** The part of a name that counts: at most [n] bytes, up to a 0. *)
Fixpoint cname (n : nat) (p : list Z) : list Z :=
  match n with
  | O => []
  | S n' => let c := default 0 (head p) in if c =? 0 then [] else c :: cname n' (tail p)
  end.
Definition canon (name : list Z) : list Z := cname (Z.to_nat DIRSIZ) name.

Lemma strncmp_cname n p q : strncmp n p q = 0 ↔ cname n p = cname n q.
Proof.
  revert p q. induction n as [|n IH]; intros p q; [done|]. cbn [strncmp cname].
  set (c := default 0 (head p)). set (e := default 0 (head q)).
  destruct (Z.eqb_spec c 0) as [E|E], (Z.eqb_spec e 0) as [E'|E']; cbn [negb andb].
  - split; [done|]. lia.
  - split; [lia|done].
  - destruct (Z.eqb_spec c e); [lia|]. split; [lia|done].
  - destruct (Z.eqb_spec c e) as [->|H]; [rewrite IH|]; split; [by intros ->|congruence|lia|congruence].
Qed.

Lemma cname_strncpy n t : cname n (strncpy n t) = cname n t.
Proof.
  revert t. induction n as [|n IH]; intros t; [done|]. cbn [strncpy cname].
  destruct (Z.eqb_spec (default 0 (head t)) 0) as [E|E]; [done|].
  cbn [head tail default]. cbn. destruct (Z.eqb_spec (default 0 (head t)) 0); [done|]. by rewrite IH.
Qed.

Lemma length_strncpy n t : length (strncpy n t) = n.
Proof.
  revert t. induction n as [|n IH]; intros t; [done|]. cbn [strncpy]. destruct (_ =? 0); [apply length_replicate|]. cbn. by rewrite IH.
Qed.

Lemma bytes_strncpy n t : bytes t → bytes (strncpy n t).
Proof.
  revert t. induction n as [|n IH]; intros t Ht; [constructor|]. cbn [strncpy].
  destruct (Z.eqb_spec (default 0 (head t)) 0) as [E|E].
  - apply Forall_replicate. unfold byte. lia.
  - destruct t as [|c t]; [done|]. cbn. apply Forall_cons in Ht as [H1 H2]. constructor; [done|by apply IH].
Qed.

Lemma namecmp_canon s t : (namecmp s t =? 0) = bool_decide (canon s = canon t).
Proof.
  unfold namecmp, canon. destruct (Z.eqb_spec (strncmp (Z.to_nat DIRSIZ) s t) 0) as [E|E]; symmetry.
  - apply bool_decide_eq_true. by apply strncmp_cname.
  - apply bool_decide_eq_false. by rewrite <- strncmp_cname.
Qed.

Lemma length_dirent inum name : length (dirent inum name) = 16%nat.
Proof. unfold dirent. rewrite length_app, length_strncpy. done. Qed.
Lemma dirent_inum inum name : 0 ≤ inum < 2 ^ 16 → de_inum (dirent inum name) = inum.
Proof.
  intros Hi. unfold de_inum, get16, dirent. rewrite drop_0, take_app_length' by done. rewrite le_combine_split.
  change (2 ^ (8 * Z.of_nat 2)) with (2 ^ 16). by rewrite Z.mod_small.
Qed.
Lemma dirent_name inum name : canon (de_name (dirent inum name)) = canon name.
Proof. unfold de_name, dirent. rewrite drop_app_length' by done. apply cname_strncpy. Qed.
Lemma dirent_bytes inum name : bytes name → bytes (dirent inum name).
Proof. intros H. apply Forall_app. split; [apply bytes_le_split|by apply bytes_strncpy]. Qed.

(** ** The map *)

Section map.
Implicit Types (E : Z → list Z) (name : list Z).

(** Entry [k] of the entries [E] is in use and has the name. *)
Definition hit E name (k : Z) : Prop := de_inum (E k) ≠ 0 ∧ canon (de_name (E k)) = canon name.

Definition dmap E (n : Z) name : option Z :=
  (λ p, de_inum (E p.2)) <$> list_find (λ k, hit E name k) (seqZ 0 n).

Definition first_hit E n name k : Prop := 0 ≤ k < n ∧ hit E name k ∧ ∀ j, 0 ≤ j < k → ¬ hit E name j.

Lemma dmap_cases E n name :
  (∃ k, first_hit E n name k ∧ dmap E n name = Some (de_inum (E k)))
  ∨ ((∀ j, 0 ≤ j < n → ¬ hit E name j) ∧ dmap E n name = None).
Proof.
  unfold dmap. destruct (list_find _ _) as [[i k]|] eqn:F.
  - left. exists k. split; [|done]. apply list_find_Some in F as (Hk & Hh & Hb). apply lookup_seqZ in Hk as [-> Hi].
    split; [lia|]. split; [done|]. intros j Hj. apply (Hb (Z.to_nat j)); [|lia]. apply lookup_seqZ. lia.
  - right. split; [|done]. intros j Hj. apply list_find_None in F. rewrite Forall_forall in F. apply F, elem_of_seqZ. lia.
Qed.

Lemma dmap_first E n name k : first_hit E n name k → dmap E n name = Some (de_inum (E k)).
Proof.
  intros (Hk & Hh & Hb). destruct (dmap_cases E n name) as [(j & (Hj & Hh' & Hb') & ->)|[Hn _]]; [|by destruct (Hn k)].
  destruct (Z.lt_trichotomy j k) as [H|[->|H]]; [|done|]; [by destruct (Hb j); [lia|]|by destruct (Hb' k); [lia|]].
Qed.

Lemma dmap_none E n name : dmap E n name = None ↔ ∀ j, 0 ≤ j < n → ¬ hit E name j.
Proof.
  destruct (dmap_cases E n name) as [(j & (Hj & Hh & _) & ->)|[Hn ->]]; split; try done. intros H. by destruct (H j).
Qed.

Lemma dmap_ext E E' n n' name :
  n ≤ n' → (∀ j, 0 ≤ j < n → (hit E' name j ↔ hit E name j) ∧ (hit E name j → E' j = E j)) →
  (∀ j, n ≤ j < n' → ¬ hit E' name j) → dmap E' n' name = dmap E n name.
Proof.
  intros Hn HE HN. destruct (dmap_cases E n name) as [(k & (Hk & Hh & Hb) & ->)|[Hnone ->]].
  - rewrite (dmap_first E' n' name k).
    + by rewrite (proj2 (HE k Hk)).
    + split; [lia|]. split; [by apply HE|]. intros j Hj H. apply (Hb j Hj). apply HE; [lia|done].
  - apply dmap_none. intros j Hj H. destruct (decide (j < n)) as [Hlt|Hge]; [|apply (HN j); [lia|done]].
    apply (Hnone j); [lia|]. apply HE; [lia|done].
Qed.

(** A new entry in a free place or at the end. *)
Lemma dmap_add E E' n k inum name name' :
  0 ≤ k ≤ n → 0 < inum < 2 ^ 16 → (k < n → de_inum (E k) = 0) → (∀ j, 0 ≤ j < n → j ≠ k → E' j = E j) →
  E' k = dirent inum name → dmap E n name = None →
  dmap E' (Z.max n (k + 1)) name' = if decide (canon name' = canon name) then Some inum else dmap E n name'.
Proof.
  intros Hk Hi Hfree HE Ek Hnone. rewrite dmap_none in Hnone. destruct (decide (canon name' = canon name)) as [Hc|Hc].
  - rewrite (dmap_first _ _ _ k); [by rewrite Ek, dirent_inum by lia|]. split; [lia|]. split.
    + unfold hit. rewrite Ek, dirent_inum, dirent_name by lia. split; [lia|done].
    + intros j Hj [H1 H2]. rewrite HE in H1, H2 by lia. apply (Hnone j); [lia|]. split; [done|congruence].
  - assert (¬ hit E' name' k) as Hnk by (intros [_ H]; rewrite Ek, dirent_name in H; congruence).
    apply dmap_ext; [lia| |].
    + intros j Hj. destruct (decide (j = k)) as [->|Hne].
      * split; [|intros [H _]; destruct H; apply Hfree; lia]. split; [done|]. intros [H _]. destruct H. apply Hfree. lia.
      * unfold hit. by rewrite HE.
    + intros j Hj. by replace j with k by lia.
Qed.
End map.

(** ** The routines *)

Section routines.
Context {B : Type} {BL : BlockLayer B} (rep : B → bview → Prop) (dev : Z) (dom : Z → Prop) (cap : nat) `{!BlockLaws BL rep dev dom cap}.
Context (pid : Z) (x : superblock) (ds : Z) (L : layout dom x ds) (Hds : 0 < ds).
Implicit Types (s : fs_st B) (C : Z → list Z) (lg a name : list Z).
Abbreviation at_view := (at_view rep).

(** Entry [k] of the directory, and the number of entries. *)
Definition entry C a (k : Z) : list Z := fbytes C a (k * SIZEOF_DIRENT) SIZEOF_DIRENT.
Definition entries (ip : inode) : Z := i_size ip / SIZEOF_DIRENT.

(** Inode [ip] is a directory. *)
Record dir_ok C (ip : inode) : Prop := {
  do_type : i_type ip = T_DIR;
  do_dev : i_dev ip = dev;
  do_file : file_ok x ds C (i_addrs ip);
  do_holes : no_holes C (i_addrs ip) (i_size ip);
  do_size : 0 ≤ i_size ip ≤ MAXFILE * BSIZE ∧ i_size ip mod SIZEOF_DIRENT = 0;
}.

Lemma dirents_entries C ip : dir_ok C ip → dirents (i_size ip) = entries ip ∧ 0 ≤ entries ip ∧ i_size ip = entries ip * SIZEOF_DIRENT.
Proof. intros [_ _ _ _ [Hs Hm]]. unfold dirents, entries, SIZEOF_DIRENT in *. dlia. Qed.

Lemma wp_read_dirent s0 s C lg dp k msg (Q : list Z → fs_st B → Prop) :
  at_view s0 s (free_view C lg) → dir_ok C (inodes s0 !!! dp) → 0 ≤ k < entries (inodes s0 !!! dp) →
  (∀ s', at_view s0 s' (free_view C lg) → Q (entry C (i_addrs (inodes s0 !!! dp)) k) s') →
  wp (read_dirent dp (k * SIZEOF_DIRENT) msg) Q s.
Proof.
  intros R Hdir Hk HQ. destruct (dirents_entries C _ Hdir) as (_ & _ & Es). destruct Hdir as [_ Hd Hf Hh [Hs _]].
  assert (MAXFILE * BSIZE < 2 ^ 31) as HX by (vm_compute; done). unfold read_dirent. wp_step.
  apply (wp_readi rep dev dom cap x ds L Hds s0 s C lg); try done; [unfold SIZEOF_DIRENT in *; lia..|]. intros s1 R1.
  rewrite (proj2 (Z.ltb_ge _ _)) by (unfold SIZEOF_DIRENT in *; lia). rewrite (proj2 (Z.leb_gt _ _)) by (unfold SIZEOF_DIRENT in *; lia).
  cbn [orb]. rewrite Z.min_l by (unfold SIZEOF_DIRENT in *; lia). rewrite Z.eqb_refl. cbn [negb]. wp_step. by apply HQ.
Qed.

Lemma wp_dirlookup s0 s C lg dp name (Q : option (nat * Z) → fs_st B → Prop) :
  let ip := inodes s0 !!! dp in
  let E := entry C (i_addrs ip) in
  at_view s0 s (free_view C lg) → dir_ok C ip →
  (∀ s', dmap E (entries ip) name = None → at_view s0 s' (free_view C lg) → Q None s') →
  (∀ k s', first_hit E (entries ip) name k → at_view s0 s' (free_view C lg) →
     wp (iget dev (de_inum (E k))) (λ i, Q (Some (i, k * SIZEOF_DIRENT))) s') →
  wp (dirlookup dp name) Q s.
Proof.
  intros ip E R Hdir HN HS. unfold dirlookup. wp_step. eapply wp_inode; [exact R|]. fold ip.
  destruct (dirents_entries C ip Hdir) as (-> & Hn & _). rewrite (do_type _ _ Hdir), Z.eqb_refl. cbn [negb].
  apply (wp_for_exit (λ k s', at_view s0 s' (free_view C lg) ∧ ∀ j, 0 ≤ j < k → ¬ hit E name j)); [lia|split; [done|lia]| |].
  - intros k s1 Hk [R1 Hno]. wp_step. apply (wp_read_dirent s0 s1 C lg); [done|done|done|]. intros s2 R2. fold ip. fold E.
    assert (¬ hit E name k → at_view s0 s2 (free_view C lg) ∧ ∀ j, 0 ≤ j < k + 1 → ¬ hit E name j) as Hnext.
    { intros Hh. split; [done|]. intros j Hj. destruct (decide (j = k)) as [->|]; [done|]. apply Hno. lia. }
    destruct (Z.eqb_spec (de_inum (E k)) 0) as [E0|Hne]; [wp_step; apply Hnext; by intros [? _]|].
    rewrite namecmp_canon. destruct (decide (canon name = canon (de_name (E k)))) as [Hc|Hc].
    + rewrite bool_decide_true by done. rewrite (do_dev _ _ Hdir). wp_step. eapply wp_mono; [apply HS; [|exact R2]|].
      * split; [done|]. split; [done|done].
      * intros i s3 HQ. by wp_step.
    + rewrite bool_decide_false by done. wp_step. apply Hnext. intros [_ H]. congruence.
  - intros s1 [R1 Hno]. apply HN; [|done]. by apply dmap_none.
Qed.

(** The search of [dirlink] for a free entry. *)
Lemma wp_free_entry s0 s C lg dp (Q : option Z → fs_st B → Prop) :
  let ip := inodes s0 !!! dp in
  let E := entry C (i_addrs ip) in
  at_view s0 s (free_view C lg) → dir_ok C ip →
  (∀ k r s', 0 ≤ k ≤ entries ip → (k < entries ip → de_inum (E k) = 0) → at_view s0 s' (free_view C lg) →
     default (entries ip * SIZEOF_DIRENT) r = k * SIZEOF_DIRENT → Q r s') →
  wp (for_exit 0 (entries ip) (λ k,
        de ← read_dirent dp (k * SIZEOF_DIRENT) "dirlink read";
        ret (if de_inum de =? 0 then Some (k * SIZEOF_DIRENT) else None))) Q s.
Proof.
  intros ip E R Hdir HQ. destruct (dirents_entries C ip Hdir) as (_ & Hn & _).
  apply (wp_for_exit (λ k s', at_view s0 s' (free_view C lg))); [lia|done| |].
  - intros k s1 Hk R1. wp_step. apply (wp_read_dirent s0 s1 C lg); [done|done|done|]. intros s2 R2. fold ip. fold E.
    wp_step. destruct (Z.eqb_spec (de_inum (E k)) 0) as [E0|Hne]; [|done]. by apply (HQ k); [lia| |done|].
  - intros s1 R1. apply (HQ (entries ip)); [lia|lia|done|done].
Qed.

(** The entries after the write. *)
Lemma entry_written C ip C' ip' k l j :
  written x ds C ip C' ip' (k * SIZEOF_DIRENT) l → length l = 16%nat → 0 ≤ k → 0 ≤ j → (j + 1) * SIZEOF_DIRENT ≤ MAXFILE * BSIZE →
  entry C' (i_addrs ip') j = if decide (j = k) then l else entry C (i_addrs ip) j.
Proof.
  intros W Hl Hk Hj Hmax. unfold entry, fbytes, SIZEOF_DIRENT in *.
  assert (∀ t, 0 ≤ t < 16 → fbyte C' (i_addrs ip') (j * 16 + t) = if decide (j = k) then l !!! Z.to_nat t else fbyte C (i_addrs ip) (j * 16 + t)) as Hb.
  { intros t Ht. rewrite (wn_byte _ _ _ _ _ _ _ _ W) by lia. unfold len. rewrite Hl. destruct (decide (j = k)) as [->|Hne].
    - rewrite decide_True by lia. f_equal. lia.
    - by rewrite decide_False by lia. }
  apply list_eq_same_length with (n := 16%nat).
  - destruct (decide _); [done|]. by rewrite length_fmap, length_seqZ.
  - by rewrite length_fmap, length_seqZ.
  - intros t y z Ht. rewrite list_lookup_fmap, lookup_seqZ_lt by lia. cbn. rewrite Hb by lia. intros [= <-].
    destruct (decide (j = k)) as [->|Hne].
    + rewrite Nat2Z.id. intros Hz. by apply list_lookup_total_correct.
    + rewrite list_lookup_fmap, lookup_seqZ_lt by lia. cbn. by intros [= <-].
Qed.

Lemma dirent_room k : 0 ≤ k → room (k * SIZEOF_DIRENT) SIZEOF_DIRENT = 6%nat.
Proof.
  intros Hk. unfold room, chunks, SIZEOF_DIRENT. rewrite decide_False by done. assert (BSIZE = 1024) as -> by done.
  assert (((k * 16) mod 1024 + 16 + 1024 - 1) / 1024 = 1) as -> by dlia. done.
Qed.

Lemma dir_written C ip C' ip' k inum name :
  dir_ok C ip → written x ds C ip C' ip' (k * SIZEOF_DIRENT) (dirent inum name) → bytes name → 0 < inum < 2 ^ 16 →
  0 ≤ k ≤ entries ip → (k < entries ip → de_inum (entry C (i_addrs ip) k) = 0) → i_size ip + SIZEOF_DIRENT ≤ MAXFILE * BSIZE →
  dmap (entry C (i_addrs ip)) (entries ip) name = None →
  dir_ok C' ip' ∧ ∀ name', dmap (entry C' (i_addrs ip')) (entries ip') name' =
    if decide (canon name' = canon name) then Some inum else dmap (entry C (i_addrs ip)) (entries ip) name'.
Proof.
  intros Hdir W Hb Hi Hk Hfree Hmax Hnone. destruct (dirents_entries C ip Hdir) as (_ & Hn & Es).
  assert (i_size ip' = Z.max (i_size ip) (k * SIZEOF_DIRENT + SIZEOF_DIRENT)) as Esz.
  { rewrite (wn_inode _ _ _ _ _ _ _ _ W). cbn. unfold len. by rewrite length_dirent. }
  assert (entries ip' = Z.max (entries ip) (k + 1)) as En.
  { unfold entries at 1. rewrite Esz, Es. unfold SIZEOF_DIRENT. dlia. }
  split.
  - destruct Hdir as [D1 D2 D3 D4 [D5 D6]]. pose proof (wn_inode _ _ _ _ _ _ _ _ W) as Eip. split.
    + rewrite Eip. apply D1.
    + rewrite Eip. apply D2.
    + exact (wn_ok _ _ _ _ _ _ _ _ W).
    + exact (wn_holes _ _ _ _ _ _ _ _ W).
    + rewrite Esz. unfold SIZEOF_DIRENT in *. split; [lia|]. rewrite Es. dlia.
  - intros name'. rewrite En. apply dmap_add; try done.
    + intros j Hj Hne. rewrite (entry_written _ _ _ _ k _ j W (length_dirent _ _)); [by rewrite decide_False|lia|lia|unfold SIZEOF_DIRENT in *; lia].
    + rewrite (entry_written _ _ _ _ k _ k W (length_dirent _ _)); [by rewrite decide_True|lia|lia|unfold SIZEOF_DIRENT in *; lia].
Qed.

(** What [dirlink] of a new name returns and leaves. *)
Definition dirlink_post s0 dp C name inum (r : Z) s' : Prop :=
  let ip := inodes s0 !!! dp in
  ∃ C' lg' ip', at_view (put_inode dp ip' s0) s' (free_view C' lg') ∧
    ((r = 0 ∧ dir_ok C' ip' ∧ ∀ name', dmap (entry C' (i_addrs ip')) (entries ip') name' =
       if decide (canon name' = canon name) then Some inum else dmap (entry C (i_addrs ip)) (entries ip) name')
     ∨ (r = -1 ∧ ∀ b, 0 ≤ b < size x → used x C' b = true)).

Lemma wp_dirlink s0 s C lg dp name inum :
  let ip := inodes s0 !!! dp in
  at_view s0 s (free_view C lg) → sb s0 = x → (dp < length (inodes s0))%nat → dir_ok C ip → inode_ok ip →
  0 ≤ i_inum ip → 0 ≤ IBLOCK (i_inum ip) x < ds → ¬ is_bmap x (IBLOCK (i_inum ip) x) → dom (IBLOCK (i_inum ip) x) →
  meta x ds C → bytes name → 0 < inum < 2 ^ 16 → i_size ip + SIZEOF_DIRENT ≤ MAXFILE * BSIZE → (length lg + 7 ≤ cap)%nat →
  dmap (entry C (i_addrs ip)) (entries ip) name = None →
  wp (dirlink pid dp name inum) (dirlink_post s0 dp C name inum) s.
Proof.
  intros ip R Hsb Hdp Hdir Hok Hin Hib Hnb Hdom HM Hname Hi Hmax Hcap Hnone. unfold dirlink. wp_step.
  apply (wp_dirlookup s0 s C lg); [done|done| |].
  2:{ intros k s1 (Hk & Hh & _) _. apply dmap_none with (j := k) in Hnone; [done|done]. }
  intros s1 _ R1. wp_step. eapply wp_inode; [exact R1|]. fold ip. destruct (dirents_entries C ip Hdir) as (-> & Hn & Es).
  wp_step. apply (wp_free_entry s0 s1 C lg); [done|done|]. fold ip. intros k r s2 Hk Hfree R2 ->.
  assert (len (dirent inum name) = SIZEOF_DIRENT) as Hlen by (unfold len; by rewrite length_dirent).
  assert (MAXFILE * BSIZE < 2 ^ 32) as HX by (vm_compute; done).
  wp_step. eapply wp_mono.
  { apply (wp_writei rep dev dom cap x ds L Hds s0 s2 C lg dp (dirent inum name)); try done; try apply Hdir; fold ip.
    - by apply dirent_bytes.
    - unfold SIZEOF_DIRENT in *. lia.
    - rewrite dirent_room by lia. lia. }
  unfold writei_post. fold ip. intros r' s3. unfold refused. rewrite (proj2 (Z.ltb_ge (i_size ip) _)), (proj2 (Z.ltb_ge (MAXFILE * BSIZE) _)).
  2,3: unfold SIZEOF_DIRENT in *; lia.
  cbn [orb]. intros (C' & lg' & ip' & Hr & R3 & W & _ & _ & HO). wp_step. exists C', lg', ip'. split; [exact R3|].
  destruct (Z.eqb_spec r' SIZEOF_DIRENT) as [->|Hne]; [left|right; split; [done|by destruct HO]]. split; [done|].
  apply (dir_written C ip C' ip' k); try done. unfold sub in W. rewrite drop_0, take_ge in W by by rewrite length_dirent. done.
Qed.

End routines.
