(* ===== verification/File.v ===== *)
(** * kernel/file.c: open files

    The state is the table of open files over the file system, the pipes and the
    devices.  A file pointer is an index in the table, a pipe pointer an index in
    [pipes].  The device switch is a parameter.  [uin i m] is what copying [m]
    bytes from the caller's [addr + i] stores and whether the copy succeeds; a call
    that reads returns the bytes it delivers.  A call that has to sleep blocks
    ([OutOfFuel]). *)

From S2P Require Import Prelude Machine Log BlockLayer LogLayer Fs Pipe.

Definition NFILE : nat := 100.
Definition NDEV : Z := 10.

Inductive ftype := FD_NONE | FD_PIPE | FD_INODE | FD_DEVICE.
#[export] Instance ftype_eq_dec : EqDecision ftype.
Proof. solve_decision. Defined.

Record file := File {
  f_type : ftype;
  f_ref : Z;
  f_readable : bool;
  f_writable : bool;
  f_pipe : nat;
  f_ip : nat;
  f_off : Z;
  f_major : Z;
}.
#[export] Instance file_inhabited : Inhabited file := populate (File FD_NONE 0 false false 0 0 0 0).

Definition set_fref (r : Z) (f : file) : file :=
  File (f_type f) r (f_readable f) (f_writable f) (f_pipe f) (f_ip f) (f_off f) (f_major f).
Definition set_ftype (t : ftype) (f : file) : file :=
  File t (f_ref f) (f_readable f) (f_writable f) (f_pipe f) (f_ip f) (f_off f) (f_major f).
Definition set_foff (o : Z) (f : file) : file :=
  File (f_type f) (f_ref f) (f_readable f) (f_writable f) (f_pipe f) (f_ip f) o (f_major f).

Section file.
Context {D : Type} (pid : Z) (killed : Z → bool).

Record file_st := FileSt { files : list file; fsys : fs_st log_st; pipes : list pipe_sys; devs : D }.
Abbreviation FM := (M file_st).

(** devsw[major].read and write *)
Context (devsw_read : Z → option (Z → M D (list Z * Z))) (devsw_write : Z → option ((Z → Z → list Z * bool) → Z → M D Z)).

(** kernel/fs.c over the log and the buffer cache *)
Abbreviation iput := (iput (BL := log_layer pid) pid).
Abbreviation ilock := (ilock (BL := log_layer pid) pid).
Abbreviation iunlock := (iunlock pid).
Abbreviation readi := (readi (BL := log_layer pid)).
Abbreviation writei := (writei (BL := log_layer pid)).

Definition on_fs {A} (m : M (fs_st log_st) A) : FM A := zoom fsys (λ t s, FileSt (files s) t (pipes s) (devs s)) m.
Definition on_dev {A} (m : M D A) : FM A := zoom devs (λ t s, FileSt (files s) (fsys s) (pipes s) t) m.
Definition set_pipe (p : nat) (x : pipe_sys) : FM unit :=
  modify (λ s, FileSt (files s) (fsys s) (<[p := x]> (pipes s)) (devs s)).
Definition file_at (f : nat) : FM file := gets (λ s, files s !!! f).
Definition upd_file (f : nat) (g : file → file) : FM unit :=
  modify (λ s, FileSt (<[f := g (files s !!! f)]> (files s)) (fsys s) (pipes s) (devs s)).

(** [begin_op] when there is room in the log, and [end_op]. *)
Definition begin_fs_op : FM unit :=
  ok ← on_fs (on_blk begin_op);
  if (ok : bool) then ret tt else out_of_fuel.
Definition end_fs_op : FM unit := on_fs (on_blk (end_op pid)).

Definition filealloc : FM (option nat) :=
  for_exit 0 (Z.of_nat NFILE) (λ k,
    let f := Z.to_nat k in
    x ← file_at f;
    if f_ref x =? 0 then upd_file f (set_fref 1);; ret (Some f) else ret None).

Definition filedup (f : nat) : FM nat :=
  x ← file_at f;
  if f_ref x <? 1 then panic "filedup"
  else upd_file f (set_fref (s32 (f_ref x + 1)));; ret f.

Definition close_pipe (p : nat) (writable : bool) : FM unit :=
  s ← get;
  match pipes s !! p with
  | Some x => set_pipe p (pipeclose writable x).2
  | None => fault
  end.

Definition fileclose (f : nat) : FM unit :=
  x ← file_at f;
  if f_ref x <? 1 then panic "fileclose"
  else if 0 <? f_ref x - 1 then upd_file f (set_fref (f_ref x - 1))
  else
    upd_file f (λ x, set_ftype FD_NONE (set_fref 0 x));;
    match f_type x with
    | FD_PIPE => close_pipe (f_pipe x) (f_writable x)
    | FD_INODE | FD_DEVICE =>
        begin_fs_op;;
        on_fs (iput (f_ip x));;
        end_fs_op
    | FD_NONE => ret tt
    end.

(** [copied]: the copy to the caller's memory succeeds. *)
Definition filestat (f : nat) (copied : bool) : FM (option stat * Z) :=
  x ← file_at f;
  match f_type x with
  | FD_INODE | FD_DEVICE =>
      on_fs (ilock (f_ip x));;
      st ← on_fs (stati (f_ip x));
      on_fs (iunlock (f_ip x));;
      if copied then ret (Some st, 0) else ret (None, -1)
  | _ => ret (None, -1)
  end.

Definition read_pipe (p : nat) (uout : Z → bool) (n : Z) : FM (list Z * Z) :=
  s ← get;
  match pipes s !! p with
  | Some x =>
      let '(l, r, x) := piperead pid (killed 0) uout n x in
      match r with
      | PRet r => set_pipe p x;; ret (l, r)
      | PDead _ => set_pipe p x;; ret (l, -1)
      | PSleep _ => out_of_fuel
      end
  | None => fault
  end.

Definition fileread (f : nat) (uout : Z → bool) (n : Z) : FM (list Z * Z) :=
  x ← file_at f;
  if negb (f_readable x) then ret ([], -1)
  else
    match f_type x with
    | FD_PIPE => read_pipe (f_pipe x) uout n
    | FD_DEVICE =>
        if (f_major x <? 0) || (NDEV <=? f_major x) then ret ([], -1)
        else
          match devsw_read (f_major x) with
          | None => ret ([], -1)
          | Some rd => on_dev (rd n)
          end
    | FD_INODE =>
        on_fs (ilock (f_ip x));;
        '(l, r) ← on_fs (readi (f_ip x) uout (f_off x) (u32 n));
        (if 0 <? r then upd_file f (λ x, set_foff (u32 (f_off x + r)) x) else ret tt);;
        on_fs (iunlock (f_ip x));;
        ret (l, r)
    | FD_NONE => panic "fileread"
    end.

Definition write_pipe (p : nat) (uin : Z → Z → list Z * bool) (n : Z) : FM Z :=
  s ← get;
  match pipes s !! p with
  | Some x =>
      let '(r, x) := pipewrite pid killed (λ i, match uin i 1 with ([c], true) => Some c | _ => None end) n 0 x in
      match r with
      | PRet r => set_pipe p x;; ret r
      | PDead _ => set_pipe p x;; ret (-1)
      | PSleep _ => out_of_fuel
      end
  | None => fault
  end.

(** The most bytes [filewrite] writes in one transaction. *)
Definition write_max : Z := (MAXOPBLOCKS - 1 - 1 - 2) / 2 * BSIZE.

(** One round of the loop of [filewrite]: one transaction. *)
Definition filewrite_op (f : nat) (uin : Z → Z → list Z * bool) (n1 : Z) : FM Z :=
  x ← file_at f;
  begin_fs_op;;
  on_fs (ilock (f_ip x));;
  r ← on_fs (writei (f_ip x) uin (f_off x) n1);
  (if 0 <? r then upd_file f (λ x, set_foff (u32 (f_off x + r)) x) else ret tt);;
  on_fs (iunlock (f_ip x));;
  end_fs_op;;
  ret r.

(** The loop: the number of bytes written when it ends. *)
Fixpoint filewrite_loop (fuel : nat) (f : nat) (uin : Z → Z → list Z * bool) (n i : Z) : FM Z :=
  if i <? n then
    match fuel with
    | O => out_of_fuel
    | S fuel' =>
        let n1 := Z.min (n - i) write_max in
        r ← filewrite_op f (λ t m, uin (i + t) m) n1;
        if negb (r =? n1) then ret i else filewrite_loop fuel' f uin n (i + r)
    end
  else ret i.

Definition filewrite (f : nat) (uin : Z → Z → list Z * bool) (n : Z) : FM Z :=
  x ← file_at f;
  if negb (f_writable x) then ret (-1)
  else
    match f_type x with
    | FD_PIPE => write_pipe (f_pipe x) uin n
    | FD_DEVICE =>
        if (f_major x <? 0) || (NDEV <=? f_major x) then ret (-1)
        else
          match devsw_write (f_major x) with
          | None => ret (-1)
          | Some wr => on_dev (wr uin n)
          end
    | FD_INODE =>
        i ← filewrite_loop (Z.to_nat (n / write_max + 1)) f uin n 0;
        ret (if i =? n then n else -1)
    | FD_NONE => panic "filewrite"
    end.
End file.
