(* ===== verification/FileTxn.v ===== *)
(** * File-system calls as transactions

    [begin_op] opens a transaction in the view of BlockLayer.v; [end_op] commits
    it, and a crash at any of its writes leaves the old or the new contents. *)

From S2P Require Import Prelude Machine Bio BioFacts BioClient Log LogFacts LogCommit LogCrash LogTxn LogTheorems.
From S2P Require Import BlockLayer LogLayer Fs FsFacts FsFile FsWrite FsInode FsWritei Pipe File.

Section txn.
Context (d : Z) (Hd : d ≠ 0) (pid : Z) (start : Z).
Implicit Types (s t : log_st) (C : Z → list Z).

(** The state in which the transaction starts. *)
Lemma idle_rep s C :
  idle_log d start s C → (∀ m, blk_ok (C m)) → Z.of_nat txn_cap < l_size s - 1 →
  log_rep d pid start (set_outstanding 1 s) (set_outstanding 1 s) (free_view C []).
Proof.
  intros [I1 I2 I3 I4 I5 [I6 I7]] Hblk Hsz. pose proof I2 as [Q1 Q2 Q3 Q4].
  split; cbn [l_bio set_outstanding free_view cont logged holds dirty l_outstanding l_size fmap list_fmap]; try done.
  - by destruct I1.
  - intros b n Hb. by apply elem_of_nil in Hb.
  - split; [constructor|constructor].
  - set_solver.
  - unfold txn_cap. cbn. lia.
  - intros n _ _. by rewrite <- (quiet_nil_content d (l_bio s) C n) by done.
  - split; [done|]. split; [apply I4|done].
Qed.

Lemma begin_idle s C : idle_log d start s C → begin_op s = Done (true, set_outstanding 1 s).
Proof.
  intros [I1 _ _ _ _ [I6 I7]]. unfold begin_op. rewrite (bind_done get _ _ _ _ eq_refl), I7, I6, (li_n _ _ _ _ I1). done.
Qed.

(** The disk [W] of block writes away from [t], and what a crash on the way
    leaves: after a reboot the log is idle and the blocks outside it have the
    contents they had on [t]'s disk or those of [C]. *)
Definition committed (nlog : Z) t C s' : Prop :=
  ∃ W C', idle_log d start s' C' ∧ dsk (l_bio s') = run_writes W (dsk (l_bio t)) ∧
    ∀ W1 W2, W = W1 ++ W2 →
      ∃ s'' C'', boot_log d pid start nlog (LogCrash.fresh (run_writes W1 (dsk (l_bio t)))) = Done (tt, s'')
        ∧ idle_log d start s'' C''
        ∧ ((W2 ≠ [] ∧ ∀ m, ¬ area start m → dblock (dsk (l_bio s'')) m = dblock (dsk (l_bio t)) m)
           ∨ ∀ m, ¬ area start m → dblock (dsk (l_bio s'')) m = C m).

Lemma rep_ready t s C lg :
  log_rep d pid start t s (free_view C lg) → lg ≠ [] → placed start [] (d_size (dsk (l_bio t))) →
  ready d start (set_committing true (set_outstanding 0 s)) C lg.
Proof.
  intros [R1 R2 R3 R4 R5 R6 [R7 _] R8 [R9 _] R10 R11 R12 (R13 & R14 & R15)] Hne [P1 P2 P3 P4 P5]. cbn [cont logged holds dirty free_view] in *.
  split; cbn [l_bio set_committing set_outstanding].
  - by destruct R1.
  - split; [done|done| |].
    + intros n. rewrite R4. cbn. rewrite (one_no (n ∈ [])) by apply not_elem_of_nil. unfold one. destruct (decide _); lia.
    + intros n. rewrite R5. by rewrite decide_False by apply not_elem_of_nil.
  - rewrite R13. split; [done|done|done| |unfold txn_cap, LOGSIZE, MAXOPBLOCKS in *; lia].
    intros b Hb. apply R8. by left.
  - done.
  - unfold txn_cap, NBUF in *. destruct lg; [done|]. cbn in *. lia.
  - apply R11.
Qed.

Lemma wp_end_op nlog t s C lg :
  MAXOPBLOCKS + 1 < nlog → log_rep d pid start t s (free_view C lg) → lg ≠ [] →
  placed start [] (d_size (dsk (l_bio t))) → is_header (dblock (dsk (l_bio t)) start) [] →
  l_outstanding t = 1 → l_committing t = false → MAXOPBLOCKS + 1 < l_size t →
  wp (end_op pid) (λ _ s', committed nlog t C s') s.
Proof.
  intros Hnl R Hne Hp Hh Ho Hc Hsz. pose proof (rep_ready t s C lg R Hne Hp) as Hrd.
  destruct (lr_ctl _ _ _ _ _ _ R) as [(S1 & S2 & S3) _]. pose proof (proj1 (lr_size _ _ _ _ _ _ R)) as D2.
  destruct (commit_crash_atomic d Hd pid start nlog _ _ _ Hnl Hrd) as (s3 & W & C3 & E3 & Hl3 & Hq3 & Hh3 & (X1 & X2 & X3) & D3 & HW).
  { cbn. by rewrite D2. }
  cbn in D3, HW, X1, X2, X3. rewrite D2 in D3, HW.
  assert (end_op pid s = Done (tt, set_committing false s3)) as E4.
  { unfold end_op. rewrite (bind_done (modify _) _ _ _ _ eq_refl), (bind_done get _ _ _ _ eq_refl).
    cbn [l_committing l_outstanding set_outstanding]. rewrite S3, Hc, S2, Ho. change (1 - 1 =? 0) with true. cbn match.
    rewrite (bind_done (modify _) _ _ _ _ eq_refl). by rewrite (bind_done _ _ _ _ _ E3). }
  unfold wp. rewrite E4. exists W, C3. split; [|done].
  split; cbn; try done; [by destruct Hl3| |by rewrite X1, S1]. rewrite D3, run_writes_size. done.
Qed.
End txn.
