(* ===== verification/FileTheorems.v ===== *)
(** * Writing a file is atomic

    [filewrite] of at most [write_max] bytes to an inode is one transaction: the
    file is updated as a byte array ([written]), and a crash at any point of it
    leaves the file system as before or as after. *)

From S2P Require Import Prelude Machine Bio BioFacts BioClient Log LogFacts LogCommit LogCrash LogTxn LogTheorems.
From S2P Require Import BlockLayer LogLayer Fs FsFacts FsFile FsWrite FsInode FsWritei Pipe File FileTxn.

Section filewrite.
Context (d : Z) (Hd : d ≠ 0) (pid : Z) (start : Z) {D : Type} (x : superblock) (ds : Z).
Implicit Types (st : file_st (D := D)) (C : Z → list Z) (src : list Z).

Definition the_inode st (f : nat) : inode := inodes (fsys st) !!! f_ip (files st !!! f).

(** File [f] is an open file on disk; [C] are the contents of the blocks. *)
Record disk_file st (f : nat) C : Prop := {
  df_log : idle_log d start (blk (fsys st)) C ∧ (∀ m, blk_ok (C m)) ∧ Z.of_nat txn_cap < l_size (blk (fsys st)) - 1;
  df_layout : layout (home start (blk (fsys st))) x ds ∧ 0 < ds ∧ sb (fsys st) = x ∧ meta x ds C;
  df_file : f_type (files st !!! f) = FD_INODE ∧ (f < length (files st))%nat ∧ 0 ≤ f_off (files st !!! f) < 2 ^ 32;
  df_inode : (f_ip (files st !!! f) < length (inodes (fsys st)))%nat ∧ i_dev (the_inode st f) = d ∧ 1 ≤ i_ref (the_inode st f)
    ∧ i_lock (the_inode st f) = None ∧ i_valid (the_inode st f) = true ∧ inode_ok (the_inode st f);
  df_iblock : 0 ≤ i_inum (the_inode st f) ∧ 0 ≤ IBLOCK (i_inum (the_inode st f)) x < ds
    ∧ ¬ is_bmap x (IBLOCK (i_inum (the_inode st f)) x) ∧ home start (blk (fsys st)) (IBLOCK (i_inum (the_inode st f)) x);
  df_content : file_ok x ds C (i_addrs (the_inode st f)) ∧ no_holes C (i_addrs (the_inode st f)) (i_size (the_inode st f))
    ∧ i_size (the_inode st f) ≤ MAXFILE * BSIZE;
}.

(** The lock is not part of what [written] says. *)
Lemma written_lock C ip C' ip' off l k k' :
  written x ds C (set_ilock k ip) C' ip' off l → written x ds C (set_ilock k' ip) C' (set_ilock k' ip') off l.
Proof.
  intros [W1 W2 W3 W4 W5 W6 W7 W8]. split; try done.
  - rewrite W1. done.
  - destruct ip, ip'. cbn in *. unfold dinode_load in *. cbn in *. by simplify_eq.
Qed.

Lemma wp_ilock_valid {B} {BL : BlockLayer B} (s : fs_st B) i (Q : unit → fs_st B → Prop) :
  1 ≤ i_ref (inodes s !!! i) → i_lock (inodes s !!! i) = None → i_valid (inodes s !!! i) = true → (i < length (inodes s))%nat →
  Q tt (put_inode i (set_ilock (Some pid) (inodes s !!! i)) s) → wp (ilock pid i) Q s.
Proof.
  intros Hr Hl Hv Hi HQ. unfold ilock, acquire_inode, inode_at, upd_inode. wp_step. wp_step. rewrite (proj2 (Z.ltb_ge _ _) Hr).
  wp_step. wp_step. wp_step. rewrite Hl. wp_step. wp_step. wp_step. cbn [inodes]. rewrite list_lookup_total_insert_eq by done. cbn [i_valid set_ilock]. rewrite Hv.
  wp_step. exact HQ.
Qed.

Lemma wp_iunlock_held {B} (s : fs_st B) i (Q : unit → fs_st B → Prop) :
  1 ≤ i_ref (inodes s !!! i) → i_lock (inodes s !!! i) = Some pid → 
  Q tt (put_inode i (set_ilock None (inodes s !!! i)) s) → wp (iunlock pid i) Q s.
Proof.
  intros Hr Hl HQ. unfold iunlock, inode_at, upd_inode. wp_step. wp_step. rewrite Hl, bool_decide_true by done.
  rewrite (proj2 (Z.ltb_ge _ _) Hr). cbn [negb orb]. wp_step. exact HQ.
Qed.

(** What the call leaves. *)
Definition file_written (nlog : Z) st f C src (r : Z) st' : Prop :=
  ∃ tot C' ip', 0 ≤ tot ≤ len src ∧ r = (if tot =? len src then len src else -1)
    ∧ (tot = len src ∨ ∀ b, 0 ≤ b < size x → used x C' b = true)
    ∧ written x ds C (the_inode st f) C' ip' (f_off (files st !!! f)) (sub src 0 tot)
    ∧ inodes (fsys st') = <[f_ip (files st !!! f) := ip']> (inodes (fsys st))
    ∧ f_off (files st' !!! f) = f_off (files st !!! f) + tot
    ∧ committed d pid start nlog (blk (fsys st)) C' (blk (fsys st')).

Lemma write_room off n : 0 ≤ n ≤ write_max → (room off n + 1 ≤ txn_cap)%nat.
Proof.
  intros Hn. unfold room, chunks, txn_cap. assert (write_max = 3072) as E by done. assert (BSIZE = 1024) as -> by done.
  destruct (decide _); [lia|]. dlia.
Qed.

(** The end of the transaction: the offset, the lock and the commit. *)
Lemma wp_close_op nlog st f C s1 s2 ip' C' lg' r (Q : Z → file_st → Prop) :
  let F := files st !!! f in
  let i := f_ip F in
  let t := set_outstanding 1 (blk (fsys st)) in
  MAXOPBLOCKS + 1 < nlog → idle_log d start (blk (fsys st)) C → (f < length (files st))%nat → 0 ≤ f_off F → 0 ≤ r → f_off F + r < 2 ^ 32 →
  at_view (log_rep d pid start t) (put_inode i ip' s1) s2 (free_view C' lg') → lg' ≠ [] → (i < length (inodes s1))%nat →
  i_lock ip' = Some pid → 1 ≤ i_ref ip' →
  (∀ st', inodes (fsys st') = <[i := set_ilock None ip']> (inodes s1) → f_off (files st' !!! f) = f_off F + r →
     committed d pid start nlog (blk (fsys st)) C' (blk (fsys st')) → Q r st') →
  wp ((if 0 <? r then upd_file f (λ x, set_foff (u32 (f_off x + r)) x) else ret tt);;
      on_fs (iunlock pid i);; end_fs_op pid;; ret r) Q (FileSt (files st) s2 (pipes st) (devs st)).
Proof.
  intros F i t Hnl [I1 I2 I3 I4 I5 [I6 I7]] Hf Ho Hr Hsmall [R1 R2 R3] Hne Hi Hlk Href HQ. cbn [inodes put_inode] in R3.
  wp_step. apply (wp_mono _ (λ _ st1, fsys st1 = s2 ∧ f_off (files st1 !!! f) = f_off F + r)).
  { destruct (Z.ltb_spec 0 r); unfold upd_file; wp_step; cbn [fsys files]; (split; [done|]).
    - rewrite list_lookup_total_insert_eq by done. cbn [f_off set_foff]. fold F. apply u32_small. lia.
    - fold F. lia. }
  intros [] st1 [E1 E2]. assert (inodes s2 !!! i = ip') as Eip by (rewrite R3; by apply list_lookup_total_insert_eq).
  unfold end_fs_op, on_fs, on_blk. wp_step. apply wp_zoom. rewrite E1. apply wp_iunlock_held; rewrite ?Eip; [done|done|].
  wp_step. apply wp_zoom, wp_zoom. eapply wp_mono; [apply (wp_end_op d Hd pid start nlog t (blk s2) C' lg'); done|].
  intros [] s3 HC. wp_step. apply HQ; [|done|done]. cbn. rewrite R3, list_insert_insert_eq. done.
Qed.

(** One transaction. *)
Lemma wp_filewrite_op nlog st f C src (Q : Z → file_st → Prop) :
  let F := files st !!! f in
  disk_file st f C → MAXOPBLOCKS + 1 < nlog → bytes src → len src ≤ write_max →
  f_off F ≤ i_size (the_inode st f) → f_off F + len src ≤ MAXFILE * BSIZE →
  (∀ tot st', file_written nlog st f C src (if tot =? len src then len src else -1) st' → 0 ≤ tot ≤ len src → Q tot st') →
  wp (filewrite_op pid f (source src) (len src)) Q st.
Proof.
  intros F [(Hlog & Hblk & Hlsz) (HL & Hds & Hsb & HM) (Hty & Hf & Hoff) (Hi & Hdev & Href & Hlk & Hval & Hok) (Hin & Hib & Hnb & Hhome) (Hfo & Hnh & Hsz)].
  intros Hnl Hsrc Hlen Hge Hfit HQ. set (i := f_ip F) in *. set (s0 := fsys st) in *. set (ip := the_inode st f) in *.
  unfold filewrite_op, file_at. wp_step. wp_step. fold F i.
  unfold begin_fs_op, on_fs, on_blk. wp_step. wp_step. apply wp_zoom, wp_zoom. unfold wp at 1. fold s0. rewrite (begin_idle d start _ C Hlog).
  wp_step. set (t := set_outstanding 1 (blk s0)).
  wp_step. apply wp_zoom. apply wp_ilock_valid; [done|done|done|done|].
  set (s1 := put_inode i _ _).
  assert (at_view (log_rep d pid start t) s1 s1 (free_view C [])) as R1.
  { apply at_view_refl. by apply idle_rep. }
  assert (inodes s1 !!! i = set_ilock (Some pid) ip) as Eip by (cbn; by apply list_lookup_total_insert_eq).
  pose proof (log_laws d Hd pid start t) as LW.
  wp_step. apply wp_zoom. eapply wp_mono.
  { apply (wp_writei (log_rep d pid start t) d (home start t) txn_cap x ds HL Hds s1 s1 C [] i src); rewrite ?Eip; try done.
    - by cbn; rewrite length_insert.
    - by destruct Hok.
    - assert (write_max = 3072) by done. lia.
    - apply write_room. unfold len in *. lia. }
  intros r s2. unfold writei_post. rewrite Eip. unfold refused.
  rewrite (proj2 (Z.ltb_ge (i_size (set_ilock (Some pid) ip)) (f_off F))), (proj2 (Z.ltb_ge (MAXFILE * BSIZE) (f_off F + len src))) by done.
  cbn [orb]. intros (C' & lg' & ip' & Hr & R2 & HW & Hl & Hne & HO).
  assert (ip' = with_addrs (i_addrs ip') (set_size (Z.max (i_size ip) (f_off F + len (sub src 0 r))) (set_ilock (Some pid) ip))) as Eip'.
  { exact (wn_inode _ _ _ _ _ _ _ _ HW). }
  assert (MAXFILE * BSIZE < 2 ^ 32) by (vm_compute; done).
  apply (wp_close_op nlog st f C s1 s2 ip' C' lg'); try done; try lia.
  - fold F. lia.
  - by cbn; rewrite length_insert.
  - by rewrite Eip'.
  - rewrite Eip'. exact Href.
  - intros st' E1 E2 HC. apply HQ; [|done]. exists r, C', (set_ilock None ip'). split; [done|]. split; [done|]. split; [done|]. split.
    + replace (the_inode st f) with (set_ilock None (the_inode st f)).
      * by apply (written_lock C _ C' _ _ _ (Some pid)).
      * fold ip. clear -Hlk. destruct ip. cbn in Hlk. by subst.
    + split; [|done]. rewrite E1. cbn. by rewrite list_insert_insert_eq.
Qed.
End filewrite.

(** C5: Writing a file is atomic and writes what it should.  [filewrite] of at most
    [write_max] bytes [src] to an open inode succeeds from an idle log: the bytes
    are in the file at the file's offset, every other byte of the file is as
    before, its size and the inode on disk are updated, no other block in use is
    changed but those of the bitmap, and the offset has advanced.  It writes all
    of [src] unless every block of the disk is in use.  If the machine stops
    after any of the disk writes, rebooting recovers an idle log and either all
    old or all new contents. *)
Theorem filewrite_crash_atomic d pid start D x ds killed
    (devsw_write : Z → option ((Z → Z → list Z * bool) → Z → M D Z)) nlog (st : file_st (D := D)) f C src :
  d ≠ 0 → disk_file d start x ds st f C → MAXOPBLOCKS + 1 < nlog → bytes src → 0 < len src ≤ write_max →
  f_writable (files st !!! f) = true →
  f_off (files st !!! f) ≤ i_size (the_inode st f) → f_off (files st !!! f) + len src ≤ MAXFILE * BSIZE →
  ∃ r st', filewrite pid killed devsw_write f (source src) (len src) st = Done (r, st')
    ∧ file_written d pid start x ds nlog st f C src r st'.
Proof.
  intros Hd HF Hnl Hsrc [Hpos Hlen] Hw Hge Hfit. apply wp_inv. pose proof (df_file _ _ _ _ _ _ _ HF) as (Hty & _ & _).
  unfold filewrite, file_at. wp_step. wp_step. rewrite Hw, Hty. cbn [negb].
  assert (write_max = 3072) as Emax by done. rewrite Emax in *. assert (∃ k, Z.to_nat (len src / 3072 + 1) = S k) as [k ->].
  { exists (Z.to_nat (len src / 3072)). dlia. }
  wp_step. cbn [filewrite_loop]. rewrite (proj2 (Z.ltb_lt 0 (len src))) by done. rewrite Z.sub_0_r, Z.min_l by lia.
  wp_step. eapply (wp_filewrite_op d Hd pid start x ds nlog st f C src); [done|done|done|lia|done|done|].
  intros tot st' HW Ht. destruct (Z.eqb_spec tot (len src)) as [->|Hne]; cbn [negb].
  - assert (wp (filewrite_loop pid k f (source src) (len src) (0 + len src)) (λ a s, a = len src ∧ s = st') st') as HX.
    { destruct k; cbn [filewrite_loop]; rewrite Z.ltb_irrefl; by wp_step. }
    eapply wp_mono; [exact HX|]. intros a s [-> ->]. rewrite Z.eqb_refl. by wp_step.
  - wp_step. rewrite (proj2 (Z.eqb_neq 0 (len src))) by lia. by wp_step.
Qed.

(** *** A file on a small disk: the log at block 2, inodes at 33, the bitmap at 40, data from 42. *)

Definition demo_super : superblock := Super FSMAGIC 100 58 16 30 2 33 40.
Definition demo_bitmap : list Z := replicate 6 255 ++ replicate 1018 0.
Definition demo_fs_disk : bdisk := BDisk 100 {[40 := demo_bitmap]} [].
Definition demo_inode : inode := Inode 1 1 1 None true T_FILE 0 0 1 0 (replicate 13 0).
Definition demo_st (b : bio_st) : file_st (D := unit) :=
  FileSt [File FD_INODE 1 true true 0 0 0 0] (FS (Log 2 30 0 false 1 0 (replicate 30 0) b) demo_super [demo_inode] []) [] tt.

Lemma demo_bitmap_block : dblock demo_fs_disk 40 = demo_bitmap.
Proof. unfold dblock, demo_fs_disk. cbn [d_blk]. by rewrite lookup_singleton_eq. Qed.
Lemma demo_other_block m : m ≠ 40 → dblock demo_fs_disk m = zeros.
Proof. intros H. unfold dblock, demo_fs_disk. cbn [d_blk]. by rewrite lookup_singleton_ne. Qed.

Lemma demo_blk_ok m : blk_ok (dblock demo_fs_disk m).
Proof.
  destruct (decide (m = 40)) as [->|H].
  - rewrite demo_bitmap_block. split; [by vm_compute|]. apply Forall_app. split; apply Forall_replicate; unfold byte; lia.
  - rewrite demo_other_block by done. apply zeros_ok.
Qed.

Lemma demo_meta : meta demo_super 42 (dblock demo_fs_disk).
Proof.
  intros b Hb. rewrite used_bit. assert (BBLOCK b demo_super = 40) as ->.
  { unfold BBLOCK, BPB. cbn [bmapstart demo_super]. assert (BSIZE = 1024) as -> by done. rewrite u32_small; dlia. }
  rewrite demo_bitmap_block. unfold bit_at, demo_bitmap. assert (BPB = 8192) as -> by done. rewrite Z.mod_small by lia.
  rewrite lookup_total_app_l by (rewrite length_replicate; dlia). rewrite lookup_total_replicate_2 by dlia.
  change 255 with (Z.ones 8). apply Z.ones_spec_low. dlia.
Qed.

Lemma demo_empty_map bn C : amap C (replicate 13 0) bn = 0.
Proof.
  unfold amap. destruct (Z.ltb_spec bn NDIRECT); [|done]. apply lookup_total_replicate_2. unfold NDIRECT in *. lia.
Qed.

Lemma demo_disk_file : ∃ b, disk_file 1 2 demo_super 42 (demo_st b) 0 (dblock demo_fs_disk) ∧ dsk b = demo_fs_disk.
Proof.
  destruct (wp_inv _ _ _ (wp_binit (l_bio (LogCrash.fresh demo_fs_disk)) (blank_fresh _))) as ([] & b & _ & Hc & Hb & Hdk).
  exists b. cbn in Hdk. split; [|done]. split; cbn [demo_st fsys blk sb inodes files the_inode].
  - split; [|split; [apply demo_blk_ok|vm_compute; done]]. split; try done.
    + cbn [l_bio]. rewrite <- Hdk. by apply (quiet_blank 1 ltac:(done) b (rev (seq 0 NBUF))).
    + cbn [l_bio]. rewrite Hdk, demo_other_block by done. by apply is_header_nil; [apply length_replicate|vm_compute].
    + cbn [l_bio]. rewrite Hdk. split; unfold LOGSIZE, MAXOPBLOCKS; simpl; try lia. set_solver.
  - split; [|split; [lia|split; [done|apply demo_meta]]]. assert ((size demo_super - 1) / BPB = 0) as E by done.
    split; rewrite ?E; cbn [size bmapstart demo_super]; try lia; intros m Hm; unfold home, area, LOGSIZE, MAXOPBLOCKS; cbn [l_bio]; rewrite Hdk; cbn; lia.
  - split; [done|]. split; [cbn; lia|cbn; lia].
  - cbn. split_and!; try done; [lia..|]. split; [|cbn; lia|]; [rewrite !Forall_cons, Forall_nil; cbn; unfold T_FILE; lia|].
    split; [done|]. apply Forall_replicate. lia.
  - assert (IBLOCK 1 demo_super = 33) as E by done. cbn. rewrite E. unfold is_bmap, home, area, LOGSIZE, MAXOPBLOCKS. cbn [l_bio]. rewrite Hdk.
    split; [lia|]. split; [lia|]. split; [|cbn; lia]. cbn [bmapstart demo_super]. lia.
  - cbn. split; [|split; [|vm_compute; done]].
    + split; [done|..].
      * intros m [Hz [E|(bn & _ & E)]]; [done|by rewrite demo_empty_map in E].
      * intros bn bn' _ _ H. by rewrite demo_empty_map in H.
      * intros bn _ H. by rewrite demo_empty_map in H.
    + intros bn H1 H2. unfold BSIZE in *. lia.
Qed.

Lemma filewrite_crash_atomic_witness :
  ∃ b r st', filewrite 7 (λ _, false) (λ _, None) 0 (source [104; 105]) 2 (demo_st b) = Done (r, st')
    ∧ file_written 1 7 2 demo_super 42 30 (demo_st b) 0 (dblock demo_fs_disk) [104; 105] r st'.
Proof.
  destruct demo_disk_file as (b & HF & _). exists b.
  apply (filewrite_crash_atomic 1 7 2 unit demo_super 42 (λ _, false) (λ _, None) 30 (demo_st b) 0 (dblock demo_fs_disk) [104; 105]).
  - done.
  - exact HF.
  - unfold MAXOPBLOCKS. lia.
  - repeat constructor; unfold byte; lia.
  - vm_compute. done.
  - done.
  - cbn. lia.
  - vm_compute. done.
Defined.
