(* ===== verification/FsTheorems.v ===== *)
(** * The file system's guarantees

    Path names are split at slashes, directories are finite maps, and what is
    written to a file is read back; the file system runs over the log and the
    buffer cache. *)

From S2P Require Import Prelude Machine Bio BioFacts BioClient Log LogFacts LogCommit LogCrash LogTxn LogTheorems.
From S2P Require Import BlockLayer LogLayer Fs FsFacts FsFile FsWrite FsInode FsWritei FsDir FsDirFacts Pipe File FileTxn FileTheorems.

(** ** Path names *)

Section paths.
Implicit Types (path name s cur : list Z).

(** The elements of a path: the maximal runs of bytes other than slashes. *)
Definition emit cur (l : list (list Z)) : list (list Z) := match cur with [] => l | _ => cur :: l end.
Fixpoint elems cur path : list (list Z) :=
  match path with
  | [] => emit cur []
  | c :: path' => if c =? SLASH then emit cur (elems [] path') else elems (cur ++ [c]) path'
  end.

(** The names that repeated [skipelem] yields, as [namex] walks the path. *)
Fixpoint walk_path (fuel : nat) path name : option (list (list Z)) :=
  match skipelem path name with
  | None => Some []
  | Some (path, name) =>
      match fuel with
      | O => None
      | S fuel' => cons (canon name) <$> walk_path fuel' path name
      end
  end.

Lemma elems_slashes path : elems [] (skip_slashes path) = elems [] path.
Proof. induction path as [|c path IH]; [done|]. cbn. destruct (c =? SLASH) eqn:E; [by rewrite IH|]. cbn. by rewrite E. Qed.

Lemma skip_slashes_head path c path' : skip_slashes path = c :: path' → c ≠ SLASH.
Proof. induction path as [|e path IH]; [done|]. cbn. destruct (Z.eqb_spec e SLASH); [done|]. by intros [= <- _]. Qed.

Lemma skip_slashes_suffix path : ∃ k, path = k ++ skip_slashes path.
Proof.
  induction path as [|c path [k IH]]; [by exists []|]. cbn. destruct (c =? SLASH); [|by exists []].
  exists (c :: k). cbn. by rewrite <- IH.
Qed.

Lemma span_elem_app path s rest : span_elem path = (s, rest) → path = s ++ rest ∧
  ∀ cur, elems cur path = emit (cur ++ s) (elems [] rest).
Proof.
  revert s rest. induction path as [|c path IH]; intros s rest; cbn.
  - intros [= <- <-]. split; [done|]. intros cur. by rewrite app_nil_r.
  - destruct (c =? SLASH) eqn:E.
    + intros [= <- <-]. split; [done|]. intros cur. cbn. by rewrite E, app_nil_r.
    + destruct (span_elem path) as [s' r'] eqn:F. intros [= <- <-]. destruct (IH s' r' eq_refl) as (-> & H).
      split; [done|]. intros cur. rewrite H. by rewrite <- app_assoc.
Qed.

Lemma cname_take n s l : Forall (λ c, c ≠ 0) s → (n ≤ length s)%nat → cname n (s ++ l) = take n s.
Proof.
  revert s. induction n as [|n IH]; intros s Hs Hn; [done|]. destruct s as [|c s]; [cbn in Hn; lia|].
  apply Forall_cons in Hs as [H1 H2]. cbn. rewrite (proj2 (Z.eqb_neq _ _) H1), IH; [done|done|cbn in Hn; lia].
Qed.

Lemma cname_end n s l : Forall (λ c, c ≠ 0) s → cname n (s ++ 0 :: l) = take n s.
Proof.
  revert s. induction n as [|n IH]; intros s Hs; [done|]. destruct s as [|c s]; [done|].
  apply Forall_cons in Hs as [H1 H2]. cbn. by rewrite (proj2 (Z.eqb_neq _ _) H1), IH.
Qed.

(** One step. *)
Lemma skipelem_elem path name :
  Forall (λ c, c ≠ 0) path →
  match skipelem path name with
  | None => elems [] path = []
  | Some (path', name') => ∃ s, elems [] path = s :: elems [] path' ∧ canon name' = take (Z.to_nat DIRSIZ) s
      ∧ Forall (λ c, c ≠ 0) path' ∧ (length path' < length path)%nat
  end.
Proof.
  intros Hnz. unfold skipelem. rewrite <- (elems_slashes path). destruct (skip_slashes_suffix path) as [k Ek].
  destruct (skip_slashes path) as [|c q] eqn:Eq; [done|]. pose proof (skip_slashes_head _ _ _ Eq) as Hc.
  destruct (span_elem (c :: q)) as [s rest] eqn:Es. pose proof (span_elem_app _ _ _ Es) as (E1 & E2).
  cbn in Es. rewrite (proj2 (Z.eqb_neq _ _) Hc) in Es. destruct (span_elem q) as [s' r'] eqn:Es'. injection Es as <- <-.
  rewrite Ek, E1 in Hnz. apply Forall_app in Hnz as [_ [Hs Hr]%Forall_app]. destruct (skip_slashes_suffix r') as [k' Ek'].
  exists (c :: s'). split_and!.
  - rewrite E2. cbn [app emit]. by rewrite elems_slashes.
  - unfold canon. destruct (Z.leb_spec DIRSIZ (Z.of_nat (length (c :: s')))) as [Hl|Hl].
    + rewrite cname_take, take_take, Nat.min_id; [done|by apply Forall_take|rewrite length_take; lia].
    + by apply cname_end.
  - rewrite Ek' in Hr. by apply Forall_app in Hr as [_ ?].
  - rewrite Ek, E1. rewrite Ek' at 2. rewrite !length_app. cbn. lia.
Qed.

(** C28: [namex] sees the elements of a path.  Whatever the path and the slashes in
    it, taking elements off it with [skipelem] ends after at most as many steps
    as the path is long and yields its maximal runs of other bytes in order, each
    cut to [DIRSIZ] bytes, whatever the name buffer held before. *)
Theorem skipelem_yields_elements path name :
  Forall (λ c, c ≠ 0) path → walk_path (length path) path name = Some (take (Z.to_nat DIRSIZ) <$> elems [] path).
Proof.
  intros Hnz. assert (∀ fuel path name, (length path ≤ fuel)%nat → Forall (λ c, c ≠ 0) path →
    walk_path fuel path name = Some (take (Z.to_nat DIRSIZ) <$> elems [] path)) as H; [|by apply H].
  clear. intros fuel. induction fuel as [|fuel IH]; intros path name Hf Hnz; pose proof (skipelem_elem path name Hnz) as HS;
    cbn [walk_path]; (destruct (skipelem path name) as [[path' name']|]; [|by rewrite HS]).
  - destruct HS as (s & _ & _ & _ & H). lia.
  - destruct HS as (s & -> & -> & Hnz' & H). rewrite IH by (done || lia). done.
Qed.
End paths.

Lemma skipelem_yields_elements_witness :
  walk_path 6 [47; 97; 47; 47; 98; 99] (replicate 14 120) = Some [[97]; [98; 99]].
Proof. apply (skipelem_yields_elements [47; 97; 47; 47; 98; 99] (replicate 14 120)). repeat constructor; done. Defined.

(** ** Over the log *)

Section log.
Context (d : Z) (pid start : Z) (t : log_st) (x : superblock) (ds : Z).
Implicit Types (s : fs_st log_st) (C : Z → list Z) (lg src name : list Z).

(** A transaction is open, [C] are the blocks as it sees them and [lg] the blocks
    it has changed; inode [i] is in memory and its block is on disk. *)
Record in_txn s C lg (i : nat) : Prop := {
  tx_rep : log_rep d pid start t (blk s) (free_view C lg);
  tx_layout : layout (home start t) x ds ∧ 0 < ds ∧ sb s = x ∧ meta x ds C;
  tx_inode : (i < length (inodes s))%nat ∧ i_dev (inodes s !!! i) = d ∧ inode_ok (inodes s !!! i);
  tx_iblock : 0 ≤ i_inum (inodes s !!! i) ∧ 0 ≤ IBLOCK (i_inum (inodes s !!! i)) x < ds
    ∧ ¬ is_bmap x (IBLOCK (i_inum (inodes s !!! i)) x) ∧ home start t (IBLOCK (i_inum (inodes s !!! i)) x);
  tx_content : file_ok x ds C (i_addrs (inodes s !!! i)) ∧ no_holes C (i_addrs (inodes s !!! i)) (i_size (inodes s !!! i))
    ∧ i_size (inodes s !!! i) ≤ MAXFILE * BSIZE;
}.
End log.

Lemma sub_all src : sub src 0 (len src) = src.
Proof. unfold sub, len. rewrite drop_0. apply take_ge. lia. Qed.

(** The bytes written are the file's bytes there. *)
Lemma written_bytes x ds C ip C' ip' off l :
  written x ds C ip C' ip' off l → 0 ≤ off → off + len l ≤ MAXFILE * BSIZE → fbytes C' (i_addrs ip') off (len l) = l.
Proof.
  intros W Ho Hfit. unfold fbytes, len in *. apply list_eq_same_length with (n := length l); [done|rewrite length_fmap, length_seqZ; lia|].
  intros k y z Hk. rewrite list_lookup_fmap, lookup_seqZ_lt by lia. cbn. rewrite (wn_byte _ _ _ _ _ _ _ _ W) by lia.
  unfold len. rewrite decide_True by lia. intros [= <-] Hz. apply list_lookup_total_correct. rewrite <- Hz. f_equal. lia.
Qed.

(** [writei] and then [readi] of the same range. *)
Definition write_read (pid : Z) (i : nat) (src : list Z) (off : Z) : M (fs_st log_st) (Z * list Z * Z) :=
  r ← writei (BL := log_layer pid) i (source src) off (len src);
  '(l, k) ← readi (BL := log_layer pid) i all_out off (len src);
  ret (r, l, k).

(** C11: What is written is read back.  Inside a transaction with room for the
    blocks, [writei] of [src] within or at the end of a file writes all of it
    unless the disk is full, and then [readi] of the same range returns [src]. *)
Theorem write_read_back d pid start t x ds s C lg i src off :
  d ≠ 0 → in_txn d pid start t x ds s C lg i → bytes src → 0 ≤ off ≤ i_size (inodes s !!! i) →
  off + len src ≤ MAXFILE * BSIZE → (length lg + room off (len src) + 1 ≤ txn_cap)%nat →
  ∃ r l k s' C' ip', write_read pid i src off s = Done (r, l, k, s')
    ∧ written x ds C (inodes s !!! i) C' ip' off (sub src 0 r)
    ∧ ((r = len src ∧ l = src ∧ k = len src) ∨ (0 ≤ r < len src ∧ ∀ b, 0 ≤ b < size x → used x C' b = true)).
Proof.
  intros Hd [R (HL & Hds & Hsb & HM) (Hi & Hdev & Hok) (Hin & Hib & Hnb & Hh) (Hfo & Hnh & Hsz)] Hsrc Hoff Hfit Hcap.
  set (ip := inodes s !!! i) in *. assert (MAXFILE * BSIZE < 2 ^ 31) as HX by (vm_compute; done).
  assert (0 ≤ len src) as Hpos by (unfold len; lia). pose proof (log_laws d Hd pid start t) as LW.
  assert (wp (write_read pid i src off) (λ a s', ∃ C' ip', written x ds C ip C' ip' off (sub src 0 a.1.1)
    ∧ ((a.1.1 = len src ∧ a.1.2 = src ∧ a.2 = len src) ∨ (0 ≤ a.1.1 < len src ∧ ∀ b, 0 ≤ b < size x → used x C' b = true))) s) as HW.
  2:{ destruct (wp_inv _ _ _ HW) as ([[r l] k] & s' & E & C' & ip' & H). by exists r, l, k, s', C', ip'. }
  assert (at_view (log_rep d pid start t) s s (free_view C lg)) as R1 by by apply at_view_refl.
  unfold write_read. wp_step. eapply wp_mono.
  { apply (wp_writei (log_rep d pid start t) d (home start t) txn_cap x ds HL Hds s s C lg i src); try done; lia. }
  unfold writei_post. fold ip. intros r s2. unfold refused.
  rewrite (proj2 (Z.ltb_ge (i_size ip) _)), (proj2 (Z.ltb_ge (MAXFILE * BSIZE) _)) by lia. cbn [orb].
  intros (C' & lg' & ip' & Hr & R2 & W & _ & _ & HO). pose proof (wn_inode _ _ _ _ _ _ _ _ W) as Eip.
  assert (len (sub src 0 r) = r) as Hlr by (apply len_sub; lia). rewrite Hlr in Eip.
  assert (inodes (put_inode i ip' s) !!! i = ip') as Ei by (cbn; by apply list_lookup_total_insert_eq).
  assert (i_size ip' = Z.max (i_size ip) (off + r)) as Es by by rewrite Eip.
  wp_step. apply (wp_readi (log_rep d pid start t) d (home start t) txn_cap x ds HL Hds (put_inode i ip' s) s2 C' lg'); rewrite ?Ei; try done; try lia.
  { by rewrite Eip. }
  { apply W. }
  { apply W. }
  intros s3 R3. wp_step. exists C', ip'. split; [exact W|]. cbn [fst snd].
  destruct (decide (r = len src)) as [->|Hne]; [left|right; destruct HO; [done|split; [lia|done]]].
  rewrite Es. rewrite (proj2 (Z.ltb_ge _ _)), (proj2 (Z.leb_gt _ _)) by lia. cbn [orb fst snd]. rewrite Z.min_l by lia.
  split; [done|]. split; [|done]. rewrite sub_all in W. apply (written_bytes _ _ _ _ _ _ _ _ W); lia.
Qed.

(** The demo disk with a transaction open. *)
Lemma demo_in_txn : ∃ b, in_txn 1 7 2 (set_outstanding 1 (blk (fsys (demo_st b)))) demo_super 42
  (FS (set_outstanding 1 (blk (fsys (demo_st b)))) demo_super [demo_inode] []) (dblock demo_fs_disk) [] 0.
Proof.
  destruct demo_disk_file as (b & [(Hlog & Hblk & Hlsz) Hlay Hfile (Hi & Hdev & _ & _ & _ & Hok) Hib Hc] & _). exists b.
  split; [|done|done|done|done]. by apply idle_rep.
Qed.

Lemma write_read_back_witness :
  ∃ b r l k s' C' ip', write_read 7 0 [104; 105] 0 (FS (set_outstanding 1 (blk (fsys (demo_st b)))) demo_super [demo_inode] []) = Done (r, l, k, s')
    ∧ written demo_super 42 (dblock demo_fs_disk) demo_inode C' ip' 0 (sub [104; 105] 0 r)
    ∧ ((r = 2 ∧ l = [104; 105] ∧ k = 2) ∨ (0 ≤ r < 2 ∧ ∀ b, 0 ≤ b < 100 → used demo_super C' b = true)).
Proof.
  destruct demo_in_txn as (b & HT). exists b.
  apply (write_read_back 1 7 2 _ demo_super 42 _ (dblock demo_fs_disk) [] 0 [104; 105] 0 ltac:(done) HT).
  - repeat constructor; unfold byte; lia.
  - cbn. lia.
  - vm_compute. done.
  - apply (write_room 0 2). split; vm_compute; done.
Defined.

(** ** Directories *)

(** The names of directory inode [ip]. *)
Definition names C (ip : inode) (name : list Z) : option Z := dmap (entry C (i_addrs ip)) (entries ip) name.

(** C10: A directory is a finite map from names to inode numbers.  [dirlink] of a
    name that is not in the directory adds it with its inode number and keeps
    every other name, names being compared up to [DIRSIZ] bytes; it fails only
    when the disk is full. *)
Theorem dirlink_adds_name d pid start t x ds s C lg dp name inum :
  d ≠ 0 → in_txn d pid start t x ds s C lg dp → i_type (inodes s !!! dp) = T_DIR →
  i_size (inodes s !!! dp) mod SIZEOF_DIRENT = 0 → i_size (inodes s !!! dp) + SIZEOF_DIRENT ≤ MAXFILE * BSIZE →
  bytes name → 0 < inum < 2 ^ 16 → (length lg + 7 ≤ txn_cap)%nat → names C (inodes s !!! dp) name = None →
  ∃ r s' C' lg' ip', dirlink (BL := log_layer pid) pid dp name inum s = Done (r, s')
    ∧ log_rep d pid start t (blk s') (free_view C' lg') ∧ inodes s' = <[dp := ip']> (inodes s)
    ∧ ((r = 0 ∧ ∀ name', names C' ip' name' = if decide (canon name' = canon name) then Some inum else names C (inodes s !!! dp) name')
       ∨ (r = -1 ∧ ∀ b, 0 ≤ b < size x → used x C' b = true)).
Proof.
  intros Hd [R (HL & Hds & Hsb & HM) (Hi & Hdev & Hok) (Hin & Hib & Hnb & Hh) (Hfo & Hnh & Hsz)] Hty Hmod Hmax Hname Hinum Hcap Hnone.
  pose proof (log_laws d Hd pid start t) as LW.
  assert (at_view (log_rep d pid start t) s s (free_view C lg)) as R1 by by apply at_view_refl.
  assert (dir_ok d x ds C (inodes s !!! dp)) as Hdir.
  { split; try done. split; [|done]. split; [apply Hok|done]. }
  destruct (wp_inv _ _ _ (wp_dirlink (BL := log_layer pid) (log_rep d pid start t) d (home start t) txn_cap pid x ds HL Hds s s C lg dp name inum
    R1 Hsb Hi Hdir Hok Hin Hib Hnb Hh HM Hname Hinum Hmax Hcap Hnone)) as (r & s' & E & C' & lg' & ip' & [A1 A2 A3] & HR).
  exists r, s', C', lg', ip'. split; [exact E|]. split; [exact A1|]. split; [exact A3|]. destruct HR as [(H1 & _ & H2)|H]; [by left|by right].
Qed.

Definition demo_dir : inode := Inode 1 1 1 None true T_DIR 0 0 1 0 (replicate 13 0).

Lemma dirlink_adds_name_witness :
  ∃ b r s' C' ip', dirlink (BL := log_layer 7) 7 0 [97] 5 (FS (set_outstanding 1 (blk (fsys (demo_st b)))) demo_super [demo_dir] []) = Done (r, s')
    ∧ ((r = 0 ∧ names C' ip' [97] = Some 5) ∨ (r = -1 ∧ ∀ b, 0 ≤ b < 100 → used demo_super C' b = true)).
Proof.
  destruct demo_in_txn as (b & [R HL (Hi & Hdev & [Ha Hb Hc]) Hib Hcont]). exists b.
  destruct (dirlink_adds_name 1 7 2 (set_outstanding 1 (blk (fsys (demo_st b)))) demo_super 42
    (FS (set_outstanding 1 (blk (fsys (demo_st b)))) demo_super [demo_dir] []) (dblock demo_fs_disk) [] 0 [97] 5)
    as (r & s' & C' & lg' & ip' & E & _ & _ & H).
  - done.
  - split; [exact R|exact HL| |exact Hib|exact Hcont]. split; [done|]. split; [done|]. split; [|done|done].
    rewrite !Forall_cons, Forall_nil. cbn. unfold T_DIR. lia.
  - done.
  - done.
  - vm_compute. done.
  - repeat constructor; unfold byte; lia.
  - lia.
  - vm_compute. lia.
  - apply dmap_none. intros j Hj. change (0 ≤ j < 0) in Hj. lia.
  - exists r, s', C', ip'. split; [exact E|]. destruct H as [[-> H]|H]; [left|by right]. split; [done|]. by rewrite H, decide_True.
Defined.
