(* ===== verification/SysFile.v ===== *)
(** * kernel/sysfile.c: the file system calls

    The state is that of File.v with the open files and the working directory of
    every process; [me] is the calling process.  The arguments of a call are
    those that [argint], [argaddr] and [argstr] fetch; a path is [None] when
    [argstr] fails.  [junk] is what an uninitialised name buffer holds.  [sys_exec]
    is left out: its work is [exec]. *)

From S2P Require Import Prelude Proc Sh Machine Log BlockLayer LogLayer Fs FsWritei FsDir Pipe File.

Definition O_RDWR : Z := 2.

Record pfiles := PFiles { ofile : list (option nat); cwd : nat }.
#[export] Instance pfiles_inhabited : Inhabited pfiles := populate (PFiles [] 0).

Definition set_nlink_by (k : Z) (ip : inode) : inode := set_nlink (s16 (i_nlink ip + k)) ip.
Definition set_devno (major minor : Z) (ip : inode) : inode :=
  Inode (i_dev ip) (i_inum ip) (i_ref ip) (i_lock ip) (i_valid ip) (i_type ip) (s16 major) (s16 minor) (i_nlink ip) (i_size ip) (i_addrs ip).

Section sysfile.
Context {D : Type} (pid : Z) (killed : Z → bool) (me : nat) (junk : list Z).
Context (devsw_read : Z → option (Z → M D (list Z * Z))) (devsw_write : Z → option ((Z → Z → list Z * bool) → Z → M D Z)).

Record sys_st := SysSt { fl : file_st (D := D); procs : list pfiles }.
Abbreviation SM := (M sys_st).
Abbreviation FSM := (M (fs_st log_st)).

Definition on_file {A} (m : M (file_st (D := D)) A) : SM A := zoom fl (λ t s, SysSt t (procs s)) m.
Definition sfs {A} (m : FSM A) : SM A := on_file (on_fs m).
Abbreviation begin_op := (on_file begin_fs_op).
Abbreviation end_op := (on_file (end_fs_op pid)).

(** kernel/fs.c over the log *)
Abbreviation iput := (iput (BL := log_layer pid) pid).
Abbreviation iunlockput := (iunlockput (BL := log_layer pid) pid).
Abbreviation ilock := (ilock (BL := log_layer pid) pid).
Abbreviation iunlock := (iunlock pid).
Abbreviation iupdate := (iupdate (BL := log_layer pid)).
Abbreviation itrunc := (itrunc (BL := log_layer pid)).
Abbreviation ialloc := (ialloc (BL := log_layer pid)).
Abbreviation writei := (writei (BL := log_layer pid)).
Abbreviation dirlookup := (dirlookup (BL := log_layer pid)).
Abbreviation dirlink := (dirlink (BL := log_layer pid) pid).
Abbreviation read_dirent := (read_dirent (BL := log_layer pid)).
Abbreviation namei := (namei (BL := log_layer pid) pid).
Abbreviation nameiparent := (nameiparent (BL := log_layer pid) pid).

Definition myfiles : SM pfiles := gets (λ s, procs s !!! me).
Definition set_fd (fd : nat) (v : option nat) : SM unit :=
  modify (λ s, SysSt (fl s) (alter (λ p, PFiles (<[fd := v]> (ofile p)) (cwd p)) me (procs s))).
Definition set_cwd (i : nat) : SM unit :=
  modify (λ s, SysSt (fl s) (alter (λ p, PFiles (ofile p) i) me (procs s))).

Definition argfd (fd : Z) : SM (option nat) :=
  p ← myfiles;
  ret (if (fd <? 0) || (Z.of_nat NOFILE <=? fd) then None else ofile p !!! Z.to_nat fd).

Definition fdalloc (f : nat) : SM Z :=
  r ← for_exit 0 (Z.of_nat NOFILE) (λ k,
        let fd := Z.to_nat k in
        p ← myfiles;
        match ofile p !!! fd with
        | None => set_fd fd (Some f);; ret (Some k)
        | Some _ => ret None
        end);
  ret (default (-1) r).

Definition sys_dup (fd : Z) : SM Z :=
  f ← argfd fd;
  match f with
  | None => ret (-1)
  | Some f =>
      fd ← fdalloc f;
      if fd <? 0 then ret (-1)
      else on_file (filedup f);; ret fd
  end.

Definition sys_read (fd : Z) (uout : Z → bool) (n : Z) : SM (list Z * Z) :=
  f ← argfd fd;
  match f with
  | None => ret ([], -1)
  | Some f => on_file (fileread pid killed devsw_read f uout n)
  end.

Definition sys_write (fd : Z) (uin : Z → Z → list Z * bool) (n : Z) : SM Z :=
  f ← argfd fd;
  match f with
  | None => ret (-1)
  | Some f => on_file (filewrite pid killed devsw_write f uin n)
  end.

Definition sys_close (fd : Z) : SM Z :=
  f ← argfd fd;
  match f with
  | None => ret (-1)
  | Some f =>
      set_fd (Z.to_nat fd) None;;
      on_file (fileclose pid f);;
      ret 0
  end.

Definition sys_fstat (fd : Z) (copied : bool) : SM (option stat * Z) :=
  f ← argfd fd;
  match f with
  | None => ret (None, -1)
  | Some f => on_file (filestat pid f copied)
  end.

(** ** Links *)

(** The label [bad] of [sys_link]. *)
Definition link_bad (ip : nat) : SM Z :=
  sfs (ilock ip);;
  sfs (upd_inode ip (set_nlink_by (-1)));;
  sfs (iupdate ip);;
  sfs (iunlockput ip);;
  end_op;;
  ret (-1).

Definition sys_link (old new : option (list Z)) : SM Z :=
  match old, new with
  | Some old, Some new =>
      p ← myfiles;
      begin_op;;
      ip ← sfs (namei (cwd p) old junk);
      match ip with
      | None => end_op;; ret (-1)
      | Some ip =>
          sfs (ilock ip);;
          x ← sfs (inode_at ip);
          if i_type x =? T_DIR then sfs (iunlockput ip);; end_op;; ret (-1)
          else
            sfs (upd_inode ip (set_nlink_by 1));;
            sfs (iupdate ip);;
            sfs (iunlock ip);;
            '(dp, name) ← sfs (nameiparent (cwd p) new junk);
            match dp with
            | None => link_bad ip
            | Some dp =>
                sfs (ilock dp);;
                y ← sfs (inode_at dp);
                x ← sfs (inode_at ip);
                r ← (if negb (i_dev y =? i_dev x) then ret (-1) else sfs (dirlink dp name (i_inum x)));
                if r <? 0 then sfs (iunlockput dp);; link_bad ip
                else
                  sfs (iunlockput dp);;
                  sfs (iput ip);;
                  end_op;;
                  ret 0
            end
      end
  | _, _ => ret (-1)
  end.

Definition isdirempty (dp : nat) : FSM bool :=
  x ← inode_at dp;
  r ← for_exit 2 (dirents (i_size x)) (λ k,
        de ← read_dirent dp (k * SIZEOF_DIRENT) "isdirempty: readi";
        ret (if de_inum de =? 0 then None else Some false));
  ret (default true r).

(** The label [bad] of [sys_unlink]. *)
Definition unlink_bad (dp : nat) : SM Z := sfs (iunlockput dp);; end_op;; ret (-1).

Definition sys_unlink (path : option (list Z)) : SM Z :=
  match path with
  | None => ret (-1)
  | Some path =>
      p ← myfiles;
      begin_op;;
      '(dp, name) ← sfs (nameiparent (cwd p) path junk);
      match dp with
      | None => end_op;; ret (-1)
      | Some dp =>
          sfs (ilock dp);;
          if (namecmp name DOT =? 0) || (namecmp name DOTDOT =? 0) then unlink_bad dp
          else
            r ← sfs (dirlookup dp name);
            match r with
            | None => unlink_bad dp
            | Some (ip, off) =>
                sfs (ilock ip);;
                x ← sfs (inode_at ip);
                if i_nlink x <? 1 then panic "unlink: nlink < 1"
                else
                  empty ← (if i_type x =? T_DIR then sfs (isdirempty ip) else ret true);
                  if negb empty then sfs (iunlockput ip);; unlink_bad dp
                  else
                    r ← sfs (writei dp (source (replicate 16 0)) off SIZEOF_DIRENT);
                    if negb (r =? SIZEOF_DIRENT) then panic "unlink: writei"
                    else
                      (if i_type x =? T_DIR then sfs (upd_inode dp (set_nlink_by (-1)));; sfs (iupdate dp) else ret tt);;
                      sfs (iunlockput dp);;
                      sfs (upd_inode ip (set_nlink_by (-1)));;
                      sfs (iupdate ip);;
                      sfs (iunlockput ip);;
                      end_op;;
                      ret 0
            end
      end
  end.

(** ** Creation *)

(** The label [fail] of [create]. *)
Definition create_fail (ip dp : nat) : FSM (option nat) :=
  upd_inode ip (set_nlink 0);;
  iupdate ip;;
  iunlockput ip;;
  iunlockput dp;;
  ret None.

(** A new inode of the type in directory [dp]. *)
Definition create_new (dp : nat) (name : list Z) (type major minor : Z) : FSM (option nat) :=
  y ← inode_at dp;
  r ← ialloc (i_dev y) type;
  match r with
  | None => iunlockput dp;; ret None
  | Some ip =>
      ilock ip;;
      upd_inode ip (λ x, set_nlink 1 (set_devno major minor x));;
      iupdate ip;;
      x ← inode_at ip;
      dots ← (if type =? T_DIR then
                r ← dirlink ip DOT (i_inum x);
                if r <? 0 then ret false
                else r ← dirlink ip DOTDOT (i_inum y); ret (negb (r <? 0))
              else ret true);
      if negb dots then create_fail ip dp
      else
        r ← dirlink dp name (i_inum x);
        if r <? 0 then create_fail ip dp
        else
          (if type =? T_DIR then upd_inode dp (set_nlink_by 1);; iupdate dp else ret tt);;
          iunlockput dp;;
          ret (Some ip)
  end.

Definition create (cwd : nat) (path : list Z) (type major minor : Z) : FSM (option nat) :=
  '(dp, name) ← nameiparent cwd path junk;
  match dp with
  | None => ret None
  | Some dp =>
      ilock dp;;
      r ← dirlookup dp name;
      match r with
      | Some (ip, _) =>
          iunlockput dp;;
          ilock ip;;
          x ← inode_at ip;
          if (type =? T_FILE) && ((i_type x =? T_FILE) || (i_type x =? T_DEVICE)) then ret (Some ip)
          else iunlockput ip;; ret None
      | None => create_new dp name type major minor
      end
  end.

(** The inode that [sys_open] opens, locked. *)
Definition open_inode (cwd : nat) (path : list Z) (omode : Z) : FSM (option nat) :=
  if negb (Z.land omode O_CREATE =? 0) then create cwd path T_FILE 0 0
  else
    ip ← namei cwd path junk;
    match ip with
    | None => ret None
    | Some ip =>
        ilock ip;;
        x ← inode_at ip;
        if (i_type x =? T_DIR) && negb (omode =? O_RDONLY) then iunlockput ip;; ret None
        else ret (Some ip)
    end.

(** The fields that [sys_open] sets. *)
Definition open_file (x : inode) (ip : nat) (omode : Z) (f : file) : file :=
  let wr := negb (Z.land omode O_WRONLY =? 0) in
  let rdwr := negb (Z.land omode O_RDWR =? 0) in
  if i_type x =? T_DEVICE then File FD_DEVICE (f_ref f) (negb wr) (wr || rdwr) (f_pipe f) ip (f_off f) (i_major x)
  else File FD_INODE (f_ref f) (negb wr) (wr || rdwr) (f_pipe f) ip 0 (f_major f).

Definition sys_open (path : option (list Z)) (omode : Z) : SM Z :=
  match path with
  | None => ret (-1)
  | Some path =>
      p ← myfiles;
      begin_op;;
      ip ← sfs (open_inode (cwd p) path omode);
      match ip with
      | None => end_op;; ret (-1)
      | Some ip =>
          x ← sfs (inode_at ip);
          if (i_type x =? T_DEVICE) && ((i_major x <? 0) || (NDEV <=? i_major x)) then
            sfs (iunlockput ip);; end_op;; ret (-1)
          else
            f ← on_file filealloc;
            fd ← (match f with Some f => fdalloc f | None => ret (-1) end);
            match f with
            | None => sfs (iunlockput ip);; end_op;; ret (-1)
            | Some f =>
                if fd <? 0 then
                  on_file (fileclose pid f);; sfs (iunlockput ip);; end_op;; ret (-1)
                else
                  on_file (upd_file f (open_file x ip omode));;
                  (if negb (Z.land omode O_TRUNC =? 0) && (i_type x =? T_FILE) then sfs (itrunc ip) else ret tt);;
                  sfs (iunlock ip);;
                  end_op;;
                  ret fd
            end
      end
  end.

(** [sys_mkdir] and [sys_mknod] after their arguments. *)
Definition make_node (path : option (list Z)) (type major minor : Z) : SM Z :=
  p ← myfiles;
  begin_op;;
  ip ← (match path with Some path => sfs (create (cwd p) path type major minor) | None => ret None end);
  match ip with
  | None => end_op;; ret (-1)
  | Some ip => sfs (iunlockput ip);; end_op;; ret 0
  end.
Definition sys_mkdir (path : option (list Z)) : SM Z := make_node path T_DIR 0 0.
Definition sys_mknod (path : option (list Z)) (major minor : Z) : SM Z := make_node path T_DEVICE major minor.

Definition sys_chdir (path : option (list Z)) : SM Z :=
  p ← myfiles;
  begin_op;;
  ip ← (match path with Some path => sfs (namei (cwd p) path junk) | None => ret None end);
  match ip with
  | None => end_op;; ret (-1)
  | Some ip =>
      sfs (ilock ip);;
      x ← sfs (inode_at ip);
      if negb (i_type x =? T_DIR) then sfs (iunlockput ip);; end_op;; ret (-1)
      else
        sfs (iunlock ip);;
        sfs (iput (cwd p));;
        end_op;;
        set_cwd ip;;
        ret 0
  end.

(** ** Pipes *)

Definition pipe_file (readable : bool) (pi : nat) (f : file) : file :=
  File FD_PIPE (f_ref f) readable (negb readable) pi (f_ip f) (f_off f) (f_major f).

(** [pipealloc] of kernel/pipe.c; [page] is what [kalloc] returns: the bytes of
    the data array in it. *)
Definition pipealloc (page : option (list Z)) : M (file_st (D := D)) (option (nat * nat)) :=
  f0 ← filealloc;
  match f0 with
  | None => ret None
  | Some f0 =>
      f1 ← filealloc;
      match f1, page with
      | Some f1, Some l =>
          s ← get;
          let pi := length (pipes s) in
          modify (λ s, FileSt (files s) (fsys s) (pipes s ++ [new_pipe l]) (devs s));;
          upd_file f0 (pipe_file true pi);;
          upd_file f1 (pipe_file false pi);;
          ret (Some (f0, f1))
      | Some f1, None => fileclose pid f0;; fileclose pid f1;; ret None
      | None, _ => fileclose pid f0;; ret None
      end
  end.

(** [copied]: both descriptors could be stored at the caller's address. *)
Definition sys_pipe (page : option (list Z)) (copied : bool) : SM (option (Z * Z) * Z) :=
  r ← on_file (pipealloc page);
  match r with
  | None => ret (None, -1)
  | Some (rf, wf) =>
      fd0 ← fdalloc rf;
      fd1 ← (if fd0 <? 0 then ret (-1) else fdalloc wf);
      if fd1 <? 0 then
        (if 0 <=? fd0 then set_fd (Z.to_nat fd0) None else ret tt);;
        on_file (fileclose pid rf);;
        on_file (fileclose pid wf);;
        ret (None, -1)
      else if copied then ret (Some (fd0, fd1), 0)
      else
        set_fd (Z.to_nat fd0) None;;
        set_fd (Z.to_nat fd1) None;;
        on_file (fileclose pid rf);;
        on_file (fileclose pid wf);;
        ret (None, -1)
  end.

End sysfile.

(** The files of a new process: the loop and the [idup] in [fork] of
    kernel/proc.c; process [me] forks [child]. *)
Definition fork_fds {D : Type} (me child : nat) : M (sys_st (D := D)) unit :=
  for_ 0 (Z.of_nat NOFILE) (λ k,
    let fd := Z.to_nat k in
    p ← myfiles me;
    match ofile p !!! fd with
    | Some f => on_file (filedup f);; set_fd child fd (Some f)
    | None => ret tt
    end);;
  p ← myfiles me;
  i ← sfs (idup (cwd p));
  set_cwd child i.

(** The files of a process that exits: [exit] of kernel/proc.c. *)
Definition exit_fds {D : Type} (pid : Z) (me : nat) : M (sys_st (D := D)) unit :=
  for_ 0 (Z.of_nat NOFILE) (λ k,
    let fd := Z.to_nat k in
    p ← myfiles me;
    match ofile p !!! fd with
    | Some f => on_file (fileclose pid f);; set_fd me fd None
    | None => ret tt
    end);;
  p ← myfiles me;
  on_file begin_fs_op;;
  sfs (Fs.iput (BL := log_layer pid) pid (cwd p));;
  on_file (end_fs_op pid);;
  set_cwd me 0.
