(* ===== verification/SysFileFacts.v ===== *)
(** * Reference counts of open files: kernel/sysfile.c over kernel/file.c

    [bal e s]: the reference count of every file is the number of descriptors
    that refer to it plus [e], the references the running call holds (or owes,
    when negative); a free file has type [FD_NONE]. *)

From S2P Require Import Prelude Proc Sh Machine Log BlockLayer LogLayer Fs FsWritei FsDir Pipe File SysFile.

(** ** Counting *)

Definition is_ref (f : nat) (o : option nat) : Z := if decide (o = Some f) then 1 else 0.
Fixpoint count (f : nat) (l : list (option nat)) : Z :=
  match l with [] => 0 | o :: l' => is_ref f o + count f l' end.
Fixpoint refs (f : nat) (ps : list pfiles) : Z :=
  match ps with [] => 0 | p :: ps' => count f (ofile p) + refs f ps' end.

Lemma is_ref_range f o : 0 ≤ is_ref f o ≤ 1.
Proof. unfold is_ref. destruct (decide _); lia. Qed.

Lemma is_ref_none f : is_ref f None = 0.
Proof. done. Qed.

Lemma count_range f l : 0 ≤ count f l ≤ Z.of_nat (length l).
Proof. induction l as [|o l IH]; cbn [count length]; [lia|]. pose proof (is_ref_range f o). lia. Qed.

Lemma refs_range f ps n : Forall (λ p, length (ofile p) = n) ps → 0 ≤ refs f ps ≤ Z.of_nat (length ps) * Z.of_nat n.
Proof.
  induction 1 as [|p ps Hp _ IH]; cbn [refs length]; [lia|]. pose proof (count_range f (ofile p)). rewrite Hp in *. lia.
Qed.

Lemma count_insert f l i o v : l !! i = Some o → count f (<[i := v]> l) = count f l - is_ref f o + is_ref f v.
Proof.
  revert i. induction l as [|o' l IH]; intros [|i] Hi; [done|done| |].
  - injection Hi as ->. cbn. lia.
  - change (<[S i := v]> (o' :: l)) with (o' :: <[i := v]> l). cbn [count]. rewrite (IH i Hi). lia.
Qed.

Lemma refs_alter f g ps i p : ps !! i = Some p → refs f (alter g i ps) = refs f ps - count f (ofile p) + count f (ofile (g p)).
Proof.
  revert i. induction ps as [|p' ps IH]; intros [|i] Hi; [done|done| |].
  - injection Hi as ->. cbn. lia.
  - change (alter g (S i) (p' :: ps)) with (p' :: alter g i ps). cbn [refs]. rewrite (IH i Hi). lia.
Qed.

(** ** The balance *)

Section balance.
Context {D : Type}.
Implicit Types (t : file_st (D := D)) (s : sys_st (D := D)) (e : nat → Z).

Record bal (e : nat → Z) s : Prop := {
  ba_files : length (files (fl s)) = NFILE;
  ba_procs : (length (procs s) ≤ NPROC)%nat;
  ba_tables : Forall (λ p, length (ofile p) = NOFILE) (procs s);
  ba_ref f : (f < NFILE)%nat → f_ref (files (fl s) !!! f) = refs f (procs s) + e f;
  ba_free f : f_ref (files (fl s) !!! f) = 0 → f_type (files (fl s) !!! f) = FD_NONE;
  ba_valid p fd f : p ∈ procs s → ofile p !! fd = Some (Some f) → (f < NFILE)%nat;
}.

Definition more (f : nat) e : nat → Z := λ g, e g + is_ref g (Some f).
Definition less (f : nat) e : nat → Z := λ g, e g - is_ref g (Some f).
Definition none : nat → Z := λ _, 0.

Lemma bal_ext e e' s : (∀ f, e f = e' f) → bal e s → bal e' s.
Proof. intros He [B1 B2 B3 B4 B5 B6]. split; try done. intros f Hf. rewrite <- He. by apply B4. Qed.

(** File-level steps that keep counts and types. *)
Definition same_refs t t' : Prop :=
  length (files t') = length (files t) ∧ ∀ f, f_ref (files t' !!! f) = f_ref (files t !!! f) ∧ f_type (files t' !!! f) = f_type (files t !!! f).

Lemma same_refs_refl t : same_refs t t.
Proof. done. Qed.
Lemma same_refs_trans t1 t2 t3 : same_refs t1 t2 → same_refs t2 t3 → same_refs t1 t3.
Proof. intros [L1 H1] [L2 H2]. split; [congruence|]. intros f. destruct (H1 f), (H2 f). split; congruence. Qed.

Lemma bal_same e s t : bal e s → same_refs (fl s) t → bal e (SysSt t (procs s)).
Proof.
  intros [B1 B2 B3 B4 B5 B6] [L H]. split; cbn [fl procs]; try done; [congruence|..].
  - intros f Hf. rewrite (proj1 (H f)). by apply B4.
  - intros f. rewrite (proj1 (H f)), (proj2 (H f)). apply B5.
Qed.

(** One file changes: its count by [k], its type to one that fits. *)
Lemma bal_upd e s f g k t :
  bal e s → (f < NFILE)%nat → f_ref (g (files (fl s) !!! f)) = f_ref (files (fl s) !!! f) + k →
  (f_ref (g (files (fl s) !!! f)) = 0 → f_type (g (files (fl s) !!! f)) = FD_NONE) →
  files t = <[f := g (files (fl s) !!! f)]> (files (fl s)) →
  bal (λ h, e h + (if decide (h = f) then k else 0)) (SysSt t (procs s)).
Proof.
  intros [B1 B2 B3 B4 B5 B6] Hf Hk Ht Et. split; cbn [fl procs]; try done; rewrite ?Et.
  - by rewrite length_insert.
  - intros h Hh. rewrite list_insert_lookup by lia. destruct (decide (h = f)) as [->|Hne]; rewrite ?Hk, B4 by done; lia.
  - intros h. rewrite list_insert_lookup by lia. destruct (decide (h = f)) as [->|Hne]; [done|apply B5].
Qed.

Lemma is_ref_some g f k : (if decide (g = f) then k else 0) = k * is_ref g (Some f).
Proof. unfold is_ref. destruct (decide (g = f)) as [->|H]; [rewrite decide_True by done; lia|]. rewrite decide_False by congruence. lia. Qed.

Lemma bal_more e s f g t :
  bal e s → (f < NFILE)%nat → f_ref (g (files (fl s) !!! f)) = f_ref (files (fl s) !!! f) + 1 →
  f_ref (files (fl s) !!! f) ≠ -1 → files t = <[f := g (files (fl s) !!! f)]> (files (fl s)) → bal (more f e) (SysSt t (procs s)).
Proof.
  intros HB Hf Hk Hn Et. eapply bal_ext; [|apply (bal_upd e s f g 1 t); [done|done|done| |done]].
  - intros h. unfold more. rewrite is_ref_some. lia.
  - rewrite Hk. lia.
Qed.

Lemma bal_less e s f g t :
  bal e s → (f < NFILE)%nat → f_ref (g (files (fl s) !!! f)) = f_ref (files (fl s) !!! f) - 1 →
  (f_ref (files (fl s) !!! f) = 1 → f_type (g (files (fl s) !!! f)) = FD_NONE) →
  files t = <[f := g (files (fl s) !!! f)]> (files (fl s)) → bal (less f e) (SysSt t (procs s)).
Proof.
  intros HB Hf Hk Hn Et. eapply bal_ext; [|apply (bal_upd e s f g (-1) t); [done|done|rewrite Hk; lia| |done]].
  - intros h. unfold less. rewrite is_ref_some. lia.
  - rewrite Hk. intros H. apply Hn. lia.
Qed.

(** A descriptor of process [me] changes. *)
Lemma bal_set_fd e s me p fd o v :
  bal e s → procs s !! me = Some p → ofile p !! fd = Some o → (∀ f, v = Some f → (f < NFILE)%nat) →
  bal (λ f, e f + is_ref f o - is_ref f v) (SysSt (fl s) (alter (λ p, PFiles (<[fd := v]> (ofile p)) (cwd p)) me (procs s))).
Proof.
  intros [B1 B2 B3 B4 B5 B6] Hp Ho Hv. split; cbn [fl procs]; try done.
  - by rewrite length_alter.
  - apply Forall_alter; [done|]. intros q Hq _. cbn. rewrite length_insert. by apply (Forall_lookup_1 _ _ _ _ B3 Hq).
  - intros f Hf. rewrite B4 by done. rewrite (refs_alter _ _ _ _ p Hp). cbn [ofile]. rewrite (count_insert _ _ _ _ _ Ho). lia.
  - intros q k f Hq Hk. apply list_elem_of_lookup_1 in Hq as [j Hj]. destruct (decide (j = me)) as [->|Hne].
    + rewrite list_lookup_alter_eq, Hp in Hj. injection Hj as <-. cbn in Hk. apply list_lookup_insert_Some in Hk as [(<- & E & _)|(_ & Hk)].
      * by apply Hv.
      * apply (B6 p k f); [by apply list_elem_of_lookup_2 with me|done].
    + rewrite list_lookup_alter_ne in Hj by done. apply (B6 q k f); [by apply list_elem_of_lookup_2 with j|done].
Qed.

Lemma bal_ref_small e s f : bal e s → (f < NFILE)%nat → -10 ≤ e f ≤ 10 → -10 ≤ f_ref (files (fl s) !!! f) ≤ 2 ^ 20.
Proof.
  intros [B1 B2 B3 B4 B5 B6] Hf He. rewrite B4 by done. pose proof (refs_range f _ _ B3). unfold NPROC, NOFILE in *. lia.
Qed.
End balance.

(** ** Routines that keep the counts *)

Section keep.
Context {D : Type} (pid : Z) (killed : Z → bool).
Context (devsw_read : Z → option (Z → M D (list Z * Z))) (devsw_write : Z → option ((Z → Z → list Z * bool) → Z → M D Z)).
Implicit Types (t : file_st (D := D)).

Definition kf {A} (m : M (file_st (D := D)) A) : Prop := ∀ t, wlp m (λ _ t', same_refs t t') t.

Lemma kf_files {A} (m : M (file_st (D := D)) A) : (∀ t, wlp m (λ _ t', files t' = files t) t) → kf m.
Proof. intros H t a t' E. unfold same_refs. by rewrite (H t a t' E). Qed.
Lemma kf_ret {A} (a : A) : kf (ret a).
Proof. intros t. by apply wlp_ret. Qed.
Lemma kf_panic {A} msg : kf (A := A) (panic msg).
Proof. intros t. apply wlp_panic. Qed.
Lemma kf_fuel {A} : kf (A := A) out_of_fuel.
Proof. by intros t a t'. Qed.
Lemma kf_fault {A} : kf (A := A) fault.
Proof. by intros t a t'. Qed.
Lemma kf_bind {A B} (m : M (file_st (D := D)) A) (k : A → M (file_st (D := D)) B) : kf m → (∀ a, kf (k a)) → kf (m ≫= k).
Proof.
  intros Hm Hk t. apply wlp_bind. eapply wlp_mono; [apply Hm|]. intros a t' H. eapply wlp_mono; [apply Hk|]. intros b t'' H'.
  exact (same_refs_trans _ _ _ H H').
Qed.
Lemma kf_on_fs {A} (m : M (fs_st log_st) A) : kf (on_fs m).
Proof. apply kf_files. intros t. by apply wlp_zoom. Qed.
Lemma kf_on_dev {A} (m : M D A) : kf (on_dev m).
Proof. apply kf_files. intros t. by apply wlp_zoom. Qed.
Lemma kf_gets {A} (h : file_st (D := D) → A) : kf (gets h).
Proof. intros t. by apply wlp_gets. Qed.
Lemma kf_get : kf get.
Proof. intros t. by apply wlp_get. Qed.
Lemma kf_set_pipe p x : kf (set_pipe p x).
Proof. apply kf_files. intros t. by apply wlp_modify. Qed.
Lemma kf_upd f g : (∀ x, f_ref (g x) = f_ref x ∧ f_type (g x) = f_type x) → kf (upd_file f g).
Proof.
  intros Hg t. apply wlp_modify. split; cbn [files]; [by rewrite length_insert|]. intros h.
  destruct (decide (f < length (files t))%nat) as [Hf|Hf]; [|by rewrite list_insert_ge by lia].
  rewrite list_insert_lookup by done. destruct (decide (h = f)) as [->|]; [apply Hg|done].
Qed.

Ltac kf_step :=
  first
    [ apply kf_bind; [|intros ?] | apply kf_ret | apply kf_panic | apply kf_fuel | apply kf_fault | apply kf_on_fs | apply kf_on_dev
    | apply kf_gets | apply kf_get | apply kf_set_pipe | apply kf_upd; done
    | match goal with |- kf (match ?x with _ => _ end) => destruct x end ].
Ltac kf_tac := repeat kf_step.

Lemma kf_begin : kf begin_fs_op.
Proof. unfold begin_fs_op. kf_tac. Qed.
Lemma kf_end : kf (end_fs_op pid).
Proof. unfold end_fs_op. kf_tac. Qed.
Lemma kf_close_pipe p w : kf (close_pipe p w).
Proof. unfold close_pipe. kf_tac. Qed.
Lemma kf_filestat f c : kf (filestat pid f c).
Proof. unfold filestat, file_at. kf_tac. Qed.
Lemma kf_fileread f uout n : kf (fileread pid killed devsw_read f uout n).
Proof. unfold fileread, read_pipe, file_at. kf_tac. Qed.
Lemma kf_filewrite f uin n : kf (filewrite pid killed devsw_write f uin n).
Proof.
  assert (∀ fuel i, kf (filewrite_loop pid fuel f uin n i)) as Hloop.
  { induction fuel as [|fuel IH]; intros i; cbn [filewrite_loop]; kf_tac; unfold filewrite_op, file_at; kf_tac; try apply kf_begin; try apply kf_end.
    apply IH. }
  unfold filewrite, write_pipe, file_at. kf_tac. apply Hloop.
Qed.
End keep.
