(* ===== verification/SysFileTheorems.v ===== *)
(** * Descriptors and reference counts

    After any sequence of file system calls by any processes, the reference count
    of every open file is the number of descriptors that refer to it. *)

From S2P Require Import Prelude Proc Sh Machine Log BlockLayer LogLayer Fs FsWritei FsDir Pipe File SysFile SysFileFacts.

Section calls.
Context {D : Type} (pid : Z) (killed : Z → bool) (me : nat) (junk : list Z).
Context (devsw_read : Z → option (Z → M D (list Z * Z))) (devsw_write : Z → option ((Z → Z → list Z * bool) → Z → M D Z)).
Implicit Types (s : sys_st (D := D)) (e : nat → Z).

(** The calling process is in the table. *)
Definition J e s : Prop := bal e s ∧ (me < length (procs s))%nat.

(** Descriptor [fd] of the caller refers to [f]. *)
Definition has_fd s (fd f : nat) : Prop := ∃ p, procs s !! me = Some p ∧ ofile p !! fd = Some (Some f).

Lemma J_same e s t : J e s → same_refs (fl s) t → J e (SysSt t (procs s)).
Proof. intros [HB Hm] H. split; [by apply bal_same|done]. Qed.

Lemma J_none e s : J e s → (∀ f, e f = 0) → J none s.
Proof. intros [HB Hm] H. split; [|done]. by eapply bal_ext. Qed.

Lemma has_fd_valid e s fd f : J e s → has_fd s fd f → (f < NFILE)%nat.
Proof. intros [HB _] (p & Hp & Hf). apply (ba_valid _ _ HB p fd f); [by apply list_elem_of_lookup_2 with me|done]. Qed.

(** ** The routines that move references *)

Lemma wlp_filealloc e s (Q : option nat → sys_st → Prop) :
  J e s → (∀ f s', (f < NFILE)%nat → J (more f e) s' → Q (Some f) s') → Q None s → wlp (on_file filealloc) Q s.
Proof.
  intros [HB Hm] HS HN. apply wlp_zoom. intros r t E.
  assert (wlp filealloc (λ r t, match r with
    | Some f => (f < NFILE)%nat ∧ f_ref (files (fl s) !!! f) = 0 ∧ files t = <[f := set_fref 1 (files (fl s) !!! f)]> (files (fl s))
    | None => t = fl s end) (fl s)) as H.
  { unfold filealloc. apply (wlp_for_exit (λ _ t, t = fl s)); [lia|done| |by intros t' ->].
    intros k t' Hk ->. unfold file_at. wlp_step. wlp_step. destruct (Z.eqb_spec (f_ref (files (fl s) !!! Z.to_nat k)) 0) as [E0|Hne]; [|by wlp_step].
    unfold upd_file. wlp_step. wlp_step. wlp_step. split; [lia|]. split; [done|done]. }
  specialize (H r t E). destruct r as [f|]; [|subst t; by destruct s].
  destruct H as (Hf & E0 & Et). apply (HS f); [done|]. split; [|done]. apply (bal_more e s f (set_fref 1)); try done; cbn; lia.
Qed.

Lemma wlp_filedup e s f (Q : nat → sys_st → Prop) :
  J e s → (f < NFILE)%nat → -10 ≤ e f ≤ 10 → (∀ s', J (more f e) s' → procs s' = procs s → Q f s') → wlp (on_file (filedup f)) Q s.
Proof.
  intros [HB Hm] Hf He HQ. apply wlp_zoom. pose proof (bal_ref_small e s f HB Hf He) as Hs. intros r t.
  unfold filedup, file_at, mbind, M_bind, gets. destruct (Z.ltb_spec (f_ref (files (fl s) !!! f)) 1); [done|]. cbn. intros [= <- <-].
  apply HQ; [|done]. split; [|done]. apply (bal_more e s f (λ x, set_fref (s32 (f_ref x + 1)) x)); try done; [|lia]. cbn.
  rewrite s32_small by lia. done.
Qed.

Lemma wlp_fileclose e s f (Q : unit → sys_st → Prop) :
  J e s → (f < NFILE)%nat → (∀ s', J (less f e) s' → procs s' = procs s → Q tt s') → wlp (on_file (fileclose pid f)) Q s.
Proof.
  intros [HB Hm] Hf HQ. apply wlp_zoom. set (x := files (fl s) !!! f).
  assert (wlp (fileclose pid f) (λ _ t, bal (less f e) (SysSt t (procs s))) (fl s)) as H.
  2:{ intros [] t E. apply HQ; [|done]. split; [|done]. exact (H tt t E). }
  unfold fileclose, file_at. wlp_step. wlp_step. fold x. destruct (Z.ltb_spec (f_ref x) 1); [wlp_step|].
  destruct (Z.ltb_spec 0 (f_ref x - 1)).
  { unfold upd_file. wlp_step. apply (bal_less e s f (set_fref (f_ref x - 1))); try done. fold x. lia. }
  wlp_step. unfold upd_file. wlp_step. set (t1 := FileSt _ _ _ _).
  assert (bal (less f e) (SysSt t1 (procs s))) as HB1.
  { apply (bal_less e s f (λ y, set_ftype FD_NONE (set_fref 0 y))); try done. cbn. fold x. lia. }
  assert (∀ A (m : M (file_st (D := D)) A), kf m → wlp m (λ _ t, bal (less f e) (SysSt t (procs s))) t1) as Hk.
  { intros A m Hm'. eapply wlp_mono; [apply Hm'|]. intros a t Ht. apply (bal_same _ _ _ HB1 Ht). }
  assert (kf (D := D) (begin_fs_op;; on_fs (Fs.iput (BL := log_layer pid) pid (f_ip x));; end_fs_op pid)) as Hput.
  { apply kf_bind; [apply kf_begin|]. intros _. apply kf_bind; [apply kf_on_fs|]. intros _. apply kf_end. }
  destruct (f_type x); [by wlp_step|apply Hk, kf_close_pipe|by apply Hk|by apply Hk].
Qed.

Lemma myfile_at s p : procs s !! me = Some p → procs s !!! me = p.
Proof. apply list_lookup_total_correct. Qed.

Lemma wlp_fdalloc e s f (Q : Z → sys_st → Prop) :
  J e s → (f < NFILE)%nat →
  (∀ fd s', 0 ≤ fd < Z.of_nat NOFILE → has_fd s' (Z.to_nat fd) f → (∀ k g, has_fd s k g → has_fd s' k g ∧ k ≠ Z.to_nat fd) → J (less f e) s' → Q fd s') →
  Q (-1) s → wlp (fdalloc me f) Q s.
Proof.
  intros [HB Hm] Hf HS HN. unfold fdalloc. wlp_step. destruct (lookup_lt_is_Some_2 (procs s) me Hm) as [p Hp].
  pose proof (Forall_lookup_1 _ _ _ _ (ba_tables _ _ HB) Hp) as Hlen. cbn in Hlen.
  apply (wlp_for_exit (λ _ s', s' = s)); [lia|done| |by intros s' ->; wlp_step].
  intros k s' Hk ->. unfold myfiles. wlp_step. wlp_step. rewrite (myfile_at s p Hp).
  destruct (lookup_lt_is_Some_2 (ofile p) (Z.to_nat k)) as [o Ho]; [lia|]. rewrite (list_lookup_total_correct _ _ _ Ho).
  destruct o as [g|]; [by wlp_step|]. unfold set_fd. wlp_step. wlp_step. wlp_step. wlp_step.
  set (s1 := SysSt _ _). change (Q k s1). assert (procs s1 !! me = Some (PFiles (<[Z.to_nat k := Some f]> (ofile p)) (cwd p))) as Hp1.
  { cbn. by rewrite list_lookup_alter_eq, Hp. }
  apply HS; [lia| | |].
  - eexists. split; [exact Hp1|]. cbn. apply list_lookup_insert_eq. by apply lookup_lt_Some in Ho.
  - intros j g (q & Hq & Hg). rewrite Hp in Hq. injection Hq as <-. assert (j ≠ Z.to_nat k) as Hne by congruence. split; [|done].
    eexists. split; [exact Hp1|]. cbn. by rewrite list_lookup_insert_ne.
  - split; [|by cbn; rewrite length_alter]. eapply bal_ext; [|apply (bal_set_fd e s me p (Z.to_nat k) None (Some f)); try done].
    + intros h. unfold less. rewrite is_ref_none. lia.
    + by intros g [= <-].
Qed.

Lemma wlp_clear_fd e s fd f (Q : unit → sys_st → Prop) :
  J e s → has_fd s fd f → (∀ s', J (more f e) s' → (∀ k g, k ≠ fd → has_fd s k g → has_fd s' k g) → Q tt s') →
  wlp (set_fd me fd None) Q s.
Proof.
  intros [HB Hm] (p & Hp & Hf) HQ. unfold set_fd. wlp_step. apply HQ.
  - split; [|by cbn; rewrite length_alter]. eapply bal_ext; [|apply (bal_set_fd e s me p fd (Some f) None); done].
    intros h. unfold more. rewrite is_ref_none. lia.
  - intros k g Hne (q & Hq & Hg). rewrite Hp in Hq. injection Hq as <-. eexists. split; [cbn; by rewrite list_lookup_alter_eq, Hp|].
    cbn. by rewrite list_lookup_insert_ne.
Qed.

(** A descriptor argument. *)
Lemma wlp_argfd e s fd (Q : option nat → sys_st → Prop) :
  J e s → (∀ f, 0 ≤ fd < Z.of_nat NOFILE → has_fd s (Z.to_nat fd) f → Q (Some f) s) → Q None s → wlp (argfd me fd) Q s.
Proof.
  intros [HB Hm] HS HN. unfold argfd, myfiles. wlp_step. wlp_step. wlp_step. destruct (lookup_lt_is_Some_2 (procs s) me Hm) as [p Hp].
  rewrite (myfile_at s p Hp). pose proof (Forall_lookup_1 _ _ _ _ (ba_tables _ _ HB) Hp) as Hlen. cbn in Hlen.
  destruct (Z.ltb_spec fd 0); [done|]. destruct (Z.leb_spec (Z.of_nat NOFILE) fd); [done|]. cbn [orb].
  destruct (lookup_lt_is_Some_2 (ofile p) (Z.to_nat fd)) as [o Ho]; [lia|]. rewrite (list_lookup_total_correct _ _ _ Ho).
  destruct o as [f|]; [|done]. apply HS; [lia|]. by exists p.
Qed.

(** ** The calls *)

Definition ks {A} (m : M (sys_st (D := D)) A) : Prop := ∀ s, J none s → wlp m (λ _ s', J none s') s.

Lemma ks_ret {A} (a : A) : ks (ret a).
Proof. intros s HJ. by apply wlp_ret. Qed.
Lemma ks_panic {A} msg : ks (A := A) (panic msg).
Proof. intros s HJ. apply wlp_panic. Qed.
Lemma ks_bind {A B} (m : M (sys_st (D := D)) A) (k : A → M (sys_st (D := D)) B) : ks m → (∀ a, ks (k a)) → ks (m ≫= k).
Proof. intros Hm Hk s HJ. apply wlp_bind. eapply wlp_mono; [by apply Hm|]. intros a s' H. by apply Hk. Qed.
Lemma ks_file {A} (m : M (file_st (D := D)) A) : kf m → ks (on_file m).
Proof. intros Hm s HJ. apply wlp_zoom. intros a t E. apply J_same; [done|]. by apply (Hm (fl s) a t). Qed.
Lemma ks_sfs {A} (m : M (fs_st log_st) A) : ks (sfs m).
Proof. apply ks_file, kf_on_fs. Qed.
Lemma ks_myfiles : ks (myfiles me).
Proof. intros s HJ. by apply wlp_gets. Qed.
Lemma ks_begin : ks (on_file begin_fs_op).
Proof. apply ks_file, kf_begin. Qed.
Lemma ks_end : ks (on_file (end_fs_op pid)).
Proof. apply ks_file, kf_end. Qed.

(** Changes of a working directory. *)
Lemma J_set_cwd e s p' i : J e s → J e (SysSt (fl s) (alter (λ p, PFiles (ofile p) i) p' (procs s))).
Proof.
  intros [[B1 B2 B3 B4 B5 B6] Hm]. assert (∀ f, refs f (alter (λ p, PFiles (ofile p) i) p' (procs s)) = refs f (procs s)) as Hr.
  { intros f. destruct (procs s !! p') as [q|] eqn:E; [rewrite (refs_alter _ _ _ _ q E); cbn; lia|].
    assert (alter (λ p, PFiles (ofile p) i) p' (procs s) = procs s) as ->; [|done]. apply list_eq. intros k.
    destruct (decide (k = p')) as [->|]; [by rewrite list_lookup_alter_eq, E|by rewrite list_lookup_alter_ne]. }
  split; [|by cbn; rewrite length_alter]. split; cbn [fl procs]; try done.
  - by rewrite length_alter.
  - apply Forall_alter; [done|]. intros q Hq _. cbn. by apply (Forall_lookup_1 _ _ _ _ B3 Hq).
  - intros f Hf. rewrite Hr. by apply B4.
  - intros q k f Hq. apply list_elem_of_lookup_1 in Hq as [j Hj]. destruct (decide (j = p')) as [->|Hne].
    + rewrite list_lookup_alter_eq in Hj. destruct (procs s !! p') as [q'|] eqn:E; [|done]. injection Hj as <-. cbn.
      apply (B6 q' k f). by apply list_elem_of_lookup_2 with p'.
    + rewrite list_lookup_alter_ne in Hj by done. apply (B6 q k f). by apply list_elem_of_lookup_2 with j.
Qed.
Lemma ks_set_cwd p' i : ks (set_cwd p' i).
Proof. intros s HJ. unfold set_cwd. wlp_step. by apply J_set_cwd. Qed.

Ltac ks_step :=
  first
    [ apply ks_bind; [|intros ?] | apply ks_ret | apply ks_panic | apply ks_sfs | apply ks_begin | apply ks_end | apply ks_myfiles | apply ks_set_cwd
    | match goal with |- ks (match ?x with _ => _ end) => destruct x end ].
Ltac ks_tac := repeat ks_step.

Lemma ks_link old new : ks (sys_link pid me junk old new).
Proof. unfold sys_link, link_bad. ks_tac. Qed.
Lemma ks_unlink path : ks (sys_unlink pid me junk path).
Proof. unfold sys_unlink, unlink_bad. ks_tac. Qed.
Lemma ks_make_node path type major minor : ks (make_node pid me junk path type major minor).
Proof. unfold make_node. ks_tac. Qed.
Lemma ks_chdir path : ks (sys_chdir pid me junk path).
Proof. unfold sys_chdir. ks_tac. Qed.

Lemma ks_argfd {A} fd (k : option nat → M (sys_st (D := D)) A) :
  ks (k None) → (∀ f s, J none s → 0 ≤ fd < Z.of_nat NOFILE → has_fd s (Z.to_nat fd) f → wlp (k (Some f)) (λ _ s', J none s') s) →
  ks (argfd me fd ≫= k).
Proof. intros HN HS s HJ. apply wlp_bind, (wlp_argfd none s fd); [done| |by apply HN]. intros f Hr Hf. by apply HS. Qed.

Lemma ks_read fd uout n : ks (sys_read pid killed me devsw_read fd uout n).
Proof. apply ks_argfd; [apply ks_ret|]. intros f s HJ _ _. by apply ks_file; [apply kf_fileread|]. Qed.
Lemma ks_write fd uin n : ks (sys_write pid killed me devsw_write fd uin n).
Proof. apply ks_argfd; [apply ks_ret|]. intros f s HJ _ _. by apply ks_file; [apply kf_filewrite|]. Qed.
Lemma ks_fstat fd c : ks (sys_fstat pid me fd c).
Proof. apply ks_argfd; [apply ks_ret|]. intros f s HJ _ _. by apply ks_file; [apply kf_filestat|]. Qed.

Lemma more_less f e g : more f (less f e) g = e g.
Proof. unfold more, less. lia. Qed.
Lemma less_more f e g : less f (more f e) g = e g.
Proof. unfold more, less. lia. Qed.

Lemma ks_close fd : ks (sys_close pid me fd).
Proof.
  apply ks_argfd; [apply ks_ret|]. intros f s HJ Hr Hf. pose proof (has_fd_valid _ _ _ _ HJ Hf) as Hv.
  wlp_step. apply (wlp_clear_fd none s _ f); [done|done|]. intros s1 HJ1 _. wlp_step. apply (wlp_fileclose (more f none) s1 f); [done|done|].
  intros s2 HJ2 _. wlp_step. apply (J_none _ _ HJ2). intros g. apply less_more.
Qed.

Lemma ks_dup fd : ks (sys_dup me fd).
Proof.
  apply ks_argfd; [apply ks_ret|]. intros f s HJ Hr Hf. pose proof (has_fd_valid _ _ _ _ HJ Hf) as Hv.
  wlp_step. apply (wlp_fdalloc none s f); [done|done| |change (-1 <? 0) with true; cbv iota; by wlp_step]. intros fd' s1 Hr' _ _ HJ1.
  destruct (Z.ltb_spec fd' 0); [lia|]. wlp_step. apply (wlp_filedup (less f none) s1 f); [done|done| |].
  { unfold less, none. pose proof (is_ref_range f (Some f)). lia. }
  intros s2 HJ2 _. wlp_step. apply (J_none _ _ HJ2). intros g. apply more_less.
Qed.


(** A file with references keeps them when its other fields are set. *)
Lemma wlp_set_fields e s f g (Q : unit → sys_st → Prop) :
  J e s → (f < NFILE)%nat → (∀ x, f_ref (g x) = f_ref x) → f_ref (files (fl s) !!! f) ≠ 0 →
  (∀ s', J e s' → procs s' = procs s → (∀ h, f_ref (files (fl s') !!! h) = f_ref (files (fl s) !!! h)) → Q tt s') → wlp (on_file (upd_file f g)) Q s.
Proof.
  intros [HB Hm] Hf Hg Hr HQ. apply wlp_zoom. intros [] t [= <-]. apply HQ; [|done|].
  - split; [|done]. eapply bal_ext; [|apply (bal_upd e s f g 0); try done].
    + intros h. cbn. destruct (decide _); lia.
    + rewrite Hg. lia.
    + rewrite Hg. done.
  - intros h. cbn [fl files]. rewrite list_insert_lookup by (rewrite (ba_files _ _ HB); done).
    destruct (decide (h = f)) as [->|]; [apply Hg|done].
Qed.

Lemma refs_has s fd f : has_fd s fd f → Forall (λ p, length (ofile p) = NOFILE) (procs s) → 1 ≤ refs f (procs s).
Proof.
  intros (p & Hp & Hf) HT. rewrite <- (take_drop_middle _ _ _ Hp) in HT |- *. apply Forall_app in HT as [H1 H2]. apply Forall_cons in H2 as [_ H2].
  assert (∀ l l', refs f (l ++ l') = refs f l + refs f l') as Happ by (intros l l'; induction l; cbn; lia).
  rewrite Happ. cbn [refs]. pose proof (refs_range f _ _ H1). pose proof (refs_range f _ _ H2).
  assert (1 ≤ count f (ofile p)); [|lia]. clear -Hf. revert fd Hf. induction (ofile p) as [|o l IH]; intros [|fd] Hf; [done|done| |].
  - injection Hf as ->. cbn. pose proof (count_range f l). unfold is_ref. rewrite decide_True by done. lia.
  - cbn. pose proof (is_ref_range f o). specialize (IH fd Hf). lia.
Qed.

Lemma has_fd_ref e s fd f : J e s → 0 ≤ e f → has_fd s fd f → f_ref (files (fl s) !!! f) ≠ 0.
Proof.
  intros HJ He Hf. pose proof (has_fd_valid _ _ _ _ HJ Hf) as Hv. destruct HJ as [HB _]. rewrite (ba_ref _ _ HB) by done.
  pose proof (refs_has _ _ _ Hf (ba_tables _ _ HB)). lia.
Qed.

Lemma ks_wlp {A} (m : M (sys_st (D := D)) A) s : ks m → J none s → wlp m (λ _ s', J none s') s.
Proof. intros Hm HJ. by apply Hm. Qed.

Lemma ks_open path omode : ks (sys_open pid me junk path omode).
Proof.
  unfold sys_open. destruct path as [path|]; [|apply ks_ret]. apply ks_bind; [apply ks_myfiles|]. intros p.
  apply ks_bind; [apply ks_begin|]. intros _. apply ks_bind; [apply ks_sfs|]. intros [ip|]; [|ks_tac].
  apply ks_bind; [apply ks_sfs|]. intros x. destruct (_ && _); [ks_tac|]. intros s HJ.
  wlp_step. apply (wlp_filealloc none s); [done| |].
  2:{ wlp_step. wlp_step. apply ks_wlp; [ks_tac|done]. }
  intros f s1 Hf HJ1. wlp_step. apply (wlp_fdalloc (more f none) s1 f); [done|done| |].
  - intros fd s2 Hfd Hhas _ HJ2. rewrite (proj2 (Z.ltb_ge fd 0)) by lia. apply (J_none _ _) in HJ2; [|intros g; apply less_more].
    wlp_step. apply (wlp_set_fields none s2 f); [done|done| |by eapply has_fd_ref|].
    { intros y. unfold open_file. by destruct (_ =? _). }
    intros s3 HJ3 _ _. apply ks_wlp; [|done]. ks_tac.
  - change (-1 <? 0) with true. cbv iota. wlp_step. apply (wlp_fileclose (more f none) s1 f); [done|done|].
    intros s2 HJ2 _. apply ks_wlp; [ks_tac|]. apply (J_none _ _ HJ2). intros g. apply less_more.
Qed.

(** ** Pipes *)

Lemma wlp_on_file_bind {A B} (m : M (file_st (D := D)) A) (k : A → M (file_st (D := D)) B) (Q : B → sys_st → Prop) s :
  wlp (on_file m) (λ a, wlp (on_file (k a)) Q) s → wlp (on_file (m ≫= k)) Q s.
Proof.
  intros H. apply wlp_zoom. intros b t. unfold mbind, M_bind. destruct (m (fl s)) as [[a t1]| | |] eqn:E; [|done..]. intros Ek.
  apply (H a (SysSt t1 (procs s)) ltac:(unfold on_file, zoom; by rewrite E) b). unfold on_file, zoom. cbn [fl]. by rewrite Ek.
Qed.

Lemma wlp_kf {A} e s (m : M (file_st (D := D)) A) (Q : A → sys_st → Prop) :
  kf m → J e s → (∀ a s', J e s' → Q a s') → wlp (on_file m) Q s.
Proof. intros Hm HJ HQ. apply wlp_zoom. intros a t E. apply HQ, J_same; [done|]. by apply (Hm (fl s) a t). Qed.

Lemma wlp_on_ret {A} (a : A) (Q : A → sys_st → Prop) s : Q a s → wlp (on_file (ret a)) Q s.
Proof. intros HQ. apply wlp_zoom. intros a' t [= <- <-]. by destruct s. Qed.

Lemma J_ref e s f : J e s → (f < NFILE)%nat → 1 ≤ e f → f_ref (files (fl s) !!! f) ≠ 0.
Proof. intros [HB _] Hf He. rewrite (ba_ref _ _ HB) by done. pose proof (refs_range f _ _ (ba_tables _ _ HB)). lia. Qed.

Lemma more_pos f e : 0 ≤ e f → 1 ≤ more f e f.
Proof. intros H. unfold more, is_ref. rewrite decide_True by done. lia. Qed.
Lemma more_ge f g e : e g ≤ more f e g.
Proof. unfold more. pose proof (is_ref_range g (Some f)). lia. Qed.

Lemma wlp_pipealloc s page (Q : option (nat * nat) → sys_st → Prop) :
  J none s → (∀ f0 f1 s', (f0 < NFILE)%nat → (f1 < NFILE)%nat → J (more f1 (more f0 none)) s' → Q (Some (f0, f1)) s') →
  (∀ s', J none s' → Q None s') → wlp (on_file (pipealloc pid page)) Q s.
Proof.
  intros HJ HS HN. unfold pipealloc. apply wlp_on_file_bind, (wlp_filealloc none s); [done| |by apply wlp_on_ret, HN].
  intros f0 s1 H0 HJ1. apply wlp_on_file_bind, (wlp_filealloc (more f0 none) s1); [done| |].
  2:{ apply wlp_on_file_bind, (wlp_fileclose (more f0 none) s1); [done|done|]. intros s2 HJ2 _.
      apply wlp_on_ret, HN, (J_none _ _ HJ2). intros g. apply less_more. }
  intros f1 s2 H1 HJ2. set (e := more f1 (more f0 none)) in *. destruct page as [l|].
  - apply wlp_on_file_bind, (wlp_kf e s2); [apply kf_get|done|]. intros t s3 HJ3.
    apply wlp_on_file_bind, (wlp_kf e s3); [apply kf_files; intros t'; by apply wlp_modify|done|]. intros _ s4 HJ4.
    assert (1 ≤ e f0) as E0 by (etrans; [|apply more_ge]; by apply more_pos).
    assert (1 ≤ e f1) as E1 by (apply more_pos; etrans; [|apply more_ge]; done).
    apply wlp_on_file_bind, (wlp_set_fields e s4 f0); [done|done|done|by apply J_ref with e|]. intros s5 HJ5 _ _.
    apply wlp_on_file_bind, (wlp_set_fields e s5 f1); [done|done|done|by apply J_ref with e|]. intros s6 HJ6 _ _.
    apply wlp_on_ret. by apply HS.
  - apply wlp_on_file_bind, (wlp_fileclose e s2); [done|done|]. intros s3 HJ3 _.
    apply wlp_on_file_bind, (wlp_fileclose (less f0 e) s3); [done|done|]. intros s4 HJ4 _.
    apply wlp_on_ret, HN, (J_none _ _ HJ4). intros g. unfold e, more, less, none. lia.
Qed.

Lemma ks_pipe page copied : ks (sys_pipe pid me page copied).
Proof.
  intros s HJ. unfold sys_pipe. wlp_step. apply wlp_pipealloc; [done| |by intros s1 HJ1; wlp_step].
  intros rf wf s1 Hr Hw HJ1. set (e := more wf (more rf none)) in *.
  assert (∀ s e', J e' s → (∀ g, e' g = e g) → wlp (on_file (fileclose pid rf);; on_file (fileclose pid wf);; ret (@None (Z * Z), -1)) (λ _ s', J none s') s) as Hclose.
  { intros s2 e' HJ2 He. wlp_step. apply (wlp_fileclose e' s2); [done|done|]. intros s3 HJ3 _.
    wlp_step. apply (wlp_fileclose (less rf e') s3); [done|done|]. intros s4 HJ4 _. wlp_step. apply (J_none _ _ HJ4).
    intros g. unfold less. rewrite He. unfold e, more, none. lia. }
  wlp_step. apply (wlp_fdalloc e s1 rf); [done|done| |].
  2:{ change (-1 <? 0) with true. cbv iota. wlp_step. wlp_step. change (-1 <? 0) with true. change (0 <=? -1) with false. cbv iota.
      wlp_step. wlp_step. by apply (Hclose s1 e). }
  intros fd0 s2 Hf0 Hhas0 _ HJ2. rewrite (proj2 (Z.ltb_ge fd0 0)), (proj2 (Z.leb_le 0 fd0)) by lia.
  wlp_step. apply (wlp_fdalloc (less rf e) s2 wf); [done|done| |].
  - intros fd1 s3 Hf1 Hhas1 Hkeep HJ3. rewrite (proj2 (Z.ltb_ge fd1 0)) by lia. destruct copied.
    { wlp_step. apply (J_none _ _ HJ3). intros g. unfold e, more, less, none. lia. }
    destruct (Hkeep _ _ Hhas0) as [Hhas0' Hne]. wlp_step. apply (wlp_clear_fd (less wf (less rf e)) s3 _ rf); [done|done|]. intros s4 HJ4 Hk4.
    wlp_step. apply (wlp_clear_fd (more rf (less wf (less rf e))) s4 _ wf); [done|by apply Hk4|]. intros s5 HJ5 _.
    eapply Hclose; [exact HJ5|]. intros g. unfold more, less. lia.
  - change (-1 <? 0) with true. cbv iota. wlp_step. apply (wlp_clear_fd (less rf e) s2 _ rf); [done|done|]. intros s3 HJ3 _.
    eapply Hclose; [exact HJ3|]. intros g. apply more_less.
Qed.


(** ** Fork and exit *)

Lemma ks_exit : ks (exit_fds pid me).
Proof.
  unfold exit_fds. apply ks_bind; [|intros []; ks_tac]. intros s HJ.
  apply (wlp_for (λ _ s', J none s')); [lia|done| |done]. clear s HJ. intros k s Hk HJ. unfold myfiles. wlp_step. wlp_step.
  destruct (lookup_lt_is_Some_2 (procs s) me (proj2 HJ)) as [p Hp]. rewrite (myfile_at s p Hp).
  destruct (ofile p !!! Z.to_nat k) as [f|] eqn:Ef; [|by wlp_step].
  pose proof (Forall_lookup_1 _ _ _ _ (ba_tables _ _ (proj1 HJ)) Hp) as Hlen. cbn in Hlen.
  assert (has_fd s (Z.to_nat k) f) as Hf.
  { exists p. split; [done|]. rewrite list_lookup_lookup_total_lt by lia. by rewrite Ef. }
  pose proof (has_fd_valid _ _ _ _ HJ Hf) as Hv. wlp_step. apply (wlp_fileclose none s f); [done|done|]. intros s1 HJ1 E1.
  apply (wlp_clear_fd (less f none) s1 _ f); [done| |].
  { destruct Hf as (q & Hq & Hg). exists q. by rewrite E1. }
  intros s2 HJ2 _. apply (J_none _ _ HJ2). intros g. apply more_less.
Qed.

(** From [k] on the child has no descriptors. *)
Definition empty_from (child : nat) (k : Z) s : Prop :=
  ∃ p, procs s !! child = Some p ∧ ∀ j, k ≤ Z.of_nat j < Z.of_nat NOFILE → ofile p !! j = Some None.

Lemma ks_fork child s : J none s → empty_from child 0 s → wlp (fork_fds me child) (λ _ s', J none s') s.
Proof.
  intros HJ HE. unfold fork_fds. wlp_step. apply (wlp_for (λ k s', J none s' ∧ empty_from child k s')); [lia|done| |].
  2:{ intros s1 [HJ1 _]. apply ks_wlp; [ks_tac|done]. }
  clear s HJ HE. intros k s Hk [HJ (q & Hq & Hnone)]. unfold myfiles. wlp_step. wlp_step.
  destruct (lookup_lt_is_Some_2 (procs s) me (proj2 HJ)) as [p Hp]. rewrite (myfile_at s p Hp).
  destruct (ofile p !!! Z.to_nat k) as [f|] eqn:Ef.
  2:{ wlp_step. split; [done|]. exists q. split; [done|]. intros j Hj. apply Hnone. lia. }
  pose proof (Forall_lookup_1 _ _ _ _ (ba_tables _ _ (proj1 HJ)) Hp) as Hlen. cbn in Hlen.
  assert (has_fd s (Z.to_nat k) f) as Hf.
  { exists p. split; [done|]. rewrite list_lookup_lookup_total_lt by lia. by rewrite Ef. }
  pose proof (has_fd_valid _ _ _ _ HJ Hf) as Hv. wlp_step. apply wlp_filedup with none; [done|done|done|]. intros s1 HJ1 E1.
  unfold set_fd. wlp_step. rewrite <- E1 in Hq. split.
  - split; [|cbn; rewrite length_alter; apply HJ1]. eapply bal_ext; [|apply (bal_set_fd (more f none) s1 child q (Z.to_nat k) None (Some f)); [apply HJ1|done| |]].
    + intros g. unfold more. rewrite is_ref_none. unfold none. lia.
    + apply Hnone. lia.
    + by intros g [= <-].
  - eexists. split; [cbn; by rewrite list_lookup_alter_eq, Hq|]. intros j Hj. cbn. rewrite list_lookup_insert_ne by lia. apply Hnone. lia.
Qed.

End calls.

(** ** Sequences of calls *)

Inductive call :=
  | CDup (fd : Z)
  | CRead (fd : Z) (uout : Z → bool) (n : Z)
  | CWrite (fd : Z) (uin : Z → Z → list Z * bool) (n : Z)
  | CClose (fd : Z)
  | CFstat (fd : Z) (copied : bool)
  | CLink (old new : option (list Z))
  | CUnlink (path : option (list Z))
  | COpen (path : option (list Z)) (omode : Z)
  | CMkdir (path : option (list Z))
  | CMknod (path : option (list Z)) (major minor : Z)
  | CChdir (path : option (list Z))
  | CPipe (page : option (list Z)) (copied : bool)
  | CFork (child : nat)
  | CExit.

Section run.
Context {D : Type} (killed : Z → bool) (junk : list Z).
Context (devsw_read : Z → option (Z → M D (list Z * Z))) (devsw_write : Z → option ((Z → Z → list Z * bool) → Z → M D Z)).
Abbreviation SM := (M (sys_st (D := D))).

Definition no_fds (p : pfiles) : bool := bool_decide (ofile p = replicate NOFILE None).

(** Process [me] makes a call; a fork is into a process without descriptors. *)
Definition do_call (pid : Z) (me : nat) (c : call) : SM unit :=
  match c with
  | CDup fd => sys_dup me fd;; ret tt
  | CRead fd uout n => sys_read pid killed me devsw_read fd uout n;; ret tt
  | CWrite fd uin n => sys_write pid killed me devsw_write fd uin n;; ret tt
  | CClose fd => sys_close pid me fd;; ret tt
  | CFstat fd copied => sys_fstat pid me fd copied;; ret tt
  | CLink old new => sys_link pid me junk old new;; ret tt
  | CUnlink path => sys_unlink pid me junk path;; ret tt
  | COpen path omode => sys_open pid me junk path omode;; ret tt
  | CMkdir path => sys_mkdir pid me junk path;; ret tt
  | CMknod path major minor => sys_mknod pid me junk path major minor;; ret tt
  | CChdir path => sys_chdir pid me junk path;; ret tt
  | CPipe page copied => sys_pipe pid me page copied;; ret tt
  | CFork child =>
      s ← get;
      match procs s !! child with
      | Some p => if no_fds p then fork_fds me child else ret tt
      | None => ret tt
      end
  | CExit => exit_fds pid me
  end.

(** Calls by the processes of the table, one after the other. *)
Fixpoint run_calls (l : list (Z * nat * call)) : SM unit :=
  match l with
  | [] => ret tt
  | (pid, me, c) :: l' =>
      s ← get;
      (if (me <? length (procs s))%nat then do_call pid me c else ret tt);;
      run_calls l'
  end.

Lemma do_call_bal pid me c (s : sys_st (D := D)) : J me none s → wlp (do_call pid me c) (λ _ s', J me none s') s.
Proof.
  intros HJ. assert (∀ A (m : SM A), ks me m → wlp (m;; ret tt) (λ _ s', J me none s') s) as Hks.
  { intros A m Hm. wlp_step. eapply wlp_mono; [by apply Hm|]. intros a s' HJ'. by wlp_step. }
  destruct c; cbn [do_call]; try (apply Hks).
  - apply ks_dup.
  - apply ks_read.
  - apply ks_write.
  - apply ks_close.
  - apply ks_fstat.
  - apply ks_link.
  - apply ks_unlink.
  - apply ks_open.
  - apply ks_make_node.
  - apply ks_make_node.
  - apply ks_chdir.
  - apply ks_pipe.
  - wlp_step. wlp_step. destruct (procs s !! child) as [p|] eqn:Ep; [|by wlp_step]. unfold no_fds.
    destruct (bool_decide_reflect (ofile p = replicate NOFILE None)) as [E|]; [|by wlp_step].
    apply ks_fork; [done|]. exists p. split; [done|]. intros j Hj. rewrite E. apply lookup_replicate_2. lia.
  - by apply ks_exit.
Qed.
End run.

(** C18: The reference count of every open file is the number of descriptors that
    refer to it, after any sequence of file system calls, forks and exits by any
    processes; so an open descriptor never refers to a free file, and a file
    without descriptors is free. *)
Theorem descriptors_counted {D} killed junk devsw_read devsw_write l (s : sys_st (D := D)) :
  bal none s →
  wlp (run_calls killed junk devsw_read devsw_write l) (λ _ s',
    bal none s' ∧ ∀ p fd f, p ∈ procs s' → ofile p !! fd = Some (Some f) → 1 ≤ f_ref (files (fl s') !!! f)) s.
Proof.
  intros HB. apply (wlp_mono _ (λ _ s', bal none s')).
  - revert s HB. induction l as [|[[pid me] c] l IH]; intros s HB; cbn [run_calls]; [by wlp_step|].
    wlp_step. wlp_step. wlp_step. destruct (Nat.ltb_spec me (length (procs s))) as [Hm|Hm]; [|wlp_step; by apply IH].
    eapply wlp_mono; [apply do_call_bal; by split|]. intros [] s' [HB' _]. by apply IH.
  - intros [] s' HB'. split; [done|]. intros p fd f Hp Hf. apply list_elem_of_lookup_1 in Hp as [me Hme].
    assert (J me none s') as HJ by (split; [done|by eapply lookup_lt_Some]).
    pose proof (has_fd_valid me none s' fd f HJ ltac:(by exists p)) as Hv. rewrite (ba_ref _ _ HB') by done.
    pose proof (refs_has me s' fd f ltac:(by exists p) (ba_tables _ _ HB')). unfold none. lia.
Qed.

(** Two processes; the first makes a pipe, duplicates its read end, forks the second and exits. *)
Definition demo_sys : sys_st (D := unit) :=
  SysSt (FileSt (replicate NFILE inhabitant) (FS (Log 2 30 0 false 1 0 [] (Bio.Bio [] (Bio.BDisk 100 ∅ []))) (Super 0 0 0 0 0 0 0 0) [] []) [] tt)
    [PFiles (replicate NOFILE None) 0; PFiles (replicate NOFILE None) 0].

Definition demo_calls : list (Z * nat * call) :=
  [(1, 0%nat, CPipe (Some []) true); (1, 0%nat, CDup 0); (1, 0%nat, CFork 1); (1, 0%nat, CClose 2); (2, 1%nat, CClose 1)].

Lemma demo_sys_bal : bal none demo_sys.
Proof.
  assert (∀ f, f_ref (files (fl demo_sys) !!! f) = 0 ∧ f_type (files (fl demo_sys) !!! f) = FD_NONE) as Hf.
  { intros f. cbn [files fl demo_sys]. destruct (decide (f < NFILE)%nat); [by rewrite lookup_total_replicate_2|].
    by rewrite list_lookup_total_alt, lookup_ge_None_2 by (rewrite length_replicate; lia). }
  split.
  - apply length_replicate.
  - cbn. unfold NPROC. lia.
  - repeat constructor.
  - intros f _. rewrite (proj1 (Hf f)). done.
  - intros f _. apply Hf.
  - intros p fd f Hp H. cbn in Hp. rewrite !elem_of_cons, elem_of_nil in Hp.
    assert (ofile p = replicate NOFILE None) as E by (by destruct Hp as [->|[->|[]]]).
    rewrite E in H. by apply lookup_replicate in H as [H _].
Qed.

Lemma descriptors_counted_witness :
  ∃ s', run_calls (λ _, false) [] (λ _, None) (λ _, None) demo_calls demo_sys = Done (tt, s')
    ∧ f_ref (files (fl s') !!! 0%nat) = 3 ∧ f_ref (files (fl s') !!! 1%nat) = 1
    ∧ bal none s' ∧ ∀ p fd f, p ∈ procs s' → ofile p !! fd = Some (Some f) → 1 ≤ f_ref (files (fl s') !!! f).
Proof.
  eexists. split; [vm_compute; reflexivity|]. split; [done|]. split; [done|].
  apply (descriptors_counted (λ _, false) [] (λ _, None) (λ _, None) demo_calls demo_sys demo_sys_bal tt). vm_compute. reflexivity.
Defined.
