(* ===== verification/Ring.v ===== *)
(** * Ring buffers with free-running counters

    The bytes of a ring of [N] places between two counters that wrap at [W], a
    multiple of [N]: the input buffer of kernel/console.c and the transmit buffer
    of kernel/uart.c. *)

From S2P Require Import Prelude.

Section ring.
Context (N W : Z) (HN : 0 < N) (HW : (N | W)) (HNW : N < W).
Implicit Types (buf : list Z) (lo mid hi c : Z).

Definition cnt lo hi : Z := (hi - lo) mod W.
Definition win buf lo hi : list Z := (λ k, buf !!! Z.to_nat ((lo + Z.of_nat k) mod N)) <$> seq 0 (Z.to_nat (cnt lo hi)).

Lemma cnt_range lo hi : 0 ≤ cnt lo hi < W.
Proof. apply Z.mod_pos_bound. lia. Qed.

Lemma length_win buf lo hi : Z.of_nat (length (win buf lo hi)) = cnt lo hi.
Proof. unfold win. rewrite length_fmap, length_seq. pose proof (cnt_range lo hi). lia. Qed.

Lemma mod_mod_ring z : (z mod W) mod N = z mod N.
Proof. destruct HW as [k ->]. rewrite Z.mul_comm, Z.rem_mul_r, Z.mul_comm, Z_mod_plus_full, Z.mod_mod; lia || nia. Qed.

(** The place [k] after [lo], counted from a wrapped counter. *)
Lemma place_shift z k : ((z mod W) + k) mod N = (z + k) mod N.
Proof. rewrite Zplus_mod, mod_mod_ring, <- Zplus_mod. done. Qed.

Lemma cnt_next lo hi : cnt lo hi + 1 < W → cnt lo ((hi + 1) mod W) = cnt lo hi + 1.
Proof.
  unfold cnt. intros H. rewrite Zminus_mod_idemp_l. replace (hi + 1 - lo) with (hi - lo + 1) by lia.
  rewrite <- (Zplus_mod_idemp_l (hi - lo)). apply Z.mod_small. pose proof (Z.mod_pos_bound (hi - lo) W). lia.
Qed.

Lemma cnt_prev lo hi : 0 < cnt lo hi → cnt lo ((hi - 1) mod W) = cnt lo hi - 1.
Proof.
  unfold cnt. intros H. rewrite Zminus_mod_idemp_l. replace (hi - 1 - lo) with (hi - lo - 1) by lia.
  rewrite <- (Zminus_mod_idemp_l (hi - lo)). apply Z.mod_small. pose proof (Z.mod_pos_bound (hi - lo) W). lia.
Qed.

Lemma cnt_drop lo hi : 0 < cnt lo hi → cnt ((lo + 1) mod W) hi = cnt lo hi - 1.
Proof.
  unfold cnt. intros H. rewrite Zminus_mod_idemp_r. replace (hi - (lo + 1)) with (hi - lo - 1) by lia.
  rewrite <- (Zminus_mod_idemp_l (hi - lo)). apply Z.mod_small. pose proof (Z.mod_pos_bound (hi - lo) W). lia.
Qed.

Lemma cnt_split lo mid hi : cnt lo mid ≤ cnt lo hi → cnt mid hi = cnt lo hi - cnt lo mid.
Proof.
  unfold cnt. intros H. replace (hi - mid) with ((hi - lo) - (mid - lo)) by lia.
  rewrite Zminus_mod. apply Z.mod_small. pose proof (Z.mod_pos_bound (hi - lo) W). pose proof (Z.mod_pos_bound (mid - lo) W). lia.
Qed.

Lemma cnt_zero lo hi : 0 ≤ lo < W → 0 ≤ hi < W → cnt lo hi = 0 ↔ lo = hi.
Proof.
  unfold cnt. intros Hl Hh. split; [|intros ->; by rewrite Z.sub_diag].
  intros H. apply Z.mod_divide in H as [k Hk]; [|lia]. assert (k = 0) by nia. lia.
Qed.

(** The place written is outside the window. *)
Lemma place_ne lo hi k : 0 ≤ k < cnt lo hi → cnt lo hi < N → (lo + k) mod N ≠ hi mod N.
Proof.
  intros Hk Hc E. assert ((hi - (lo + k)) mod N = 0) as H0 by (rewrite Zminus_mod, E, Z.sub_diag; apply Z.mod_0_l; lia).
  assert (hi mod N = (lo + cnt lo hi) mod N) as Eh.
  { unfold cnt. rewrite Z.add_comm, place_shift. f_equal. lia. }
  rewrite Eh in E. assert ((lo + cnt lo hi - (lo + k)) mod N = 0) as H1 by (rewrite Zminus_mod, <- E, Z.sub_diag; apply Z.mod_0_l; lia).
  replace (lo + cnt lo hi - (lo + k)) with (cnt lo hi - k) in H1 by lia. rewrite Z.mod_small in H1; lia.
Qed.

Lemma win_push buf lo hi c :
  length buf = Z.to_nat N → cnt lo hi < N →
  win (<[Z.to_nat (hi mod N) := c]> buf) lo ((hi + 1) mod W) = win buf lo hi ++ [c].
Proof.
  intros Hl Hc. pose proof (cnt_range lo hi). unfold win. rewrite cnt_next by lia.
  replace (Z.to_nat (cnt lo hi + 1)) with (Z.to_nat (cnt lo hi) + 1)%nat by lia. rewrite seq_app, fmap_app. cbn. f_equal.
  - apply list_fmap_ext. intros i k Hk. apply lookup_seq in Hk as [-> Hk]. rewrite list_lookup_total_insert_ne; [done|].
    pose proof (place_ne lo hi (Z.of_nat i)). pose proof (Z.mod_pos_bound (lo + Z.of_nat (0 + i)) N HN). pose proof (Z.mod_pos_bound hi N HN).
    intros E. apply H0; [lia|done|]. rewrite Nat.add_0_l in *. lia.
  - f_equal. rewrite Z2Nat.id by lia. assert ((lo + cnt lo hi) mod N = hi mod N) as ->.
    { unfold cnt. rewrite Z.add_comm, place_shift. f_equal. lia. }
    apply list_lookup_total_insert_eq. rewrite Hl. pose proof (Z.mod_pos_bound hi N HN). lia.
Qed.

Lemma win_pop buf lo hi :
  0 < cnt lo hi → win buf lo hi = buf !!! Z.to_nat (lo mod N) :: win buf ((lo + 1) mod W) hi.
Proof.
  intros Hc. unfold win. rewrite cnt_drop by done. replace (Z.to_nat (cnt lo hi)) with (S (Z.to_nat (cnt lo hi - 1))) by lia.
  cbn [seq fmap list_fmap]. f_equal; [by rewrite Z.add_0_r|]. rewrite <- fmap_S_seq, <- list_fmap_compose. apply list_fmap_ext.
  intros i k Hk. cbn. rewrite place_shift. do 3 f_equal. lia.
Qed.

Lemma win_back buf lo hi :
  0 < cnt lo hi → win buf lo hi = win buf lo ((hi - 1) mod W) ++ [buf !!! Z.to_nat ((hi - 1) mod N)].
Proof.
  intros Hc. unfold win. rewrite cnt_prev by done. replace (Z.to_nat (cnt lo hi)) with (Z.to_nat (cnt lo hi - 1) + 1)%nat by lia.
  rewrite seq_app, fmap_app. cbn. do 4 f_equal. rewrite Z2Nat.id by lia. unfold cnt.
  replace (lo + ((hi - lo) mod W - 1)) with ((hi - lo) mod W + (lo - 1)) by lia. rewrite place_shift. f_equal. lia.
Qed.

Lemma win_split buf lo mid hi : cnt lo mid ≤ cnt lo hi → win buf lo hi = win buf lo mid ++ win buf mid hi.
Proof.
  intros H. unfold win. rewrite (cnt_split lo mid hi) by done. pose proof (cnt_range lo mid).
  replace (Z.to_nat (cnt lo hi)) with (Z.to_nat (cnt lo mid) + Z.to_nat (cnt lo hi - cnt lo mid))%nat by lia.
  rewrite seq_app, fmap_app. f_equal. rewrite Nat.add_0_l. set (n := Z.to_nat (cnt lo hi - cnt lo mid)).
  rewrite <- (Nat.add_0_r (Z.to_nat (cnt lo mid))). rewrite <- fmap_add_seq, <- list_fmap_compose. apply list_fmap_ext.
  intros i k Hk. cbn. do 2 f_equal. rewrite Nat2Z.inj_add, Z2Nat.id by lia. unfold cnt.
  replace (lo + ((mid - lo) mod W + Z.of_nat k)) with ((mid - lo) mod W + (lo + Z.of_nat k)) by lia. rewrite place_shift. f_equal. lia.
Qed.
End ring.
