(* ===== verification/Console.v ===== *)
(** * kernel/console.c and the transmit buffer of kernel/uart.c

    The console buffers input in a ring with three counters: [r] of what was
    read, [w] of what may be read, [e] of what was typed.  [echo] is what has been
    sent to the uart without interrupts.  An activation of [consoleread] runs until
    it returns or sleeps; [uout i] says whether byte [i] can be stored at the
    caller's address, [n] is what is left to read.  The uart transmits from a ring
    of its own; how often its status register says that it is idle is the
    argument of [uartstart]. *)

From S2P Require Import Prelude Ring.

Definition BACKSPACE : Z := 0x100.
Definition C (x : Z) : Z := x - 64.
Definition INPUT_BUF_SIZE : Z := 128.
Definition NL : Z := 10.

Record cons_st := Cons { c_buf : list Z; c_r : Z; c_w : Z; c_e : Z; echo : list Z }.

Definition consputc (c : Z) (s : cons_st) : cons_st :=
  Cons (c_buf s) (c_r s) (c_w s) (c_e s) (echo s ++ (if c =? BACKSPACE then [8; 32; 8] else [c])).

Definition set_e (e : Z) (s : cons_st) : cons_st := Cons (c_buf s) (c_r s) (c_w s) e (echo s).

(** The loop of control-u; at most [INPUT_BUF_SIZE] characters are in the ring. *)
Fixpoint kill_line (fuel : nat) (s : cons_st) : cons_st :=
  match fuel with
  | O => s
  | S fuel' =>
      if negb (c_e s =? c_w s) && negb (c_buf s !!! Z.to_nat (u32 (c_e s - 1) mod INPUT_BUF_SIZE) =? NL) then
        kill_line fuel' (consputc BACKSPACE (set_e (u32 (c_e s - 1)) s))
      else s
  end.

(** The new state, whether [procdump] runs and whether readers are woken. *)
Definition consoleintr (c : Z) (s : cons_st) : cons_st * bool * bool :=
  if c =? C 80 then (s, true, false)
  else if c =? C 85 then (kill_line (Z.to_nat INPUT_BUF_SIZE) s, false, false)
  else if (c =? C 72) || (c =? 127) then
    if negb (c_e s =? c_w s) then (consputc BACKSPACE (set_e (u32 (c_e s - 1)) s), false, false) else (s, false, false)
  else if negb (c =? 0) && (u32 (c_e s - c_r s) <? INPUT_BUF_SIZE) then
    let c := if c =? 13 then NL else c in
    let s := consputc c s in
    let s := Cons (<[Z.to_nat (c_e s mod INPUT_BUF_SIZE) := c]> (c_buf s)) (c_r s) (c_w s) (u32 (c_e s + 1)) (echo s) in
    if (c =? NL) || (c =? C 68) || (u32 (c_e s - c_r s) =? INPUT_BUF_SIZE) then
      (Cons (c_buf s) (c_r s) (c_e s) (c_e s) (echo s), false, true)
    else (s, false, false)
  else (s, false, false).

(** How an activation of [consoleread] ends. *)
Inductive cres := CRet (r : Z) | CKilled | CSleep (n : Z).

Definition set_r (r : Z) (s : cons_st) : cons_st := Cons (c_buf s) r (c_w s) (c_e s) (echo s).

(** The loop with [k] bytes left: the bytes delivered, how the activation ends and
    the state. *)
Fixpoint consoleread_loop (k : nat) (killed : bool) (uout : Z → bool) (target : Z) (s : cons_st) : list Z * cres * cons_st :=
  let n := Z.of_nat k in
  match k with
  | O => ([], CRet target, s)
  | S k' =>
      if c_r s =? c_w s then
        if killed then ([], CKilled, s) else ([], CSleep n, s)
      else
        let c := c_buf s !!! Z.to_nat (c_r s mod INPUT_BUF_SIZE) in
        let s1 := set_r (u32 (c_r s + 1)) s in
        if c =? C 68 then
          ([], CRet (target - n), if n <? target then set_r (u32 (c_r s1 - 1)) s1 else s1)
        else if negb (uout (target - n)) then ([], CRet (target - n), s1)
        else if c =? NL then ([c], CRet (target - (n - 1)), s1)
        else
          let '(l, r, s') := consoleread_loop k' killed uout target s1 in
          (c :: l, r, s')
  end.

(** An activation with [n] bytes left of the [target] asked for. *)
Definition consoleread (n : Z) (killed : bool) (uout : Z → bool) (target : Z) (s : cons_st) : list Z * cres * cons_st :=
  if 0 <? n then consoleread_loop (Z.to_nat n) killed uout target s else ([], CRet (target - n), s).

(** ** The transmitter of kernel/uart.c *)

Definition UART_TX_BUF_SIZE : Z := 32.

Record uart_st := Uart { tx_buf : list Z; tx_w : Z; tx_r : Z; sent : list Z }.

(** [idle]: the times the transmit holding register is found empty. *)
Fixpoint uartstart (idle : nat) (u : uart_st) : uart_st :=
  if tx_w u =? tx_r u then u
  else
    match idle with
    | O => u
    | S idle' =>
        let c := tx_buf u !!! Z.to_nat (tx_r u mod UART_TX_BUF_SIZE) in
        uartstart idle' (Uart (tx_buf u) (tx_w u) (u64 (tx_r u + 1)) (sent u ++ [c]))
    end.

(** [None]: the buffer is full and the caller sleeps. *)
Definition uartputc (c : Z) (idle : nat) (u : uart_st) : option uart_st :=
  if tx_w u =? u64 (tx_r u + UART_TX_BUF_SIZE) then None
  else
    Some (uartstart idle
      (Uart (<[Z.to_nat (tx_w u mod UART_TX_BUF_SIZE) := c]> (tx_buf u)) (u64 (tx_w u + 1)) (tx_r u) (sent u))).

(** [uartintr]: the characters that arrived, then the transmitter. *)
Definition uartintr (input : list Z) (idle : nat) (s : cons_st) (u : uart_st) : cons_st * uart_st :=
  (foldl (λ s c, (consoleintr c s).1.1) s input, uartstart idle u).

(** [consolewrite]: the bytes [uin] can fetch are sent one by one, and the number of
    them; [idle i] are the idle times seen while byte [i] is sent.  [None] is a
    sleep with the bytes sent so far. *)
Fixpoint consolewrite (k : nat) (uin : Z → option Z) (idle : Z → nat) (i : Z) (u : uart_st) : option Z * uart_st :=
  match k with
  | O => (Some i, u)
  | S k' =>
      match uin i with
      | None => (Some i, u)
      | Some c =>
          match uartputc c (idle i) u with
          | None => (None, u)
          | Some u => consolewrite k' uin idle (i + 1) u
          end
      end
  end.
