(* ===== verification/ConsoleTheorems.v ===== *)
(** * The console is a line editor

    The abstract console has the characters that may be read and the line being
    edited; [consoleintr] and [consoleread] refine it, also when the counters wrap.
    The transmitter sends what is written to it in order. *)

From S2P Require Import Prelude Ring Console.

(** ** The abstract console *)

Record line_ed := LineEd { ready : list Z; edit : list Z }.

Definition a_intr (c : Z) (a : line_ed) : line_ed * bool * bool :=
  if c =? C 80 then (a, true, false)
  else if c =? C 85 then (LineEd (ready a) [], false, false)
  else if (c =? C 72) || (c =? 127) then (LineEd (ready a) (removelast (edit a)), false, false)
  else if negb (c =? 0) && (Z.of_nat (length (ready a ++ edit a)) <? INPUT_BUF_SIZE) then
    let c := if c =? 13 then NL else c in
    let edit' := edit a ++ [c] in
    if (c =? NL) || (c =? C 68) || (Z.of_nat (length (ready a ++ edit')) =? INPUT_BUF_SIZE) then (LineEd (ready a ++ edit') [], false, true)
    else (LineEd (ready a) edit', false, false)
  else (a, false, false).

(** Reading stops at a newline, at an end of file, which is kept unless nothing
    was read before it, and when nothing is left. *)
Fixpoint a_read_loop (k : nat) (killed : bool) (uout : Z → bool) (target : Z) (l : list Z) : list Z * cres * list Z :=
  let n := Z.of_nat k in
  match k with
  | O => ([], CRet target, l)
  | S k' =>
      match l with
      | [] => ([], if killed then CKilled else CSleep n, [])
      | c :: l' =>
          if c =? C 68 then ([], CRet (target - n), if n <? target then l else l')
          else if negb (uout (target - n)) then ([], CRet (target - n), l')
          else if c =? NL then ([c], CRet (target - (n - 1)), l')
          else let '(d, r, l'') := a_read_loop k' killed uout target l' in (c :: d, r, l'')
      end
  end.
Definition a_read (n : Z) (killed : bool) (uout : Z → bool) (target : Z) (l : list Z) : list Z * cres * list Z :=
  if 0 <? n then a_read_loop (Z.to_nat n) killed uout target l else ([], CRet (target - n), l).

(** ** The refinement *)

Abbreviation cw := (win 128 (2 ^ 32)).
Abbreviation cc := (cnt (2 ^ 32)).

Lemma div_128 : (128 | 2 ^ 32).
Proof. by exists (2 ^ 25). Qed.
Lemma lt_128 : 128 < 2 ^ 32.
Proof. done. Qed.
Lemma pos_128 : 0 < 128.
Proof. done. Qed.
#[local] Hint Resolve div_128 lt_128 pos_128 : core.

Definition abs (s : cons_st) : line_ed := LineEd (cw (c_buf s) (c_r s) (c_w s)) (cw (c_buf s) (c_w s) (c_e s)).

Record cons_ok (s : cons_st) : Prop := {
  co_len : length (c_buf s) = Z.to_nat 128;
  co_r : 0 ≤ c_r s < 2 ^ 32;
  co_w : 0 ≤ c_w s < 2 ^ 32;
  co_e : 0 ≤ c_e s < 2 ^ 32;
  co_order : cc (c_r s) (c_w s) ≤ cc (c_r s) (c_e s) ≤ 128;
  co_line : NL ∉ edit (abs s);
}.

Lemma abs_all s : cons_ok s → ready (abs s) ++ edit (abs s) = cw (c_buf s) (c_r s) (c_e s).
Proof. intros [_ _ _ _ [H _] _]. symmetry. by apply win_split. Qed.

Lemma abs_length s : cons_ok s → Z.of_nat (length (ready (abs s) ++ edit (abs s))) = u32 (c_e s - c_r s).
Proof. intros H. rewrite abs_all by done. by rewrite length_win. Qed.

Lemma edit_empty s : cons_ok s → (c_e s =? c_w s) = bool_decide (edit (abs s) = []).
Proof.
  intros [_ H1 H2 H3 _ _]. pose proof (length_win 128 (2 ^ 32) ltac:(done) ltac:(done) (c_buf s) (c_w s) (c_e s)) as Hl.
  pose proof (cnt_zero 128 (2 ^ 32) ltac:(done) ltac:(done) (c_w s) (c_e s) H2 H3) as Hz.
  destruct (Z.eqb_spec (c_e s) (c_w s)) as [E|E]; symmetry; [apply bool_decide_eq_true|apply bool_decide_eq_false].
  - apply length_zero_iff_nil. cbn. rewrite (proj2 Hz) in Hl by done. lia.
  - intros E'. cbn in E'. rewrite E' in Hl. cbn in Hl. apply E. symmetry. by apply Hz.
Qed.

Lemma putc_abs c s : abs (consputc c s) = abs s.
Proof. done. Qed.
Lemma putc_ok c s : cons_ok s → cons_ok (consputc c s).
Proof. by intros [H1 H2 H3 H4 H5 H6]. Qed.

Lemma edit_count s : cons_ok s → cc (c_w s) (c_e s) = cc (c_r s) (c_e s) - cc (c_r s) (c_w s).
Proof. intros [_ _ _ _ [H _] _]. by apply (cnt_split 128). Qed.

Lemma edit_length s : Z.of_nat (length (edit (abs s))) = cc (c_w s) (c_e s).
Proof. by apply length_win. Qed.

(** One character less. *)
Lemma erase s :
  cons_ok s → edit (abs s) ≠ [] →
  cons_ok (set_e (u32 (c_e s - 1)) s) ∧ abs (set_e (u32 (c_e s - 1)) s) = LineEd (ready (abs s)) (removelast (edit (abs s)))
  ∧ edit (abs s) = removelast (edit (abs s)) ++ [c_buf s !!! Z.to_nat (u32 (c_e s - 1) mod INPUT_BUF_SIZE)].
Proof.
  intros HK Hne. pose proof (edit_length s) as Hl. pose proof (edit_count s HK) as Hc. destruct HK as [H1 H2 H3 H4 [H5 H5'] H6].
  assert (0 < cc (c_w s) (c_e s)) as Hpos by (destruct (edit (abs s)); [done|cbn in Hl; lia]).
  pose proof (win_back 128 (2 ^ 32) pos_128 div_128 lt_128 (c_buf s) (c_w s) (c_e s) Hpos) as E.
  assert (u32 (c_e s - 1) mod INPUT_BUF_SIZE = (c_e s - 1) mod 128) as Em by (apply (mod_mod_ring 128 (2 ^ 32)); done).
  assert (removelast (edit (abs s)) = cw (c_buf s) (c_w s) (u32 (c_e s - 1))) as Er by (cbn [edit abs]; rewrite E; apply removelast_last).
  rewrite Er, Em. cbn [edit abs]. split; [|split; [done|exact E]]. split; cbn [set_e c_buf c_r c_w c_e]; try done.
  - apply u32_range.
  - pose proof (cnt_range 128 (2 ^ 32) pos_128 lt_128 (c_r s) (c_w s)). unfold u32. rewrite (cnt_prev 128 (2 ^ 32) pos_128 lt_128) by lia. lia.
  - intros Hin. apply H6. cbn [edit abs]. rewrite E. apply elem_of_app. by left.
Qed.

Lemma kill_line_abs fuel s :
  cons_ok s → cc (c_w s) (c_e s) ≤ Z.of_nat fuel → cons_ok (kill_line fuel s) ∧ abs (kill_line fuel s) = LineEd (ready (abs s)) [].
Proof.
  revert s. induction fuel as [|fuel IH]; intros s HK Hf; pose proof (edit_length s) as Hl; cbn [kill_line].
  - split; [done|]. unfold abs. f_equal. apply length_zero_iff_nil. cbn [edit abs] in Hl. lia.
  - rewrite (edit_empty s HK). destruct (decide (edit (abs s) = [])) as [E|Hne].
    + rewrite bool_decide_true by done. cbn [negb andb]. split; [done|]. unfold abs at 1. f_equal. exact E.
    + rewrite bool_decide_false by done. destruct (erase s HK Hne) as (HK1 & E1 & E2).
      destruct (Z.eqb_spec (c_buf s !!! Z.to_nat (u32 (c_e s - 1) mod INPUT_BUF_SIZE)) NL) as [En|En].
      { destruct (co_line _ HK). rewrite E2, En. apply elem_of_app. right. apply list_elem_of_here. }
      cbn [negb andb]. set (s1 := set_e (u32 (c_e s - 1)) s) in *.
      assert (ready (abs s) = ready (abs (consputc BACKSPACE s1))) as -> by by rewrite putc_abs, E1.
      apply IH; [by apply putc_ok|]. pose proof (edit_length s1) as Hl1. rewrite E1 in Hl1. cbn [edit] in Hl1.
      cbn [consputc c_w c_e]. rewrite <- Hl1. apply (f_equal length) in E2. rewrite length_app in E2. cbn [length] in E2. lia.
Qed.

(** One character more. *)
Definition typed (c : Z) (s : cons_st) : cons_st :=
  Cons (<[Z.to_nat (c_e s mod INPUT_BUF_SIZE) := c]> (c_buf s)) (c_r s) (c_w s) (u32 (c_e s + 1)) (echo s).

Lemma type_abs c s :
  cons_ok s → u32 (c_e s - c_r s) < INPUT_BUF_SIZE →
  abs (typed c s) = LineEd (ready (abs s)) (edit (abs s) ++ [c]) ∧ u32 (c_e (typed c s) - c_r s) = u32 (c_e s - c_r s) + 1
  ∧ (c ≠ NL → cons_ok (typed c s)) ∧ cons_ok (Cons (c_buf (typed c s)) (c_r s) (c_e (typed c s)) (c_e (typed c s)) (echo s))
  ∧ cw (c_buf (typed c s)) (c_r s) (c_e (typed c s)) = (ready (abs s) ++ edit (abs s)) ++ [c].
Proof.
  intros HK Hlt. pose proof (edit_count s HK) as Hc. pose proof (abs_all s HK) as Hall. destruct HK as [H1 H2 H3 H4 [H5 H5'] H6].
  change (u32 (c_e s - c_r s)) with (cc (c_r s) (c_e s)) in *. unfold INPUT_BUF_SIZE in *. pose proof (cnt_range 128 (2 ^ 32) pos_128 lt_128 (c_r s) (c_w s)) as Hrw.
  assert (cc (c_r s) (u32 (c_e s + 1)) = cc (c_r s) (c_e s) + 1) as Ec by (apply (cnt_next 128 (2 ^ 32)); [done|done|lia]).
  pose proof (win_push 128 (2 ^ 32) pos_128 div_128 lt_128 (c_buf s) (c_r s) (c_e s) c H1 ltac:(lia)) as P1.
  pose proof (win_push 128 (2 ^ 32) pos_128 div_128 lt_128 (c_buf s) (c_w s) (c_e s) c H1 ltac:(lia)) as P2.
  set (buf' := <[Z.to_nat (c_e s mod 128) := c]> (c_buf s)) in *. change ((c_e s + 1) mod 2 ^ 32) with (u32 (c_e s + 1)) in *.
  assert (cw buf' (c_r s) (c_w s) = ready (abs s)) as Er.
  { pose proof (win_split 128 (2 ^ 32) pos_128 div_128 lt_128 buf' (c_r s) (c_w s) (u32 (c_e s + 1)) ltac:(lia)) as Sp.
    rewrite P1, P2, <- Hall in Sp. rewrite app_assoc in Sp. apply app_inv_tail in Sp. cbn [edit abs] in Sp. by apply app_inv_tail in Sp. }
  assert (length buf' = Z.to_nat 128) as Hl by (unfold buf'; by rewrite length_insert).
  split; [unfold abs, typed; cbn [c_buf c_r c_w c_e]; unfold INPUT_BUF_SIZE; fold buf'; by rewrite Er, P2|]. split; [exact Ec|]. split; [|split].
  - intros Hn. split; cbn [typed c_buf c_r c_w c_e]; unfold INPUT_BUF_SIZE; fold buf'; try done; [apply u32_range|rewrite Ec; lia|].
    unfold abs. cbn [edit c_buf c_w c_e typed]. unfold INPUT_BUF_SIZE. fold buf'. rewrite P2. rewrite elem_of_app, list_elem_of_singleton. intros [H|H]; [by apply H6|done].
  - split; cbn [typed c_buf c_r c_w c_e]; unfold INPUT_BUF_SIZE; fold buf'; try done; [apply u32_range..|rewrite Ec; lia|].
    unfold abs. cbn [edit c_buf c_w c_e]. unfold win, cnt. rewrite Z.sub_diag. cbn. apply not_elem_of_nil.
  - cbn [typed c_buf c_e]. unfold INPUT_BUF_SIZE. fold buf'. rewrite P1, Hall. done.
Qed.

Lemma intr_refines c s :
  cons_ok s → cons_ok (consoleintr c s).1.1
  ∧ a_intr c (abs s) = (abs (consoleintr c s).1.1, (consoleintr c s).1.2, (consoleintr c s).2).
Proof.
  intros HK. unfold consoleintr, a_intr. destruct (c =? C 80); [done|].
  destruct (c =? C 85).
  { destruct (kill_line_abs (Z.to_nat INPUT_BUF_SIZE) s HK) as [HK1 E1]; [|by cbn [fst snd]; rewrite E1].
    pose proof (edit_count s HK). pose proof (co_order _ HK). pose proof (cnt_range 128 (2 ^ 32) pos_128 lt_128 (c_r s) (c_w s)). unfold INPUT_BUF_SIZE. lia. }
  destruct (_ || _).
  { rewrite (edit_empty s HK). destruct (decide (edit (abs s) = [])) as [E|Hne].
    - rewrite bool_decide_true by done. cbn [negb fst snd]. split; [done|]. destruct (abs s) as [rd ed]. cbn in E. by subst ed.
    - rewrite bool_decide_false by done. destruct (erase s HK Hne) as (HK1 & E1 & _). cbn [negb fst snd].
      split; [by apply putc_ok|]. by rewrite putc_abs, E1. }
  rewrite (abs_length s HK). destruct (negb (c =? 0)); [|done]. cbn [andb].
  destruct (Z.ltb_spec (u32 (c_e s - c_r s)) INPUT_BUF_SIZE) as [Hlt|]; [|done].
  set (c' := if c =? 13 then NL else c). cbv zeta. set (s1 := consputc c' s).
  destruct (type_abs c' s1 (putc_ok _ _ HK) Hlt) as (E1 & E2 & K1 & K2 & E3). assert (abs s1 = abs s) as Es by done. rewrite Es in E1, E3.
  change (Cons (<[_ := c']> (c_buf s1)) _ _ _ _) with (typed c' s1).
  assert (Z.of_nat (length (ready (abs s) ++ edit (abs s) ++ [c'])) = u32 (c_e (typed c' s1) - c_r (typed c' s1))) as El.
  { rewrite app_assoc, <- E3. apply (length_win 128); done. }
  rewrite El. destruct (Z.eqb_spec c' NL) as [En|En]; cbn [orb fst snd].
  { split; [exact K2|]. unfold abs at 3. cbn [c_buf c_r c_w c_e]. change (c_r (typed c' s1)) with (c_r s1). rewrite E3, app_assoc.
    unfold win at 1, cnt. by rewrite Z.sub_diag. }
  destruct (_ || _); cbn [fst snd].
  - split; [exact K2|]. unfold abs at 3. cbn [c_buf c_r c_w c_e]. change (c_r (typed c' s1)) with (c_r s1). rewrite E3, app_assoc.
    unfold win at 1, cnt. by rewrite Z.sub_diag.
  - split; [by apply K1|]. by rewrite E1.
Qed.

(** Taking the first readable character. *)
Lemma read_one s :
  cons_ok s → c_r s ≠ c_w s →
  ready (abs s) = c_buf s !!! Z.to_nat (c_r s mod INPUT_BUF_SIZE) :: ready (abs (set_r (u32 (c_r s + 1)) s))
  ∧ edit (abs (set_r (u32 (c_r s + 1)) s)) = edit (abs s) ∧ cons_ok (set_r (u32 (c_r s + 1)) s)
  ∧ set_r (u32 (u32 (c_r s + 1) - 1)) (set_r (u32 (c_r s + 1)) s) = s.
Proof.
  intros [H1 H2 H3 H4 [H5 H5'] H6] Hne. pose proof (cnt_range 128 (2 ^ 32) pos_128 lt_128 (c_r s) (c_w s)).
  assert (0 < cc (c_r s) (c_w s)) as Hpos.
  { pose proof (cnt_zero 128 (2 ^ 32) pos_128 lt_128 (c_r s) (c_w s) H2 H3) as Hz.
    destruct (decide (cc (c_r s) (c_w s) = 0)) as [E|]; [by apply Hz in E|lia]. }
  split; [exact (win_pop 128 (2 ^ 32) pos_128 div_128 lt_128 _ _ _ Hpos)|]. split; [done|]. split.
  - split; cbn [set_r c_buf c_r c_w c_e]; try done; [apply u32_range|]. unfold u32.
    rewrite !(cnt_drop 128 (2 ^ 32) pos_128 lt_128) by lia. lia.
  - unfold set_r. cbn. assert (u32 (u32 (c_r s + 1) - 1) = c_r s) as -> by (unfold u32; dlia). by destruct s.
Qed.

Lemma read_loop_refines k killed uout target s :
  cons_ok s → let '(l, r, s') := consoleread_loop k killed uout target s in
  cons_ok s' ∧ a_read_loop k killed uout target (ready (abs s)) = (l, r, ready (abs s')) ∧ edit (abs s') = edit (abs s).
Proof.
  revert s. induction k as [|k IH]; intros s HK; [done|]. cbn [consoleread_loop a_read_loop].
  destruct (Z.eqb_spec (c_r s) (c_w s)) as [E|Hne].
  { assert (ready (abs s) = []) as -> by (cbn [ready abs]; rewrite E; unfold win, cnt; by rewrite Z.sub_diag).
    destruct killed; (split; [done|]); split; try done; cbn [ready abs]; rewrite E; unfold win, cnt; by rewrite Z.sub_diag. }
  destruct (read_one s HK Hne) as (E1 & E2 & HK1 & E3). rewrite E1. set (c := c_buf s !!! _). set (s1 := set_r (u32 (c_r s + 1)) s) in *.
  destruct (c =? C 68).
  { destruct (_ <? _); [|done]. change (c_r s1) with (u32 (c_r s + 1)). rewrite E3. split; [done|]. split; [|done]. by rewrite E1. }
  destruct (uout _); cbn [negb]; [|done]. destruct (c =? NL); [done|].
  specialize (IH s1 HK1). destruct (consoleread_loop k killed uout target s1) as [[l r] s']. destruct IH as (K' & A' & D').
  split; [done|]. rewrite A'. split; [done|]. by rewrite D'.
Qed.

(** Events: a character arrives; an activation of a read. *)
Inductive cevent := Type_ (c : Z) | Read_ (n : Z) (killed : bool) (uout : Z → bool) (target : Z).
Inductive coutput := OTyped (dump wake : bool) | ORead (l : list Z) (r : cres).

Definition cstep (ev : cevent) (s : cons_st) : coutput * cons_st :=
  match ev with
  | Type_ c => let '(s', dump, wake) := consoleintr c s in (OTyped dump wake, s')
  | Read_ n killed uout target => let '(l, r, s') := consoleread n killed uout target s in (ORead l r, s')
  end.
Definition astep (ev : cevent) (a : line_ed) : coutput * line_ed :=
  match ev with
  | Type_ c => let '(a', dump, wake) := a_intr c a in (OTyped dump wake, a')
  | Read_ n killed uout target => let '(l, r, rd) := a_read n killed uout target (ready a) in (ORead l r, LineEd rd (edit a))
  end.

Fixpoint runs {A} (step : cevent → A → coutput * A) (l : list cevent) (a : A) : list coutput * A :=
  match l with
  | [] => ([], a)
  | ev :: l' => let '(o, a) := step ev a in let '(os, a) := runs step l' a in (o :: os, a)
  end.

Lemma step_refines ev s : cons_ok s → cons_ok (cstep ev s).2 ∧ astep ev (abs s) = ((cstep ev s).1, abs (cstep ev s).2).
Proof.
  intros HK. destruct ev as [c|n killed uout target]; cbn [cstep astep].
  - destruct (intr_refines c s HK) as [H1 H2]. rewrite H2. by destruct (consoleintr c s) as [[s' d] w].
  - unfold consoleread, a_read. destruct (0 <? n).
    + pose proof (read_loop_refines (Z.to_nat n) killed uout target s HK) as H.
      destruct (consoleread_loop _ _ _ _ _) as [[l r] s']. destruct H as (K & A & E). rewrite A. cbn [fst snd]. split; [done|]. by rewrite <- E.
    + split; [done|]. done.
Qed.

Definition cons_init : cons_st := Cons (replicate 128 0) 0 0 0 [].

(** C24: The console is a line editor.  Whatever characters arrive and whatever
    reads are made, from its initial state the console produces the results of
    the abstract one: characters become readable with their line, after erasures
    and line kills, in the order typed; and its ring holds the abstract state,
    also after the counters have wrapped. *)
Theorem console_refines_line_editor l :
  runs astep l (LineEd [] []) = ((runs cstep l cons_init).1, abs (runs cstep l cons_init).2).
Proof.
  assert (∀ s, cons_ok s → runs astep l (abs s) = ((runs cstep l s).1, abs (runs cstep l s).2)) as H.
  - induction l as [|ev l IH]; intros s HK; [done|]. cbn [runs]. destruct (step_refines ev s HK) as [HK1 E]. rewrite E.
    destruct (cstep ev s) as [o s1]. cbn [fst snd] in *. rewrite (IH s1 HK1). by destruct (runs cstep l s1).
  - apply (H cons_init). split; cbn; try lia; try done. apply not_elem_of_nil.
Qed.

(** ** The transmitter *)

Abbreviation uw := (win 32 (2 ^ 64)).
Abbreviation uc := (cnt (2 ^ 64)).

Lemma div_32 : (32 | 2 ^ 64).
Proof. by exists (2 ^ 59). Qed.
Lemma lt_32 : 32 < 2 ^ 64.
Proof. done. Qed.
Lemma pos_32 : 0 < 32.
Proof. done. Qed.

Definition pending (u : uart_st) : list Z := uw (tx_buf u) (tx_r u) (tx_w u).

Record uart_ok (u : uart_st) : Prop := {
  uo_len : length (tx_buf u) = Z.to_nat 32;
  uo_r : 0 ≤ tx_r u < 2 ^ 64;
  uo_w : 0 ≤ tx_w u < 2 ^ 64;
  uo_count : uc (tx_r u) (tx_w u) ≤ 32;
}.

Lemma start_fifo idle u : uart_ok u → uart_ok (uartstart idle u) ∧ sent (uartstart idle u) ++ pending (uartstart idle u) = sent u ++ pending u.
Proof.
  revert u. induction idle as [|idle IH]; intros u HU; cbn [uartstart]; (destruct (Z.eqb_spec (tx_w u) (tx_r u)) as [|Hne]; [done|]); [done|].
  set (u1 := Uart _ _ _ _). destruct HU as [H1 H2 H3 H4].
  assert (0 < uc (tx_r u) (tx_w u)) as Hpos.
  { pose proof (cnt_zero 32 (2 ^ 64) pos_32 lt_32 (tx_r u) (tx_w u) H2 H3) as Hz. pose proof (cnt_range 32 (2 ^ 64) pos_32 lt_32 (tx_r u) (tx_w u)).
    destruct (decide (uc (tx_r u) (tx_w u) = 0)) as [E|]; [apply Hz in E; congruence|lia]. }
  assert (uart_ok u1) as HU1.
  { split; cbn [u1 tx_buf tx_r tx_w]; try done; [apply Z.mod_pos_bound; lia|]. unfold u64. rewrite (cnt_drop 32 (2 ^ 64) pos_32 lt_32) by done. lia. }
  destruct (IH u1 HU1) as [HU2 E]. split; [done|]. rewrite E. cbn [u1 sent]. rewrite <- app_assoc. f_equal.
  symmetry. exact (win_pop 32 (2 ^ 64) pos_32 div_32 lt_32 _ _ _ Hpos).
Qed.

(** A byte that is accepted is sent after all bytes accepted before it. *)
Lemma putc_fifo c idle u u' :
  uart_ok u → uartputc c idle u = Some u' → uart_ok u' ∧ sent u' ++ pending u' = sent u ++ pending u ++ [c].
Proof.
  intros HU. unfold uartputc. destruct (Z.eqb_spec (tx_w u) (u64 (tx_r u + UART_TX_BUF_SIZE))) as [|Hne]; [done|]. intros [= <-].
  set (u1 := Uart _ _ _ _). destruct HU as [H1 H2 H3 H4].
  assert (uc (tx_r u) (tx_w u) < 32) as Hlt.
  { destruct (decide (uc (tx_r u) (tx_w u) = 32)) as [E|]; [|lia]. destruct Hne. unfold cnt, u64, UART_TX_BUF_SIZE in *. dlia. }
  assert (uart_ok u1) as HU1.
  { split; cbn [u1 tx_buf tx_r tx_w]; try done; [by rewrite length_insert|apply Z.mod_pos_bound; lia|].
    unfold u64. rewrite (cnt_next 32 (2 ^ 64) pos_32 lt_32) by lia. lia. }
  destruct (start_fifo idle u1 HU1) as [HU2 E]. split; [done|]. rewrite E. cbn [u1 sent]. f_equal.
  exact (win_push 32 (2 ^ 64) pos_32 div_32 lt_32 _ _ _ c H1 Hlt).
Qed.

(** [consolewrite] hands the caller's bytes to the uart in order: those it counts, or
    a prefix of them when it sleeps. *)
Lemma consolewrite_in_order k uin idle i u :
  uart_ok u → ∃ l, sent (consolewrite k uin idle i u).2 ++ pending (consolewrite k uin idle i u).2 = sent u ++ pending u ++ l
    ∧ (∀ j, (j < length l)%nat → uin (i + Z.of_nat j) = Some (l !!! j))
    ∧ ∀ r, (consolewrite k uin idle i u).1 = Some r → r = i + Z.of_nat (length l).
Proof.
  revert i u. induction k as [|k IH]; intros i u HU; cbn [consolewrite].
  { exists []. rewrite app_nil_r. split; [done|]. split; [cbn; lia|]. intros r [= <-]. cbn. lia. }
  destruct (uin i) as [c|] eqn:Ec.
  2:{ exists []. rewrite app_nil_r. split; [done|]. split; [cbn; lia|]. intros r [= <-]. cbn. lia. }
  destruct (uartputc c (idle i) u) as [u1|] eqn:Eu.
  2:{ exists []. rewrite app_nil_r. split; [done|]. split; [cbn; lia|]. done. }
  destruct (putc_fifo c (idle i) u u1 HU Eu) as [HU1 E1]. destruct (IH (i + 1) u1 HU1) as (l & El & Hin & Hr).
  exists (c :: l). split; [rewrite El, app_assoc, E1; by rewrite <- !app_assoc|]. split.
  - intros [|j] Hj; cbn; [by rewrite Z.add_0_r|]. replace (i + Z.of_nat (S j)) with (i + 1 + Z.of_nat j) by lia. apply Hin. cbn in Hj. lia.
  - intros r H. rewrite (Hr r H). cbn. lia.
Qed.
