(* ===== verification/Mkfs.v ===== *)
(** * mkfs/mkfs.c: the file-system image

    The image file is a map from sectors to their bytes; reading a sector that was
    never written fails, and [die] and a failed [assert] are the [Panic] outcome.
    The host is little-endian.  A source file is the list of the pieces that [read]
    returns, or [None] when it cannot be opened.  What is printed is left out. *)

From S2P Require Import Prelude Machine Log LogFacts BlockLayer Fs FsFacts FsFile FsWrite FsDir.

Definition FSSIZE : Z := 2000.
Definition NINODES : Z := 200.
Definition nbitmap : Z := FSSIZE / (BSIZE * 8) + 1.
Definition ninodeblocks : Z := NINODES / IPB + 1.
Definition mk_nlog : Z := LOGSIZE.
Definition nmeta : Z := 2 + mk_nlog + ninodeblocks + nbitmap.

(** The bytes of [x] in the order of RISC-V, as a host integer. *)
Definition xshort (x : Z) : Z := le_combine (le_split 2 x).
Definition xint (x : Z) : Z := le_combine (le_split 4 x).

Definition mk_sb : superblock :=
  Super FSMAGIC (xint FSSIZE) (xint (FSSIZE - nmeta)) (xint NINODES) (xint mk_nlog) (xint 2) (xint (2 + mk_nlog)) (xint (2 + mk_nlog + ninodeblocks)).

Record mk_st := Mk { img : gmap Z (list Z); freeinode : Z; freeblock : Z }.
Abbreviation MM := (M mk_st).

Definition rsect (sec : Z) : MM (list Z) :=
  s ← get;
  match img s !! sec with Some b => ret b | None => panic "read" end.
Definition wsect (sec : Z) (buf : list Z) : MM unit :=
  modify (λ s, Mk (<[sec := buf]> (img s)) (freeinode s) (freeblock s)).

(** [freeblock++] *)
Definition next_block : MM Z :=
  n ← gets freeblock;
  modify (λ s, Mk (img s) (freeinode s) (u32 (n + 1)));;
  ret n.

Definition rinode (inum : Z) : MM inode :=
  buf ← rsect (IBLOCK inum mk_sb);
  ret (dinode_load buf (dinode_off inum) zero_inode).
Definition winode (inum : Z) (ip : inode) : MM unit :=
  buf ← rsect (IBLOCK inum mk_sb);
  wsect (IBLOCK inum mk_sb) (dinode_store ip buf (dinode_off inum)).

(** A new [din] of the type with one link. *)
Definition new_din (type : Z) : inode := set_size (xint 0) (set_nlink (xshort 1) (set_type (xshort type) zero_inode)).

Definition mk_ialloc (type : Z) : MM Z :=
  inum ← gets freeinode;
  modify (λ s, Mk (img s) (u32 (inum + 1)) (freeblock s));;
  winode inum (new_din type);;
  ret inum.

(** [if(xint(din.addrs[k]) == 0) din.addrs[k] = xint(freeblock++);] *)
Definition alloc_addr (k : nat) (din : inode) : MM inode :=
  if xint (i_addrs din !!! k) =? 0 then n ← next_block; ret (set_addr k (xint n) din) else ret din.

(** The same for the entry at [o] of the table in sector [ind]. *)
Definition alloc_entry (ind : Z) (o : nat) (indirect : list Z) : MM (list Z) :=
  if get32 indirect o =? 0 then
    n ← next_block;
    wsect ind (put32 indirect o (xint n));;
    ret (put32 indirect o (xint n))
  else ret indirect.

(** The sector of block [fbn] of the file, allocated when it has none. *)
Definition block_for (din : inode) (fbn : Z) : MM (Z * inode) :=
  if fbn <? NDIRECT then
    din ← alloc_addr (Z.to_nat fbn) din;
    ret (xint (i_addrs din !!! Z.to_nat fbn), din)
  else
    din ← alloc_addr (Z.to_nat NDIRECT) din;
    let ind := xint (i_addrs din !!! Z.to_nat NDIRECT) in
    indirect ← rsect ind;
    let o := Z.to_nat (4 * (fbn - NDIRECT)) in
    indirect ← alloc_entry ind o indirect;
    ret (xint (get32 indirect o), din).

Fixpoint iappend_loop (fuel : nat) (din : inode) (off : Z) (p : list Z) : MM (inode * Z) :=
  match p with
  | [] => ret (din, off)
  | _ =>
      match fuel with
      | O => out_of_fuel
      | S fuel' =>
          let fbn := off / BSIZE in
          if negb (fbn <? MAXFILE) then panic "assert"
          else
            '(x, din) ← block_for din fbn;
            let n1 := Z.min (Z.of_nat (length p)) ((fbn + 1) * BSIZE - off) in
            buf ← rsect x;
            let o := Z.to_nat (off - fbn * BSIZE) in
            let c := take (Z.to_nat n1) p in
            wsect x (splice o c buf);;
            iappend_loop fuel' din (u32 (off + n1)) (drop (Z.to_nat n1) p)
      end
  end.

Definition iappend (inum : Z) (p : list Z) : MM unit :=
  din ← rinode inum;
  '(din, off) ← iappend_loop (length p) din (xint (i_size din)) p;
  winode inum (set_size (xint off) din).

(** The bitmap with the first [used] bits set. *)
Definition bitmap_bytes (used : Z) : list Z :=
  foldl (λ buf i, <[Z.to_nat (i / 8) := Z.lor (buf !!! Z.to_nat (i / 8)) (Z.shiftl 1 (i mod 8))]> buf) zblock (seqZ 0 used).

Definition mk_balloc (used : Z) : MM unit :=
  if negb (used <? BSIZE * 8) then panic "assert"
  else wsect (bmapstart mk_sb) (bitmap_bytes used).

(** The block with the superblock. *)
Definition sb_block : list Z :=
  put32 (put32 (put32 (put32 (put32 (put32 (put32 (put32 zblock 0 (magic mk_sb)) 4 (size mk_sb)) 8 (nblocks mk_sb)) 12 (ninodes mk_sb))
    16 (nlog mk_sb)) 20 (logstart mk_sb)) 24 (inodestart mk_sb)) 28 (bmapstart mk_sb).

Definition USER_ : list Z := [117; 115; 101; 114; 47].

(** The name of a source file in the image. *)
Definition shortname (arg : list Z) : option (list Z) :=
  let s := if strncmp 5 arg USER_ =? 0 then drop 5 arg else arg in
  if bool_decide (SLASH ∈ s) then None
  else Some (if default 0 (head s) =? 95 then tail s else s).

Fixpoint append_all (inum : Z) (pieces : list (list Z)) : MM unit :=
  match pieces with
  | [] => ret tt
  | p :: pieces' => iappend inum p;; append_all inum pieces'
  end.

Fixpoint add_files (files : list (list Z * option (list (list Z)))) : MM unit :=
  match files with
  | [] => ret tt
  | (arg, f) :: files' =>
      match shortname arg, f with
      | None, _ => panic "assert"
      | Some _, None => panic "open"
      | Some name, Some pieces =>
          inum ← mk_ialloc T_FILE;
          iappend ROOTINO (dirent (xshort inum) name);;
          append_all inum pieces;;
          add_files files'
      end
  end.

(** The directory's last block is filled up. *)
Definition fix_root : MM unit :=
  din ← rinode ROOTINO;
  let off := xint (i_size din) in
  winode ROOTINO (set_size (xint (u32 ((off / BSIZE + 1) * BSIZE))) din).

Definition mkfs (files : list (list Z * option (list (list Z)))) : MM unit :=
  modify (λ s, Mk (img s) (freeinode s) nmeta);;
  for_ 0 FSSIZE (λ i, wsect i zblock);;
  wsect 1 sb_block;;
  rootino ← mk_ialloc T_DIR;
  if negb (rootino =? ROOTINO) then panic "assert"
  else
    iappend rootino (dirent (xshort rootino) DOT);;
    iappend rootino (dirent (xshort rootino) DOTDOT);;
    add_files files;;
    fix_root;;
    n ← gets freeblock;
    mk_balloc n.
