(* ===== verification/MkfsFacts.v ===== *)
(** * The image while it is built: mkfs/mkfs.c

    [sees s C]: the image of [s] has the blocks [C], where the bitmap is the one
    [balloc] will write for the current [freeblock].  Seen so, an allocation of
    mkfs is an allocation of kernel/fs.c ([fresh]), and the facts about [grows]
    and [writes] of FsFile.v and FsWrite.v carry over. *)

From S2P Require Import Prelude Machine Log LogFacts BlockLayer Fs FsFacts FsFile FsWrite FsInode FsWritei FsDir FsDirFacts Mkfs.

Definition anywhere (_ : Z) : Prop := True.
Abbreviation mused := (used mk_sb).
Abbreviation mfile_ok := (file_ok mk_sb nmeta).
Abbreviation mgrows := (grows mk_sb nmeta).
Abbreviation mwrites := (writes mk_sb nmeta).

Lemma mk_layout : layout anywhere mk_sb nmeta.
Proof. split; [done..| |]; done. Qed.

Lemma nmeta_pos : 0 < nmeta.
Proof. done. Qed.

Lemma xint_id z : 0 ≤ z < 2 ^ 32 → xint z = z.
Proof. apply u32_split. Qed.

(** ** The bitmap *)

Lemma bitmap_next n : 0 ≤ n → bitmap_bytes (n + 1) = mark (bitmap_bytes n) n.
Proof.
  intros Hn. unfold bitmap_bytes. replace (seqZ 0 (n + 1)) with (seqZ 0 n ++ [n]); [by rewrite foldl_app|].
  rewrite seqZ_app by lia. by rewrite Z.add_0_l.
Qed.

Lemma bitmap_ok n : 0 ≤ n ≤ BPB → blk_ok (bitmap_bytes n) ∧ ∀ b, 0 ≤ b < BPB → bit_at (bitmap_bytes n) b = bool_decide (b < n).
Proof.
  intros [Hn Hmax]. revert Hmax. pattern n. apply natlike_ind; [| |done]; clear n Hn.
  - intros _. split; [apply zeros_ok|]. intros b Hb. rewrite bool_decide_false by lia. unfold bit_at.
    change (bitmap_bytes 0) with zblock. unfold zblock. rewrite lookup_total_replicate_2; [by rewrite Z.testbit_0_l|].
    unfold BPB, BSIZE in *. apply Z2Nat.inj_lt; dlia.
  - intros n Hn IH Hmax. destruct IH as [I1 I2]; [lia|]. unfold Z.succ. rewrite bitmap_next by done. split; [by apply mark_ok; [|lia]|].
    intros b Hb. rewrite bit_mark by (apply I1 || lia). destruct (decide (b = n)) as [->|Hne]; [by rewrite bool_decide_true by lia|].
    rewrite I2 by done. apply bool_decide_ext. lia.
Qed.

Record sees (s : mk_st) (C : Z → list Z) : Prop := {
  se_img m : 0 ≤ m < FSSIZE → m ≠ bmapstart mk_sb → img s !! m = Some (C m);
  se_bmap : C (bmapstart mk_sb) = bitmap_bytes (freeblock s);
  se_zero m : freeblock s ≤ m → C m = zblock;
  se_free : nmeta ≤ freeblock s ≤ FSSIZE;
  se_blk m : blk_ok (C m);
}.

Lemma sees_used s C b : sees s C → 0 ≤ b < FSSIZE → mused C b = bool_decide (b < freeblock s).
Proof.
  intros H Hb. rewrite used_bit. assert (0 ≤ b < BPB) as Hb' by (unfold FSSIZE, BPB, BSIZE in *; lia).
  assert (BBLOCK b mk_sb = bmapstart mk_sb) as ->.
  { destruct (bblock_eq _ _ _ b mk_layout Hb) as [-> _]. by rewrite Z.div_small. }
  rewrite (se_bmap _ _ H), Z.mod_small by done. apply bitmap_ok; [|done].
  destruct (se_free _ _ H). unfold nmeta, mk_nlog, LOGSIZE, FSSIZE, BPB, BSIZE in *. revert H0. cbv - [freeblock Z.le]. lia.
Qed.

Lemma wp_rsect s C n (Q : list Z → mk_st → Prop) :
  sees s C → 0 ≤ n < FSSIZE → n ≠ bmapstart mk_sb → Q (C n) s → wp (rsect n) Q s.
Proof. intros H Hn Hne HQ. unfold rsect. wp_step. wp_step. by rewrite (se_img _ _ H) by done. Qed.

Lemma sees_store s C n l :
  sees s C → 0 ≤ n < freeblock s → n ≠ bmapstart mk_sb → blk_ok l →
  sees (Mk (<[n := l]> (img s)) (freeinode s) (freeblock s)) (fupd C n l).
Proof.
  intros [H1 H2 H3 H4 H5] Hn Hne Hl. unfold fupd. split; cbn [img freeblock].
  - intros m Hm Hm'. destruct (decide (m = n)) as [->|]; [by rewrite lookup_insert_eq|]. rewrite lookup_insert_ne by done. by apply H1.
  - by rewrite decide_False.
  - intros m Hm. rewrite decide_False by lia. by apply H3.
  - done.
  - intros m. by destruct (decide _).
Qed.

Lemma wp_wsect s C n l (Q : unit → mk_st → Prop) :
  sees s C → 0 ≤ n < freeblock s → n ≠ bmapstart mk_sb → blk_ok l →
  (∀ s', sees s' (fupd C n l) → freeinode s' = freeinode s → freeblock s' = freeblock s → Q tt s') → wp (wsect n l) Q s.
Proof. intros H Hn Hne Hl HQ. unfold wsect. wp_step. apply HQ; [by apply sees_store|done|done]. Qed.

(** [freeblock++] marks the block and clears it. *)
Lemma wp_next_block s C (Q : Z → mk_st → Prop) :
  sees s C → freeblock s < FSSIZE →
  (∀ s', sees s' (fresh mk_sb C (freeblock s)) → freeinode s' = freeinode s → freeblock s' = freeblock s + 1 → Q (freeblock s) s') →
  wp next_block Q s.
Proof.
  intros H Hlt HQ. destruct (se_free _ _ H) as [Hge _]. unfold next_block. wp_steps. pose proof nmeta_pos.
  assert (nmeta = 46) as E46 by done. assert (bmapstart mk_sb = 45) as E45 by done. assert (FSSIZE = 2000) as EF by done.
  assert (u32 (freeblock s + 1) = freeblock s + 1) as Eu by (apply u32_small; lia).
  assert (BBLOCK (freeblock s) mk_sb = bmapstart mk_sb) as Eb.
  { destruct (bblock_eq _ _ _ (freeblock s) mk_layout) as [-> _]; [change (size mk_sb) with 2000; lia|].
    rewrite Z.div_small; [done|]. unfold BPB, BSIZE. lia. }
  apply HQ; [|done|exact Eu]. unfold fresh. rewrite Eb, (se_bmap _ _ H). split; cbn [img freeblock]; rewrite ?Eu.
  - intros m Hm Hne. unfold fupd. rewrite (decide_False (P := m = bmapstart mk_sb)) by done. destruct (decide (m = freeblock s)) as [->|].
    + by rewrite (se_img _ _ H), (se_zero _ _ H) by lia.
    + by apply (se_img _ _ H).
  - unfold fupd. rewrite decide_False, decide_True by (done || lia). rewrite bitmap_next by lia.
    by rewrite Z.mod_small by (unfold BPB, BSIZE; lia).
  - intros m Hm. unfold fupd. rewrite !decide_False by lia. apply (se_zero _ _ H). lia.
  - lia.
  - intros m. unfold fupd. destruct (decide _); [apply zeros_ok|]. destruct (decide _); [|apply H].
    apply mark_ok; [apply bitmap_ok; unfold BPB, BSIZE; lia|]. apply Z.mod_pos_bound. unfold BPB, BSIZE. lia.
Qed.

(** ** One file *)

(** The file with addresses [a] has the contents [l], its blocks are allocated up
    to its end and no further, and the rest of its last block is zero. *)
Record hosts (C : Z → list Z) (a : list Z) (l : list Z) : Prop := {
  ho_ok : mfile_ok C a;
  ho_byte k : 0 ≤ k < MAXFILE * BSIZE → fbyte C a k = if decide (k < len l) then l !!! Z.to_nat k else 0;
  ho_map bn : in_file bn → amap C a bn ≠ 0 ↔ bn * BSIZE < len l;
  ho_ind : ind_of a ≠ 0 ↔ NDIRECT * BSIZE < len l;
  ho_len : len l ≤ MAXFILE * BSIZE;
}.

(** The blocks of a file of [n] bytes, with the table of indirect blocks. *)
Definition blocks_for (n : Z) : Z := (n + BSIZE - 1) / BSIZE + (if NDIRECT * BSIZE <? n then 1 else 0).

(** The blocks that the next byte of a file of [n] bytes needs. *)
Definition next_cost (n : Z) : Z := (if n mod BSIZE =? 0 then 1 else 0) + (if n =? NDIRECT * BSIZE then 1 else 0).

Lemma blocks_step n m :
  0 ≤ n → 0 < m → m ≤ (n / BSIZE + 1) * BSIZE - n → blocks_for (n + m) = blocks_for n + next_cost n.
Proof.
  intros Hn Hm Hle. unfold blocks_for, next_cost, NDIRECT in *. assert (BSIZE = 1024) as E by done. rewrite E in *.
  destruct (Z.eqb_spec (n mod 1024) 0), (Z.eqb_spec n (12 * 1024)), (Z.ltb_spec (12 * 1024) (n + m)), (Z.ltb_spec (12 * 1024) n); dlia.
Qed.

Lemma blocks_mono n m : 0 ≤ n → 0 ≤ m → blocks_for n ≤ blocks_for (n + m).
Proof.
  intros Hn Hm. unfold blocks_for, NDIRECT. assert (BSIZE = 1024) as -> by done.
  destruct (Z.ltb_spec (12 * 1024) (n + m)), (Z.ltb_spec (12 * 1024) n); dlia.
Qed.

(** What [block_for] does for block [bn]. *)
Record placed C a C' a' (bn : Z) : Prop := {
  pl_grows : mgrows C a C' a';
  pl_map bn' : in_file bn' → amap C' a' bn' ≠ 0 ↔ amap C a bn' ≠ 0 ∨ bn' = bn;
  pl_ind : ind_of a' ≠ 0 ↔ ind_of a ≠ 0 ∨ NDIRECT ≤ bn;
}.

Lemma placed_already C a bn : mfile_ok C a → amap C a bn ≠ 0 → (NDIRECT ≤ bn → ind_of a ≠ 0) → placed C a C a bn.
Proof. intros Hf Hm Hi. split; [by apply grows_refl|naive_solver|naive_solver]. Qed.

Lemma addr_range C a bn : mfile_ok C a → in_file bn → amap C a bn ≠ 0 → nmeta ≤ amap C a bn < FSSIZE.
Proof. intros Hf Hbn Hnz. exact (proj1 (fo_data _ _ _ _ Hf _ (owned_map _ _ _ Hbn Hnz))). Qed.

Lemma ind_range C a : mfile_ok C a → ind_of a ≠ 0 → nmeta ≤ ind_of a < FSSIZE.
Proof. intros Hf Hnz. exact (proj1 (fo_data _ _ _ _ Hf _ (owned_ind C a Hnz))). Qed.

Lemma sees_below s C a b : sees s C → mfile_ok C a → owned C a b → nmeta ≤ b < freeblock s.
Proof.
  intros Hs Hf Ho. destruct (fo_data _ _ _ _ Hf _ Ho) as [Hr Hu]. change (size mk_sb) with FSSIZE in Hr.
  rewrite (sees_used _ _ _ Hs) in Hu by (pose proof nmeta_pos; lia). apply bool_decide_eq_true in Hu. lia.
Qed.

Lemma addrs_at (a : list Z) ip : i_addrs ip = a → with_addrs a ip = ip.
Proof. intros <-. by destruct ip. Qed.

Lemma next_fresh s C : sees s C → freeblock s < FSSIZE → nmeta ≤ freeblock s < size mk_sb ∧ mused C (freeblock s) = false.
Proof.
  intros Hs Hlt. destruct (se_free _ _ Hs) as [Hge _]. pose proof nmeta_pos. split; [done|].
  rewrite (sees_used _ _ _ Hs) by lia. by rewrite bool_decide_false by lia.
Qed.

(** [alloc_addr]: the address is there, or a fresh block is placed. *)
Lemma wp_alloc_addr s C k din (Q : inode → mk_st → Prop) :
  sees s C → 0 ≤ i_addrs din !!! k < 2 ^ 32 → freeblock s + (if i_addrs din !!! k =? 0 then 1 else 0) ≤ FSSIZE →
  (i_addrs din !!! k ≠ 0 → Q din s) →
  (∀ s', i_addrs din !!! k = 0 → freeblock s < FSSIZE → sees s' (fresh mk_sb C (freeblock s)) → freeinode s' = freeinode s →
     freeblock s' = freeblock s + 1 → Q (with_addrs (<[k := freeblock s]> (i_addrs din)) din) s') →
  wp (alloc_addr k din) Q s.
Proof.
  intros Hs Hr Hroom HQ HQ'. unfold alloc_addr. rewrite xint_id by done. destruct (Z.eqb_spec (i_addrs din !!! k) 0) as [E|E].
  - wp_step. apply (wp_next_block s C); [done|lia|]. intros s' H1 H2 H3. wp_step. destruct (se_free _ _ Hs) as [Hge _].
    rewrite xint_id; [|assert (0 < nmeta ∧ FSSIZE < 2 ^ 32) by done; lia]. by apply HQ'; [|lia| | |].
  - wp_step. by apply HQ.
Qed.

Section block_for.
Context (s : mk_st) (C : Z → list Z) (a : list Z) (din : inode) (bn : Z).
Context (Hs : sees s C) (Hf : mfile_ok C a) (Ha : i_addrs din = a) (Hbn : in_file bn).

Lemma wp_block_direct (Q : Z * inode → mk_st → Prop) :
  bn < NDIRECT → freeblock s + (if amap C a bn =? 0 then 1 else 0) ≤ FSSIZE →
  (∀ s' C' a', sees s' C' → placed C a C' a' bn → freeinode s' = freeinode s →
     freeblock s' = freeblock s + (if amap C a bn =? 0 then 1 else 0) → Q (amap C' a' bn, with_addrs a' din) s') →
  wp (block_for din bn) Q s.
Proof.
  intros Hd Hroom HQ. unfold block_for. assert ((bn <? NDIRECT) = true) as Eb by lia. rewrite Eb.
  assert (0 ≤ bn) by (unfold in_file in Hbn; lia). assert (∀ C' a', amap C' a' bn = a' !!! Z.to_nat bn) as Em by (intros C' a'; unfold amap; by rewrite Eb).
  pose proof nmeta_pos. assert (FSSIZE < 2 ^ 32) as HF by done. pose proof (addr_range C a bn Hf Hbn) as Hr. rewrite (Em C a) in *.
  wp_step. apply (wp_alloc_addr s C); rewrite ?Ha; [done| |done|..].
  - destruct (decide (a !!! Z.to_nat bn = 0)); lia.
  - intros Hnz. wp_step. rewrite xint_id by lia. rewrite <- (addrs_at a din Ha), <- (Em C a) at 1. destruct (Z.eqb_spec (a !!! Z.to_nat bn) 0); [done|].
    apply HQ; [done| |done|lia]. apply placed_already; [done|by rewrite Em|lia].
  - intros s' E0 Hlt Hs' Ei Ef. rewrite E0 in HQ. destruct (next_fresh s C Hs Hlt) as [Hn Hu]. change (size mk_sb) with FSSIZE in Hn.
    pose proof (λ bn', amap_direct anywhere mk_sb nmeta mk_layout nmeta_pos C _ Hn Hu a bn bn' Hf) as Hm.
    destruct (grows_direct anywhere mk_sb nmeta mk_layout nmeta_pos C _ Hn Hu (se_blk _ _ Hs) a bn Hf) as [G E]; [lia|by rewrite Em|].
    wp_step. cbn [i_addrs with_addrs]. rewrite (Em (fresh mk_sb C (freeblock s))) in E. rewrite xint_id by (rewrite E; lia).
    rewrite <- (Em (fresh mk_sb C (freeblock s))). apply HQ; [done| |done|done]. split; [done|..].
    + intros bn' Hb'. rewrite Hm by (done || lia). destruct (decide (bn' = bn)) as [->|Hne]; naive_solver lia.
    + rewrite ind_direct by (done || lia). naive_solver lia.
Qed.

Lemma wp_alloc_table (Q : inode → mk_st → Prop) :
  NDIRECT ≤ bn → freeblock s + (if ind_of a =? 0 then 1 else 0) ≤ FSSIZE →
  (∀ s' C' a', sees s' C' → mgrows C a C' a' → (∀ bn', in_file bn' → amap C' a' bn' = amap C a bn') → ind_of a' ≠ 0 → freeinode s' = freeinode s →
     freeblock s' = freeblock s + (if ind_of a =? 0 then 1 else 0) → Q (with_addrs a' din) s') →
  wp (alloc_addr (Z.to_nat NDIRECT) din) Q s.
Proof.
  intros Hi Hroom HQ. pose proof nmeta_pos. assert (FSSIZE < 2 ^ 32) as HF by done. pose proof (ind_range C a Hf) as Hr.
  apply (wp_alloc_addr s C); rewrite ?Ha; fold (ind_of a); [done| |done|..].
  - destruct (decide (ind_of a = 0)); lia.
  - intros Hnz. rewrite <- (addrs_at a din Ha). destruct (Z.eqb_spec (ind_of a) 0); [done|].
    apply (HQ s C a); [done|by apply grows_refl|done|done|done|lia].
  - intros s' E0 Hlt Hs' Ei Ef. rewrite E0 in HQ. destruct (next_fresh s C Hs Hlt) as [Hn Hu]. change (size mk_sb) with FSSIZE in Hn.
    apply (HQ s' (fresh mk_sb C (freeblock s))); [done|..].
    + by apply (grows_ind anywhere mk_sb nmeta mk_layout nmeta_pos C _ Hn Hu (se_blk _ _ Hs)).
    + intros bn' Hb'. by apply (amap_ind mk_sb nmeta nmeta_pos).
    + rewrite (ind_set mk_sb nmeta C) by done. lia.
    + done.
    + done.
Qed.
End block_for.

Lemma table_entry C a bn : ind_of a ≠ 0 → NDIRECT ≤ bn → get32 (C (ind_of a)) (Z.to_nat (4 * (bn - NDIRECT))) = amap C a bn.
Proof. intros Hi Hb. unfold amap. destruct (Z.ltb_spec bn NDIRECT); [lia|]. by destruct (Z.eqb_spec (ind_of a) 0). Qed.

Lemma entry_fits bn : in_file bn → (Z.to_nat (4 * (bn - NDIRECT)) + 4 ≤ Z.to_nat BSIZE)%nat.
Proof. unfold in_file, MAXFILE, NINDIRECT. change (BSIZE / 4) with 256. unfold NDIRECT, BSIZE. lia. Qed.

Lemma wp_alloc_entry s C a bn (Q : list Z → mk_st → Prop) :
  sees s C → mfile_ok C a → in_file bn → NDIRECT ≤ bn → ind_of a ≠ 0 → freeblock s + (if amap C a bn =? 0 then 1 else 0) ≤ FSSIZE →
  (∀ s' C', sees s' C' → placed C a C' a bn → amap C' a bn ≠ 0 → freeinode s' = freeinode s →
     freeblock s' = freeblock s + (if amap C a bn =? 0 then 1 else 0) → Q (C' (ind_of a)) s') →
  wp (alloc_entry (ind_of a) (Z.to_nat (4 * (bn - NDIRECT))) (C (ind_of a))) Q s.
Proof.
  intros Hs Hf Hbn Hge Hi Hroom HQ. unfold alloc_entry. rewrite table_entry by done. pose proof nmeta_pos.
  destruct (Z.eqb_spec (amap C a bn) 0) as [E0|Hnz].
  - wp_step. apply (wp_next_block s C); [done|lia|]. intros s' Hs' Ei Ef. assert (freeblock s < FSSIZE) as Hlt by lia.
    destruct (next_fresh s C Hs Hlt) as [Hn Hu]. change (size mk_sb) with FSSIZE in Hn. assert (FSSIZE < 2 ^ 32) as HF by done.
    pose proof (fresh_table anywhere mk_sb nmeta mk_layout nmeta_pos C _ Hn Hu a Hf Hi) as Et.
    pose proof (sees_below _ _ _ _ Hs Hf (owned_ind C a Hi)) as Hir.
    pose proof (λ bn', amap_entry anywhere mk_sb nmeta mk_layout nmeta_pos C _ Hn Hu (se_blk _ _ Hs) a bn bn' Hf) as Hm.
    destruct (grows_entry anywhere mk_sb nmeta mk_layout nmeta_pos C _ Hn Hu (se_blk _ _ Hs) a bn Hf) as [G E]; [unfold in_file in Hbn; lia|done|done|].
    rewrite xint_id by lia. rewrite Et in *. wp_step. apply (wp_wsect s' _ _ _ _ Hs'); [lia|assert (bmapstart mk_sb < nmeta) by done; lia| |].
    { apply put32_ok; [apply Hs|by apply entry_fits]. }
    intros s2 Hs2 Ei2 Ef2. wp_step.
    set (C' := fupd _ _ _) in *. replace (put32 _ _ _) with (C' (ind_of a)) by (unfold C', fupd; by rewrite decide_True).
    apply HQ; [done| |by rewrite E; lia|congruence|lia]. split; [done| |naive_solver].
    intros bn' Hb'. rewrite Hm by (done || (unfold in_file in Hbn; lia)). destruct (decide (bn' = bn)) as [->|Hne]; naive_solver lia.
  - wp_step. apply HQ; [done|by apply placed_already|done|done|lia].
Qed.

(** The blocks that block [bn] of the file still needs. *)
Definition need C a (bn : Z) : Z :=
  (if amap C a bn =? 0 then 1 else 0) + (if (NDIRECT <=? bn) && (ind_of a =? 0) then 1 else 0).

Lemma wp_block_for s C a din bn (Q : Z * inode → mk_st → Prop) :
  sees s C → mfile_ok C a → i_addrs din = a → in_file bn → freeblock s + need C a bn ≤ FSSIZE →
  (∀ s' C' a', sees s' C' → placed C a C' a' bn → amap C' a' bn ≠ 0 → freeinode s' = freeinode s →
     freeblock s' = freeblock s + need C a bn → Q (amap C' a' bn, with_addrs a' din) s') →
  wp (block_for din bn) Q s.
Proof.
  intros Hs Hf Ha Hbn Hroom HQ. unfold need in *. destruct (Z.leb_spec NDIRECT bn) as [Hge|Hlt]; cbn [andb] in *.
  - unfold block_for. destruct (Z.ltb_spec bn NDIRECT); [lia|]. wp_step. apply (wp_alloc_table s C a din bn); try done.
    { destruct (amap C a bn =? 0); lia. }
    intros s1 C1 a1 Hs1 G1 Hm1 Hi1 Ei1 Ef1. pose proof (gr_ok _ _ _ _ _ _ G1) as Hf1. cbn [i_addrs with_addrs]. fold (ind_of a1).
    pose proof (ind_range C1 a1 Hf1 Hi1) as Hir. pose proof nmeta_pos. assert (FSSIZE < 2 ^ 32) as HF by done.
    rewrite xint_id by lia. wp_step. apply (wp_rsect s1 C1); [done|lia|assert (bmapstart mk_sb < nmeta) by done; lia|].
    wp_step. apply (wp_alloc_entry s1 C1 a1 bn); try done; [rewrite Hm1 by done; lia|].
    intros s2 C2 Hs2 P2 Hnz2 Ei2 Ef2. wp_step. rewrite table_entry by done. destruct P2 as [G2 M2 I2].
    pose proof (addr_range C2 a1 bn (gr_ok _ _ _ _ _ _ G2) Hbn Hnz2). rewrite xint_id by lia. rewrite Hm1 in Ef2 by done.
    apply HQ; [done| |done|congruence|lia]. split; [by eapply (grows_trans anywhere); [apply mk_layout|apply nmeta_pos|..]| |naive_solver].
    intros bn' Hb'. rewrite M2, Hm1 by done. done.
  - rewrite Z.add_0_r in *. apply (wp_block_direct s C a); try done. intros s' C' a' Hs' P Ei Ef. apply HQ; try done.
    apply (pl_map _ _ _ _ _ P); [done|by right].
Qed.

Lemma need_cost C a l : hosts C a l → len l < MAXFILE * BSIZE → need C a (len l / BSIZE) = next_cost (len l).
Proof.
  intros [_ _ Hm Hi _] Hlt. assert (0 ≤ len l) as H0 by (unfold len; lia). specialize (Hm _ (file_block _ (conj H0 Hlt))).
  unfold need, next_cost. assert (BSIZE = 1024) as E by done. unfold NDIRECT in *. rewrite E in *.
  f_equal.
  - destruct (Z.eqb_spec (amap C a (len l / 1024)) 0), (Z.eqb_spec (len l mod 1024) 0); [done| | |done]; exfalso; dlia.
  - destruct (Z.leb_spec 12 (len l / 1024)), (Z.eqb_spec (ind_of a) 0), (Z.eqb_spec (len l) (12 * 1024)); cbn [andb]; try done; exfalso; dlia.
Qed.

Lemma amap_store C a b l bn : b ≠ ind_of a → amap (fupd C b l) a bn = amap C a bn.
Proof. intros Hb. unfold amap, fupd. destruct (_ <? _); [done|]. destruct (_ =? 0); [done|]. by rewrite decide_False. Qed.

Lemma len_app l l' : len (l ++ l') = len l + len l'.
Proof. unfold len. rewrite length_app. lia. Qed.

(** A piece [c] within one block is appended. *)
Lemma hosts_step C a l C1 a1 c :
  let bn := len l / BSIZE in
  let C2 := fupd C1 (amap C1 a1 bn) (splice (Z.to_nat (len l - bn * BSIZE)) c (C1 (amap C1 a1 bn))) in
  hosts C a l → placed C a C1 a1 bn → (∀ m, blk_ok (C1 m)) → len l + len c ≤ MAXFILE * BSIZE → 0 < len c ≤ (bn + 1) * BSIZE - len l →
  hosts C2 a1 (l ++ c) ∧ mwrites C a C2 a1 (len l) c.
Proof.
  intros bn C2 H [G M I] Hblk Hmax Hc. assert (0 ≤ len l) as H0 by (unfold len; lia). assert (in_file bn) as Hbn by (apply file_block; lia).
  assert (amap C1 a1 bn ≠ 0) as Hnz by (apply M; [done|by right]). pose proof (gr_ok _ _ _ _ _ _ G) as Hf1.
  assert (BSIZE = 1024) as HB by done.
  assert (mwrites C a C2 a1 (len l) c) as W.
  { change c with ([] ++ c). eapply (writes_trans anywhere); [apply mk_layout|apply nmeta_pos|done|by apply writes_grows|].
    replace (len l + len []) with (bn * BSIZE + (len l - bn * BSIZE)) by (unfold len; cbn; lia).
    eapply writes_chunk; [apply mk_layout|apply nmeta_pos|done|done|done|done|..]; unfold bn in *; rewrite HB in *; dlia. }
  split; [|done]. destruct H as [F B Hm Hi Hl]. split.
  - apply W.
  - intros k Hk. rewrite (wr_byte _ _ _ _ _ _ _ _ W k Hk), B, len_app by done. unfold len in *. repeat destruct (decide _); try lia.
    + rewrite lookup_total_app_r by lia. f_equal. lia.
    + by rewrite lookup_total_app_l by lia.
  - intros bn' Hb'. unfold C2. rewrite amap_store by (by apply Hf1). rewrite M, Hm, len_app by done. unfold bn in *. rewrite HB in *. clear -Hc H0. dlia.
  - rewrite I, Hi, len_app. unfold bn, NDIRECT in *. rewrite HB in *. clear -Hc H0. dlia.
  - rewrite len_app. lia.
Qed.

Lemma iappend_loop_nil fuel din off s : iappend_loop fuel din off [] s = (ret (din, off) : M mk_st (inode * Z)) s.
Proof. by destruct fuel. Qed.

Lemma iappend_loop_cons fuel din off p :
  p ≠ [] → iappend_loop (S fuel) din off p =
    let fbn := off / BSIZE in
    if negb (fbn <? MAXFILE) then panic "assert"
    else
      '(x, din) ← block_for din fbn;
      let n1 := Z.min (Z.of_nat (length p)) ((fbn + 1) * BSIZE - off) in
      buf ← rsect x;
      let o := Z.to_nat (off - fbn * BSIZE) in
      let c := take (Z.to_nat n1) p in
      wsect x (splice o c buf);;
      iappend_loop fuel din (u32 (off + n1)) (drop (Z.to_nat n1) p).
Proof. by destruct p. Qed.

Lemma wp_iappend_loop fuel s C a l p din (Q : inode * Z → mk_st → Prop) :
  sees s C → hosts C a l → i_addrs din = a → bytes p → (length p ≤ fuel)%nat → len l + len p ≤ MAXFILE * BSIZE →
  freeblock s + (blocks_for (len l + len p) - blocks_for (len l)) ≤ FSSIZE →
  (∀ s' C' a', sees s' C' → hosts C' a' (l ++ p) → mwrites C a C' a' (len l) p → freeinode s' = freeinode s →
     freeblock s' = freeblock s + (blocks_for (len l + len p) - blocks_for (len l)) → Q (with_addrs a' din, len l + len p) s') →
  wp (iappend_loop fuel din (len l) p) Q s.
Proof.
  revert s C a l p din Q. induction fuel as [|fuel IH]; intros s C a l p din Q Hs H Ha Hb Hfuel Hmax Hroom HQ;
    (destruct (decide (p = [])) as [->|Hp];
     [eapply wp_eq; [apply iappend_loop_nil|]; wp_step; change (len []) with 0 in *; rewrite Z.add_0_r in *; rewrite <- (addrs_at a din Ha);
      apply (HQ s C a); [done|by rewrite app_nil_r|apply writes_grows; [unfold len; lia|apply grows_refl, H]|done|lia]|]).
  { destruct p; [done|cbn in Hfuel; lia]. }
  assert (0 < len p) as Hpos by (destruct p; [done|unfold len; cbn; lia]). assert (0 ≤ len l) as H0 by (unfold len; lia).
  set (bn := len l / BSIZE). assert (in_file bn) as Hbn by (apply file_block; lia). assert (BSIZE = 1024) as HB by done.
  set (n1 := Z.min (len p) ((bn + 1) * BSIZE - len l)). assert (0 < n1 ≤ len p) as Hn1 by (unfold n1, bn; rewrite HB; dlia).
  assert (n1 ≤ (len l / BSIZE + 1) * BSIZE - len l) as Hn1' by (unfold n1, bn; lia).
  set (c := take (Z.to_nat n1) p). assert (len c = n1) as Hc by (unfold c, len in *; rewrite length_take; lia).
  set (p' := drop (Z.to_nat n1) p). assert (p = c ++ p') as Ep by (unfold c, p'; by rewrite take_drop). pose proof (len_app c p') as El. rewrite <- Ep in El.
  pose proof (blocks_step (len l) n1 H0 (proj1 Hn1) Hn1') as Eb. assert (0 ≤ len p') as Hp' by (unfold len; lia).
  pose proof (blocks_mono (len l + n1) (len p') ltac:(lia) Hp') as Hbm. replace (len l + n1 + len p') with (len l + len p) in Hbm by lia.
  assert (bytes c ∧ bytes p') as [Hbc Hbp] by (apply Forall_app; by rewrite <- Ep).
  rewrite iappend_loop_cons by done. cbv zeta. fold bn.
  assert ((bn <? MAXFILE) = true) as Ebn by (unfold in_file in Hbn; lia). rewrite Ebn. change (negb true) with false. cbv iota.
  wp_step. apply (wp_block_for s C a); [done|apply H|done|done|unfold bn; rewrite need_cost by (done || lia); lia|].
  intros s1 C1 a1 Hs1 P1 Hnz1 Ei1 Ef1. unfold bn in Ef1. rewrite need_cost in Ef1 by (done || lia).
  pose proof (gr_ok _ _ _ _ _ _ (pl_grows _ _ _ _ _ P1)) as Hf1. pose proof (sees_below _ _ _ _ Hs1 Hf1 (owned_map _ _ _ Hbn Hnz1)) as Hr1.
  destruct (hosts_step C a l C1 a1 c H P1 (se_blk _ _ Hs1)) as [H2 W2]; [lia|rewrite Hc; fold bn; lia|]. fold bn in H2, W2.
  assert (bmapstart mk_sb < nmeta) as Hbm' by done. pose proof nmeta_pos. destruct (se_free _ _ Hs1) as [_ Hfb].
  change (Z.of_nat (length p)) with (len p). fold n1. fold c. fold p'.
  wp_step. apply (wp_rsect s1 C1); [done|lia|lia|]. wp_step. apply (wp_wsect s1 C1); [done|lia|lia| |].
  { apply splice_ok; [apply (se_blk _ _ Hs1)|exact Hbc|]. assert (length c = Z.to_nat n1) as -> by (unfold len in Hc; lia). unfold bn in *. rewrite HB in *. dlia. }
  intros s2 Hs2 Ei2 Ef2. rewrite u32_small by (assert (MAXFILE * BSIZE < 2 ^ 32) by done; lia).
  replace (len l + n1) with (len (l ++ c)) in * by (rewrite len_app; lia).
  assert (len (l ++ c) = len l + n1) as Elc by (rewrite len_app; lia).
  assert (len (l ++ c) + len p' = len l + len p) as Esum by lia. set (C2 := fupd _ _ _) in *.
  apply (IH s2 C2 a1 (l ++ c) p' (with_addrs a1 din)); rewrite ?Esum; [done|done|done|done| |lia|lia|].
  { unfold p'. rewrite length_drop. unfold len in *. lia. }
  intros s3 C3 a3 Hs3 H3 W3 Ei3 Ef3. replace (with_addrs a3 (with_addrs a1 din)) with (with_addrs a3 din) by done.
  apply (HQ s3 C3 a3); [done| | |congruence|lia].
  - replace (l ++ p) with ((l ++ c) ++ p') by (by rewrite <- (assoc_L (++)), <- Ep). exact H3.
  - rewrite Ep. eapply (writes_trans anywhere); [apply mk_layout|apply nmeta_pos|done|exact W2|]. by rewrite <- len_app.
Qed.
