(* ===== verification/MkfsImage.v ===== *)
(** * The files of the image: mkfs/mkfs.c

    [image s files C]: the image holds exactly the [files], each with its type and
    contents; file [k] is inode [1 + k].  [ialloc] adds an empty file and [iappend]
    appends to one of them, and leaves the others alone. *)

From S2P Require Import Prelude Machine Log LogFacts BlockLayer Fs FsFacts FsFile FsWrite FsInode FsWritei FsDir FsDirFacts Mkfs MkfsFacts.

Definition load (C : Z → list Z) (inum : Z) : inode := dinode_load (C (IBLOCK inum mk_sb)) (dinode_off inum) zero_inode.

(** An inode as mkfs writes it. *)
Definition file_din (ty sz : Z) (a : list Z) : inode := Inode 0 0 0 None false ty 0 0 1 sz a.

Definition inumber (i : Z) : Prop := 0 ≤ i < NINODES.

Lemma iblock_range i : inumber i → 2 ≤ IBLOCK i mk_sb < bmapstart mk_sb ∧ IBLOCK i mk_sb = 32 + i / 16.
Proof.
  unfold inumber, IBLOCK. change (inodestart mk_sb) with 32. change (bmapstart mk_sb) with 45. change IPB with 16. change NINODES with 200.
  intros Hi. rewrite u32_small by dlia. dlia.
Qed.

(** An inode is stored; the others stay. *)
Lemma load_store C i j ty sz a :
  (∀ m, blk_ok (C m)) → inumber i → inumber j → inode_ok (file_din ty sz a) →
  load (fupd C (IBLOCK i mk_sb) (dinode_store (file_din ty sz a) (C (IBLOCK i mk_sb)) (dinode_off i))) j =
    if decide (j = i) then file_din ty sz a else load C j.
Proof.
  intros Hb Hi Hj Hok. destruct (iblock_range i Hi) as [_ Ei]. destruct (iblock_range j Hj) as [_ Ej]. unfold load, fupd.
  pose proof (dinode_fits i (proj1 Hi)) as Fi. pose proof (dinode_fits j (proj1 Hj)) as Fj. destruct (Hb (IBLOCK i mk_sb)) as [Hl _].
  destruct (decide (j = i)) as [->|Hne].
  - rewrite decide_True by done. by rewrite dinode_load_store by (done || lia).
  - destruct (decide (IBLOCK j mk_sb = IBLOCK i mk_sb)) as [E|E]; [|done]. rewrite E, !dinode_load_fld.
    assert (∀ k t, (k + t ≤ 64)%nat → fld k (dinode_store (file_din ty sz a) (C (IBLOCK i mk_sb)) (dinode_off i)) (dinode_off j + t) = fld k (C (IBLOCK i mk_sb)) (dinode_off j + t)) as Hk.
    { intros k t Hkt. apply dinode_store_other; [apply Hok|lia|]. unfold dinode_off, inumber, IPB, SIZEOF_DINODE in *. change (BSIZE / 64) with 16 in *. dlia. }
    rewrite <- (Nat.add_0_r (dinode_off j)) at 1 6. f_equal; [by rewrite Hk by lia..|]. apply list_fmap_ext. intros k z Hz.
    apply lookup_seq in Hz. rewrite <- Nat.add_assoc. rewrite Hk; [done|lia].
Qed.

(** A file whose blocks did not change. *)
Lemma hosts_frame C C' a l :
  hosts C a l → (∀ b, owned C a b → C' b = C b ∧ mused C' b = true) → hosts C' a l ∧ ∀ b, owned C' a b ↔ owned C a b.
Proof.
  intros [Hf Hb Hm Hi Hl] HC. assert (∀ bn, amap C' a bn = amap C a bn) as Em.
  { intros bn. unfold amap. destruct (_ <? _); [done|]. destruct (Z.eqb_spec (ind_of a) 0) as [|Hnz]; [done|].
    by rewrite (proj1 (HC _ (owned_ind C a Hnz))). }
  assert (∀ b, owned C' a b ↔ owned C a b) as Ho by (intros b; unfold owned; by setoid_rewrite Em). split; [|done]. split.
  - split; [apply Hf|..].
    + intros b Hbo%Ho. split; [apply (fo_data _ _ _ _ Hf b Hbo)|by apply HC].
    + intros b1 b2. rewrite !Em. apply Hf.
    + intros b1. rewrite Em. apply Hf.
  - intros k Hk. rewrite <- (Hb k Hk). unfold fbyte, fblk. rewrite Em. destruct (Z.eqb_spec (amap C a (k / BSIZE)) 0) as [|Hnz]; [done|].
    by rewrite (proj1 (HC _ (owned_map C a _ (file_block k Hk) Hnz))).
  - intros bn Hbn. rewrite Em. by apply Hm.
  - done.
  - done.
Qed.

Definition total (files : list (Z * list Z)) : Z := foldr (λ f n, blocks_for (len f.2) + n) 0 files.

Lemma total_app fs fs' : total (fs ++ fs') = total fs + total fs'.
Proof. induction fs as [|f fs IH]; [done|]. cbn [total foldr app] in *. unfold total in *. lia. Qed.

Lemma blocks_total_insert fs k f g : fs !! k = Some f → total (<[k := g]> fs) = total fs - blocks_for (len f.2) + blocks_for (len g.2).
Proof.
  intros Hk. pose proof (lookup_lt_Some _ _ _ Hk) as Hlt. rewrite insert_take_drop by done. rewrite <- (take_drop_middle fs k f Hk) at 3.
  rewrite !total_app. unfold total. cbn [foldr]. lia.
Qed.

Definition addrs (C : Z → list Z) (k : nat) : list Z := i_addrs (load C (1 + Z.of_nat k)).

Record image (s : mk_st) (files : list (Z * list Z)) (C : Z → list Z) : Prop := {
  im_sees : sees s C;
  im_super : C 1 = sb_block;
  im_count : freeinode s = 1 + Z.of_nat (length files) ∧ freeinode s ≤ NINODES;
  im_blocks : freeblock s = nmeta + total files;
  im_type k f : files !! k = Some f → - 2 ^ 15 ≤ f.1 < 2 ^ 15;
  im_inode k f : files !! k = Some f → load C (1 + Z.of_nat k) = file_din f.1 (len f.2) (addrs C k);
  im_file k f : files !! k = Some f → hosts C (addrs C k) f.2;
  im_disj k k' b : (k < length files)%nat → (k' < length files)%nat → k ≠ k' → owned C (addrs C k) b → ¬ owned C (addrs C k') b;
  im_free i : Z.of_nat (length files) < i < NINODES → load C i = zero_inode;
}.

Lemma mfile_addrs C a : mfile_ok C a → length a = 13%nat ∧ Forall (λ z, 0 ≤ z < 2 ^ 32) a.
Proof. apply (file_addrs anywhere); [apply mk_layout|apply nmeta_pos]. Qed.

Lemma hosts_din C a l ty : hosts C a l → - 2 ^ 15 ≤ ty < 2 ^ 15 → inode_ok (file_din ty (len l) a).
Proof.
  intros H Hty. split; cbn.
  - repeat constructor; lia.
  - pose proof (ho_len _ _ _ H). assert (MAXFILE * BSIZE < 2 ^ 32) by done. unfold len in *. lia.
  - apply mfile_addrs with C, H.
Qed.

(** A block below the data area and outside the bitmap is changed. *)
Lemma used_meta s C s' m d b : sees s C → sees s' (fupd C m d) → freeblock s' = freeblock s → 0 ≤ b < FSSIZE → mused (fupd C m d) b = mused C b.
Proof. intros H H' E Hb. rewrite (sees_used s C), (sees_used s' (fupd C m d)) by done. by rewrite E. Qed.

Lemma wp_rinode s C i (Q : inode → mk_st → Prop) : sees s C → inumber i → Q (load C i) s → wp (rinode i) Q s.
Proof.
  intros Hs Hi HQ. destruct (iblock_range i Hi) as [Hr _]. unfold rinode. wp_step.
  assert (bmapstart mk_sb < FSSIZE) by done. apply (wp_rsect s C); [done|lia|lia|]. by wp_step.
Qed.

Definition put_din C (i : Z) (ip : inode) : Z → list Z := fupd C (IBLOCK i mk_sb) (dinode_store ip (C (IBLOCK i mk_sb)) (dinode_off i)).

Lemma wp_winode s C i ip (Q : unit → mk_st → Prop) :
  sees s C → inumber i → inode_ok ip →
  (∀ s', sees s' (put_din C i ip) → freeinode s' = freeinode s → freeblock s' = freeblock s → Q tt s') → wp (winode i ip) Q s.
Proof.
  intros Hs Hi Hip HQ. destruct (iblock_range i Hi) as [Hr _]. unfold winode. wp_step.
  assert (bmapstart mk_sb < nmeta ∧ nmeta < FSSIZE) as [? ?] by done. destruct (se_free _ _ Hs) as [? ?].
  apply (wp_rsect s C); [done|lia|lia|]. apply (wp_wsect s C); [done|lia|lia| |done].
  apply dinode_store_ok; [apply (se_blk _ _ Hs)|apply Hip|apply Hi].
Qed.

Lemma image_inum s files C j : image s files C → (j < length files)%nat → inumber (1 + Z.of_nat j).
Proof. intros I Hj. destruct (im_count _ _ _ I). unfold inumber. lia. Qed.

Section append.
Context (s : mk_st) (files : list (Z * list Z)) (C : Z → list Z) (k : nat) (ty : Z) (l p : list Z).
Context (I : image s files C) (Hk : files !! k = Some (ty, l)).
Context (s1 s2 : mk_st) (C1 : Z → list Z) (a1 : list Z).
Context (Hs1 : sees s1 C1) (H1 : hosts C1 a1 (l ++ p)) (W : mwrites C (addrs C k) C1 a1 (len l) p).
Let i := 1 + Z.of_nat k.
Let C2 := put_din C1 i (file_din ty (len (l ++ p)) a1).
Context (Hs2 : sees s2 C2) (Ef : freeblock s2 = freeblock s1) (Ei : freeinode s2 = freeinode s).
Context (Eb : freeblock s1 = freeblock s + (blocks_for (len (l ++ p)) - blocks_for (len l))).

Lemma file_inum j : (j < length files)%nat → inumber (1 + Z.of_nat j).
Proof. by apply (image_inum s files C). Qed.

Lemma k_lt : (k < length files)%nat.
Proof. by eapply lookup_lt_Some. Qed.

Lemma data_kept b : nmeta ≤ b → C2 b = C1 b.
Proof.
  intros Hb. unfold C2, put_din, fupd. rewrite decide_False; [done|]. destruct (iblock_range i (file_inum k k_lt)) as [Hr _].
  assert (bmapstart mk_sb < nmeta) by done. lia.
Qed.

Lemma used_kept b : 0 ≤ b < FSSIZE → mused C b = true → mused C2 b = true.
Proof.
  intros Hb Hu. unfold C2, put_din. rewrite (used_meta s1 C1 s2) by done. by apply (wr_used _ _ _ _ _ _ _ _ W).
Qed.

Lemma meta_kept m : 0 ≤ m < nmeta → m ≠ bmapstart mk_sb → C1 m = C m.
Proof.
  intros Hm Hne. pose proof (im_sees _ _ _ I) as Hs. destruct (se_free _ _ Hs) as [Hge _]. assert (nmeta < FSSIZE) by done.
  apply (wr_frame _ _ _ _ _ _ _ _ W); [change (size mk_sb) with FSSIZE; lia| |unfold is_bmap; change ((size mk_sb - 1) / BPB) with 0; lia|].
  - rewrite (sees_used s) by (done || lia). apply bool_decide_eq_true. lia.
  - intros Ho. pose proof (sees_below _ _ _ _ Hs (ho_ok _ _ _ (im_file _ _ _ I _ _ Hk)) Ho). lia.
Qed.

Lemma load_kept j : inumber j → load C2 j = if decide (j = i) then file_din ty (len (l ++ p)) a1 else load C j.
Proof.
  intros Hj. unfold C2, put_din. rewrite load_store; [|apply (se_blk _ _ Hs1)|apply file_inum, k_lt|done|].
  - destruct (decide _); [done|]. unfold load. destruct (iblock_range j Hj) as [Hr _]. assert (bmapstart mk_sb < nmeta) by done.
    by rewrite meta_kept by lia.
  - apply (hosts_din C1); [done|]. apply (im_type _ _ _ I _ _ Hk).
Qed.

Lemma addrs_kept j : (j < length files)%nat → addrs C2 j = if decide (j = k) then a1 else addrs C j.
Proof.
  intros Hj. unfold addrs. rewrite load_kept by (by apply file_inum). unfold i. repeat destruct (decide _); done || lia.
Qed.

Lemma self_kept : hosts C2 a1 (l ++ p) ∧ ∀ b, owned C2 a1 b ↔ owned C1 a1 b.
Proof.
  apply (hosts_frame C1); [done|]. intros b Hb. pose proof (sees_below _ _ _ _ Hs1 (ho_ok _ _ _ H1) Hb). destruct (se_free _ _ Hs1).
  pose proof nmeta_pos. split; [apply data_kept; lia|]. unfold C2, put_din. rewrite (used_meta s1 C1 s2) by (done || lia).
  apply (fo_data _ _ _ _ (ho_ok _ _ _ H1) b Hb).
Qed.

Lemma other_kept j f : files !! j = Some f → j ≠ k → hosts C2 (addrs C j) f.2 ∧ ∀ b, owned C2 (addrs C j) b ↔ owned C (addrs C j) b.
Proof.
  intros Hj Hne. pose proof (im_file _ _ _ I _ _ Hj) as Hh. apply hosts_frame; [done|]. intros b Hb.
  destruct (fo_data _ _ _ _ (ho_ok _ _ _ Hh) b Hb) as [Hr Hu]. pose proof nmeta_pos. change (size mk_sb) with FSSIZE in Hr.
  split; [|apply used_kept; [lia|done]]. rewrite data_kept by lia. apply (wr_frame _ _ _ _ _ _ _ _ W); [change (size mk_sb) with FSSIZE; lia|done| |].
  - unfold is_bmap. change ((size mk_sb - 1) / BPB) with 0. assert (bmapstart mk_sb < nmeta) by done. lia.
  - apply (im_disj _ _ _ I j k b); [by eapply lookup_lt_Some|apply k_lt|done|done].
Qed.

Lemma owned_was j b : (j < length files)%nat → owned C2 (addrs C2 j) b →
  owned C (addrs C j) b ∨ j = k ∧ mused C b = false.
Proof.
  intros Hj Ho. rewrite addrs_kept in Ho by done. destruct (decide (j = k)) as [->|Hne].
  - apply self_kept in Ho. destruct (wr_own _ _ _ _ _ _ _ _ W b Ho); [by left|by right].
  - destruct (lookup_lt_is_Some_2 files j Hj) as [f Hf]. apply (other_kept j f) in Ho; [by left|done|done].
Qed.

Lemma image_append : image s2 (<[k := (ty, l ++ p)]> files) C2.
Proof.
  pose proof k_lt as Hlt. split; rewrite ?length_insert.
  - done.
  - unfold C2, put_din, fupd. destruct (iblock_range i (file_inum k k_lt)) as [Hr _]. rewrite decide_False by lia.
    rewrite meta_kept by done. apply I.
  - rewrite Ei. apply I.
  - rewrite (blocks_total_insert files k (ty, l)) by done. rewrite Ef, Eb, (im_blocks _ _ _ I). cbn. lia.
  - intros j f Hf. apply list_lookup_insert_Some in Hf as [(<- & <- & _)|[_ Hf]]; [|by apply (im_type _ _ _ I j)]. apply (im_type _ _ _ I _ _ Hk).
  - intros j f Hf. pose proof (lookup_lt_Some _ _ _ Hf) as Hj. rewrite length_insert in Hj. rewrite load_kept, addrs_kept by (by try apply file_inum).
    unfold i. apply list_lookup_insert_Some in Hf as [(<- & <- & _)|[Hne Hf]]; [by rewrite !decide_True|].
    rewrite !decide_False by lia. apply (im_inode _ _ _ I j f Hf).
  - intros j f Hf. pose proof (lookup_lt_Some _ _ _ Hf) as Hj. rewrite length_insert in Hj. rewrite addrs_kept by done.
    apply list_lookup_insert_Some in Hf as [(<- & <- & _)|[Hne Hf]]; [rewrite decide_True by done; apply self_kept|].
    rewrite decide_False by done. by apply other_kept.
  - intros j j' b Hj Hj' Hne Ho Ho'.
    assert (∀ j b, (j < length files)%nat → owned C (addrs C j) b → mused C b = true) as Hused.
    { intros j0 b0 Hj0 Hb0. destruct (lookup_lt_is_Some_2 files j0 Hj0) as [f Hf]. apply (fo_data _ _ _ _ (ho_ok _ _ _ (im_file _ _ _ I _ _ Hf)) _ Hb0). }
    destruct (owned_was j b Hj Ho) as [O|[-> U]], (owned_was j' b Hj' Ho') as [O'|[-> U']]; [|..|done].
    + by destruct (im_disj _ _ _ I j j' b).
    + specialize (Hused j b Hj O). congruence.
    + specialize (Hused j' b Hj' O'). congruence.
  - intros j Hj. rewrite load_kept by (unfold inumber; lia). unfold i. rewrite decide_False by lia. by apply (im_free _ _ _ I).
Qed.
End append.

(** ** Appending *)

Lemma wp_iappend s files C k ty l p (Q : unit → mk_st → Prop) :
  image s files C → files !! k = Some (ty, l) → bytes p → len l + len p ≤ MAXFILE * BSIZE →
  freeblock s + (blocks_for (len l + len p) - blocks_for (len l)) ≤ FSSIZE →
  (∀ s' C', image s' (<[k := (ty, l ++ p)]> files) C' → Q tt s') →
  wp (iappend (1 + Z.of_nat k) p) Q s.
Proof.
  intros I Hk Hb Hmax Hroom HQ. pose proof (image_inum s files C k I (lookup_lt_Some _ _ _ Hk)) as Hin.
  pose proof (im_file _ _ _ I _ _ Hk) as Hh. cbn [snd] in Hh. unfold iappend. wp_step. apply (wp_rinode s C); [apply I|done|].
  rewrite (im_inode _ _ _ I _ _ Hk). cbn [fst snd i_size file_din].
  assert (0 ≤ len l < 2 ^ 32) as Hr by (pose proof (ho_len _ _ _ Hh); assert (MAXFILE * BSIZE < 2 ^ 32) by done; unfold len in *; lia).
  rewrite xint_id by done. wp_step. apply (wp_iappend_loop _ s C (addrs C k) l p); [apply I|done|done|done|done|done|done|].
  intros s1 C1 a1 Hs1 H1 W Ei1 Ef1. cbv iota beta. rewrite xint_id by (assert (MAXFILE * BSIZE < 2 ^ 32) by done; unfold len in *; lia).
  rewrite <- len_app in *. change (set_size (len (l ++ p)) (with_addrs a1 (file_din ty (len l) (addrs C k)))) with (file_din ty (len (l ++ p)) a1).
  apply (wp_winode s1 C1); [done|done|apply (hosts_din C1); [done|apply (im_type _ _ _ I _ _ Hk)]|].
  intros s2 Hs2 Ei2 Ef2. apply (HQ s2 (put_din C1 (1 + Z.of_nat k) (file_din ty (len (l ++ p)) a1))).
  by eapply (image_append s files C k ty l p I Hk s1 s2 C1 a1); try done; congruence.
Qed.

Lemma concat_len (p : list Z) ps : len (concat (p :: ps)) = len p + len (concat ps).
Proof. cbn [concat]. apply len_app. Qed.

Lemma wp_append_all pieces s files C k ty l (Q : unit → mk_st → Prop) :
  image s files C → files !! k = Some (ty, l) → bytes (concat pieces) → len l + len (concat pieces) ≤ MAXFILE * BSIZE →
  freeblock s + (blocks_for (len l + len (concat pieces)) - blocks_for (len l)) ≤ FSSIZE →
  (∀ s' C', image s' (<[k := (ty, l ++ concat pieces)]> files) C' → Q tt s') →
  wp (append_all (1 + Z.of_nat k) pieces) Q s.
Proof.
  revert s files C l Q. induction pieces as [|p ps IH]; intros s files C l Q I Hk Hb Hmax Hroom HQ; cbn [append_all].
  - wp_step. cbn [concat] in HQ. rewrite app_nil_r in HQ. apply (HQ s C). by rewrite list_insert_id.
  - rewrite concat_len in *. cbn [concat] in HQ, Hb. apply Forall_app in Hb as [Hb1 Hb2]. pose proof (lookup_lt_Some _ _ _ Hk) as Hlt.
    assert (0 ≤ len l ∧ 0 ≤ len p ∧ 0 ≤ len (concat ps)) as (? & ? & ?) by (unfold len; lia). 
    pose proof (blocks_mono (len l + len p) (len (concat ps)) ltac:(lia) ltac:(lia)) as Hm. rewrite <- Z.add_assoc in Hm.
    wp_step. apply (wp_iappend s files C k ty l p); [done|done|done|lia|lia|]. intros s1 C1 I1.
    assert (freeblock s1 = freeblock s + (blocks_for (len l + len p) - blocks_for (len l))) as Ef.
    { rewrite (im_blocks _ _ _ I1), (im_blocks _ _ _ I), (blocks_total_insert files k (ty, l)) by done. cbn [snd]. rewrite len_app. lia. }
    apply (IH s1 (<[k := (ty, l ++ p)]> files) C1 (l ++ p)); rewrite ?len_app; [done|by apply list_lookup_insert_eq|done|lia|rewrite <- ?Z.add_assoc; lia|].
    intros s2 C2 I2. apply (HQ s2 C2). by rewrite list_insert_insert_eq, <- (assoc_L (++)) in I2.
Qed.

(** ** New files *)

Lemma amap_zeros C bn : in_file bn → amap C (replicate 13 0) bn = 0.
Proof.
  intros Hbn. unfold amap. destruct (Z.ltb_spec bn NDIRECT) as [Hlt|]; [|done].
  apply lookup_total_replicate_2. unfold in_file, NDIRECT in *. lia.
Qed.

Lemma hosts_nil C : hosts C (replicate 13 0) [].
Proof.
  assert (∀ b, ¬ owned C (replicate 13 0) b) as Hno.
  { intros b [Hb [->|(bn & Hbn & E)]]; [done|]. rewrite amap_zeros in E by done. congruence. }
  split.
  - split; [done|..].
    + intros b Hb. by destruct (Hno b).
    + intros b1 b2 H1 H2. by rewrite amap_zeros.
    + intros b1 H1. by rewrite amap_zeros.
  - intros k Hk. rewrite decide_False by (unfold len; cbn; lia). unfold fbyte, fblk. rewrite amap_zeros by (by apply file_block).
    unfold zblock. apply lookup_total_replicate_2. assert (BSIZE = 1024) as -> by done. dlia.
  - intros bn Hbn. rewrite amap_zeros by done. unfold len, in_file, BSIZE in *. cbn. lia.
  - done.
  - done.
Qed.

Lemma xshort_id z : 0 ≤ z < 2 ^ 16 → xshort z = z.
Proof. intros Hz. unfold xshort. rewrite le_combine_split. by apply Z.mod_small. Qed.

Lemma new_din_eq ty : 0 ≤ ty < 2 ^ 16 → new_din ty = file_din ty 0 (replicate 13 0).
Proof. intros Hty. unfold new_din. by rewrite (xshort_id ty). Qed.

Section new.
Context (s : mk_st) (files : list (Z * list Z)) (C : Z → list Z) (ty : Z) (I : image s files C).
Context (Hty : 0 ≤ ty < 2 ^ 15) (Hroom : 1 + Z.of_nat (length files) < NINODES).
Let i := 1 + Z.of_nat (length files).
Let C' := put_din C i (file_din ty 0 (replicate 13 0)).
Context (s' : mk_st) (Hs' : sees s' C') (Ei : freeinode s' = freeinode s + 1) (Ef : freeblock s' = freeblock s).

Lemma new_load j : inumber j → load C' j = if decide (j = i) then file_din ty 0 (replicate 13 0) else load C j.
Proof.
  intros Hj. unfold C', put_din. apply load_store; [apply (se_blk _ _ (im_sees _ _ _ I))|unfold inumber, i; lia|done|].
  apply (hosts_din C _ []); [apply hosts_nil|lia].
Qed.

Lemma new_addrs j : (j ≤ length files)%nat → addrs C' j = if decide (j = length files) then replicate 13 0 else addrs C j.
Proof.
  intros Hj. unfold addrs. rewrite new_load by (unfold inumber; lia). unfold i. repeat destruct (decide _); done || lia.
Qed.

Lemma new_kept j f : files !! j = Some f → hosts C' (addrs C j) f.2 ∧ ∀ b, owned C' (addrs C j) b ↔ owned C (addrs C j) b.
Proof.
  intros Hj. pose proof (im_file _ _ _ I _ _ Hj) as Hh. apply hosts_frame; [done|]. intros b Hb. pose proof (im_sees _ _ _ I) as Hs.
  pose proof (sees_below _ _ _ _ Hs (ho_ok _ _ _ Hh) Hb). destruct (se_free _ _ Hs). pose proof nmeta_pos.
  assert (inumber i) as Hin by (unfold inumber, i; lia). destruct (iblock_range i Hin) as [Hr _]. assert (bmapstart mk_sb < nmeta) by done. split.
  - unfold C', put_din, fupd. by rewrite decide_False by lia.
  - unfold C', put_din. rewrite (used_meta s C s') by (done || lia). apply (fo_data _ _ _ _ (ho_ok _ _ _ Hh) b Hb).
Qed.

Lemma new_owned j b : (j ≤ length files)%nat → owned C' (addrs C' j) b → (j < length files)%nat ∧ owned C (addrs C j) b.
Proof.
  intros Hj Ho. rewrite new_addrs in Ho by done. destruct (decide (j = length files)) as [->|Hne].
  - destruct Ho as [Hb [->|(bn & Hbn & E)]]; [done|]. rewrite amap_zeros in E by done. congruence.
  - assert (j < length files)%nat as Hlt by lia. destruct (lookup_lt_is_Some_2 files j Hlt) as [f Hf]. by apply (new_kept j f Hf) in Ho.
Qed.

Lemma image_new : image s' (files ++ [(ty, [])]) C'.
Proof.
  destruct (im_count _ _ _ I) as [Ec _]. pose proof (λ j f (H : (files ++ [(ty, [])]) !! j = Some f), lookup_lt_Some _ _ _ H) as Hlt.
  rewrite length_app in Hlt. cbn [length] in Hlt. split; rewrite ?length_app; cbn [length].
  - done.
  - unfold C', put_din, fupd. assert (inumber i) as Hin by (unfold inumber, i; lia). destruct (iblock_range i Hin) as [Hr _].
    rewrite decide_False by lia. apply I.
  - rewrite Ei. lia.
  - rewrite Ef, total_app, (im_blocks _ _ _ I). change (total [(ty, [])]) with 0. lia.
  - intros j f [Hf|[_ [_ <-]%list_lookup_singleton_Some]]%lookup_app_Some; [by apply (im_type _ _ _ I j)|cbn; lia].
  - intros j f Hf. rewrite new_load, new_addrs by (specialize (Hlt j f Hf); unfold inumber; lia). unfold i.
    apply lookup_app_Some in Hf as [Hf|[Hge [E <-]%list_lookup_singleton_Some]].
    + apply lookup_lt_Some in Hf as Hj. rewrite !decide_False by lia. apply (im_inode _ _ _ I j f Hf).
    + by rewrite !decide_True by lia.
  - intros j f Hf. rewrite new_addrs by (specialize (Hlt j f Hf); lia).
    apply lookup_app_Some in Hf as [Hf|[Hge [E <-]%list_lookup_singleton_Some]].
    + apply lookup_lt_Some in Hf as Hj. rewrite decide_False by lia. by apply new_kept.
    + rewrite decide_True by lia. apply hosts_nil.
  - intros j j' b Hj Hj' Hne [Hj1 Ho]%new_owned [Hj2 Ho']%new_owned; [|lia|lia]. by apply (im_disj _ _ _ I j j' b).
  - intros j Hj. rewrite new_load by (unfold inumber; lia). unfold i. rewrite decide_False by lia. apply (im_free _ _ _ I). lia.
Qed.
End new.

Lemma wp_mk_ialloc s files C ty (Q : Z → mk_st → Prop) :
  image s files C → 0 ≤ ty < 2 ^ 15 → 1 + Z.of_nat (length files) < NINODES →
  (∀ s' C', image s' (files ++ [(ty, [])]) C' → Q (1 + Z.of_nat (length files)) s') → wp (mk_ialloc ty) Q s.
Proof.
  intros I Hty Hroom HQ. destruct (im_count _ _ _ I) as [Ec _]. unfold mk_ialloc. wp_step. wp_step. wp_step. wp_step. wp_step.
  rewrite Ec, new_din_eq by lia. change NINODES with 200 in Hroom. rewrite u32_small by lia.
  apply (wp_winode _ C); [destruct (im_sees _ _ _ I) as [S1 S2 S3 S4 S5]; by split|unfold inumber; change NINODES with 200; lia| |].
  - apply (hosts_din C _ []); [apply hosts_nil|lia].
  - intros s' Hs' Ei Ef. wp_step. cbn [freeinode freeblock] in *. eapply (HQ s'). apply (image_new s); try done. lia.
Qed.
