(* ===== verification/MkfsTheorems.v ===== *)
(** * The image that mkfs builds: mkfs/mkfs.c

    mkfs succeeds when the files fit, and the image it leaves is what kernel/fs.c
    expects: the superblock, the bitmap, the inodes with their contents in disjoint
    blocks, and the root directory. *)

From S2P Require Import Prelude Machine Log LogFacts BlockLayer Fs FsFacts FsFile FsWrite FsInode FsWritei FsDir FsDirFacts Mkfs MkfsFacts MkfsImage.

Abbreviation source_file := (list Z * option (list (list Z)))%type.

Definition name_of (f : source_file) : list Z := default [] (shortname f.1).
Definition content (f : source_file) : list Z := concat (default [] f.2).

Record source_ok (f : source_file) : Prop := {
  so_name : is_Some (shortname f.1);
  so_open : is_Some f.2;
  so_bytes : bytes (name_of f) ∧ bytes (content f);
  so_len : len (content f) ≤ MAXFILE * BSIZE;
}.

(** Directory entries, an inode number and a name each. *)
Definition ent_bytes (ents : list (Z * list Z)) : list Z := concat ((λ e, dirent e.1 e.2) <$> ents).

Fixpoint number (i : Z) (names : list (list Z)) : list (Z * list Z) :=
  match names with
  | [] => []
  | n :: names' => (i, n) :: number (i + 1) names'
  end.

Lemma length_number i names : length (number i names) = length names.
Proof. revert i. induction names as [|n names IH]; intros i; [done|]. cbn. by rewrite IH. Qed.

Lemma len_ent_bytes ents : len (ent_bytes ents) = SIZEOF_DIRENT * Z.of_nat (length ents).
Proof.
  induction ents as [|e ents IH]; [done|]. unfold ent_bytes in *. cbn [fmap list_fmap concat length]. rewrite len_app, IH.
  unfold len at 1. rewrite length_dirent. unfold SIZEOF_DIRENT. lia.
Qed.

Definition user_files (files : list source_file) : list (Z * list Z) := (λ f, (T_FILE, content f)) <$> files.

Lemma blocks_nonneg n : 0 ≤ n → 0 ≤ blocks_for n.
Proof. intros Hn. pose proof (blocks_mono 0 n ltac:(lia) Hn) as H. by rewrite Z.add_0_l in H. Qed.

Lemma blocks_total_nonneg fs : 0 ≤ total fs.
Proof. induction fs as [|f fs IH]; [done|]. unfold total in *. cbn [foldr]. pose proof (blocks_nonneg (len f.2)). unfold len in *. lia. Qed.

(** One more file. *)
Lemma wp_add_file s d fs C name pieces (k : M mk_st unit) (Q : unit → mk_st → Prop) :
  let e := dirent (2 + Z.of_nat (length fs)) name in
  image s ((T_DIR, d) :: fs) C → 2 + Z.of_nat (length fs) < NINODES → bytes name → bytes (concat pieces) →
  len (d ++ e) ≤ MAXFILE * BSIZE → len (concat pieces) ≤ MAXFILE * BSIZE →
  nmeta + blocks_for (len (d ++ e)) + total fs + blocks_for (len (concat pieces)) ≤ FSSIZE →
  (∀ s' C', image s' ((T_DIR, d ++ e) :: fs ++ [(T_FILE, concat pieces)]) C' → wp k Q s') →
  wp (inum ← mk_ialloc T_FILE; iappend ROOTINO (dirent (xshort inum) name);; append_all inum pieces;; k) Q s.
Proof.
  intros e I Hn Hb1 Hb2 Hd Hl Hroom HQ. pose proof (blocks_nonneg (len (concat pieces)) ltac:(unfold len; lia)) as Hc.
  assert (∀ d s C, image s ((T_DIR, d) :: fs ++ [(T_FILE, [])]) C → freeblock s = nmeta + blocks_for (len d) + total fs) as Ef.
  { intros d0 s0 C0 I0. rewrite (im_blocks _ _ _ I0). change (total (?f :: ?l)) with (blocks_for (len f.2) + total l). rewrite total_app.
    change (total [(T_FILE, [])]) with 0. cbn [snd]. lia. }
  wp_step. apply (wp_mk_ialloc s ((T_DIR, d) :: fs) C); [done|done|cbn [length]; lia|]. intros s1 C1 I1. cbn [app length] in I1. cbn [length].
  assert (1 + Z.of_nat (S (length fs)) = 2 + Z.of_nat (length fs)) as Ei by lia. rewrite Ei. change NINODES with 200 in Hn. rewrite xshort_id by lia. fold e.
  wp_step. change ROOTINO with (1 + Z.of_nat 0). apply (wp_iappend s1 _ C1 0 T_DIR d e _ I1);
    [done|by apply dirent_bytes|rewrite <- len_app; lia|rewrite <- len_app, (Ef _ _ _ I1); lia|].
  intros s2 C2 I2. cbn [insert list_insert] in I2. rewrite <- Ei. pose proof (Ef _ _ _ I2) as E2.
  wp_step. apply (wp_append_all pieces s2 _ C2 (S (length fs)) T_FILE [] _ I2); [by apply list_lookup_middle|done|done| |].
  { change (len []) with 0. rewrite Z.add_0_l. change (blocks_for 0) with 0. lia. }
  intros s3 C3 I3. change (<[S (length fs) := (T_FILE, [] ++ concat pieces)]> ((T_DIR, d ++ e) :: fs ++ [(T_FILE, [])]))
    with ((T_DIR, d ++ e) :: <[length fs := (T_FILE, concat pieces)]> (fs ++ [(T_FILE, [])])) in I3.
  rewrite insert_app_r_alt, Nat.sub_diag in I3 by done. by apply (HQ s3 C3).
Qed.

Lemma wp_add_files files s d fs C (Q : unit → mk_st → Prop) :
  let d' := d ++ ent_bytes (number (2 + Z.of_nat (length fs)) (name_of <$> files)) in
  image s ((T_DIR, d) :: fs) C → Forall source_ok files → Z.of_nat (length fs + length files) ≤ NINODES - 2 →
  len d' ≤ MAXFILE * BSIZE → nmeta + blocks_for (len d') + total (fs ++ user_files files) ≤ FSSIZE →
  (∀ s' C', image s' ((T_DIR, d') :: fs ++ user_files files) C' → Q tt s') → wp (add_files files) Q s.
Proof.
  revert s d fs C Q. induction files as [|[arg o] files IH]; intros s d fs C Q d' I Hok Hn Hd Hroom HQ; cbn [add_files].
  - wp_step. apply (HQ s C). unfold d', user_files. cbn. by rewrite !app_nil_r.
  - apply Forall_cons in Hok as [[[name En] [pieces Ep] [Hb1 Hb2] Hl] Hok]. cbn [fst snd] in *. subst o.
    assert (name_of (arg, Some pieces) = name) as Enm by (unfold name_of; cbn [fst]; by rewrite En). rewrite Enm in Hb1. rewrite En.
    change (content (arg, Some pieces)) with (concat pieces) in *. set (e := dirent (2 + Z.of_nat (length fs)) name).
    assert (d' = (d ++ e) ++ ent_bytes (number (2 + Z.of_nat (length fs) + 1) (name_of <$> files))) as Ed.
    { unfold d', ent_bytes. cbn [fmap list_fmap number concat fst snd]. by rewrite Enm, <- (assoc_L (++)). }
    change (user_files ((arg, Some pieces) :: files)) with ([(T_FILE, concat pieces)] ++ user_files files) in *. rewrite !total_app in Hroom.
    assert (total [(T_FILE, concat pieces)] = blocks_for (len (concat pieces))) as Et by (unfold total; cbn [foldr snd]; lia).
    pose proof (blocks_total_nonneg (user_files files)) as Ht. assert (len (d ++ e) ≤ len d') as Hle by (rewrite Ed, (len_app (d ++ e)); unfold len; lia).
    pose proof (blocks_mono (len (d ++ e)) (len d' - len (d ++ e)) ltac:(unfold len; lia) ltac:(lia)) as Hbm. replace (len (d ++ e) + _) with (len d') in Hbm by lia.
    cbn [length] in Hn. apply (wp_add_file s d fs C name pieces); [done|lia|done|done|fold e; lia|done|fold e; lia|]. fold e. intros s' C' I'.
    assert (2 + Z.of_nat (length (fs ++ [(T_FILE, concat pieces)])) = 2 + Z.of_nat (length fs) + 1) as E2 by (rewrite length_app; cbn [length]; lia).
    apply (IH s' (d ++ e) (fs ++ [(T_FILE, concat pieces)]) C'); rewrite ?E2, <- ?Ed, <- ?(assoc_L (++)); [done|done| |done| |done].
    + rewrite length_app. cbn [length]. lia.
    + rewrite !total_app. lia.
Qed.

(** ** The root directory *)

Definition root_ents (files : list source_file) : list (Z * list Z) :=
  (ROOTINO, DOT) :: (ROOTINO, DOTDOT) :: number 2 (name_of <$> files).

(** The inode of the first entry with the name. *)
Definition ent_find (ents : list (Z * list Z)) (name : list Z) : option Z :=
  (λ p, p.2.1) <$> list_find (λ e, canon e.2 = canon name) ents.

Lemma ent_byte ents j e t :
  ents !! j = Some e → (t < 16)%nat → ent_bytes ents !!! (16 * j + t)%nat = dirent e.1 e.2 !!! t.
Proof.
  revert j. induction ents as [|e' ents IH]; intros j Hj Ht; [done|]. unfold ent_bytes. cbn [fmap list_fmap concat].
  pose proof (length_dirent e'.1 e'.2) as Hl. destruct j as [|j].
  - injection Hj as ->. by rewrite lookup_total_app_l by lia.
  - rewrite lookup_total_app_r by lia. rewrite Hl. replace (16 * S j + t - 16)%nat with (16 * j + t)%nat by lia. by apply IH.
Qed.

(** A directory file with these entries. *)
Lemma hosts_entry C a ents j :
  hosts C a (ent_bytes ents) → 0 ≤ j → (j + 1) * SIZEOF_DIRENT ≤ MAXFILE * BSIZE →
  entry C a j = if ents !! Z.to_nat j is Some e then dirent e.1 e.2 else replicate 16 0.
Proof.
  intros H Hj Hmax. apply list_eq_same_length with (n := 16%nat).
  - destruct (_ !! _); [apply length_dirent|done].
  - unfold entry, fbytes. by rewrite length_fmap, length_seqZ.
  - intros t y z Ht. unfold entry, fbytes. rewrite list_lookup_fmap. unfold SIZEOF_DIRENT in *. rewrite lookup_seqZ_lt by lia. cbn [fmap option_fmap option_map].
    rewrite (ho_byte _ _ _ H) by lia. rewrite len_ent_bytes. unfold SIZEOF_DIRENT. intros [= <-]. destruct (ents !! Z.to_nat j) as [e|] eqn:Ee.
    + pose proof (lookup_lt_Some _ _ _ Ee). rewrite decide_True by lia.
      replace (Z.to_nat (j * 16 + Z.of_nat t)) with (16 * Z.to_nat j + t)%nat by lia. rewrite (ent_byte ents _ e) by done.
      intros Hz. by apply list_lookup_total_correct.
    + apply lookup_ge_None in Ee. rewrite decide_False by lia. rewrite lookup_replicate_2 by done. by intros [= <-].
Qed.

Lemma dmap_ents E n ents name :
  Forall (λ e, 0 < e.1 < 2 ^ 16) ents → Z.of_nat (length ents) ≤ n →
  (∀ j, 0 ≤ j < n → E j = if ents !! Z.to_nat j is Some e then dirent e.1 e.2 else replicate 16 0) →
  dmap E n name = ent_find ents name.
Proof.
  intros Hi Hn HE. assert (∀ j e, ents !! j = Some e → E (Z.of_nat j) = dirent e.1 e.2 ∧ (hit E name (Z.of_nat j) ↔ canon e.2 = canon name)) as Hh.
  { intros j e He. pose proof (lookup_lt_Some _ _ _ He). pose proof (Forall_lookup_1 _ _ _ _ Hi He) as Hr. cbn in Hr.
    assert (E (Z.of_nat j) = dirent e.1 e.2) as E1 by (rewrite HE by lia; by rewrite Nat2Z.id, He). split; [done|].
    unfold hit. rewrite E1, dirent_inum, dirent_name by lia. split; [tauto|]. intros. split; [lia|done]. }
  assert (∀ j, 0 ≤ j < n → hit E name j → ∃ e, ents !! Z.to_nat j = Some e ∧ canon e.2 = canon name) as Hhit.
  { intros j Hj Hjh. destruct (ents !! Z.to_nat j) as [e|] eqn:Ee; [|by destruct Hjh as [H0 _]; rewrite HE, Ee in H0 by done].
    exists e. split; [done|]. apply (Hh _ _ Ee). by rewrite Z2Nat.id by lia. }
  unfold ent_find. destruct (list_find _ ents) as [[k e]|] eqn:F; cbn.
  - apply list_find_Some in F as (Hk & Hc & Hb). destruct (Hh k e Hk) as [E1 H1]. pose proof (lookup_lt_Some _ _ _ Hk).
    rewrite (dmap_first _ _ _ (Z.of_nat k)).
    + rewrite E1, dirent_inum; [done|]. pose proof (Forall_lookup_1 _ _ _ _ Hi Hk) as Hr. cbn in Hr. lia.
    + split; [lia|]. split; [by apply H1|]. intros j Hj Hjh. destruct (Hhit j) as (e' & He' & Hc'); [lia|done|]. apply (Hb _ _ He'); [lia|done].
  - apply dmap_none. intros j Hj Hjh. destruct (Hhit j Hj Hjh) as (e' & He' & Hc'). apply list_find_None in F.
    by apply (Forall_lookup_1 _ _ _ _ F He').
Qed.

(** ** The whole program *)

Definition empty_view (m : Z) : list Z := if decide (m = bmapstart mk_sb) then bitmap_bytes nmeta else zblock.

Lemma load_zeros C i : C (IBLOCK i mk_sb) = zblock → load C i = zero_inode.
Proof.
  intros E. unfold load, dinode_load. rewrite E. assert (∀ n o, get16 (replicate n 0) o = 0) as H16.
  { intros n o. unfold get16. rewrite drop_replicate, take_replicate. by destruct (2 `min` (n - o))%nat as [|[|[]]] eqn:Em; [..|lia]. }
  unfold zblock. rewrite !H16, get32_zeros. unfold zero_inode. f_equal. unfold get_addrs.
  cbn. by rewrite !get32_zeros.
Qed.

Lemma wp_empty (Q : unit → mk_st → Prop) :
  (∀ s, freeinode s = 1 → sees s empty_view → freeblock s = nmeta → Q tt s) →
  wp (for_ 0 FSSIZE (λ i, wsect i zblock)) Q (Mk ∅ 1 nmeta).
Proof.
  intros HQ. apply (wp_for_post (λ i s, freeinode s = 1 ∧ freeblock s = nmeta ∧ ∀ m, 0 ≤ m < i → img s !! m = Some zblock)); [done| | |].
  - split_and!; [done|done|lia].
  - intros i s Hi (H1 & H2 & H3). unfold wsect. wp_step. cbn. split_and!; [done|done|]. intros m Hm.
    destruct (decide (m = i)) as [->|]; [by rewrite lookup_insert_eq|]. rewrite lookup_insert_ne by done. apply H3. lia.
  - intros s (H1 & H2 & H3). apply HQ; [done| |done]. unfold empty_view. split; rewrite ?H2.
    + intros m Hm Hne. rewrite decide_False by done. by apply H3.
    + by rewrite decide_True.
    + intros m Hm. rewrite decide_False; [done|]. assert (bmapstart mk_sb < nmeta) by done. lia.
    + done.
    + intros m. destruct (decide _); [by apply bitmap_ok|apply zeros_ok].
Qed.

Lemma sb_block_ok : blk_ok sb_block ∧ sb_load sb_block = mk_sb.
Proof. split; [|by vm_compute]. unfold sb_block. repeat (apply put32_ok; [|by vm_compute; lia]). apply zeros_ok. Qed.

Lemma image_empty s : sees s (fupd empty_view 1 sb_block) → freeinode s = 1 → freeblock s = nmeta → image s [] (fupd empty_view 1 sb_block).
Proof.
  intros Hs Ei Ef. split; [done|by unfold fupd; rewrite decide_True|by rewrite Ei|done|done|done|done|cbn; lia|].
  intros i Hi. apply load_zeros. destruct (iblock_range i) as [Hr _]; [unfold inumber; cbn in Hi; lia|].
  unfold fupd, empty_view. by rewrite !decide_False by lia.
Qed.

(** What the image of the [files] is, seen by kernel/fs.c. *)
Record built (files : list source_file) (C : Z → list Z) (free : Z) : Prop := {
  bu_super : sb_load (C 1) = mk_sb;
  bu_free : free = nmeta + blocks_for (SIZEOF_DIRENT * (2 + Z.of_nat (length files))) + total (user_files files);
  bu_bitmap b : 0 ≤ b < FSSIZE → used mk_sb C b = bool_decide (b < free);
  bu_file k f : files !! k = Some f →
    let ip := load C (2 + Z.of_nat k) in
    ip = file_din T_FILE (len (content f)) (i_addrs ip) ∧ file_ok mk_sb nmeta C (i_addrs ip) ∧
    no_holes C (i_addrs ip) (i_size ip) ∧ fbytes C (i_addrs ip) 0 (i_size ip) = content f;
  bu_disjoint i j b : 1 ≤ i ≤ 1 + Z.of_nat (length files) → 1 ≤ j ≤ 1 + Z.of_nat (length files) → i ≠ j →
    owned C (i_addrs (load C i)) b → ¬ owned C (i_addrs (load C j)) b;
  bu_root :
    let ip := load C ROOTINO in
    ip = file_din T_DIR (i_size ip) (i_addrs ip) ∧ file_ok mk_sb nmeta C (i_addrs ip) ∧ i_size ip mod BSIZE = 0 ∧
    (no_holes C (i_addrs ip) (i_size ip) ↔ (2 + Z.of_nat (length files)) mod 64 ≠ 0) ∧
    ∀ name, dmap (entry C (i_addrs ip)) (entries ip) name = ent_find (root_ents files) name;
  bu_unused i : 1 + Z.of_nat (length files) < i < NINODES → load C i = zero_inode;
}.

Lemma hosts_bytes C a l : hosts C a l → fbytes C a 0 (len l) = l ∧ no_holes C a (len l).
Proof.
  intros [_ Hb Hm _ Hl]. split.
  - apply list_eq_same_length with (n := length l); [done|unfold fbytes, len; rewrite length_fmap, length_seqZ; lia|].
    intros t y z Ht. unfold fbytes. rewrite list_lookup_fmap, lookup_seqZ_lt by (unfold len; lia). cbn [fmap option_fmap option_map]. unfold len in *.
    rewrite Hb, decide_True by lia. intros [= <-] Hz. rewrite Z.add_0_l, Nat2Z.id. by apply list_lookup_total_correct.
  - intros bn H0 H1. apply Hm; [|done]. unfold in_file. assert (BSIZE = 1024) as E by done. rewrite E in *. lia.
Qed.

Section root.
Context (s s' : mk_st) (files : list source_file) (C : Z → list Z) (sz : Z).
Let d := ent_bytes (root_ents files).
Context (I : image s ((T_DIR, d) :: user_files files) C) (Hsz : sz = (len d / BSIZE + 1) * BSIZE).
Let C' := put_din C ROOTINO (file_din T_DIR sz (addrs C 0)).
Context (Hs' : sees s' C') (Ef : freeblock s' = freeblock s).
Let n := Z.of_nat (length files).

Lemma root_count : n ≤ NINODES - 2.
Proof. destruct (im_count _ _ _ I) as [-> H]. cbn [length] in H. unfold user_files in H. rewrite length_fmap in H. fold n in H. lia. Qed.

Lemma len_root : len d = SIZEOF_DIRENT * (2 + n).
Proof. unfold d. rewrite len_ent_bytes. unfold root_ents. cbn [length]. rewrite length_number, length_fmap. fold n. lia. Qed.

Lemma root_host : hosts C (addrs C 0) d.
Proof. apply (im_file _ _ _ I 0%nat (T_DIR, d) eq_refl). Qed.

Lemma root_size : len d < sz ≤ 4096 ∧ sz mod BSIZE = 0.
Proof.
  pose proof root_count. rewrite Hsz, len_root. assert (0 ≤ n) by (unfold n; lia). change NINODES with 200 in *. unfold SIZEOF_DIRENT.
  assert (BSIZE = 1024) as -> by done. dlia.
Qed.

Lemma root_load j : inumber j → load C' j = if decide (j = ROOTINO) then file_din T_DIR sz (addrs C 0) else load C j.
Proof.
  intros Hj. unfold C', put_din. apply load_store; [apply (se_blk _ _ (im_sees _ _ _ I))|done|done|].
  destruct (hosts_din _ _ _ T_DIR root_host) as [H1 _ H3]; [done|]. pose proof root_size. split; [done| |done]. cbn. unfold len in *. lia.
Qed.

Lemma root_kept k f : ((T_DIR, d) :: user_files files) !! k = Some f →
  addrs C' k = addrs C k ∧ hosts C' (addrs C k) f.2 ∧ ∀ b, owned C' (addrs C k) b ↔ owned C (addrs C k) b.
Proof.
  intros Hk. split.
  - unfold addrs. rewrite root_load by (apply (image_inum _ _ _ _ I); by eapply lookup_lt_Some).
    destruct (decide _) as [E|]; [|done]. unfold ROOTINO in E. by replace k with 0%nat by lia.
  - pose proof (im_file _ _ _ I _ _ Hk) as Hh. apply hosts_frame; [done|]. intros b Hb. pose proof (im_sees _ _ _ I) as Hs.
    pose proof (sees_below _ _ _ _ Hs (ho_ok _ _ _ Hh) Hb). destruct (se_free _ _ Hs). pose proof nmeta_pos.
    assert (IBLOCK ROOTINO mk_sb < nmeta) by done. split; [unfold C', put_din, fupd; by rewrite decide_False by lia|].
    unfold C', put_din. rewrite (used_meta s C s') by (done || lia). apply (fo_data _ _ _ _ (ho_ok _ _ _ Hh) b Hb).
Qed.

Lemma root_dmap name : dmap (entry C' (addrs C 0)) (sz / SIZEOF_DIRENT) name = ent_find (root_ents files) name.
Proof.
  destruct (root_kept 0 (T_DIR, d) eq_refl) as (_ & Hh & _). cbn [snd] in Hh. pose proof root_size as [Hs1 _]. pose proof len_root as El. unfold SIZEOF_DIRENT in *.
  apply dmap_ents.
  - unfold root_ents. repeat (constructor; [done|]). apply Forall_lookup_2. intros k e He.
    assert (∀ names i, number i names !! k = Some e → e.1 = i + Z.of_nat k ∧ (k < length names)%nat) as Hnum.
    { clear. revert k. intros k names. revert k. induction names as [|m names IH]; intros k i Hk; [done|]. destruct k as [|k]; [injection Hk as <-; cbn; lia|].
      destruct (IH k (i + 1) Hk). cbn [length]. lia. }
    destruct (Hnum _ _ He) as [-> Hk]. rewrite length_fmap in Hk. pose proof root_count as Hc. unfold n in Hc. change NINODES with 200 in Hc. lia.
  - assert (Z.of_nat (length (root_ents files)) = 2 + n) as ->; [|dlia]. unfold root_ents. cbn [length]. rewrite length_number, length_fmap. fold n. lia.
  - intros j Hj. apply hosts_entry; [done|lia|]. assert (MAXFILE * BSIZE = 274432) as -> by done. unfold SIZEOF_DIRENT. dlia.
Qed.

Lemma root_holes : no_holes C' (addrs C 0) sz ↔ (2 + n) mod 64 ≠ 0.
Proof.
  destruct (root_kept 0 (T_DIR, d) eq_refl) as (_ & Hh & _). cbn [snd] in Hh. pose proof (ho_map _ _ _ Hh) as Hm. pose proof root_size as [Hs1 Hs2].
  pose proof len_root as El. rewrite El in *. unfold SIZEOF_DIRENT, no_holes, in_file in *. assert (MAXFILE = 268) as EM by done. rewrite EM in Hm.
  assert (BSIZE = 1024) as E by done. rewrite E in *. assert (0 ≤ n) by (unfold n; lia). split.
  - intros H0 Hmod. assert (amap C' (addrs C 0) (16 * (2 + n) / 1024) ≠ 0) as Hnz by (apply H0; dlia). apply Hm in Hnz; dlia.
  - intros Hmod bn Hb0 Hb1. apply Hm; dlia.
Qed.

Lemma root_built : built files C' (freeblock s').
Proof.
  assert (length (user_files files) = length files) as Elen by apply length_fmap. pose proof root_count as Hc. fold n in Hc. unfold n in Hc.
  assert (∀ k, (k ≤ length files)%nat → ∃ f, ((T_DIR, d) :: user_files files) !! k = Some f) as Hsome.
  { intros k Hk. apply lookup_lt_is_Some_2. cbn [length]. lia. }
  split.
  - unfold C', put_din, fupd. rewrite decide_False by done. rewrite (im_super _ _ _ I). apply sb_block_ok.
  - rewrite Ef, (im_blocks _ _ _ I). unfold total at 1. cbn [foldr snd]. fold (total (user_files files)). rewrite len_root. unfold n. lia.
  - intros b Hb. by apply sees_used.
  - intros k f Hf ip. assert (((T_DIR, d) :: user_files files) !! S k = Some (T_FILE, content f)) as Hk.
    { change (user_files files !! k = Some (T_FILE, content f)). unfold user_files. by rewrite list_lookup_fmap, Hf. }
    destruct (root_kept _ _ Hk) as (Ea & Hh & _). cbn [snd] in Hh. pose proof (lookup_lt_Some _ _ _ Hf).
    assert (ip = file_din T_FILE (len (content f)) (addrs C (S k))) as ->.
    { unfold ip. rewrite root_load by (unfold inumber; lia). rewrite decide_False by (unfold ROOTINO; lia).
      replace (2 + Z.of_nat k) with (1 + Z.of_nat (S k)) by lia. apply (im_inode _ _ _ I _ _ Hk). }
    cbn [i_addrs i_size file_din]. destruct (hosts_bytes _ _ _ Hh). split_and!; [done|apply Hh|done|done].
  - intros i j b Hi Hj Hne Ho Ho'. destruct (Hsome (Z.to_nat (i - 1))) as [f Hf]; [lia|]. destruct (Hsome (Z.to_nat (j - 1))) as [g Hg]; [lia|].
    destruct (root_kept _ _ Hf) as (Ea & _ & Of). destruct (root_kept _ _ Hg) as (Eb & _ & Og). unfold addrs in *.
    replace (1 + Z.of_nat (Z.to_nat (i - 1))) with i in * by lia. replace (1 + Z.of_nat (Z.to_nat (j - 1))) with j in * by lia.
    rewrite Ea, Of in Ho. rewrite Eb, Og in Ho'. apply lookup_lt_Some in Hf, Hg.
    apply (im_disj _ _ _ I (Z.to_nat (i - 1)) (Z.to_nat (j - 1)) b Hf Hg); unfold addrs; [lia|by replace (1 + Z.of_nat (Z.to_nat (i - 1))) with i by lia|].
    by replace (1 + Z.of_nat (Z.to_nat (j - 1))) with j by lia.
  - intros ip. assert (ip = file_din T_DIR sz (addrs C 0)) as ->.
    { unfold ip. rewrite root_load by done. by rewrite decide_True. }
    cbn [i_addrs i_size file_din entries]. destruct (root_kept 0 (T_DIR, d) eq_refl) as (_ & Hh & _).
    split_and!; [done|apply Hh|apply root_size|apply root_holes|]. intros name. apply root_dmap.
  - intros i Hi. rewrite root_load by (unfold inumber; lia). rewrite decide_False by (unfold ROOTINO; lia). apply (im_free _ _ _ I). cbn [length]. lia.
Qed.
End root.

Lemma wp_fix_root s files C (Q : unit → mk_st → Prop) :
  image s ((T_DIR, ent_bytes (root_ents files)) :: user_files files) C →
  (∀ s' C', sees s' C' → built files C' (freeblock s') → Q tt s') → wp fix_root Q s.
Proof.
  intros I HQ. pose proof (root_size s files C _ I eq_refl) as Hsz. set (d := ent_bytes (root_ents files)) in *.
  unfold fix_root. wp_step. apply (wp_rinode s C); [apply I|done|].
  pose proof (im_inode _ _ _ I 0%nat (T_DIR, d) eq_refl) as El. change (1 + Z.of_nat 0) with ROOTINO in El. cbn [fst snd] in El.
  rewrite El. cbn [i_size file_din]. assert (0 ≤ len d) by (unfold len; lia). rewrite (xint_id (len d)) by lia.
  assert (0 ≤ (len d / BSIZE + 1) * BSIZE < 2 ^ 32) as Hlt by lia. rewrite (u32_small ((len d / BSIZE + 1) * BSIZE)) by done. rewrite xint_id by done.
  change (set_size ((len d / BSIZE + 1) * BSIZE) (file_din T_DIR (len d) (addrs C 0))) with (file_din T_DIR ((len d / BSIZE + 1) * BSIZE) (addrs C 0)).
  apply (wp_winode s C); [apply I|done| |].
  - destruct (hosts_din _ _ _ T_DIR (im_file _ _ _ I 0%nat (T_DIR, d) eq_refl)) as [H1 _ H3]; [done|]. split; [done|exact Hlt|done].
  - intros s' Hs' Ei Ef. eapply (HQ s'); [done|]. by eapply (root_built s s' files C).
Qed.

(** C9: mkfs builds the image.  If the source files can be opened, no name keeps
    a slash, there are at most 198 of them, and they fit on the disk with the root
    directory, mkfs ends without [die] or a failed [assert], and every block of the
    image is then as kernel/fs.c expects it ([built]): the superblock is read back, the
    bitmap marks exactly the blocks in use, each file has an inode of its own with
    its contents and no block is shared, and the root directory finds [.], [..] and
    each name (the first file with it); its rounded size leaves a hole exactly
    when the number of entries is a multiple of 64. *)
Theorem mkfs_builds_image files :
  Forall source_ok files → Z.of_nat (length files) ≤ NINODES - 2 →
  nmeta + blocks_for (SIZEOF_DIRENT * (2 + Z.of_nat (length files))) + total (user_files files) ≤ FSSIZE →
  wp (mkfs files) (λ _ s, ∃ C, (∀ m, 0 ≤ m < FSSIZE → img s !! m = Some (C m)) ∧ built files C (freeblock s)) (Mk ∅ 1 0).
Proof.
  intros Hok Hn Hroom. pose proof (blocks_total_nonneg (user_files files)) as Ht. unfold mkfs. wp_step. wp_step. wp_step. apply wp_empty.
  intros s0 Ei0 Hs0 Ef0. wp_step. apply (wp_wsect s0 empty_view); [done|rewrite Ef0; done|done|apply sb_block_ok|].
  intros s1 Hs1 Ei1 Ef1. rewrite Ei0 in Ei1. rewrite Ef0 in Ef1. wp_step. apply (wp_mk_ialloc s1 [] _ _ _ (image_empty s1 Hs1 Ei1 Ef1)); [done|done|].
  intros s2 C2 I2. change (1 + Z.of_nat (length [])) with ROOTINO. change (negb (ROOTINO =? ROOTINO)) with false. cbv iota.
  change (xshort ROOTINO) with ROOTINO. set (d0 := dirent ROOTINO DOT). set (d1 := dirent ROOTINO DOTDOT).
  assert (len d0 = 16 ∧ len d1 = 16) as [L0 L1] by done. assert (blocks_for 16 = 1 ∧ blocks_for 32 = 1) as [B0 B1] by done.
  assert (nmeta + 1 < FSSIZE) as Hm by done. assert (32 ≤ MAXFILE * BSIZE) as Hx by done.
  wp_step. change ROOTINO with (1 + Z.of_nat 0) at 1. apply (wp_iappend s2 [(T_DIR, [])] C2 0 T_DIR [] d0); [done|done|by apply dirent_bytes; repeat constructor|done| |].
  { rewrite (im_blocks _ _ _ I2). change (len []) with 0. rewrite Z.add_0_l, L0, B0. change (total _) with 0. change (blocks_for 0) with 0. lia. }
  intros s3 C3 I3. change (<[0%nat := (T_DIR, [] ++ d0)]> [(T_DIR, [])]) with [(T_DIR, d0)] in I3.
  wp_step. change ROOTINO with (1 + Z.of_nat 0) at 1. apply (wp_iappend s3 [(T_DIR, d0)] C3 0 T_DIR d0 d1); [done|done|by apply dirent_bytes; repeat constructor|by rewrite L0, L1| |].
  { rewrite (im_blocks _ _ _ I3). unfold total. cbn [foldr snd]. rewrite L0, L1, B0. change (16 + 16) with 32. rewrite B1. lia. }
  intros s4 C4 I4. change (<[0%nat := (T_DIR, d0 ++ d1)]> [(T_DIR, d0)]) with [(T_DIR, d0 ++ d1)] in I4.
  assert ((d0 ++ d1) ++ ent_bytes (number (2 + Z.of_nat (length (@nil (Z * list Z)))) (name_of <$> files)) = ent_bytes (root_ents files)) as Ed.
  { rewrite <- (assoc_L (++)). done. }
  assert (len (ent_bytes (root_ents files)) = SIZEOF_DIRENT * (2 + Z.of_nat (length files))) as El.
  { rewrite len_ent_bytes. unfold root_ents. cbn [length]. rewrite length_number, length_fmap. lia. }
  wp_step. apply (wp_add_files files s4 (d0 ++ d1) [] C4); rewrite ?Ed, ?El; [done|done|cbn [length]; lia| |done|].
  { change NINODES with 200 in Hn. unfold SIZEOF_DIRENT. assert (MAXFILE * BSIZE = 274432) as -> by done. lia. }
  intros s5 C5 I5. wp_step. apply (wp_fix_root s5 files C5 _ I5). intros s6 C6 Hs6 Hb. wp_step. wp_step. unfold mk_balloc.
  destruct (se_free _ _ Hs6) as [F1 F2]. assert ((freeblock s6 <? BSIZE * 8) = true) as -> by (assert (FSSIZE < BSIZE * 8) by done; lia).
  change (negb true) with false. cbv iota. unfold wsect. wp_step. exists C6. split; [|done]. intros m Hm'. cbn [img].
  destruct (decide (m = bmapstart mk_sb)) as [->|]; [by rewrite lookup_insert_eq, (se_bmap _ _ Hs6)|].
  rewrite lookup_insert_ne by done. by apply (se_img _ _ Hs6).
Qed.

(** user/_ls with three bytes. *)
Definition ls_file : source_file := ([117; 115; 101; 114; 47; 95; 108; 115], Some [[7; 8]; [9]]).

Lemma mkfs_builds_image_witness :
  wp (mkfs [ls_file]) (λ _ s, ∃ C, (∀ m, 0 ≤ m < FSSIZE → img s !! m = Some (C m)) ∧ built [ls_file] C (freeblock s)) (Mk ∅ 1 0).
Proof.
  apply (mkfs_builds_image [ls_file]); [|by vm_compute|by vm_compute].
  constructor; [|constructor]. split; [by eexists|by eexists|split; repeat constructor; done|by vm_compute].
Defined.
