(* ===== verification/Umalloc.v ===== *)
(** * user/umalloc.c: the memory allocator of user programs

    Memory is a cell of two fields, [s.ptr] and [s.size], per address; a block
    of the allocator starts with its header and what follows is the caller's.  The
    address of [base] is a parameter, below the break.  [sbrk] is the system call of
    kernel/sysproc.c; whether the kernel finds the pages is a parameter.  The loops
    over the free list have fuel. *)

From S2P Require Import Prelude Machine BlockLayer.

Definition SIZEOF_HEADER : Z := 16.
Definition SBRK_FAILED : Z := 2 ^ 64 - 1.

Definition cell : Type := Z * Z.

Record heap := Heap { mem : Z → cell; freep : Z; brk : Z }.

Section umalloc.
Context (base : Z) (grow : Z → Z → bool).
Abbreviation HM := (M heap).

Definition ptr (p : Z) : HM Z := gets (λ h, (mem h p).1).
Definition size (p : Z) : HM Z := gets (λ h, (mem h p).2).
Definition store (p : Z) (c : cell) : HM unit := modify (λ h, Heap (λ m, if decide (m = p) then c else mem h m) (freep h) (brk h)).
Definition set_ptr (p v : Z) : HM unit := n ← size p; store p (v, n).
Definition set_size (p v : Z) : HM unit := q ← ptr p; store p (q, v).
Definition set_freep (p : Z) : HM unit := modify (λ h, Heap (mem h) p (brk h)).
Definition set_brk (z : Z) : HM unit := modify (λ h, Heap (mem h) (freep h) z).

(** [p + n] on header pointers. *)
Definition hplus (p n : Z) : Z := p + SIZEOF_HEADER * n.

(** kernel/proc.c, [growproc], and kernel/sysproc.c, [sys_sbrk] *)
Definition grow_break (n : Z) : HM Z :=
  sz ← gets brk;
  if 0 <? n then
    if grow sz (sz + n) then set_brk (sz + n);; ret 0 else ret (-1)
  else
    (if n <? 0 then set_brk (let newsz := u64 (sz + n) in if sz <=? newsz then sz else newsz) else ret tt);;
    ret 0.

Definition sbrk (n : Z) : HM Z :=
  addr ← gets brk;
  r ← grow_break n;
  ret (if r <? 0 then SBRK_FAILED else addr).

(** The loop of [free]: the place of [bp] in the list. *)
Fixpoint free_loop (fuel : nat) (bp p : Z) : HM Z :=
  match fuel with
  | O => out_of_fuel
  | S fuel' =>
      q ← ptr p;
      if (p <? bp) && (bp <? q) then ret p
      else if (q <=? p) && ((p <? bp) || (bp <? q)) then ret p
      else free_loop fuel' bp q
  end.

(** [if(bp + bp->s.size == p->s.ptr)] *)
Definition join_upper (bp p : Z) : HM unit :=
  q ← ptr p;
  n ← size bp;
  if hplus bp n =? q then
    m ← size q;
    set_size bp (u32 (n + m));;
    r ← ptr q;
    set_ptr bp r
  else set_ptr bp q.

(** [if(p + p->s.size == bp)] *)
Definition join_lower (bp p : Z) : HM unit :=
  n ← size p;
  if hplus p n =? bp then
    m ← size bp;
    set_size p (u32 (n + m));;
    r ← ptr bp;
    set_ptr p r
  else set_ptr p bp.

Definition free (fuel : nat) (ap : Z) : HM unit :=
  let bp := hplus ap (-1) in
  p ← gets freep;
  p ← free_loop fuel bp p;
  join_upper bp p;;
  join_lower bp p;;
  set_freep p.

Definition morecore (fuel : nat) (nu : Z) : HM Z :=
  let nu := if nu <? 4096 then 4096 else nu in
  p ← sbrk (s32 (nu * SIZEOF_HEADER));
  if p =? SBRK_FAILED then ret 0
  else
    set_size p nu;;
    free fuel (hplus p 1);;
    gets freep.

(** A block that is large enough: taken whole, or its tail is. *)
Definition take_block (nunits prevp p : Z) : HM Z :=
  n ← size p;
  r ← (if n =? nunits then
         q ← ptr p;
         set_ptr prevp q;;
         ret p
       else
         set_size p (u32 (n - nunits));;
         n ← size p;
         set_size (hplus p n) nunits;;
         ret (hplus p n));
  set_freep prevp;;
  ret (hplus r 1).

Fixpoint malloc_loop (k fuel : nat) (nunits prevp p : Z) : HM Z :=
  match k with
  | O => out_of_fuel
  | S k' =>
      n ← size p;
      if nunits <=? n then take_block nunits prevp p
      else
        f ← gets freep;
        if p =? f then
          p ← morecore fuel nunits;
          if p =? 0 then ret 0 else q ← ptr p; malloc_loop k' fuel nunits p q
        else q ← ptr p; malloc_loop k' fuel nunits p q
  end.

Definition malloc (fuel : nat) (nbytes : Z) : HM Z :=
  let nunits := u32 ((nbytes + SIZEOF_HEADER - 1) / SIZEOF_HEADER + 1) in
  prevp ← gets freep;
  prevp ← (if prevp =? 0 then
             set_freep base;;
             set_ptr base base;;
             set_size base 0;;
             ret base
           else ret prevp);
  p ← ptr prevp;
  malloc_loop fuel fuel nunits prevp p.
End umalloc.
