(* ===== verification/UmallocFacts.v ===== *)
(** * The free list: user/umalloc.c

    [freelist h fb]: the ring through [base] links the free blocks [fb] in the order
    of their addresses, and no two of them touch.  [free] returns a block to the
    list and joins it with its neighbours; [malloc] takes a block, or the tail of
    one, from it, after asking the kernel for more when there is none. *)

From S2P Require Import Prelude Machine BlockLayer Umalloc.

Abbreviation hptr h p := ((mem h p).1).
Abbreviation hsize h p := ((mem h p).2).

(** [x] lies in one of the blocks. *)
Definition inside (b : Z * Z) (x : Z) : Prop := b.1 ≤ x < b.1 + 16 * b.2.
Definition cov (fb : list (Z * Z)) (x : Z) : Prop := ∃ b, b ∈ fb ∧ inside b x.

Fixpoint gaps (lo : Z) (fb : list (Z * Z)) : Prop :=
  match fb with
  | [] => True
  | (a, n) :: fb' => lo < a ∧ 0 < n ∧ gaps (a + 16 * n) fb'
  end.

(** Consecutive nodes are linked. *)
Fixpoint linked (h : heap) (l : list Z) : Prop :=
  match l with
  | x :: ((y :: _) as l') => hptr h x = y ∧ linked h l'
  | _ => True
  end.

Lemma linked_cons h x y l : linked h (x :: y :: l) ↔ hptr h x = y ∧ linked h (y :: l).
Proof. done. Qed.

Lemma linked_app h l1 x l2 : linked h (l1 ++ x :: l2) ↔ linked h (l1 ++ [x]) ∧ linked h (x :: l2).
Proof.
  induction l1 as [|y l1 IH]; [cbn; tauto|]. destruct l1 as [|z l1]; [cbn [app]; rewrite !linked_cons; cbn; tauto|].
  cbn [app] in *. rewrite !linked_cons, IH. tauto.
Qed.

(** Only the nodes before the last one are read. *)
Lemma linked_ext h h' l x : (∀ y, y ∈ l → mem h' y = mem h y) → linked h (l ++ [x]) → linked h' (l ++ [x]).
Proof.
  induction l as [|y l IH]; intros Hm; [done|]. intros H. assert (linked h' (l ++ [x])) as IH'.
  { apply IH; [intros z Hz; apply Hm; set_solver|]. destruct l; [done|apply H]. }
  cbn [app]. destruct (l ++ [x]) as [|z l'] eqn:E; [done|]. cbn [app] in H. rewrite E in H. destruct H as [H _].
  split; [|done]. rewrite Hm by set_solver. done.
Qed.

Lemma cov_cons b fb x : cov (b :: fb) x ↔ inside b x ∨ cov fb x.
Proof.
  unfold cov. split.
  - intros (c & [->|Hc]%elem_of_cons & Hx); [by left|right; by exists c].
  - intros [Hx|(c & Hc & Hx)]; [exists b; split; [apply elem_of_cons; by left|done]|exists c; split; [apply elem_of_cons; by right|done]].
Qed.

Lemma cov_app fb fb' x : cov (fb ++ fb') x ↔ cov fb x ∨ cov fb' x.
Proof.
  unfold cov. split.
  - intros (c & [Hc|Hc]%elem_of_app & Hx); [left|right]; by exists c.
  - intros [(c & Hc & Hx)|(c & Hc & Hx)]; exists c; (split; [apply elem_of_app; tauto|done]).
Qed.

Lemma cov_nil x : ¬ cov [] x.
Proof. by intros (c & Hc%elem_of_nil & _). Qed.

(** ** Sorted blocks *)

Fixpoint top (lo : Z) (fb : list (Z * Z)) : Z :=
  match fb with
  | [] => lo
  | (a, n) :: fb' => top (a + 16 * n) fb'
  end.

Lemma top_ge lo fb : gaps lo fb → lo ≤ top lo fb.
Proof.
  revert lo. induction fb as [|[a n] fb IH]; intros lo; cbn; [lia|]. intros (H1 & H2 & H3). specialize (IH _ H3). lia.
Qed.

Lemma gaps_app lo fb fb' : gaps lo (fb ++ fb') ↔ gaps lo fb ∧ gaps (top lo fb) fb'.
Proof. revert lo. induction fb as [|[a n] fb IH]; intros lo; cbn; [tauto|]. rewrite IH. tauto. Qed.

Lemma gaps_weaken lo lo' fb : lo' ≤ lo → gaps lo fb → gaps lo' fb.
Proof. destruct fb as [|[a n] fb]; cbn; [done|]. intros H (H1 & H2). split; [lia|done]. Qed.

Lemma gaps_raise lo lo' fb : gaps lo fb → (∀ b, b ∈ fb → lo' < b.1) → gaps lo' fb.
Proof. destruct fb as [|[a n] fb]; cbn; [done|]. intros (H1 & H2) H. split; [apply (H (a, n)); left|done]. Qed.

Lemma gaps_in lo fb b : gaps lo fb → b ∈ fb → lo < b.1 ∧ 0 < b.2 ∧ b.1 + 16 * b.2 ≤ top lo fb.
Proof.
  revert lo. induction fb as [|[a n] fb IH]; intros lo; cbn; [by intros _ ?%elem_of_nil|]. intros (H1 & H2 & H3) [->|Hb]%elem_of_cons.
  - pose proof (top_ge _ _ H3). cbn. lia.
  - destruct (IH _ H3 Hb) as (? & ? & ?). lia.
Qed.

(** The free blocks below and above [bp]. *)
Lemma gaps_split lo fb bp :
  gaps lo fb → (∀ b, b ∈ fb → ¬ inside b bp) → lo < bp →
  ∃ f1 f2, fb = f1 ++ f2 ∧ top lo f1 ≤ bp ∧ Forall (λ b, bp < b.1) f2.
Proof.
  revert lo. induction fb as [|[a n] fb IH]; intros lo H Hn Hlo; [exists [], []; cbn; split_and!; [done|lia|constructor]|].
  destruct H as (H1 & H2 & H3). destruct (decide (bp < a)) as [Hlt|Hge].
  - exists [], ((a, n) :: fb). cbn. split_and!; [done|lia|]. constructor; [done|]. apply Forall_forall. intros b Hb.
    destruct (gaps_in _ _ _ H3 Hb). lia.
  - destruct (decide (bp = a + 16 * n)) as [->|Hne].
    + exists [(a, n)], fb. cbn. split_and!; [done|lia|]. apply Forall_forall. intros b Hb. destruct (gaps_in _ _ _ H3 Hb). lia.
    + destruct (IH (a + 16 * n)) as (f1 & f2 & -> & Ht & Hf); [done|intros b Hb; apply Hn; apply elem_of_cons; by right| |].
      * specialize (Hn (a, n) ltac:(left)). unfold inside in Hn. cbn in Hn. lia.
      * exists ((a, n) :: f1), f2. by cbn.
Qed.

(** ** The accesses *)

Definition poke (p : Z) (c : cell) (h : heap) : heap := Heap (λ m, if decide (m = p) then c else mem h m) (freep h) (brk h).

Lemma mem_poke_eq p c h : mem (poke p c h) p = c.
Proof. cbn. by rewrite decide_True. Qed.
Lemma mem_poke_ne p c h x : x ≠ p → mem (poke p c h) x = mem h x.
Proof. intros H. cbn. by rewrite decide_False. Qed.

Lemma wp_ptr p h (Q : Z → heap → Prop) : Q (hptr h p) h → wp (ptr p) Q h.
Proof. done. Qed.
Lemma wp_size p h (Q : Z → heap → Prop) : Q (hsize h p) h → wp (size p) Q h.
Proof. done. Qed.
Lemma wp_set_ptr p v h (Q : unit → heap → Prop) : Q tt (poke p (v, hsize h p) h) → wp (set_ptr p v) Q h.
Proof. done. Qed.
Lemma wp_set_size p v h (Q : unit → heap → Prop) : Q tt (poke p (hptr h p, v) h) → wp (set_size p v) Q h.
Proof. done. Qed.

Section list.
Context (base : Z) (Hbase : 0 < base).

Record freelist (h : heap) (fb : list (Z * Z)) : Prop := {
  fl_ring : linked h (base :: fb.*1 ++ [base]);
  fl_base : hsize h base = 0;
  fl_size b : b ∈ fb → hsize h b.1 = b.2;
  fl_gaps : gaps (base + 15) fb;
  fl_freep : freep h ∈ base :: fb.*1;
}.

(** The last node of a chain from [x]. *)
Fixpoint node (x : Z) (f : list (Z * Z)) : Z :=
  match f with
  | [] => x
  | b :: f' => node b.1 f'
  end.

Lemma node_split x f : ∃ l, x :: f.*1 = l ++ [node x f].
Proof.
  revert x. induction f as [|b f IH]; intros x; [by exists []|]. destruct (IH b.1) as [l E]. exists (x :: l). cbn [fmap list_fmap node app]. by rewrite E.
Qed.

Lemma node_in x f : node x f = x ∨ ∃ b, b ∈ f ∧ node x f = b.1.
Proof.
  revert x. induction f as [|b f IH]; intros x; [by left|]. right. destruct (IH b.1) as [E|(c & Hc & E)]; cbn [node].
  - exists b. split; [left|done].
  - exists c. split; [by right|done].
Qed.

Lemma node_snoc x f b : node x (f ++ [b]) = b.1.
Proof. revert x. induction f as [|c f IH]; intros x; [done|]. apply IH. Qed.

Lemma top_snoc lo f b : top lo (f ++ [b]) = b.1 + 16 * b.2.
Proof. revert lo. induction f as [|[a n] f IH]; intros lo; [by destruct b|]. apply IH. Qed.

Lemma node_above x f l lo y : gaps lo f → x ≤ lo → x :: f.*1 = l ++ [node x f] → y ∈ l → y < node x f.
Proof.
  revert x l lo. induction f as [|[a n] f IH]; intros x l lo G Hx E Hy; cbn [node] in *.
  - by destruct l as [|? [|]]; [apply elem_of_nil in Hy|..].
  - destruct G as (G1 & G2 & G3). destruct l as [|z l]; [by apply elem_of_nil in Hy|]. injection E as <- E. cbn [fst fmap list_fmap] in *.
    apply elem_of_cons in Hy as [->|Hy]; [|by apply (IH a l (a + 16 * n)); [|lia|..]].
    destruct (node_in a f) as [->|(b & Hb & ->)]; [lia|]. destruct (gaps_in _ _ _ G3 Hb). lia.
Qed.

Section search.
Context (h : heap) (bp : Z) (Hbp : base < bp).

(** The search from a node below [bp] ... *)
Lemma wp_search_up g1 g2 x lo fuel (Q : Z → heap → Prop) :
  linked h (x :: (g1 ++ g2).*1 ++ [base]) → base ≤ x → x < bp → x ≤ lo → gaps lo g1 → top lo g1 ≤ bp → Forall (λ b, bp < b.1) g2 →
  (length g1 < fuel)%nat → Q (node x g1) h → wp (free_loop fuel bp x) Q h.
Proof.
  revert x lo fuel. induction g1 as [|[a n] g1 IH]; intros x lo fuel HL Hx Hlt Hlo Hg Ht H2 Hf HQ; (destruct fuel as [|fuel]; [cbn in Hf; lia|]);
    cbn [free_loop]; wp_step; apply wp_ptr.
  - rewrite (proj2 (Z.ltb_lt x bp)) by done. destruct g2 as [|[a n] g2]; cbn in HL; destruct HL as [-> _].
    + rewrite (proj2 (Z.ltb_ge bp base)), (proj2 (Z.leb_le base x)) by lia. cbn [andb orb]. by wp_step.
    + apply Forall_cons in H2 as [H2 _]. cbn in H2. rewrite (proj2 (Z.ltb_lt bp a)) by done. cbn [andb]. by wp_step.
  - cbn [app fmap list_fmap] in HL. destruct HL as [-> HL]. destruct Hg as (G1 & G2 & G3). cbn [top] in Ht. pose proof (top_ge _ _ G3). cbn [fst].
    rewrite (proj2 (Z.ltb_ge bp a)), (proj2 (Z.leb_gt a x)), andb_false_r by lia. cbn [andb].
    apply (IH a (a + 16 * n)); [done|lia|lia|lia|done|done|done|cbn in Hf; lia|done].
Qed.

(** ... and from one above it, around the ring. *)
Lemma wp_search_around g x lo f1 f2 fuel (Q : Z → heap → Prop) :
  linked h (x :: g.*1 ++ [base]) → bp < x → x ≤ lo → gaps lo g →
  linked h (base :: (f1 ++ f2).*1 ++ [base]) → gaps (base + 15) f1 → top (base + 15) f1 ≤ bp → Forall (λ b, bp < b.1) f2 →
  (length g + S (length f1) < fuel)%nat → Q (node base f1) h → wp (free_loop fuel bp x) Q h.
Proof.
  revert x lo fuel. induction g as [|[a n] g IH]; intros x lo fuel HL Hx Hlo Hg HR H1 Ht H2 Hf HQ; (destruct fuel as [|fuel]; [lia|]);
    cbn [free_loop]; wp_step; apply wp_ptr.
  - cbn in HL. destruct HL as [-> _]. rewrite (proj2 (Z.ltb_ge x bp)), (proj2 (Z.ltb_ge bp base)) by lia. cbn [andb orb]. rewrite andb_false_r.
    apply (wp_search_up f1 f2 base (base + 15)); [done|lia|done|lia|done|done|done|cbn in Hf; lia|done].
  - cbn [fmap list_fmap app] in HL. destruct HL as [-> HL]. destruct Hg as (G1 & G2 & G3). cbn [fst].
    rewrite (proj2 (Z.ltb_ge x bp)), (proj2 (Z.leb_gt a x)) by lia. cbn [andb].
    apply (IH a (a + 16 * n)); [done|lia|lia|done|done|done|done|done|cbn in Hf; lia|done].
Qed.
End search.

(** The loop of [free] finds the node before [bp]. *)
Lemma wp_free_loop h fb bp f1 f2 fuel (Q : Z → heap → Prop) :
  freelist h fb → base + 15 < bp → fb = f1 ++ f2 → top (base + 15) f1 ≤ bp → Forall (λ b, bp < b.1) f2 →
  (length fb + 2 < fuel)%nat → Q (node base f1) h → wp (free_loop fuel bp (freep h)) Q h.
Proof.
  intros [R _ _ G F] Hbp -> Ht H2 Hf HQ. rewrite length_app in Hf. pose proof G as G0. rewrite gaps_app in G0. destruct G0 as [G1 G2].
  apply elem_of_cons in F as [->|F]; [by apply (wp_search_up h bp ltac:(lia) f1 f2 base (base + 15)); try done; lia|].
  rewrite fmap_app in F. apply elem_of_app in F as [F|F]; apply list_elem_of_fmap in F as ([a n] & -> & F); apply list_elem_of_split in F as (u & v & ->).
  - rewrite gaps_app in G1. destruct G1 as [Gu (G3 & G4 & G5)]. pose proof (top_ge _ _ Gu). assert (top (base + 15) (u ++ (a, n) :: v) = top (a + 16 * n) v) as Et.
    { clear. generalize (base + 15). induction u as [|[c m] u IH]; intros lo; [done|]. cbn [app top]. apply IH. }
    rewrite Et in Ht. pose proof (top_ge _ _ G5). cbn [fst].
    apply (wp_search_up h bp ltac:(lia) v f2 a (a + 16 * n)); [|lia|lia|lia|done|done|done|rewrite length_app in Hf; cbn in Hf; lia|].
    + rewrite <- (assoc_L (++)), fmap_app, <- (assoc_L (++)) in R. cbn [app fmap list_fmap] in R. rewrite app_comm_cons, linked_app in R. apply R.
    + replace (node a v) with (node base (u ++ (a, n) :: v)); [done|]. generalize base. clear. induction u as [|c u IH]; intros x; [done|]. apply IH.
  - rewrite gaps_app in G2. destruct G2 as [_ (G3 & G4 & G5)]. apply Forall_app in H2 as [H3 H4]. apply Forall_cons in H4 as [H4 H5]. cbn [fst] in *.
    apply (wp_search_around h bp ltac:(lia) v a (a + 16 * n) f1 (u ++ (a, n) :: v)); [|done|lia|done|done|done|done| |rewrite length_app in Hf; cbn in Hf; lia|done].
    + rewrite (assoc_L (++)), fmap_app, <- (assoc_L (++)) in R. cbn [app fmap list_fmap] in R. rewrite app_comm_cons, linked_app in R. apply R.
    + apply Forall_app. split; [done|by constructor].
Qed.

(** ** Returning a block *)

Section join.
Context (h : heap) (fb f1 f2 : list (Z * Z)) (bp n lim : Z).
Context (F : freelist h fb) (Hbp : base + 15 < bp) (Hn : hsize h bp = n) (Hn0 : 0 < n).
Context (Hfree : ∀ x, inside (bp, n) x → ¬ cov fb x).
Context (Hlim : bp + 16 * n ≤ lim ≤ 2 ^ 36) (Hlims : ∀ b, b ∈ fb → b.1 + 16 * b.2 ≤ lim).
Context (Ef : fb = f1 ++ f2) (Ht : top (base + 15) f1 ≤ bp) (Ha : Forall (λ b, bp < b.1) f2).
Let p := node base f1.

Lemma join_gaps : gaps (base + 15) f1 ∧ gaps (top (base + 15) f1) f2.
Proof. apply gaps_app. rewrite <- Ef. apply F. Qed.

Lemma join_above b : b ∈ f2 → bp + 16 * n ≤ b.1.
Proof.
  intros Hb. rewrite Forall_forall in Ha. specialize (Ha b Hb). destruct (decide (bp + 16 * n ≤ b.1)) as [|Hlt]; [done|]. exfalso.
  apply (Hfree b.1); [unfold inside; cbn; lia|]. exists b. split; [rewrite Ef; apply elem_of_app; by right|]. unfold inside.
  destruct (gaps_in _ _ _ (proj2 join_gaps) Hb) as (_ & ? & _). lia.
Qed.

Lemma join_gaps_above : gaps (bp + 16 * n - 1) f2.
Proof. apply (gaps_raise (top (base + 15) f1)); [apply join_gaps|]. intros b Hb%join_above. lia. Qed.

Lemma join_ring : linked h (p :: f2.*1 ++ [base]).
Proof.
  destruct (node_split base f1) as [l El]. pose proof (fl_ring _ _ F) as R. rewrite Ef, fmap_app, <- (assoc_L (++)) in R.
  rewrite (app_comm_cons (f1.*1)), El, <- (assoc_L (++)) in R. cbn [app] in R. rewrite linked_app in R. apply R.
Qed.

Lemma bp_not_node b : b ∈ fb → b.1 ≠ bp.
Proof.
  intros Hb E. apply (Hfree bp); [unfold inside; cbn; lia|]. exists b. split; [done|]. unfold inside. destruct (gaps_in _ _ _ (fl_gaps _ _ F) Hb) as (_ & ? & _). lia.
Qed.

(** The block joined with the one above it. *)
Record upper (h1 : heap) (n1 : Z) (g : list (Z * Z)) : Prop := {
  up_ring : linked h1 (bp :: g.*1 ++ [base]);
  up_size : hsize h1 bp = n1;
  up_frame x : x ≠ bp → mem h1 x = mem h x;
  up_rest : freep h1 = freep h ∧ brk h1 = brk h;
  up_gaps : gaps (bp + 16 * n1) g;
  up_sub b : b ∈ g → b ∈ f2;
  up_cov x : cov ((bp, n1) :: g) x ↔ inside (bp, n) x ∨ cov f2 x;
  up_len : n ≤ n1 ∧ bp + 16 * n1 ≤ lim ∧ (length g ≤ length f2)%nat;
}.

Lemma linked_bp h1 g : (∀ x, x ≠ bp → mem h1 x = mem h x) → bp ∉ g → linked h (g ++ [base]) → linked h1 (g ++ [base]).
Proof. intros Hm Hg. apply linked_ext. intros y Hy. apply Hm. by intros ->. Qed.

Lemma linked_to h1 x l : hptr h1 x = default base (head (l ++ [base])) → linked h1 (l ++ [base]) → linked h1 (x :: l ++ [base]).
Proof. intros E R. by destruct (l ++ [base]) as [|y l'] eqn:El; [by destruct l|split]. Qed.

Lemma linked_head h1 x l : linked h1 (x :: l ++ [base]) → hptr h1 x = default base (head (l ++ [base])) ∧ linked h1 (l ++ [base]).
Proof. intros R. destruct (l ++ [base]) as [|y l'] eqn:El; [by destruct l|apply R]. Qed.

Lemma f2_cases : f2 = [] ∨ ∃ a m g, f2 = (a, m) :: g.
Proof. destruct f2 as [|[a m] g]; [by left|right; by exists a, m, g]. Qed.

Lemma wp_join_upper (Q : unit → heap → Prop) :
  (∀ h1 n1 g, upper h1 n1 g → Q tt h1) → wp (join_upper bp p) Q h.
Proof.
  intros HQ. unfold join_upper, hplus, SIZEOF_HEADER. wp_step. apply wp_ptr. wp_step. apply wp_size. rewrite Hn.
  destruct (linked_head h p _ join_ring) as [Ep R]. rewrite Ep.
  assert (∀ b, b ∈ f2 → b ∈ fb) as Hsub by (intros b Hb; rewrite Ef; apply elem_of_app; by right).
  assert (bp ∉ f2.*1) as Hnot by (intros (b & Eb & Hb)%list_elem_of_fmap; by apply (bp_not_node b); [apply Hsub|]). pose proof join_gaps_above as G.
  destruct (Z.eqb_spec (bp + 16 * n) (default base (head (f2.*1 ++ [base])))) as [E|E].
  - destruct f2_cases as [E2|(a & m & g & E2)]; rewrite E2 in E, R, G, Hnot, Hsub; cbn in E; [lia|]. subst a.
    pose proof (fl_size _ _ F (bp + 16 * n, m)) as Em. cbn in Em. assert ((bp + 16 * n, m) ∈ fb) as Hin by (apply Hsub; left). specialize (Em Hin).
    pose proof (Hlims _ Hin) as Hl. cbn in Hl. cbn [gaps] in G. destruct G as (_ & Hm & G). cbn [fmap list_fmap] in Hnot. rewrite E2. change (default base (head (((bp + 16 * n, m) :: g).*1 ++ [base]))) with (bp + 16 * n).
    wp_step. apply wp_size. rewrite Em. wp_step. apply wp_set_size. wp_step. apply wp_ptr. rewrite mem_poke_ne by lia. apply wp_set_ptr.
    rewrite mem_poke_eq. cbn [snd]. rewrite u32_small by lia. destruct (linked_head h _ _ R) as [Eq R'].
    apply (HQ _ (n + m) g). split.
    + apply linked_to; [rewrite mem_poke_eq; exact Eq|]. apply linked_bp; [intros x Hx; by rewrite !mem_poke_ne|set_solver|done].
    + by rewrite mem_poke_eq.
    + intros x Hx. by rewrite !mem_poke_ne.
    + done.
    + by replace (bp + 16 * (n + m)) with (bp + 16 * n + 16 * m) by lia.
    + intros b Hb. rewrite E2. by right.
    + intros x. rewrite E2, !cov_cons. assert (inside (bp, n + m) x ↔ inside (bp, n) x ∨ inside (bp + 16 * n, m) x) by (unfold inside; cbn; lia). tauto.
    + rewrite E2. cbn [length]. lia.
  - apply wp_set_ptr. apply (HQ _ n f2). split.
    + apply linked_to; [by rewrite mem_poke_eq|]. apply linked_bp; [intros x Hx; by rewrite mem_poke_ne|done|done].
    + by rewrite mem_poke_eq.
    + intros x Hx. by rewrite mem_poke_ne.
    + done.
    + apply (gaps_raise (bp + 16 * n - 1)); [done|]. intros b Hb. pose proof (join_above b Hb). destruct (decide (b.1 = bp + 16 * n)) as [E'|]; [|lia].
      destruct E. destruct f2_cases as [E2|(a & m & g & E2)]; [rewrite E2 in Hb; by apply elem_of_nil in Hb|]. rewrite E2 in Hb, G |- *. cbn.
      apply elem_of_cons in Hb as [->|Hb]; [done|]. cbn [gaps] in G. destruct G as (G1 & G2 & G3). destruct (gaps_in _ _ _ G3 Hb). lia.
    + done.
    + intros x. apply cov_cons.
    + lia.
Qed.

(** What [free] leaves. *)
Record freed (h' : heap) (fb' : list (Z * Z)) : Prop := {
  fd_list : freelist h' fb';
  fd_cov x : cov fb' x ↔ cov fb x ∨ inside (bp, n) x;
  fd_one : ∃ b, b ∈ fb' ∧ b.1 ≤ bp ∧ bp + 16 * n ≤ b.1 + 16 * b.2;
  fd_frame x : x ≠ base → ¬ cov fb x → ¬ inside (bp, n) x → mem h' x = mem h x;
  fd_brk : brk h' = brk h;
  fd_len : (length fb' ≤ S (length fb))%nat;
}.

Section lower.
Context (h1 : heap) (n1 : Z) (g : list (Z * Z)) (U : upper h1 n1 g).

Lemma f1_cases : f1 = [] ∨ ∃ f b, f1 = f ++ [b].
Proof. destruct f1 as [|b f] using rev_ind; [by left|right; by exists f, b]. Qed.

Lemma below_size b : b ∈ f1 → hsize h1 b.1 = b.2.
Proof.
  intros Hb. assert (b ∈ fb) as Hin by (rewrite Ef; apply elem_of_app; by left).
  rewrite (up_frame _ _ _ U) by (by apply bp_not_node). by apply F.
Qed.

Lemma p_below : p < bp.
Proof.
  unfold p. destruct (node_in base f1) as [->|(b & Hb & ->)]; [lia|]. destruct (gaps_in _ _ _ (proj1 join_gaps) Hb). lia.
Qed.

Lemma p_place : p = base ∨ cov fb p.
Proof.
  unfold p. destruct (node_in base f1) as [->|(b & Hb & ->)]; [by left|right]. exists b. split; [rewrite Ef; apply elem_of_app; by left|].
  destruct (gaps_in _ _ _ (proj1 join_gaps) Hb). unfold inside. lia.
Qed.

(** The ring after a change at the node before the block. *)
Lemma lower_ring h2 rest :
  (∀ x, x ≠ p → mem h2 x = mem h1 x) → linked h2 (p :: rest ++ [base]) → linked h2 (base :: f1.*1 ++ rest ++ [base]).
Proof.
  intros Hm R. destruct (node_split base f1) as [l El]. fold p in El. pose proof (fl_ring _ _ F) as R0.
  rewrite Ef, fmap_app, <- (assoc_L (++)) in R0. rewrite (app_comm_cons (f1.*1)), El, <- (assoc_L (++)) in *. cbn [app] in *.
  rewrite linked_app in R0 |- *. split; [|done]. destruct R0 as [R0 _]. revert R0. apply linked_ext. intros y Hy.
  assert (y < p) as Hlt by (apply (node_above base f1 l (base + 15)); [apply join_gaps|lia|done|done]). pose proof p_below.
  rewrite Hm, (up_frame _ _ _ U) by lia. done.
Qed.

Lemma above_size h2 b : (∀ x, x ≠ p → mem h2 x = mem h1 x) → b ∈ g → hsize h2 b.1 = b.2.
Proof.
  intros Hm Hb%(up_sub _ _ _ U). assert (b ∈ fb) as Hin by (rewrite Ef; apply elem_of_app; by right). pose proof (join_above b Hb). pose proof p_below.
  rewrite Hm, (up_frame _ _ _ U) by lia. by apply F.
Qed.

Lemma lower_frame h2 x :
  (∀ x, x ≠ p → mem h2 x = mem h1 x) → x ≠ base → ¬ cov fb x → ¬ inside (bp, n) x → mem h2 x = mem h x.
Proof.
  intros Hm Hx Hc Hi. rewrite Hm, (up_frame _ _ _ U); [done| |].
  - intros ->. apply Hi. unfold inside. cbn. lia.
  - intros ->. by destruct p_place.
Qed.

Lemma lower_cov fb' x : (∀ x, cov fb' x ↔ cov f1 x ∨ cov ((bp, n1) :: g) x) → cov fb' x ↔ cov fb x ∨ inside (bp, n) x.
Proof. intros Hc. rewrite Hc, (up_cov _ _ _ U), Ef, cov_app. tauto. Qed.

(** The block stands alone ... *)
Lemma freed_apart :
  hplus p (hsize h1 p) ≠ bp → freed (Heap (mem (poke p (bp, hsize h1 p) h1)) p (brk h1)) (f1 ++ (bp, n1) :: g).
Proof.
  intros Hne. unfold hplus, SIZEOF_HEADER in Hne. set (h2 := Heap _ _ _). assert (∀ x, x ≠ p → mem h2 x = mem h1 x) as Hm by (intros x; apply mem_poke_ne).
  assert (mem h2 p = (bp, hsize h1 p)) as Hp by apply mem_poke_eq. pose proof p_below as Hpb. destruct (up_len _ _ _ U) as (L1 & L2 & L3).
  split.
  - split.
    + rewrite fmap_app, <- (assoc_L (++)). apply lower_ring; [done|]. cbn [fmap list_fmap app fst]. split; [by rewrite Hp|].
      destruct (linked_head h1 _ _ (up_ring _ _ _ U)) as [E R]. apply (linked_ext h1 h2 (bp :: g.*1)); [|apply (up_ring _ _ _ U)]. intros y Hy. apply Hm.
      apply elem_of_cons in Hy as [->|(b & -> & Hb)%list_elem_of_fmap]; [lia|]. apply (up_sub _ _ _ U), join_above in Hb. lia.
    + destruct (decide (base = p)) as [<-|]; [rewrite Hp; cbn|rewrite Hm by done]; rewrite (up_frame _ _ _ U) by lia; apply F.
    + intros b [Hb|[->|Hb]%elem_of_cons]%elem_of_app; [|by rewrite Hm by (cbn; lia); apply (up_size _ _ _ U)|by apply above_size].
      rewrite <- (below_size b Hb). destruct (decide (b.1 = p)) as [E|]; [by rewrite E, Hp|by rewrite Hm].
    + rewrite gaps_app. split; [apply join_gaps|]. split; [|split; [lia|apply (up_gaps _ _ _ U)]].
      destruct f1_cases as [->|(f & b & E1)]; [cbn; lia|]. rewrite E1, top_snoc in Ht |- *. assert (p = b.1) as Ep by (unfold p; by rewrite E1, node_snoc).
      rewrite Ep, below_size in Hne by (rewrite E1; apply elem_of_app; right; left). lia.
    + cbn [freep h2]. unfold p. destruct (node_in base f1) as [->|(b & Hb & ->)]; [left|right]. apply list_elem_of_fmap. exists b. split; [done|].
      apply elem_of_app. by left.
  - intros x. apply lower_cov. intros y. apply cov_app.
  - exists (bp, n1). split; [apply elem_of_app; right; left|]. cbn. lia.
  - intros x. by apply lower_frame.
  - cbn. apply U.
  - rewrite Ef, !length_app. cbn [length]. lia.
Qed.

(** ... or is joined with the one below it. *)
Lemma freed_joined h2 f m :
  f1 = f ++ [(p, m)] → p + 16 * m = bp → (∀ x, x ≠ p → mem h2 x = mem h1 x) → mem h2 p = (hptr h1 bp, m + n1) → freep h2 = p → brk h2 = brk h1 →
  freed h2 (f ++ (p, m + n1) :: g).
Proof.
  intros E1 E Hm Hp Ef2 Eb2. pose proof p_below as Hpb. destruct (up_len _ _ _ U) as (L1 & L2 & L3). pose proof (proj1 join_gaps) as G. rewrite E1, gaps_app in G.
  destruct G as [G (G1 & G2 & _)]. pose proof (top_ge _ _ G). assert (∀ b, b ∈ f → b ∈ f1 ∧ b.1 < p) as Hf.
  { intros b Hb. split; [rewrite E1; apply elem_of_app; by left|]. destruct (gaps_in _ _ _ G Hb) as (_ & ? & ?). lia. }
  split.
  - split.
    + replace (base :: (f ++ (p, m + n1) :: g).*1 ++ [base]) with (base :: f1.*1 ++ g.*1 ++ [base]).
      2:{ rewrite E1, !fmap_app, <- !(assoc_L (++)). done. }
      destruct (linked_head h1 _ _ (up_ring _ _ _ U)) as [Eh R]. apply lower_ring; [done|]. apply linked_to; [by rewrite Hp|].
      revert R. apply linked_ext. intros y (b & -> & Hb)%list_elem_of_fmap. apply Hm. apply (up_sub _ _ _ U), join_above in Hb. lia.
    + rewrite Hm by lia. rewrite (up_frame _ _ _ U) by lia. apply F.
    + intros b [Hb|[->|Hb]%elem_of_cons]%elem_of_app; [|by cbn [fst]; rewrite Hp|by apply above_size]. destruct (Hf b Hb).
      rewrite Hm by lia. by apply below_size.
    + rewrite gaps_app. split; [done|]. split; [done|]. split; [lia|]. replace (p + 16 * (m + n1)) with (bp + 16 * n1) by lia. apply (up_gaps _ _ _ U).
    + rewrite Ef2. right. rewrite fmap_app. apply elem_of_app. right. left.
  - intros x. apply lower_cov. intros y. rewrite E1, !cov_app, !cov_cons.
    assert (inside (p, m + n1) y ↔ inside (p, m) y ∨ inside (bp, n1) y) by (unfold inside; cbn; lia). pose proof (cov_nil y). tauto.
  - exists (p, m + n1). split; [apply elem_of_app; right; left|]. cbn. lia.
  - intros x. by apply lower_frame.
  - rewrite Eb2. apply U.
  - rewrite Ef, E1, !length_app. cbn [length]. lia.
Qed.

Lemma wp_join_lower (Q : unit → heap → Prop) :
  (∀ h2 fb', freed (Heap (mem h2) p (brk h2)) fb' → Q tt h2) → wp (join_lower bp p) Q h1.
Proof.
  intros HQ. unfold join_lower. wp_step. apply wp_size. destruct (Z.eqb_spec (hplus p (hsize h1 p)) bp) as [E|E].
  - unfold hplus, SIZEOF_HEADER in E. pose proof p_below as Hpb. destruct (up_len _ _ _ U) as (L1 & L2 & L3).
    destruct f1_cases as [E1|(f & [a m] & E1)].
    { assert (p = base) as Ep by (unfold p; by rewrite E1). rewrite Ep, (up_frame _ _ _ U), (fl_base _ _ F) in E by lia. lia. }
    assert (p = a) as Ep by (unfold p; by rewrite E1, node_snoc). assert (hsize h1 p = m) as Em.
    { rewrite Ep. apply (below_size (a, m)). rewrite E1. apply elem_of_app. right. left. }
    destruct (gaps_in _ _ (a, m) (proj1 join_gaps)) as (A1 & A2 & _); [rewrite E1; apply elem_of_app; right; left|]. cbn in A1, A2.
    wp_step. apply wp_size. rewrite (up_size _ _ _ U), Em in *. wp_step. apply wp_set_size. wp_step. apply wp_ptr. rewrite mem_poke_ne by lia. apply wp_set_ptr.
    rewrite mem_poke_eq. cbn [snd]. rewrite u32_small by lia. apply (HQ _ (f ++ (p, m + n1) :: g)).
    apply freed_joined; [by rewrite Ep|done|intros x Hx; cbn; by rewrite !decide_False|cbn; by rewrite decide_True|done|done].
  - apply wp_set_ptr. by apply (HQ _ (f1 ++ (bp, n1) :: g)), freed_apart.
Qed.
End lower.
End join.

(** [free] returns the block to the free list. *)
Lemma wp_free h fb bp n lim fuel (Q : unit → heap → Prop) :
  freelist h fb → base + 15 < bp → hsize h bp = n → 0 < n → (∀ x, inside (bp, n) x → ¬ cov fb x) →
  bp + 16 * n ≤ lim ≤ 2 ^ 36 → (∀ b, b ∈ fb → b.1 + 16 * b.2 ≤ lim) → (length fb + 2 < fuel)%nat →
  (∀ h' fb', freed h fb bp n h' fb' → Q tt h') → wp (free fuel (bp + 16)) Q h.
Proof.
  intros F Hbp Hn Hn0 Hfree Hlim Hlims Hfuel HQ. unfold free, hplus, SIZEOF_HEADER. replace (bp + 16 + 16 * -1) with bp by lia.
  destruct (gaps_split (base + 15) fb bp) as (f1 & f2 & Ef & Ht & Ha); [apply F| |done|].
  { intros b Hb Hi. apply (Hfree bp); [unfold inside; cbn; lia|]. by exists b. }
  wp_step. wp_step. wp_step. apply (wp_free_loop h fb bp f1 f2); try done. wp_step.
  apply (wp_join_upper h fb f1 f2 bp n lim); try done. intros h1 n1 g U. wp_step.
  apply (wp_join_lower h fb f1 f2 bp n lim F Hbp Hn Hn0 Hfree Hlim Ef Ht Ha h1 n1 g U). intros h2 fb' Hd. unfold set_freep. wp_step. by apply (HQ _ fb').
Qed.

(** ** Taking a block *)

(** What [take_block] of [nu] units leaves. *)
Record taken (h : heap) (fb : list (Z * Z)) (nu r : Z) (h' : heap) (fb' : list (Z * Z)) : Prop := {
  tk_list : freelist h' fb';
  tk_size : hsize h' (r - 16) = nu;
  tk_cov x : cov fb x ↔ cov fb' x ∨ inside (r - 16, nu) x;
  tk_disj x : inside (r - 16, nu) x → ¬ cov fb' x;
  tk_frame x : x ≠ base → ¬ cov fb x → mem h' x = mem h x;
  tk_rest : brk h' = brk h ∧ (length fb' ≤ length fb)%nat;
}.

Section take.
Context (h : heap) (f1 f2 : list (Z * Z)) (a m nu : Z).
Let fb := f1 ++ (a, m) :: f2.
Context (F : freelist h fb) (Hnu : 0 < nu ≤ m) (Hm : m < 2 ^ 32).
Let p := node base f1.

Lemma take_gaps : gaps (base + 15) f1 ∧ top (base + 15) f1 < a ∧ gaps (a + 16 * m) f2.
Proof. clear Hnu Hm. pose proof (fl_gaps _ _ F) as G. unfold fb in G. rewrite gaps_app in G. destruct G as [G1 (G2 & _ & G3)]. done. Qed.

Lemma take_below : base ≤ p < a ∧ ∀ b, b ∈ f1 → b.1 + 16 * b.2 < a ∧ 0 < b.2.
Proof.
  pose proof take_gaps as TG. clear Hnu Hm. destruct TG as (G1 & G2 & _). pose proof (top_ge _ _ G1). assert (∀ b, b ∈ f1 → b.1 + 16 * b.2 < a ∧ base < b.1 ∧ 0 < b.2) as Hb.
  { intros b Hb. destruct (gaps_in _ _ _ G1 Hb) as (? & ? & ?). lia. }
  split; [|naive_solver]. unfold p. destruct (node_in base f1) as [->|(b & Hi & ->)]; [lia|]. specialize (Hb b Hi). lia.
Qed.

Lemma take_above b : b ∈ f2 → a + 16 * m < b.1.
Proof. intros Hb. destruct take_gaps as (_ & _ & G). by destruct (gaps_in _ _ _ G Hb). Qed.

Lemma take_elem b : b ∈ f1 ∨ b = (a, m) ∨ b ∈ f2 → b ∈ fb.
Proof. intros H. apply elem_of_app. destruct H as [H|[->|H]]; [by left|right; left|right; by right]. Qed.

Lemma take_rings : ∃ l, base :: f1.*1 = l ++ [p] ∧ (∀ y, y ∈ l → y < p) ∧ linked h (l ++ [p]) ∧ hptr h p = a ∧ linked h (a :: f2.*1 ++ [base]).
Proof.
  destruct (node_split base f1) as [l El]. fold p in El. exists l. pose proof (fl_ring _ _ F) as R. unfold fb in R. rewrite fmap_app, <- (assoc_L (++)) in R.
  rewrite (app_comm_cons (f1.*1)), El, <- (assoc_L (++)) in R. cbn [app fmap list_fmap fst] in R. rewrite linked_app in R. destruct R as [R1 [R2 R3]].
  split_and!; try done. intros y. apply (node_above base f1 l (base + 15)); [apply take_gaps|lia|done].
Qed.

Lemma taken_whole : m = nu → taken h fb nu (a + 16) (Heap (mem (poke p (hptr h a, hsize h p) h)) p (brk h)) (f1 ++ f2).
Proof.
  intros Enu. rewrite <- Enu. set (h' := Heap _ _ _). assert (∀ x, x ≠ p → mem h' x = mem h x) as Hmem by (intros x; apply mem_poke_ne).
  assert (mem h' p = (hptr h a, hsize h p)) as Hp by apply mem_poke_eq. destruct take_below as [Hpa Hb]. destruct take_rings as (l & El & Hl & R1 & R2 & R3).
  destruct (linked_head h _ _ R3) as [Eh R4]. replace (a + 16 - 16) with a by lia. assert (hsize h a = m) as Ea by (apply (fl_size _ _ F (a, m)), take_elem; tauto).
  split; replace (a + 16 - 16) with a by lia.
  - split.
    + rewrite fmap_app, <- (assoc_L (++)), (app_comm_cons (f1.*1)), El, <- (assoc_L (++)). cbn [app]. apply linked_app. split.
      * revert R1. apply linked_ext. intros y Hy. apply Hmem. specialize (Hl y Hy). lia.
      * apply linked_to; [by rewrite Hp|]. revert R4. apply linked_ext. intros y (b & -> & Hi)%list_elem_of_fmap. apply Hmem. pose proof (take_above b Hi). lia.
    + destruct (decide (base = p)) as [E|]; [rewrite E, Hp, <- E; cbn|rewrite Hmem by done]; apply F.
    + intros b Hi. assert (b ∈ fb) as Hin by (apply take_elem; apply elem_of_app in Hi; tauto). rewrite <- (fl_size _ _ F b Hin).
      destruct (decide (b.1 = p)) as [E|]; [by rewrite E, Hp|by rewrite Hmem].
    + rewrite gaps_app. destruct take_gaps as (G1 & G2 & G3). split; [done|]. apply (gaps_weaken (a + 16 * m)); [lia|done].
    + cbn [freep h']. unfold p. destruct (node_in base f1) as [->|(b & Hi & ->)]; [left|right]. apply list_elem_of_fmap. exists b. split; [done|]. apply elem_of_app. by left.
  - by rewrite Hmem by lia.
  - intros x. unfold fb. rewrite !cov_app, cov_cons. tauto.
  - intros x Hx [(b & Hi & Hbx)|(b & Hi & Hbx)]%cov_app; unfold inside in *; cbn in *; [destruct (Hb b Hi)|pose proof (take_above b Hi)]; lia.
  - intros x Hx Hc. apply Hmem. intros ->. destruct (node_in base f1) as [E|(b & Hi & E)]; [done|]. apply Hc. exists b. split; [apply take_elem; tauto|].
    unfold inside. fold p in E. destruct (Hb b Hi). lia.
  - split; [done|]. unfold fb. rewrite !length_app. cbn [length]. lia.
Qed.

Lemma taken_tail h' : nu < m → mem h' a = (hptr h a, m - nu) → hsize h' (a + 16 * (m - nu)) = nu → freep h' = p → brk h' = brk h →
  (∀ x, x ≠ a → x ≠ a + 16 * (m - nu) → mem h' x = mem h x) → taken h fb nu (a + 16 * (m - nu) + 16) h' (f1 ++ (a, m - nu) :: f2).
Proof.
  intros Hlt Ha Ht Ef Eb Hmem. destruct take_below as [Hpa Hb]. destruct take_gaps as (G1 & G2 & G3).
  assert (∀ b, b ∈ f1 ∨ b ∈ f2 → mem h' b.1 = mem h b.1) as Hsame.
  { intros b [Hi|Hi]; [destruct (Hb b Hi)|pose proof (take_above b Hi)]; apply Hmem; lia. }
  split; replace (a + 16 * (m - nu) + 16 - 16) with (a + 16 * (m - nu)) by lia.
  - split.
    + pose proof (fl_ring _ _ F) as R. unfold fb in R. rewrite fmap_app in *. cbn [fmap list_fmap fst] in *. revert R.
      rewrite !(app_comm_cons (f1.*1 ++ _)). intros R.
      assert (∀ y, y ∈ base :: f1.*1 ++ a :: f2.*1 → hptr h' y = hptr h y) as Hpt.
      { intros y [->|[(b & -> & Hi)%list_elem_of_fmap|[->|(b & -> & Hi)%list_elem_of_fmap]%elem_of_cons]%elem_of_app]%elem_of_cons;
          [by rewrite Hmem by lia|by rewrite Hsame by tauto|by rewrite Ha|by rewrite Hsame by tauto]. }
      revert R Hpt. generalize (base :: f1.*1 ++ a :: f2.*1) as l. intros l R Hpt. induction l as [|y l IH]; [done|].
      apply linked_head in R as [E R]. apply linked_to; [rewrite Hpt by left; done|]. apply IH; [done|]. intros z Hz. apply Hpt. by right.
    + rewrite Hmem by lia. apply F.
    + intros b [Hi|[->|Hi]%elem_of_cons]%elem_of_app; [|by cbn [fst]; rewrite Ha|]; rewrite Hsame by tauto; apply (fl_size _ _ F), take_elem; tauto.
    + rewrite gaps_app. split; [done|]. split; [done|]. split; [lia|]. apply (gaps_weaken (a + 16 * m)); [lia|done].
    + rewrite Ef. unfold p. destruct (node_in base f1) as [->|(b & Hi & ->)]; [left|right]. apply list_elem_of_fmap. exists b. split; [done|]. apply elem_of_app. by left.
  - done.
  - intros x. unfold fb. rewrite !cov_app, !cov_cons.
    assert (inside (a, m) x ↔ inside (a, m - nu) x ∨ inside (a + 16 * (m - nu), nu) x) by (unfold inside; cbn; lia). tauto.
  - intros x Hx [(b & Hi & Hbx)|[Hbx|(b & Hi & Hbx)]%cov_cons]%cov_app; unfold inside in *; cbn in *; [destruct (Hb b Hi)|..|pose proof (take_above b Hi)]; lia.
  - intros x Hx Hc. apply Hmem; intros ->; apply Hc; exists (a, m); (split; [apply take_elem; tauto|unfold inside; cbn; lia]).
  - split; [done|]. unfold fb. rewrite !length_app. cbn [length]. lia.
Qed.

Lemma wp_take_block (Q : Z → heap → Prop) : (∀ r h' fb', taken h fb nu r h' fb' → Q r h') → wp (take_block nu p a) Q h.
Proof.
  intros HQ. assert (hsize h a = m) as Ea by (apply (fl_size _ _ F (a, m)), take_elem; tauto).
  unfold take_block, hplus, SIZEOF_HEADER. wp_step. apply wp_size. rewrite Ea. wp_step. destruct (Z.eqb_spec m nu) as [E|E].
  - wp_step. apply wp_ptr. wp_step. apply wp_set_ptr. wp_step. wp_step. unfold set_freep. wp_step. wp_step.
    replace (a + 16 * 1) with (a + 16) by lia. by eapply HQ, taken_whole.
  - wp_step. apply wp_set_size. wp_step. apply wp_size. rewrite mem_poke_eq. cbn [snd]. rewrite u32_small by lia. wp_step. apply wp_set_size.
    wp_step. wp_step. unfold set_freep. wp_step. wp_step. replace (a + 16 * (m - nu) + 16 * 1) with (a + 16 * (m - nu) + 16) by lia.
    apply (HQ _ _ (f1 ++ (a, m - nu) :: f2)). apply taken_tail; [lia|..]; cbn; try done.
    + rewrite (decide_False (P := a = a + 16 * (m - nu))), (decide_True (P := a = a)) by lia. done.
    + by rewrite decide_True.
    + intros x H1 H2. by rewrite !decide_False.
Qed.
End take.
End list.

(** ** malloc

    The scan of the free list, the call of the kernel for more memory, and the
    result of [malloc]. *)

Section alloc.
Context (base : Z) (grow : Z → Z → bool) (Hbase : 0 < base).
Context (grow_small : ∀ o n, grow o n = true → n ≤ 2 ^ 36).
Abbreviation freelist := (freelist base).
Abbreviation node := node.
Abbreviation malloc_loop := (malloc_loop grow).
Abbreviation morecore := (morecore grow).

(** The node after the nodes of [f1], in the list [f1 ++ f2]. *)
Abbreviation next f2 := (default base (head (f2.*1 ++ [base]))).

Section scan.
Context (h : heap) (fb : list (Z * Z)) (nu : Z) (fuel K : nat) (Q : Z → heap → Prop).
Context (F : freelist h fb) (Hnu : 0 < nu).
Context (HT : ∀ f1 a m f2, fb = f1 ++ (a, m) :: f2 → nu ≤ m → wp (take_block nu (node base f1) a) Q h).
Context (HM : ∀ k, (K ≤ k)%nat → Forall (λ b, b.2 < nu) fb →
  wp (p ← morecore fuel nu; if p =? 0 then ret 0 else q ← ptr p; malloc_loop k fuel nu p q) Q h).

Lemma scan_next f1 f2 : fb = f1 ++ f2 → hptr h (node base f1) = next f2.
Proof.
  intros E. destruct (node_split base f1) as [l El]. pose proof (fl_ring _ _ _ F) as R. rewrite E, fmap_app, <- (assoc_L (++)) in R.
  rewrite (app_comm_cons (f1.*1)), El, <- (assoc_L (++)) in R. cbn [app] in R. rewrite linked_app in R. destruct R as [_ R].
  by apply (linked_head base) in R as [R _].
Qed.

(** The addresses are increasing. *)
Lemma scan_lt f1 a m f2 : fb = f1 ++ (a, m) :: f2 → node base f1 < a ∧ base < a ∧ ∀ b, b ∈ f2 → a < b.1.
Proof.
  intros ->. destruct (take_below base h f1 f2 a m F) as [? _]. split; [lia|]. split; [lia|]. intros b Hb.
  pose proof (take_above base h f1 f2 a m F b Hb). destruct (gaps_in _ _ (a, m) (fl_gaps _ _ _ F)) as (_ & ? & _); [apply elem_of_app; right; left|]. cbn in *. lia.
Qed.

(** One step of the scan at a free block. *)
Lemma wp_scan_block f1 a m f2 k :
  fb = f1 ++ (a, m) :: f2 →
  (m < nu → a = freep h → Forall (λ b, b.2 < nu) fb ∧ (K ≤ k)%nat) →
  (m < nu → a ≠ freep h → wp (malloc_loop k fuel nu a (next f2)) Q h) →
  wp (malloc_loop (S k) fuel nu (node base f1) a) Q h.
Proof.
  intros E HF HN. cbn [Umalloc.malloc_loop]. wp_step. apply wp_size.
  assert (hsize h a = m) as -> by (apply (fl_size _ _ _ F (a, m)); rewrite E; apply elem_of_app; right; left).
  destruct (Z.leb_spec nu m) as [Hle|Hgt]; [by apply (HT f1 a m f2)|]. wp_step. wp_step. destruct (Z.eqb_spec a (freep h)) as [Ea|Ea].
  - destruct (HF Hgt Ea) as [H1 H2]. by apply HM.
  - wp_step. apply wp_ptr. pose proof (scan_next (f1 ++ [(a, m)]) f2) as En. rewrite node_snoc in En. cbn [fst] in En.
    rewrite En by (rewrite E, <- (assoc_L (++)); done). by apply HN.
Qed.

(** From the start of the list to [freep]. *)
Lemma wp_scan_up w f1 m v k :
  fb = f1 ++ w ++ (freep h, m) :: v → Forall (λ b, b.2 < nu) f1 → Forall (λ b, b.2 < nu) v → (length w + S K ≤ k)%nat →
  wp (malloc_loop k fuel nu (node base f1) (next (w ++ (freep h, m) :: v))) Q h.
Proof.
  revert f1 k. induction w as [|[a n] w IH]; intros f1 k E S1 S2 Hk; (destruct k as [|k]; [lia|]); cbn [app fmap list_fmap head fst length] in *.
  - apply (wp_scan_block f1 (freep h) m v); [done| |done]. intros Hm _. split; [|lia]. rewrite E. apply Forall_app. by repeat constructor.
  - apply (wp_scan_block f1 a n (w ++ (freep h, m) :: v)); [done|..].
    + intros _ Ea. destruct (scan_lt f1 a n (w ++ (freep h, m) :: v) E) as (_ & _ & H). specialize (H (freep h, m)). cbn in H.
      assert (a < freep h) by (apply H, elem_of_app; right; left). lia.
    + intros Hn _. specialize (IH (f1 ++ [(a, n)]) k). rewrite node_snoc in IH. apply IH; [by rewrite <- (assoc_L (++))| |done|lia].
      apply Forall_app. by repeat constructor.
Qed.

(** From [freep] to the end of the list, and around. *)
Lemma wp_scan f1 f2 x k :
  fb = f1 ++ x ++ f2 → freep h = node base f1 → Forall (λ b, b.2 < nu) x → (length f2 + S (length f1 + S K) ≤ k)%nat →
  wp (malloc_loop k fuel nu (node base (f1 ++ x)) (next f2)) Q h.
Proof.
  revert x k. induction f2 as [|[a n] f2 IH]; intros x k E Ef S1 Hk; (destruct k as [|k]; [lia|]); cbn [app fmap list_fmap head fst length] in *.
  - rewrite app_nil_r in E. change (default base (Some base)) with base. cbn [Umalloc.malloc_loop]. wp_step. apply wp_size. rewrite (fl_base _ _ _ F). rewrite (proj2 (Z.leb_gt nu 0)) by done. wp_step. wp_step.
    destruct f1 as [|[c n] u _] using rev_ind.
    + cbn in Ef. rewrite Ef, Z.eqb_refl. apply HM; [cbn in Hk; lia|by rewrite E].
    + rewrite node_snoc in Ef. cbn [fst] in Ef. assert (base < freep h) as Hlt.
      { rewrite Ef. rewrite <- (assoc_L (++)) in E. by destruct (scan_lt u c n x E) as (_ & ? & _). }
      destruct (Z.eqb_spec base (freep h)); [lia|]. wp_step. apply wp_ptr. change (hptr h base) with (hptr h (node base [])). rewrite (scan_next [] fb) by done.
      rewrite E, <- (assoc_L (++)). cbn [app]. rewrite <- Ef. apply (wp_scan_up u [] n x); [|done|done|rewrite length_app in Hk; cbn in Hk; lia].
      rewrite E, <- (assoc_L (++)). cbn [app]. by rewrite Ef.
  - rewrite (assoc_L (++)) in E. apply (wp_scan_block (f1 ++ x) a n f2); [done|..].
    + intros _ Ea. exfalso. pose proof (scan_lt (f1 ++ x) a n f2 E) as (H1 & H2 & _). rewrite Ea, Ef in H1.
      destruct (node_in base f1) as [E1|(b & Hb & E1)]; [rewrite Ea, Ef in H2; lia|].
      assert (b ∈ f1 ++ x) as Hbx by (apply elem_of_app; by left). pose proof F as F'. rewrite E in F'. destruct (take_below base h (f1 ++ x) f2 a n F') as [_ Hb2].
      destruct (Hb2 b Hbx). lia.
    + intros Hn _. specialize (IH (x ++ [(a, n)]) k). assert (node base (f1 ++ x ++ [(a, n)]) = a) as En by (by rewrite (assoc_L (++)), node_snoc).
      rewrite En in IH. apply IH; [by rewrite E, <- !(assoc_L (++))|done| |lia].
      apply Forall_app. by repeat constructor.
Qed.

(** The scan of the whole ring. *)
Lemma wp_malloc_scan k :
  (length fb + 2 + K ≤ k)%nat → wp (malloc_loop k fuel nu (freep h) (hptr h (freep h))) Q h.
Proof.
  intros Hk. assert (∃ f1 f2, fb = f1 ++ f2 ∧ freep h = node base f1) as (f1 & f2 & E & Ef).
  { pose proof (fl_freep _ _ _ F) as Hf. apply elem_of_cons in Hf as [->|Hf]; [by exists [], fb|].
    apply list_elem_of_fmap in Hf as ([a m] & -> & Hf). apply list_elem_of_split in Hf as (u & v & ->). exists (u ++ [(a, m)]), v.
    rewrite node_snoc. by rewrite <- (assoc_L (++)). }
  rewrite Ef, (scan_next f1 f2 E). pose proof (wp_scan f1 f2 [] k) as H. rewrite app_nil_r in H. apply H; [done|done|done|].
  rewrite E, length_app in Hk. lia.
Qed.
End scan.

(** The heap lies between [base] and the break. *)
Record within (h : heap) (fb : list (Z * Z)) : Prop := {
  wi_brk : base + 15 < brk h ≤ 2 ^ 36;
  wi_in b : b ∈ fb → b.1 + 16 * b.2 ≤ brk h;
}.

Lemma within_cov h fb x : freelist h fb → within h fb → cov fb x → base + 15 < x < brk h.
Proof.
  intros F W (b & Hb & Hx). unfold inside in Hx. destruct (gaps_in _ _ _ (fl_gaps _ _ _ F) Hb). pose proof (wi_in _ _ W b Hb). lia.
Qed.

Definition units (nu : Z) : Z := if nu <? 4096 then 4096 else nu.

(** The new memory joined the list. *)
Record grown (h : heap) (fb : list (Z * Z)) (nu : Z) (h' : heap) (fb' : list (Z * Z)) : Prop := {
  gw_list : freelist h' fb';
  gw_brk : brk h' = brk h + 16 * units nu ∧ brk h' ≤ 2 ^ 36;
  gw_cov x : cov fb' x ↔ cov fb x ∨ brk h ≤ x < brk h';
  gw_frame x : x ≠ base → ¬ cov fb x → ¬ (brk h ≤ x < brk h') → mem h' x = mem h x;
  gw_one : ∃ b, b ∈ fb' ∧ nu ≤ b.2;
  gw_len : (length fb' ≤ S (length fb))%nat;
}.

Lemma cov_start h fb b : freelist h fb → b ∈ fb → cov fb b.1 ∧ cov fb (b.1 + 16 * b.2 - 1).
Proof.
  intros F Hb. destruct (gaps_in _ _ _ (fl_gaps _ _ _ F) Hb) as (_ & ? & _). split; exists b; (split; [done|]); unfold inside; lia.
Qed.

Lemma grown_within h fb nu h' fb' : freelist h fb → within h fb → grown h fb nu h' fb' → within h' fb'.
Proof.
  intros F W [G1 [G2 G2'] G3 _ _ _]. destruct (wi_brk _ _ W). assert (0 < units nu) by (unfold units; destruct (Z.ltb_spec nu 4096); lia). split; [lia|].
  intros b Hb. destruct (cov_start h' fb' b G1 Hb) as [_ [Hx|Hx]%G3]; [|lia]. apply (within_cov h fb) in Hx; [lia|done|done].
Qed.

Lemma wp_morecore h fb nu fuel (Q : Z → heap → Prop) :
  freelist h fb → within h fb → 0 < nu → nu * 16 < 2 ^ 31 → (length fb + 2 < fuel)%nat →
  (grow (brk h) (brk h + 16 * units nu) = false → Q 0 h) →
  (∀ h' fb', grown h fb nu h' fb' → Q (freep h') h') →
  wp (morecore fuel nu) Q h.
Proof.
  intros F W Hnu Hmax Hfuel HQ0 HQ. destruct (wi_brk _ _ W) as [W1 W2]. unfold Umalloc.morecore, sbrk, grow_break, hplus, SIZEOF_HEADER. fold (units nu).
  assert (0 < units nu ∧ nu ≤ units nu ∧ units nu * 16 < 2 ^ 31) as (U1 & U2 & U3) by (unfold units; destruct (Z.ltb_spec nu 4096); lia).
  rewrite s32_small by lia. do 6 wp_step. rewrite (proj2 (Z.ltb_lt 0 (units nu * 16))) by lia. replace (units nu * 16) with (16 * units nu) by lia.
  destruct (grow (brk h) (brk h + 16 * units nu)) eqn:Eg; [|wp_steps; change (-1 <? 0) with true; cbv iota; rewrite Z.eqb_refl; wp_step; by apply HQ0].
  pose proof (grow_small _ _ Eg) as Hg. unfold set_brk. do 3 wp_step. change (0 <? 0) with false. cbv iota. unfold SBRK_FAILED.
  wp_step. destruct (Z.eqb_spec (brk h) (2 ^ 64 - 1)); [lia|]. wp_step. apply wp_set_size. set (h1 := poke _ _ _).
  assert (∀ x, cov fb x → x < brk h) as Hbelow by (intros x Hx%(within_cov h fb); [lia|done|done]).
  assert (∀ x, x ≠ brk h → mem h1 x = mem h x) as Hm by (intros x Hx; unfold h1; by rewrite mem_poke_ne).
  assert (∀ b, b ∈ fb → b.1 ≠ brk h) as Hne by (intros b Hb; destruct (cov_start h fb b F Hb) as [Hc _]; apply Hbelow in Hc; lia).
  assert (freelist h1 fb) as F1.
  { destruct F as [R1 R2 R3 R4 R5]. split; [|rewrite Hm by lia; done|intros b Hb; rewrite Hm by (by apply Hne); by apply R3|done|done].
    revert R1. apply (linked_ext h h1 (base :: fb.*1)). intros y Hy. apply Hm. apply elem_of_cons in Hy as [->|(b & -> & Hb)%list_elem_of_fmap]; [lia|by apply Hne]. }
  wp_step. replace (brk h + 16 * 1) with (brk h + 16) by lia.
  apply (wp_free base Hbase h1 fb (brk h) (units nu) (brk h + 16 * units nu)); [done|done|unfold h1; by rewrite mem_poke_eq|done| |lia| |done|].
  { intros x Hx Hc%Hbelow. unfold inside in Hx. cbn in Hx. lia. }
  { intros b Hb. pose proof (wi_in _ _ W b Hb). lia. }
  intros h' fb' [D1 D2 (b & Db1 & Db2 & Db3) D4 D5 D6]. cbn [brk h1 poke] in D5. wp_step. apply (HQ h' fb'). split.
  - done.
  - lia.
  - intros x. rewrite D2, D5. unfold inside. cbn. tauto.
  - intros x H1 H2 H3. rewrite D5 in H3. rewrite D4, Hm; [done|lia|done|done|]. unfold inside. cbn. lia.
  - exists b. split; [done|lia].
  - done.
Qed.

(** What [malloc] of [nu] units leaves. *)
Record malloced (h : heap) (fb : list (Z * Z)) (nu r : Z) (h' : heap) (fb' : list (Z * Z)) : Prop := {
  ml_list : freelist h' fb' ∧ within h' fb' ∧ (length fb' ≤ S (length fb))%nat;
  ml_brk : brk h ≤ brk h';
  ml_frame x : x ≠ base → ¬ cov fb x → ¬ (brk h ≤ x < brk h') → mem h' x = mem h x;
  ml_result :
    (r = 0 ∧ brk h' = brk h ∧ grow (brk h) (brk h + 16 * units nu) = false ∧ ∀ x, cov fb' x ↔ cov fb x) ∨
    (base + 31 < r ∧ hsize h' (r - 16) = nu ∧ (∀ x, cov fb' x ∨ inside (r - 16, nu) x ↔ cov fb x ∨ brk h ≤ x < brk h') ∧
     ∀ x, inside (r - 16, nu) x → ¬ cov fb' x);
}.

Lemma taken_malloced h fb nu h1 fb1 r h' fb' :
  freelist h1 fb1 → within h1 fb1 → (length fb1 ≤ S (length fb))%nat → 0 < nu → brk h ≤ brk h1 →
  (∀ x, cov fb1 x ↔ cov fb x ∨ brk h ≤ x < brk h1) →
  (∀ x, x ≠ base → ¬ cov fb x → ¬ (brk h ≤ x < brk h1) → mem h1 x = mem h x) →
  taken base h1 fb1 nu r h' fb' → malloced h fb nu r h' fb'.
Proof.
  intros F1 W1 Hl Hnu Hb Hc Hm [T1 T2 T3 T4 T5 [T6 T7]]. rewrite <- T6 in *. split.
  - split_and!; [done| |lia]. split; [rewrite T6; apply W1|]. intros b Hi. destruct (cov_start h' fb' b T1 Hi) as [_ Hx].
    assert (cov fb1 (b.1 + 16 * b.2 - 1)) as H' by (apply T3; by left). apply (within_cov h1 fb1) in H'; [lia|done|done].
  - done.
  - intros x H1 H2 H3. rewrite T5, Hm; [done|done|done|done|done|]. rewrite Hc. tauto.
  - right. split_and!; [|done| |done].
    + assert (cov fb1 (r - 16)) as H by (apply T3; right; unfold inside; cbn; lia). apply (within_cov h1 fb1) in H; [lia|done|done].
    + intros x. rewrite <- T3. apply Hc.
Qed.

Lemma block_small h fb b : freelist h fb → within h fb → b ∈ fb → b.2 < 2 ^ 32.
Proof.
  intros F W Hb. destruct (gaps_in _ _ _ (fl_gaps _ _ _ F) Hb). pose proof (wi_in _ _ W b Hb). destruct (wi_brk _ _ W). lia.
Qed.

Lemma wp_malloc_ready h fb nu k fuel (Q : Z → heap → Prop) :
  freelist h fb → within h fb → 0 < nu → nu * 16 < 2 ^ 31 → (length fb + 2 < fuel)%nat → (length fb + length fb + 5 ≤ k)%nat →
  (∀ r h' fb', malloced h fb nu r h' fb' → Q r h') →
  wp (malloc_loop k fuel nu (freep h) (hptr h (freep h))) Q h.
Proof.
  intros F W Hnu Hmax Hf Hk HQ. apply (wp_malloc_scan h fb nu fuel (length fb + 3) Q F Hnu); [| |lia].
  - intros f1 a m f2 E Hle. pose proof F as F'. rewrite E in F'. apply (wp_take_block base h f1 f2 a m nu F'); [lia| |].
    + apply (block_small h fb (a, m) F W). rewrite E. apply elem_of_app. right. left.
    + intros r h' fb' T. rewrite <- E in T. apply (HQ r h' fb'). apply (taken_malloced h fb nu h fb r); [done|done|lia|done|lia|intros x; split; [by left|intros [|]; [done|lia]]|done|done].
  - intros k' Hk' Hsmall. wp_step. apply (wp_morecore h fb nu fuel); try done.
    + intros Eg. change (0 =? 0) with true. cbv iota. wp_step. apply (HQ 0 h fb). split; [split_and!; [done|done|lia]|lia|done|]. left. done.
    + intros h1 fb1 G. pose proof (grown_within h fb nu h1 fb1 F W G) as W1. destruct G as [G1 [G2 G2'] G3 G4 (b & Gb & Gn) G6].
      assert (freep h1 ≠ 0) as Hne.
      { pose proof (fl_freep _ _ _ G1) as Hi. apply elem_of_cons in Hi as [->|(c & -> & Hc)%list_elem_of_fmap]; [lia|]. destruct (gaps_in _ _ _ (fl_gaps _ _ _ G1) Hc). lia. }
      destruct (Z.eqb_spec (freep h1) 0); [done|]. wp_step. apply wp_ptr.
      apply (wp_malloc_scan h1 fb1 nu fuel 0 Q G1 Hnu); [| |lia].
      * intros f1 a m f2 E Hle. pose proof G1 as F'. rewrite E in F'. apply (wp_take_block base h1 f1 f2 a m nu F'); [lia| |].
        -- apply (block_small h1 fb1 (a, m) G1 W1). rewrite E. apply elem_of_app. right. left.
        -- intros r h' fb' T. rewrite <- E in T. apply (HQ r h' fb').
           assert (0 < units nu) by (unfold units; destruct (Z.ltb_spec nu 4096); lia). apply (taken_malloced h fb nu h1 fb1 r); try done. lia.
      * intros k2 _ Hs. rewrite Forall_forall in Hs. specialize (Hs b Gb). lia.
Qed.
End alloc.
