(* ===== verification/UmallocTheorems.v ===== *)
(** * malloc and free refine a store of arrays: user/umalloc.c

    The abstract store maps the address of each live block to its number of cells
    and to what the caller has stored in them.  Whatever sequence of [malloc],
    [free], stores and loads a program makes, the allocator answers as the store
    allows: blocks are disjoint, and a load returns what was stored last. *)

From S2P Require Import Prelude Machine BlockLayer Umalloc UmallocFacts.

Inductive op :=
  | Malloc (nbytes : Z)
  | Free (r : Z)
  | Store (r i : Z) (c : cell)
  | Load (r i : Z).

Inductive answer := Addr (r : Z) | Nothing | Cell (c : cell).

(** The cells of a block of [n] bytes. *)
Definition cells (n : Z) : Z := (n + 15) / 16.

Abbreviation arrays := (gmap Z (Z * gmap Z cell)).

(** Block [r] with [n] cells and its header. *)
Definition block (r n : Z) : Z * Z := (r - 16, n + 1).

Definition apart (b c : Z * Z) : bool := (b.1 + 16 * b.2 <=? c.1) || (c.1 + 16 * c.2 <=? b.1).

Definition new_ok (live : arrays) (r n : Z) : bool :=
  forallb (λ p : Z * (Z * gmap Z cell), apart (block r n) (block p.1 p.2.1)) (map_to_list live).

(** What the caller may do. *)
Definition legal (live : arrays) (o : op) : bool :=
  match o with
  | Malloc n => (0 <=? n) && (n <? 2 ^ 31 - 31)
  | Free r => bool_decide (is_Some (live !! r))
  | Store r i _ | Load r i => if live !! r is Some (n, _) then (0 <=? i) && (i <? n) else false
  end.

Section theorems.
Context (base : Z) (grow : Z → Z → bool).

(** What the store answers when the break is at [b]; [malloc] fails only when the
    kernel has no memory. *)
Definition spec_step (b : Z) (live : arrays) (o : op) (a : answer) : option arrays :=
  match o, a with
  | Malloc n, Addr r =>
      if r =? 0 then if grow b (b + 16 * units (cells n + 1)) then None else Some live
      else if new_ok live r (cells n) then Some (<[r := (cells n, ∅)]> live) else None
  | Free r, Nothing => Some (delete r live)
  | Store r i c, Nothing => if live !! r is Some (n, m) then Some (<[r := (n, <[i := c]> m)]> live) else None
  | Load r i, Cell c =>
      if live !! r is Some (n, m) then
        if m !! i is Some c' then if decide (c = c') then Some live else None else Some live
      else None
  | _, _ => None
  end.

Definition do_op (fuel : nat) (o : op) : M heap answer :=
  match o with
  | Malloc n => r ← malloc base grow fuel n; ret (Addr r)
  | Free r => free fuel r;; ret Nothing
  | Store r i c => store (r + 16 * i) c;; ret Nothing
  | Load r i => c ← gets (λ h, mem h (r + 16 * i)); ret (Cell c)
  end.

(** The legal operations of [ops], each answer checked against the store. *)
Fixpoint run (fuel : nat) (ops : list op) (live : arrays) : M heap (option arrays) :=
  match ops with
  | [] => ret (Some live)
  | o :: ops' =>
      if legal live o then
        b ← gets brk;
        a ← do_op fuel o;
        match spec_step b live o a with
        | Some live' => run fuel ops' live'
        | None => ret None
        end
      else run fuel ops' live
  end.

(** [x] lies in a live block or its header. *)
Definition lcov (live : arrays) (x : Z) : Prop := ∃ r n m, live !! r = Some (n, m) ∧ inside (block r n) x.

(** The memory from [brk0] to the break is free or live, and nothing is both. *)
Record heap_ok (brk0 : Z) (h : heap) (fb : list (Z * Z)) (live : arrays) : Prop := {
  hk_list : freelist base h fb ∨ (freep h = 0 ∧ fb = [] ∧ live = ∅);
  hk_in : within base h fb;
  hk_brk : brk0 ≤ brk h;
  hk_size r n m : live !! r = Some (n, m) → hsize h (r - 16) = n + 1 ∧ 0 ≤ n ∧ base + 31 < r;
  hk_all x : brk0 ≤ x < brk h ↔ cov fb x ∨ lcov live x;
  hk_free x : lcov live x → ¬ cov fb x;
  hk_apart r n m r' n' m' : live !! r = Some (n, m) → live !! r' = Some (n', m') → r ≠ r' → apart (block r n) (block r' n') = true;
  hk_data r n m i c : live !! r = Some (n, m) → m !! i = Some c → 0 ≤ i < n ∧ mem h (r + 16 * i) = c;
}.

Context (Hbase : 0 < base) (grow_small : ∀ o n, grow o n = true → n ≤ 2 ^ 36).

Lemma apart_spec b c : apart b c = true ↔ b.1 + 16 * b.2 ≤ c.1 ∨ c.1 + 16 * c.2 ≤ b.1.
Proof. unfold apart. rewrite orb_true_iff, !Z.leb_le. done. Qed.

Lemma apart_inside b c : 0 < b.2 → 0 < c.2 → (∀ x, inside b x → ¬ inside c x) → apart b c = true.
Proof.
  intros Hb Hc H. apply apart_spec. unfold inside in H. pose proof (H b.1) as H1. pose proof (H c.1) as H2. lia.
Qed.

Lemma live_header r n (live : arrays) m x : live !! r = Some (n, m) → r - 16 ≤ x < r + 16 * n → lcov live x.
Proof. intros Hr Hx. exists r, n, m. split; [done|]. unfold inside, block. cbn. lia. Qed.

(** A change of memory outside the live blocks. *)
Lemma live_kept h h' live :
  (∀ r n m, live !! r = Some (n, m) → hsize h (r - 16) = n + 1 ∧ 0 ≤ n ∧ base + 31 < r) →
  (∀ r n m i c, live !! r = Some (n, m) → m !! i = Some c → 0 ≤ i < n ∧ mem h (r + 16 * i) = c) →
  (∀ x, lcov live x → mem h' x = mem h x) →
  (∀ r n m, live !! r = Some (n, m) → hsize h' (r - 16) = n + 1 ∧ 0 ≤ n ∧ base + 31 < r) ∧
  (∀ r n m i c, live !! r = Some (n, m) → m !! i = Some c → 0 ≤ i < n ∧ mem h' (r + 16 * i) = c).
Proof.
  intros H1 H2 Hm. split.
  - intros r n m Hr. destruct (H1 r n m Hr) as (E & ? & ?). rewrite Hm; [done|]. apply (live_header r n live m); [done|lia].
  - intros r n m i c Hr Hi. destruct (H2 r n m i c Hr Hi) as [? E]. split; [done|]. rewrite Hm; [done|]. apply (live_header r n live m); [done|lia].
Qed.

Lemma lcov_insert live r n m x : live !! r = None → lcov (<[r := (n, m)]> live) x ↔ inside (block r n) x ∨ lcov live x.
Proof.
  intros Hn. unfold lcov. split.
  - intros (r' & n' & m' & [[<- [= <- <-]]|[Hne Hr]]%lookup_insert_Some & Hx); [by left|right; by exists r', n', m'].
  - intros [Hx|(r' & n' & m' & Hr & Hx)]; [exists r, n, m; by rewrite lookup_insert_eq|]. exists r', n', m'. split; [|done].
    rewrite lookup_insert_ne; [done|]. congruence.
Qed.

Lemma lcov_delete live r n m x : live !! r = Some (n, m) → lcov live x ↔ inside (block r n) x ∨ lcov (delete r live) x.
Proof.
  intros Hr. rewrite <- (insert_id live r (n, m) Hr) at 1. rewrite <- insert_delete_eq. apply lcov_insert, lookup_delete_eq.
Qed.

Lemma lcov_data live r n m m' x : live !! r = Some (n, m) → lcov (<[r := (n, m')]> live) x ↔ lcov live x.
Proof.
  intros Hr. rewrite <- insert_delete_eq, lcov_insert by apply lookup_delete_eq. by rewrite (lcov_delete live r n m).
Qed.

Lemma lcov_above h brk0 fb live x : heap_ok brk0 h fb live → lcov live x → base + 15 < x < brk h.
Proof.
  intros H Hx. split; [|apply (hk_all _ _ _ _ H); by right]. destruct Hx as (r & n & m & Hr & Hx).
  destruct (hk_size _ _ _ _ H r n m Hr). unfold inside, block in Hx. cbn in Hx. lia.
Qed.

Lemma lcov_apart live r n m x :
  (∀ r n m r' n' m', live !! r = Some (n, m) → live !! r' = Some (n', m') → r ≠ r' → apart (block r n) (block r' n') = true) →
  live !! r = Some (n, m) → lcov (delete r live) x → ¬ inside (block r n) x.
Proof.
  intros Ha Hr (r' & n' & m' & [Hne Hr']%lookup_delete_Some & Hx) Hi. specialize (Ha r n m r' n' m' Hr Hr' Hne).
  apply apart_spec in Ha. unfold inside in *. lia.
Qed.

Lemma heap_free h brk0 fb live r n m fuel :
  heap_ok brk0 h fb live → live !! r = Some (n, m) → (length fb + 2 < fuel)%nat →
  wp (free fuel r) (λ _ h', ∃ fb', heap_ok brk0 h' fb' (delete r live) ∧ (length fb' ≤ S (length fb))%nat) h.
Proof.
  intros H Hr Hf. pose proof H as [HL HW HB HS HA HF HP HD].
  destruct HL as [HL|(_ & _ & ->)]; [|by rewrite lookup_empty in Hr]. destruct (HS r n m Hr) as (Es & Hn & Hb).
  assert (∀ x, inside (r - 16, n + 1) x → lcov live x) as Hin by (intros x Hx; by exists r, n, m).
  assert (r - 16 + 16 * (n + 1) ≤ brk h) as Hlim.
  { destruct (lcov_above h brk0 fb live (r - 16 + 16 * (n + 1) - 1) H) as [_ ?]; [apply Hin; unfold inside; cbn; lia|lia]. }
  replace r with (r - 16 + 16) at 1 by lia.
  apply (wp_free base Hbase h fb (r - 16) (n + 1) (brk h)); [done|lia|done|lia|intros x Hx; by apply HF, Hin|destruct (wi_brk _ _ _ HW); lia|apply HW|done|].
  intros h' fb' [D1 D2 _ D4 D5 D6]. exists fb'. split; [|done].
  destruct (live_kept h h' (delete r live)) as [K1 K2].
  { intros r' n' m' [_ Hr']%lookup_delete_Some. by apply (HS r' n' m'). }
  { intros r' n' m' i c [_ Hr']%lookup_delete_Some. by apply HD. }
  { intros x Hx. assert (lcov live x) as Hl by (apply (lcov_delete live r n m x Hr); by right). pose proof (lcov_above h brk0 fb live x H Hl).
    apply D4; [lia|by apply HF|]. by apply (lcov_apart live r n m x HP Hr). }
  split.
  - by left.
  - split; [rewrite D5; apply HW|]. intros b Hbi. destruct (cov_start base h' fb' b D1 Hbi) as [_ Hc]. rewrite D5.
    apply D2 in Hc as [Hc|Hc]; [apply (within_cov base h fb) in Hc; [lia|done|done]|]. unfold inside in Hc. cbn in Hc. lia.
  - by rewrite D5.
  - done.
  - intros x. rewrite D5, HA, D2, (lcov_delete live r n m x Hr). unfold block. tauto.
  - intros x Hx [Hc|Hc]%D2; [|by apply (lcov_apart live r n m x HP Hr Hx)].
    apply (HF x); [|done]. apply (lcov_delete live r n m x Hr). by right.
  - intros r1 n1 m1 r2 n2 m2 [_ H1]%lookup_delete_Some [_ H2]%lookup_delete_Some. by eapply HP.
  - done.
Qed.

(** The empty list is set up on the first call. *)
Lemma wp_malloc h brk0 fb live nbytes fuel (Q : Z → heap → Prop) :
  heap_ok brk0 h fb live → 0 ≤ nbytes < 2 ^ 31 - 31 → (length fb + length fb + 5 ≤ fuel)%nat →
  (∀ h1 r h' fb', brk h1 = brk h → (∀ x, x ≠ base → mem h1 x = mem h x) → malloced base grow h1 fb (cells nbytes + 1) r h' fb' → Q r h') →
  wp (malloc base grow fuel nbytes) Q h.
Proof.
  intros H Hn Hf HQ. assert (0 ≤ cells nbytes ∧ (cells nbytes + 1) * 16 < 2 ^ 31) as [Hc1 Hc2] by (unfold cells; dlia).
  unfold malloc. assert (u32 ((nbytes + SIZEOF_HEADER - 1) / SIZEOF_HEADER + 1) = cells nbytes + 1) as ->.
  { unfold SIZEOF_HEADER. replace (nbytes + 16 - 1) with (nbytes + 15) by lia. fold (cells nbytes). apply u32_small. lia. }
  pose proof (hk_in _ _ _ _ H) as W. wp_step. wp_step. wp_step. destruct (hk_list _ _ _ _ H) as [F|(F0 & -> & ->)].
  - assert (freep h ≠ 0) as Hne.
    { pose proof (fl_freep _ _ _ F) as Hi. apply elem_of_cons in Hi as [->|(c & -> & Hc)%list_elem_of_fmap]; [lia|]. destruct (gaps_in _ _ _ (fl_gaps _ _ _ F) Hc). lia. }
    destruct (Z.eqb_spec (freep h) 0); [done|]. wp_step. wp_step. apply wp_ptr.
    apply (wp_malloc_ready base grow Hbase grow_small h fb); [done|done|lia|lia|lia|lia|]. intros r h' fb' M. by apply (HQ h r h' fb').
  - rewrite F0. change (0 =? 0) with true. cbv iota. unfold set_freep. wp_step. wp_step. wp_step. apply wp_set_ptr. wp_step. apply wp_set_size. wp_step. wp_step. apply wp_ptr.
    set (h1 := poke _ _ _). assert (∀ x, x ≠ base → mem h1 x = mem h x) as Hm by (intros x Hx; unfold h1; by rewrite !mem_poke_ne).
    assert (mem h1 base = (base, 0)) as Hb by (unfold h1; by rewrite !mem_poke_eq). assert (freep h1 = base ∧ brk h1 = brk h) as [Ef Eb] by done.
    change base with (freep h1) at 1 2.
    apply (wp_malloc_ready base grow Hbase grow_small h1 []); [|destruct W as [W1 W2]; by split|lia|lia|cbn; lia|cbn; lia|].
    + clearbody h1. split; [apply (linked_cons h1 base base []); by rewrite Hb|by rewrite Hb|by intros b ?%elem_of_nil|done|rewrite Ef; left].
    + intros r h' fb' M. by apply (HQ h1 r h' fb').
Qed.

Lemma heap_malloc h brk0 fb live nbytes fuel :
  heap_ok brk0 h fb live → 0 ≤ nbytes < 2 ^ 31 - 31 → (length fb + length fb + 5 ≤ fuel)%nat →
  wp (malloc base grow fuel nbytes) (λ r h', ∃ fb' live', spec_step (brk h) live (Malloc nbytes) (Addr r) = Some live' ∧
    heap_ok brk0 h' fb' live' ∧ (length fb' ≤ S (length fb))%nat) h.
Proof.
  intros H Hn Hf. apply (wp_malloc h brk0 fb live); [done|done|done|].
  intros h1 r h' fb' Eb Hm [(F' & W' & L') B' M' R]. exists fb'. rewrite Eb in *. set (n := cells nbytes) in *.
  assert (0 ≤ n) as Hn0 by (unfold n, cells; dlia). pose proof (hk_all _ _ _ _ H) as HA. pose proof (hk_free _ _ _ _ H) as HF.
  assert (∀ x, lcov live x → mem h' x = mem h x) as Hkeep.
  { intros x Hx. pose proof (lcov_above h brk0 fb live x H Hx). rewrite M', Hm; [done|lia|lia|by apply HF|lia]. }
  destruct (live_kept h h' live (hk_size _ _ _ _ H) (hk_data _ _ _ _ H) Hkeep) as [K1 K2]. cbn [spec_step]. fold n.
  destruct R as [(-> & Ebr & Eg & Hc)|(Hr & Es & Hc & Hd)].
  - exists live. rewrite Z.eqb_refl, Eg. split; [done|]. split; [|done]. split; [by left|done|rewrite Ebr; apply (hk_brk _ _ _ _ H)|done| |..].
    + intros x. by rewrite Ebr, HA, Hc.
    + intros x Hx. rewrite Hc. by apply HF.
    + apply (hk_apart _ _ _ _ H).
    + done.
  - assert (∀ x, inside (block r n) x → ¬ lcov live x) as Hnew.
    { intros x Hi Hl. pose proof (lcov_above h brk0 fb live x H Hl). destruct (proj1 (Hc x) (or_intror Hi)) as [Hx|Hx]; [by apply (HF x)|lia]. }
    assert (∀ r' n' m', live !! r' = Some (n', m') → apart (block r n) (block r' n') = true) as Hap.
    { intros r' n' m' Hr'. destruct (K1 r' n' m' Hr') as (_ & ? & _). apply apart_inside; [cbn; lia|cbn; lia|]. intros x Hx Hx'. apply (Hnew x Hx). by exists r', n', m'. }
    assert (live !! r = None) as Hfresh.
    { destruct (live !! r) as [[n' m']|] eqn:E; [|done]. specialize (Hap r n' m' E). destruct (K1 r n' m' E) as (_ & ? & _).
      apply apart_spec in Hap. unfold block in Hap. cbn in Hap. lia. }
    exists (<[r := (n, ∅)]> live). destruct (Z.eqb_spec r 0); [lia|]. assert (new_ok live r n = true) as ->.
    { apply forallb_forall. intros [r' [n' m']] Hi%list_elem_of_In%elem_of_map_to_list. by apply (Hap r' n' m'). }
    split; [done|]. split; [|done]. pose proof (hk_brk _ _ _ _ H). split.
    + by left.
    + done.
    + lia.
    + intros r' n' m' [[<- [= <- <-]]|[_ Hr']]%lookup_insert_Some; [split_and!; [done|done|lia]|by apply (K1 r' n' m')].
    + intros x. rewrite lcov_insert by done. specialize (HA x). specialize (Hc x). unfold block. assert (brk0 ≤ x < brk h' ↔ brk0 ≤ x < brk h ∨ brk h ≤ x < brk h') by lia. tauto.
    + intros x [Hx|Hx]%lcov_insert Hcx; [by apply (Hd x)| |done].
      destruct (proj1 (Hc x) (or_introl Hcx)) as [Hx'|Hx']; [by apply (HF x)|]. pose proof (lcov_above h brk0 fb live x H Hx). lia.
    + intros r1 n1 m1 r2 n2 m2 [[<- [= <- <-]]|[_ H1]]%lookup_insert_Some [[<- [= <- <-]]|[_ H2]]%lookup_insert_Some Hne; [done|by eapply Hap| |by eapply (hk_apart _ _ _ _ H)].
      specialize (Hap r1 n1 m1 H1). apply apart_spec in Hap. apply apart_spec. tauto.
    + intros r' n' m' i c [[<- [= <- <-]]|[_ Hr']]%lookup_insert_Some; [by rewrite lookup_empty|by apply K2].
Qed.

Lemma heap_store h brk0 fb live r n m i c :
  heap_ok brk0 h fb live → live !! r = Some (n, m) → 0 ≤ i < n → heap_ok brk0 (poke (r + 16 * i) c h) fb (<[r := (n, <[i := c]> m)]> live).
Proof.
  intros H Hr Hi. pose proof H as [HL HW HB HS HA HF HP HD]. set (x0 := r + 16 * i).
  assert (lcov live x0) as H0 by (apply (live_header r n live m); [done|unfold x0; lia]). pose proof (lcov_above h brk0 fb live x0 H H0) as Hx0.
  assert (∀ r' n' m', live !! r' = Some (n', m') → r' - 16 ≠ x0) as Hhead.
  { intros r' n' m' Hr' E. destruct (decide (r' = r)) as [->|Hne]; [unfold x0 in E; lia|]. specialize (HP r n m r' n' m' Hr Hr' ltac:(done)).
    destruct (HS r' n' m' Hr') as (_ & ? & _). apply apart_spec in HP. unfold block, x0 in *. cbn in *. lia. }
  split.
  - destruct HL as [HL|(_ & _ & ->)]; [left|by rewrite lookup_empty in Hr].
    assert (∀ y, y = base ∨ cov fb y → mem (poke x0 c h) y = mem h y) as Hm.
    { intros y Hy. apply mem_poke_ne. intros ->. destruct Hy as [->|Hy]; [lia|by apply (HF x0)]. }
    pose proof HL as [L1 L2 L3 L4 L5]. split; [|by rewrite Hm by (by left)| |done|done].
    + revert L1. apply (linked_ext h _ (base :: fb.*1)). intros y [->|(b & -> & Hb)%list_elem_of_fmap]%elem_of_cons; apply Hm; [by left|right].
      by apply (cov_start base h fb b).
    + intros b Hb. rewrite Hm; [by apply L3|]. right. by apply (cov_start base h fb b).
  - by destruct HW.
  - done.
  - intros r' n' m' [[<- [= <- <-]]|[_ Hr']]%lookup_insert_Some; [destruct (HS r n m Hr) as (E & ? & ?)|destruct (HS r' n' m' Hr') as (E & ? & ?)];
      (split_and!; [|done|done]); (rewrite mem_poke_ne; [done|]); by eapply Hhead.
  - intros x. rewrite lcov_data by done. apply HA.
  - intros x. rewrite lcov_data by done. apply HF.
  - intros r1 n1 m1 r2 n2 m2 [[<- [= <- <-]]|[_ H1]]%lookup_insert_Some [[<- [= <- <-]]|[_ H2]]%lookup_insert_Some Hne; [done|by eapply HP..].
  - intros r' n' m' j c' [[<- [= <- <-]]|[Hne Hr']]%lookup_insert_Some.
    + intros [[<- <-]|[Hj Hm]]%lookup_insert_Some; [by rewrite mem_poke_eq|]. destruct (HD r n m j c' Hr Hm). split; [done|].
      rewrite mem_poke_ne; [done|]. unfold x0. lia.
    + intros Hm. destruct (HD r' n' m' j c' Hr' Hm). split; [done|]. rewrite mem_poke_ne; [done|]. specialize (HP r n m r' n' m' Hr Hr' Hne).
      apply apart_spec in HP. unfold block, x0 in *. cbn in HP. lia.
Qed.

Lemma heap_op h brk0 fb live o fuel :
  heap_ok brk0 h fb live → legal live o = true → (length fb + length fb + 5 ≤ fuel)%nat →
  wp (do_op fuel o) (λ a h', ∃ fb' live', spec_step (brk h) live o a = Some live' ∧ heap_ok brk0 h' fb' live' ∧ (length fb' ≤ S (length fb))%nat) h.
Proof.
  intros H Hl Hf. destruct o as [nbytes|r|r i c|r i]; cbn [do_op legal] in *.
  - apply andb_true_iff in Hl as [H1%Z.leb_le H2%Z.ltb_lt]. wp_step. eapply wp_mono; [by apply (heap_malloc h brk0 fb live)|].
    intros r h' Hp. by wp_step.
  - apply bool_decide_eq_true in Hl as [[n m] Hr]. wp_step. eapply wp_mono; [apply (heap_free h brk0 fb live r n m); [done|done|lia]|].
    intros [] h' (fb' & H' & Hlen). wp_step. by exists fb', (delete r live).
  - destruct (live !! r) as [[n m]|] eqn:Hr; [|done]. apply andb_true_iff in Hl as [H1%Z.leb_le H2%Z.ltb_lt]. unfold store. wp_step. wp_step. wp_step.
    cbn [spec_step]. rewrite Hr. exists fb, (<[r := (n, <[i := c]> m)]> live). split; [done|]. split; [|lia]. by apply (heap_store h).
  - destruct (live !! r) as [[n m]|] eqn:Hr; [|done]. wp_step. wp_step. wp_step. cbn [spec_step]. rewrite Hr. exists fb, live. split; [|split; [done|lia]].
    destruct (m !! i) as [c|] eqn:Hi; [|done]. rewrite decide_True; [done|]. by apply (hk_data _ _ _ _ H r n m).
Qed.

Lemma run_arrays_ok brk0 ops h fb live fuel :
  heap_ok brk0 h fb live → (2 * (length fb + length ops) + 5 ≤ fuel)%nat →
  wp (run fuel ops live) (λ r h', ∃ live' fb', r = Some live' ∧ heap_ok brk0 h' fb' live') h.
Proof.
  revert h fb live. induction ops as [|o ops IH]; intros h fb live H Hf; cbn [run length] in *.
  - wp_step. by exists live, fb.
  - destruct (legal live o) eqn:Hl; [|apply (IH h fb); [done|lia]]. wp_step. wp_step. wp_step.
    eapply wp_mono; [apply (heap_op h brk0 fb live o fuel H Hl); lia|]. intros a h' (fb' & live' & -> & H' & Hlen). apply (IH h' fb'); [done|lia].
Qed.

Lemma heap_start m brk0 : base + 15 < brk0 ≤ 2 ^ 36 → heap_ok brk0 (Heap m 0 brk0) [] ∅.
Proof.
  intros Hb. split; cbn [freep brk mem].
  - by right.
  - split; [done|]. by intros b ?%elem_of_nil.
  - done.
  - intros r n m'. by rewrite lookup_empty.
  - intros x. split; [lia|]. intros [Hx|(r & n & m' & Hr & _)]; [by apply cov_nil in Hx|by rewrite lookup_empty in Hr].
  - intros x (r & n & m' & Hr & _). by rewrite lookup_empty in Hr.
  - intros r n m'. by rewrite lookup_empty.
  - intros r n m' i c. by rewrite lookup_empty.
Qed.

End theorems.

(** A kernel with memory up to 2^20. *)
Definition some_memory (_ n : Z) : bool := n <=? 2 ^ 20.

Definition demo_ops : list op := [Malloc 20; Malloc 100; Store 81760 1 (7, 8); Free 81888; Load 81760 1; Malloc 65536].

