(* ===== verification/VmMap.v ===== *)
(** * Page tables as trees of pages: kernel/vm.c

    [tree m N]: the nodes [N] of a three-level table, from paths of indices to
    pages, are linked in memory [m] as their entries say.  An entry of a table that
    [walk] creates is absent, so that [walk] changes no translation. *)

From S2P Require Import Prelude Machine Kalloc Vm VmFacts.

(** ** Entries *)

Lemma flag_V e : flag e PTE_V = Z.testbit e 0.
Proof.
  unfold flag, PTE_V. replace (Z.land e 1) with (e mod 2 ^ 1) by (symmetry; apply (Z.land_ones e 1); lia). change (2 ^ 1) with 2.
  rewrite <- Z.bit0_mod. by destruct (Z.testbit e 0).
Qed.

Definition page_no (va : Z) : Z := va / PGSIZE.

(** The entry that maps [pa] with the permissions. *)
Definition leaf_pte (pa perm : Z) : Z := u64 (Z.lor (Z.lor (PA2PTE pa) perm) PTE_V).

Lemma u64_testbit z k : 0 ≤ k < 64 → Z.testbit (u64 z) k = Z.testbit z k.
Proof. intros Hk. unfold u64. by rewrite Z.mod_pow2_bits_low by lia. Qed.

Lemma leaf_pte_V pa perm : flag (leaf_pte pa perm) PTE_V = true.
Proof. rewrite flag_V. unfold leaf_pte. rewrite u64_testbit by lia. rewrite Z.lor_spec. apply orb_true_r. Qed.

Lemma PA2PTE_page p : 0 ≤ p < 2 ^ 56 → PA2PTE p = p / 4096 * 1024.
Proof.
  intros Hp. unfold PA2PTE. rewrite Z.shiftr_div_pow2, Z.shiftl_mul_pow2 by lia. unfold u64. apply Z.mod_small. dlia.
Qed.

Lemma lor_low a perm : 0 ≤ perm < 1024 → Z.lor (a * 1024) perm = a * 1024 + perm.
Proof.
  intros Hp. rewrite <- Z.add_lor_land. assert (Z.land (a * 1024) perm = 0) as ->; [|lia].
  change 1024 with (2 ^ 10). rewrite <- Z.shiftl_mul_pow2 by lia. apply Z.bits_inj'. intros k Hk. rewrite Z.land_spec, Z.bits_0.
  destruct (Z.ltb_spec k 10) as [Hlt|Hge]; [by rewrite Z.shiftl_spec_low|].
  rewrite (Z.bits_above_log2 perm k), andb_false_r; [done|lia|]. destruct (decide (perm = 0)) as [->|]; [cbn; lia|].
  apply Z.lt_le_trans with 10; [apply Z.log2_lt_pow2; lia|done].
Qed.

Lemma perm_low perm : 0 ≤ perm < 1024 → 0 ≤ Z.lor perm 1 < 1024.
Proof.
  intros Hp. split; [apply Z.lor_nonneg; lia|]. apply (Z.log2_lt_cancel _ 1024). rewrite Z.log2_lor by lia. change (Z.log2 1024) with 10. change (Z.log2 1) with 0.
  destruct (decide (perm = 0)) as [->|]; [cbn; lia|]. assert (Z.log2 perm < 10) by (apply Z.log2_lt_pow2; lia). pose proof (Z.log2_nonneg perm). lia.
Qed.

(** The address and the flags of an entry that was made for a page. *)
Lemma leaf_pte_eq p perm :
  0 ≤ p < 2 ^ 56 → 0 ≤ perm < 1024 → leaf_pte p perm = p / 4096 * 1024 + Z.lor perm 1.
Proof.
  intros Hp Hperm. pose proof (perm_low perm Hperm) as Hl.
  unfold leaf_pte, PTE_V. rewrite PA2PTE_page, <- Z.lor_assoc, lor_low by done. unfold u64. apply Z.mod_small. dlia.
Qed.

Lemma leaf_pte_PA p perm : 0 ≤ p < 2 ^ 56 → 0 ≤ perm < 1024 → PTE2PA (leaf_pte p perm) = p / 4096 * 4096 ∧ PTE_FLAGS (leaf_pte p perm) = Z.lor perm 1.
Proof.
  intros Hp Hperm. rewrite leaf_pte_eq by done. pose proof (perm_low perm Hperm) as Hl.
  split.
  - unfold PTE2PA. rewrite Z.shiftr_div_pow2, Z.shiftl_mul_pow2 by lia. change (2 ^ 10) with 1024. change (2 ^ 12) with 4096.
    rewrite Z.div_add_l, (Z.div_small (Z.lor perm 1)), Z.add_0_r by lia. unfold u64. apply Z.mod_small. dlia.
  - unfold PTE_FLAGS. change 0x3FF with (Z.ones 10). rewrite Z.land_ones by lia. change (2 ^ 10) with 1024.
    rewrite Z.add_comm, Z.mod_add by lia. by apply Z.mod_small.
Qed.

(** ** Indices *)

Definition idx (i : Z) : Prop := 0 ≤ i < 512.

Lemma PX_eq level va : 0 ≤ level → PX level va = va / 2 ^ (12 + 9 * level) mod 512.
Proof.
  intros Hl. unfold PX, PXSHIFT. change 0x1FF with (Z.ones 9). rewrite Z.land_ones, Z.shiftr_div_pow2 by lia. done.
Qed.

Lemma PX_idx level va : 0 ≤ level → idx (PX level va).
Proof. intros Hl. rewrite PX_eq by done. by apply Z.mod_pos_bound. Qed.

(** The path of indices to the leaf table. *)
Definition path (va : Z) : list Z := [PX 2 va; PX 1 va].

Lemma path_page va va' :
  0 ≤ va < MAXVA → 0 ≤ va' < MAXVA → path va = path va' → PX 0 va = PX 0 va' → page_no va = page_no va'.
Proof.
  unfold path, page_no. change MAXVA with (2 ^ 38). change PGSIZE with 4096. rewrite !PX_eq by lia. intros H1 H2 [= E2 E1] E0.
  change (2 ^ (12 + 9 * 0)) with 4096 in *. change (2 ^ (12 + 9 * 1)) with (4096 * 512) in *. change (2 ^ (12 + 9 * 2)) with (4096 * 512 * 512) in *. dlia.
Qed.

Lemma page_path va va' : page_no va = page_no va' → path va = path va' ∧ PX 0 va = PX 0 va'.
Proof.
  unfold path, page_no. change PGSIZE with 4096. rewrite !PX_eq by lia. intros E.
  change (2 ^ (12 + 9 * 0)) with 4096. change (2 ^ (12 + 9 * 1)) with (4096 * 512). change (2 ^ (12 + 9 * 2)) with (4096 * (512 * 512)).
  rewrite <- !Z.div_div by lia. by rewrite E.
Qed.

(** ** Tables *)

Definition ent (m : mem) (p i : Z) : Z := ld 8 m (p + 8 * i).

Definition child (m : mem) (p i : Z) : option Z :=
  if flag (ent m p i) PTE_V then Some (PTE2PA (ent m p i)) else None.

Abbreviation nodes := (gmap (list Z) Z).

(** The entry for [va], 0 when there is no leaf table. *)
Definition leaf (m : mem) (N : nodes) (va : Z) : Z :=
  match N !! path va with Some d => ent m d (PX 0 va) | None => 0 end.

Section tree.
Context `{COK : ConfigOk} {D : Type}.
Implicit Types (s : machine D) (L : list Z) (N : nodes).

Record vm_ok (pt : Z) s N L : Prop := {
  vm_mem : mem_ok (phys s);
  vm_kmem : kmem_ok s L;
  vm_root : N !! [] = Some pt;
  vm_child k p i : N !! k = Some p → (length k < 2)%nat → idx i → child (phys s) p i = N !! (k ++ [i]);
  vm_page k p : N !! k = Some p → page_ok p ∧ p ∉ L;
  vm_parent k i p : N !! (k ++ [i]) = Some p → is_Some (N !! k) ∧ (length k < 2)%nat;
  vm_inj k k' p : N !! k = Some p → N !! k' = Some p → k = k';
}.

(** [x] is not in a page of the table or of the free list. *)
Definition outside N L (x : Z) : Prop :=
  (∀ k p, N !! k = Some p → ¬ (p ≤ x < p + PGSIZE)) ∧ (∀ p, p ∈ L → ¬ (p ≤ x < p + PGSIZE)).

(** The table may have grown, with the translations as before. *)
Record grows pt s N L s' N' L' : Prop := {
  gr_ok : vm_ok pt s' N' L';
  gr_leaf va : leaf (phys s') N' va = leaf (phys s) N va;
  gr_sub k p : N !! k = Some p → N' !! k = Some p;
  gr_out x : outside N L x → outside N' L' x ∧ phys s' !!! x = phys s !!! x;
  gr_len : (length L' ≤ length L)%nat;
}.

Lemma table_grows_refl pt s N L : vm_ok pt s N L → grows pt s N L s N L.
Proof. intros H. by split. Qed.

Lemma table_grows_trans pt s1 N1 L1 s2 N2 L2 s3 N3 L3 :
  grows pt s1 N1 L1 s2 N2 L2 → grows pt s2 N2 L2 s3 N3 L3 → grows pt s1 N1 L1 s3 N3 L3.
Proof.
  intros [A1 A2 A3 A4 A5] [B1 B2 B3 B4 B5]. split; [done|..].
  - intros va. by rewrite B2.
  - auto.
  - intros x Hx. destruct (A4 x Hx) as [Hx' E]. destruct (B4 x Hx') as [Hx'' E']. split; [done|congruence].
  - lia.
Qed.

(** *** Stores to entries *)

Lemma ent_store m p i v p' i' :
  page_ok p → page_ok p' → idx i → idx i' →
  ent (st 8 m (p + 8 * i) v) p' i' = if decide (p' = p ∧ i' = i) then u64 v else ent m p' i'.
Proof.
  intros Hp Hp' Hi Hi'. unfold ent. destruct (decide (p' = p ∧ i' = i)) as [[-> ->]|Hne].
  - by rewrite ld_st_eq.
  - apply ld_st_ne. unfold idx in *. destruct (decide (p' = p)) as [->|Hd]; [assert (i' ≠ i) by tauto; lia|].
    destruct (page_ok_disjoint p p' Hp Hp' ltac:(done)); unfold PGSIZE in *; lia.
Qed.

Lemma ent_fill m q b p i : page_ok q → page_ok p → p ≠ q → idx i → ent (write_bytes m q (replicate (Z.to_nat PGSIZE) b)) p i = ent m p i.
Proof.
  intros Hq Hp Hne Hi. unfold ent. apply ld_write_bytes_ne. rewrite length_replicate. unfold idx in *.
  destruct (page_ok_disjoint p q Hp Hq Hne); unfold PGSIZE in *; lia.
Qed.

Lemma ent_zero m q i : idx i → ent (write_bytes m q (replicate (Z.to_nat PGSIZE) 0)) q i = 0.
Proof.
  intros Hi. unfold ent, ld. unfold idx in Hi. rewrite read_write_bytes_sub by (rewrite ?length_replicate; unfold PGSIZE; lia).
  rewrite drop_replicate, take_replicate. generalize (8 `min` (Z.to_nat PGSIZE - Z.to_nat (q + 8 * i - q)))%nat. intros k.
  induction k as [|k IH]; [done|]. change (0 + 256 * le_combine (replicate k 0) = 0). lia.
Qed.

Lemma entry_writable p i : page_ok p → idx i → writable (p + 8 * i) 8 = true ∧ readable (p + 8 * i) 8 = true.
Proof.
  intros Hp Hi. destruct (page_ok_pos p Hp) as (? & ? & ?). unfold idx in Hi. split; [apply writable_true|apply readable_true]; unfold PGSIZE in *; lia.
Qed.

Lemma kmem_frame s m' L : (∀ q, q ∈ L → ld 8 m' q = ld 8 (phys s) q) → kmem_ok s L → kmem_ok (set_phys m' s) L.
Proof. intros Hx [Hc Hn]. split; [|done]. cbn. by apply (chain_ext (phys s)). Qed.

Lemma kmem_pages s L q : kmem_ok s L → q ∈ L → page_ok q.
Proof. intros [Hc _] Hq. apply chain_pages in Hc. rewrite Forall_forall in Hc. by apply Hc. Qed.

(** A store to an entry of a page that is not free. *)
Lemma kmem_store s p i v L : page_ok p → p ∉ L → idx i → kmem_ok s L → kmem_ok (set_phys (st 8 (phys s) (p + 8 * i) v) s) L.
Proof.
  intros Hp Hn Hi Hk. apply kmem_frame; [|done]. intros q Hq. pose proof (kmem_pages s L q Hk Hq) as Hqp.
  pose proof (ent_store (phys s) p i v q 0 Hp Hqp Hi ltac:(done)) as E. unfold ent in E. rewrite Z.mul_0_r, Z.add_0_r in E. rewrite E.
  rewrite decide_False; [done|]. intros [-> _]. done.
Qed.

(** *** A new table *)

(** The new page [q] is linked at index [i] of the node [k]. *)
Section link.
Context (pt : Z) (s : machine D) (N : nodes) (L : list Z) (k : list Z) (p i q : Z) (s' : machine D).
Context (H : vm_ok pt s N (q :: L)) (Hk : N !! k = Some p) (Hlen : (length k < 2)%nat) (Hi : idx i) (Hnone : N !! (k ++ [i]) = None).
Context (Hq : page_ok q) (HqL : q ∉ L) (Hm' : mem_ok (phys s')) (Hk' : kmem_ok s' L).
Context (Hent : ∀ p' j, page_ok p' → idx j → ent (phys s') p' j =
  if decide (p' = p ∧ j = i) then leaf_pte q 0 else if decide (p' = q) then 0 else ent (phys s) p' j).
Context (Hbyte : ∀ x, ¬ (p ≤ x < p + PGSIZE) → ¬ (q ≤ x < q + PGSIZE) → phys s' !!! x = phys s !!! x).
Let N' := <[k ++ [i] := q]> N.

Lemma link_new k' : N !! k' ≠ Some q.
Proof. intros E. destruct (vm_page _ _ _ _ H k' q E) as [_ Hn]. apply Hn. left. Qed.

Lemma link_q : child (phys s') p i = Some q ∧ p ≠ q.
Proof.
  destruct (vm_page _ _ _ _ H k p Hk) as [Hp Hn]. split; [|intros ->; apply Hn; left]. unfold child.
  rewrite Hent by done. rewrite decide_True by done. rewrite leaf_pte_V. f_equal. destruct (page_ok_pos q Hq) as (? & _ & ?).
  destruct (leaf_pte_PA q 0) as [-> _]; [unfold PHYSTOP, KERNBASE, PGSIZE in *; lia|lia|]. destruct Hq as [Hal _]. unfold PGSIZE in *. dlia.
Qed.

Lemma link_old k' p' j : N !! k' = Some p' → idx j → (p', j) ≠ (p, i) → ent (phys s') p' j = ent (phys s) p' j.
Proof.
  intros Hk1 Hj Hne. destruct (vm_page _ _ _ _ H k' p' Hk1) as [Hp' _]. rewrite Hent by done. rewrite decide_False by (intros [-> ->]; done).
  rewrite decide_False; [done|]. intros ->. by apply (link_new k').
Qed.

Lemma link_grows : grows pt s N (q :: L) s' N' L.
Proof.
  destruct link_q as [Ec Hpq]. destruct (vm_page _ _ _ _ H k p Hk) as [Hp Hpn]. split.
  - split; [done|done|..].
    + unfold N'. rewrite lookup_insert_ne; [apply H|]. by destruct k.
    + intros k' p' j [[<- <-]|[Hne Hk1]]%lookup_insert_Some Hl Hj; unfold N'.
      * rewrite lookup_insert_ne by (intros E; apply (f_equal length) in E; rewrite !length_app in E; cbn in E; lia).
        unfold child. rewrite Hent by done. rewrite decide_False by (intros [E _]; congruence). rewrite decide_True by done. cbn.
        destruct (N !! ((k ++ [i]) ++ [j])) as [r|] eqn:E; [|done]. destruct (vm_parent _ _ _ _ H _ _ _ E) as [[r' E'] _]. congruence.
      * destruct (decide (k' = k ∧ j = i)) as [[-> ->]|Hd].
        -- rewrite lookup_insert_eq. assert (p' = p) as -> by congruence. done.
        -- rewrite lookup_insert_ne by (intros [-> [= ->]]%app_inj_tail; tauto). rewrite <- (vm_child _ _ _ _ H k' p' j Hk1 Hl Hj). unfold child.
           rewrite (link_old k' p' j); [done|done|done|]. intros [= -> ->]. apply Hd. split; [|done]. by apply (vm_inj _ _ _ _ H k' k p).
    + intros k' p' [[<- <-]|[Hne Hk1]]%lookup_insert_Some; [done|]. destruct (vm_page _ _ _ _ H k' p' Hk1) as [? Hn]. split; [done|]. intros Hin. apply Hn. by right.
    + intros k' j p' [[E _]|[_ E]]%lookup_insert_Some; unfold N'.
      * apply app_inj_tail in E as [<- <-]. split; [|done]. rewrite lookup_insert_ne by (intros E; apply (f_equal length) in E; rewrite !length_app in E; cbn in E; lia). by eexists.
      * destruct (vm_parent _ _ _ _ H k' j p' E) as [[r Hr] ?]. split; [|done]. destruct (decide (k' = k ++ [i])) as [->|]; [rewrite lookup_insert_eq; by eexists|].
        rewrite lookup_insert_ne by done. by eexists.
    + intros k1 k2 r [[<- <-]|[_ H1]]%lookup_insert_Some [[<- E]|[_ H2]]%lookup_insert_Some; [done|by apply link_new in H2|subst r; by apply link_new in H1|by eapply (vm_inj _ _ _ _ H)].
  - intros va. unfold leaf, N'. destruct (decide (path va = k ++ [i])) as [E|E].
    + rewrite E, lookup_insert_eq, Hnone. rewrite Hent by (done || by apply PX_idx). rewrite decide_False by (intros [E' _]; congruence). by rewrite decide_True.
    + rewrite lookup_insert_ne by done. destruct (N !! path va) as [d|] eqn:Ed; [|done]. apply (link_old (path va)); [done|by apply PX_idx|].
      intros [= -> _]. rewrite (vm_inj _ _ _ _ H _ _ _ Hk Ed) in Hlen. cbn in Hlen. lia.
  - intros k' p' Hk1. unfold N'. rewrite lookup_insert_ne; [done|]. congruence.
  - intros x [Ho1 Ho2]. split; [split|].
    + intros k' p' [[<- <-]|[_ Hk1]]%lookup_insert_Some; [apply Ho2; left|by apply (Ho1 k')].
    + intros r Hr. apply Ho2. by right.
    + apply Hbyte; [by apply (Ho1 k)|]. apply Ho2. left.
  - cbn. lia.
Qed.
End link.

(** ** walk *)

#[local] Opaque write_bytes.

(** What a step of the walk to the path [k] finds. *)
Definition found (alloc : bool) s N L s' N' L' (k : list Z) (r : option Z) : Prop :=
  N' !! k = r ∧ (r = None → alloc = true → L' = []) ∧ (alloc = false → s' = s ∧ N' = N ∧ L' = L).

Lemma wp_walk_level pt s N L k p level va alloc (Q : option Z → machine D → Prop) :
  vm_ok pt s N L → N !! k = Some p → (length k < 2)%nat → 0 ≤ level →
  (∀ r s' N' L', grows pt s N L s' N' L' → found alloc s N L s' N' L' (k ++ [PX level va]) r → Q r s') →
  wp (walk_level p va level alloc) Q s.
Proof.
  intros H Hk Hl Hlev HQ. destruct (vm_page _ _ _ _ H k p Hk) as [Hp Hpn]. set (i := PX level va) in *. assert (idx i) as Hi by by apply PX_idx.
  destruct (entry_writable p i Hp Hi) as [Hw Hr]. pose proof (vm_child _ _ _ _ H k p i Hk Hl Hi) as Hc. unfold child, ent in Hc.
  unfold walk_level. fold i. wp_step. apply wp_load; [done|]. destruct (flag (ld 8 (phys s) (p + 8 * i)) PTE_V) eqn:Ef.
  { wp_step. apply (HQ _ s N L); [by apply table_grows_refl|]. split; [done|]. by split. }
  destruct alloc; cbn [negb]; [|wp_step; apply (HQ _ s N L); [by apply table_grows_refl|]; split; [done|]; by split].
  wp_step. destruct L as [|q L].
  { eapply wp_done; [apply kalloc_empty; apply (vm_kmem _ _ _ _ H)|]. change (0 =? 0) with true. cbv iota. wp_step.
    apply (HQ _ s N []); [by apply table_grows_refl|]. split; [done|]. by split. }
  destruct (kalloc_spec s q L (vm_kmem _ _ _ _ H) (vm_mem _ _ _ _ H)) as (s1 & E1 & Es1 & K1 & M1 & Hn1 & Hq). eapply wp_done; [exact E1|].
  destruct (page_ok_pos q Hq) as (B1 & B2 & B3). assert (q ≠ 0) by (unfold KERNBASE in *; lia). destruct (Z.eqb_spec q 0); [done|].
  wp_step. apply wp_memset; [apply writable_true; lia|done|]. wp_step. apply wp_store; [done|]. wp_step.
  set (m1 := write_bytes (phys s) q (replicate (Z.to_nat PGSIZE) 5)). assert (phys s1 = m1) as Em1 by (rewrite Es1; done).
  set (m2 := write_bytes (phys s1) q (replicate (Z.to_nat PGSIZE) (u8 0))). set (v := Z.lor (PA2PTE q) PTE_V). cbn [phys set_phys].
  assert (p ≠ q) as Hpq by (intros ->; apply Hpn; left). assert (u64 v = leaf_pte q 0) as Ev by (unfold leaf_pte; by rewrite Z.lor_0_r).
  set (s2 := set_phys (st 8 m2 (p + 8 * i) v) (set_phys m2 s1)).
  apply (HQ _ s2 (<[k ++ [i] := q]> N) L).
  2:{ split; [apply lookup_insert_eq|]. split; intros [=]. }
  apply (link_grows pt s N L k p i q s2 H Hk Hl Hi (eq_sym Hc) Hq Hn1).
  - apply mem_ok_st, mem_ok_write_bytes; [exact M1|]. apply Forall_replicate. split; [by vm_compute|reflexivity].
  - apply (kmem_store (set_phys m2 s1)); [exact Hp|intros Hin; apply Hpn; by right|exact Hi|]. apply kmem_frame; [|exact K1]. intros r Hr'. unfold m2.
    apply ld_write_page; [exact Hq|by apply (kmem_pages s1 L)| |by rewrite length_replicate]. intros <-. exact (Hn1 Hr').
  - intros p' j Hp' Hj. cbn [s2 phys set_phys]. rewrite ent_store by done. destruct (decide (p' = p ∧ j = i)); [exact Ev|]. unfold m2.
    destruct (decide (p' = q)) as [->|Hne]; [by apply ent_zero|]. rewrite ent_fill by done. rewrite Em1. by apply ent_fill.
  - intros x H1 H2. cbn [s2 phys set_phys]. unfold st, m2. rewrite lookup_total_write_bytes, length_le_split, decide_False by (unfold idx, PGSIZE in *; lia).
    rewrite lookup_total_write_bytes, length_replicate, decide_False by (unfold PGSIZE in *; lia). rewrite Em1. unfold m1.
    by rewrite lookup_total_write_bytes, length_replicate, decide_False by (unfold PGSIZE in *; lia).
Qed.

Lemma wp_walk pt s N L va alloc (Q : Z → machine D → Prop) :
  vm_ok pt s N L →
  (MAXVA ≤ va → Q 0 s) →
  (∀ s' N' L', va < MAXVA → grows pt s N L s' N' L' → N' !! path va = None → (alloc = true → L' = []) → (alloc = false → s' = s ∧ N' = N ∧ L' = L) → Q 0 s') →
  (∀ s' N' L' d, va < MAXVA → grows pt s N L s' N' L' → N' !! path va = Some d → (alloc = false → s' = s ∧ N' = N ∧ L' = L) → Q (d + 8 * PX 0 va) s') →
  wp (walk pt va alloc) Q s.
Proof.
  intros H H1 H2 H3. unfold walk. destruct (Z.geb_spec va MAXVA) as [Hge|Hlt]; [wp_step; apply H1; lia|].
  wp_step. apply (wp_walk_level pt s N L [] pt); [done|apply H|cbn; lia|lia|]. intros [c|] s1 N1 L1 G1 (F1 & F2 & F3); cbn [app] in F1.
  - wp_step. apply (wp_walk_level pt s1 N1 L1 [PX 2 va] c); [apply G1|done|cbn; lia|lia|]. intros [d|] s2 N2 L2 G2 (E1 & E2 & E3); cbn [app] in E1.
    + wp_step. apply (H3 s2 N2 L2 d); [lia|by eapply table_grows_trans|done|]. intros ->. destruct (F3 eq_refl) as (-> & -> & ->). by apply E3.
    + wp_step. apply (H2 s2 N2 L2); [lia|by eapply table_grows_trans|done|by apply E2|]. intros ->. destruct (F3 eq_refl) as (-> & -> & ->). by apply E3.
  - wp_step. apply (H2 s1 N1 L1); [lia|done| |by apply F2|done]. destruct (N1 !! path va) as [d|] eqn:E; [|done].
    destruct (vm_parent _ _ _ _ (gr_ok _ _ _ _ _ _ _ G1) [PX 2 va] (PX 1 va) d E) as [[c Hc] _]. congruence.
Qed.

(** ** The translation *)

(** The valid entry for [va] that the table has in memory. *)
Definition tr (m : mem) (pt va : Z) : option Z :=
  match child m pt (PX 2 va) with
  | Some c =>
      match child m c (PX 1 va) with
      | Some d => if flag (ent m d (PX 0 va)) PTE_V then Some (ent m d (PX 0 va)) else None
      | None => None
      end
  | None => None
  end.

Lemma tr_leaf pt s N L va :
  vm_ok pt s N L → tr (phys s) pt va = if flag (leaf (phys s) N va) PTE_V then Some (leaf (phys s) N va) else None.
Proof.
  intros H. unfold tr, leaf. rewrite (vm_child _ _ _ _ H [] pt) by (apply H || (cbn; lia) || by apply PX_idx). cbn [app].
  destruct (N !! [PX 2 va]) as [c|] eqn:Ec.
  - rewrite (vm_child _ _ _ _ H [PX 2 va] c) by (done || (cbn; lia) || by apply PX_idx). cbn [app]. unfold path. by destruct (N !! [PX 2 va; PX 1 va]).
  - destruct (N !! path va) as [d|] eqn:Ed; [|done]. destruct (vm_parent _ _ _ _ H [PX 2 va] (PX 1 va) d Ed) as [[c Hc] _]. congruence.
Qed.

Lemma grows_tr pt s N L s' N' L' va : vm_ok pt s N L → grows pt s N L s' N' L' → tr (phys s') pt va = tr (phys s) pt va.
Proof. intros H G. rewrite (tr_leaf pt s' N' L'), (tr_leaf pt s N L) by (done || apply G). by rewrite (gr_leaf _ _ _ _ _ _ _ G). Qed.

Definition valid (va : Z) : Prop := 0 ≤ va < MAXVA.

(** A leaf entry is stored. *)
Lemma store_leaf pt s N L va d v :
  vm_ok pt s N L → N !! path va = Some d → valid va →
  let s' := set_phys (st 8 (phys s) (d + 8 * PX 0 va) v) s in
  vm_ok pt s' N L ∧ ∀ va', valid va' →
    tr (phys s') pt va' = if decide (page_no va' = page_no va) then (if flag (u64 v) PTE_V then Some (u64 v) else None) else tr (phys s) pt va'.
Proof.
  intros H Hd Hv s'. destruct (vm_page _ _ _ _ H _ _ Hd) as [Hp Hn]. assert (idx (PX 0 va)) as Hi by by apply PX_idx.
  assert (vm_ok pt s' N L) as H'.
  { split; [apply mem_ok_st, (vm_mem _ _ _ _ H)|apply kmem_store; [done|done|done|apply (vm_kmem _ _ _ _ H)]|apply (vm_root _ _ _ _ H)| |apply (vm_page _ _ _ _ H)|apply (vm_parent _ _ _ _ H)|apply (vm_inj _ _ _ _ H)].
    intros k p i Hk Hl Hii. rewrite <- (vm_child _ _ _ _ H k p i Hk Hl Hii). destruct (vm_page _ _ _ _ H k p Hk) as [Hp' _].
    unfold child, s'. cbn [phys set_phys]. rewrite ent_store by done. rewrite decide_False; [done|]. intros [-> _].
    rewrite (vm_inj _ _ _ _ H _ _ _ Hk Hd) in Hl. cbn in Hl. lia. }
  split; [done|]. intros va' Hv'. rewrite (tr_leaf pt s' N L), (tr_leaf pt s N L) by done. unfold leaf.
  destruct (decide (page_no va' = page_no va)) as [E|E].
  - destruct (page_path va' va E) as [-> ->]. rewrite Hd. unfold s'. cbn [phys set_phys]. rewrite ent_store by done. by rewrite decide_True.
  - destruct (N !! path va') as [d'|] eqn:Ed; [|done]. destruct (vm_page _ _ _ _ H _ _ Ed) as [Hp' _]. unfold s'. cbn [phys set_phys].
    rewrite ent_store by (done || by apply PX_idx). rewrite decide_False; [done|]. intros [-> Ei]. apply E, path_page; [done|done| |done].
    by apply (vm_inj _ _ _ _ H _ _ d).
Qed.

(** ** The operations *)

Definition mapped_range (pt : Z) (m m' : mem) (v k pa perm : Z) : Prop :=
  ∀ va, valid va → tr m' pt va =
    let j := page_no va - v in if decide (0 ≤ j < k) then Some (leaf_pte (pa + j * PGSIZE) perm) else tr m pt va.

Lemma leaf_found pt s N L va d : vm_ok pt s N L → N !! path va = Some d →
  d + 8 * PX 0 va ≠ 0 ∧ readable (d + 8 * PX 0 va) 8 = true ∧ writable (d + 8 * PX 0 va) 8 = true ∧
  tr (phys s) pt va = if flag (ld 8 (phys s) (d + 8 * PX 0 va)) PTE_V then Some (ld 8 (phys s) (d + 8 * PX 0 va)) else None.
Proof.
  intros H Hd. destruct (vm_page _ _ _ _ H _ _ Hd) as [Hp _]. assert (idx (PX 0 va)) as Hi by by apply PX_idx.
  destruct (entry_writable d (PX 0 va) Hp Hi). destruct (page_ok_pos d Hp). split_and!; [unfold idx, KERNBASE in *; lia|done|done|].
  rewrite (tr_leaf pt s N L) by done. unfold leaf, ent. by rewrite Hd.
Qed.

(** One page. *)
Lemma wp_map_page pt s N L v pa perm (rest : M (machine D) Z) (Q : Z → machine D → Prop) :
  vm_ok pt s N L → valid (v * PGSIZE) → tr (phys s) pt (v * PGSIZE) = None →
  (∀ s' N', vm_ok pt s' N' [] → (∀ va, tr (phys s') pt va = tr (phys s) pt va) → Q (-1) s') →
  (∀ s' N' L', vm_ok pt s' N' L' → mapped_range pt (phys s) (phys s') v 1 pa perm → wp rest Q s') →
  wp (pte ← walk pt (v * PGSIZE) true;
      if pte =? 0 then ret (-1)
      else
        e ← load 8 pte;
        if flag e PTE_V then panic "mappages: remap"
        else store 8 pte (Z.lor (Z.lor (PA2PTE pa) perm) PTE_V);; rest) Q s.
Proof.
  intros H Hv Hnone HQ1 HQ. assert (page_no (v * PGSIZE) = v) as Epn by (unfold page_no; by rewrite Z.div_mul).
  wp_step. apply (wp_walk pt s N L); [done|intros; destruct Hv; lia|..].
  - intros s1 N1 L1 _ G _ HL _. change (0 =? 0) with true. cbv iota. wp_step. rewrite (HL eq_refl) in G. apply (HQ1 s1 N1); [apply G|]. intros va. by apply (grows_tr pt s N L s1 N1 []).
  - intros s1 N1 L1 d _ G Hd _. pose proof (gr_ok _ _ _ _ _ _ _ G) as H1. destruct (leaf_found pt s1 N1 L1 _ d H1 Hd) as (E1 & E2 & E3 & E4).
    destruct (Z.eqb_spec (d + 8 * PX 0 (v * PGSIZE)) 0); [done|]. wp_step. apply wp_load; [exact E2|].
    rewrite (grows_tr pt s N L s1 N1 L1) in E4 by done. rewrite Hnone in E4. destruct (flag _ PTE_V); [done|]. clear E4.
    wp_step. apply wp_store; [exact E3|]. destruct (store_leaf pt s1 N1 L1 (v * PGSIZE) d (Z.lor (Z.lor (PA2PTE pa) perm) PTE_V) H1 Hd Hv) as [H2 T2].
    apply (HQ _ N1 L1); [exact H2|]. intros va Hva. rewrite T2 by done. fold (leaf_pte pa perm). rewrite leaf_pte_V, Epn.
    rewrite (grows_tr pt s N L s1 N1 L1) by done. cbv zeta. destruct (decide (page_no va = v)) as [E|E].
    + rewrite decide_True by lia. by replace (pa + (page_no va - v) * PGSIZE) with pa by lia.
    + by rewrite decide_False by lia.
Qed.

Lemma mapped_range_next pt m m1 m2 v k pa perm :
  0 ≤ k → mapped_range pt m m1 v 1 pa perm → mapped_range pt m1 m2 (v + 1) k (pa + PGSIZE) perm → mapped_range pt m m2 v (k + 1) pa perm.
Proof.
  intros Hk M1 M2 va Hva. rewrite M2, M1 by done. cbv zeta. destruct (decide (0 ≤ page_no va - (v + 1) < k)) as [E|E].
  - rewrite decide_True by lia. do 2 f_equal. lia.
  - destruct (decide (0 ≤ page_no va - v < 1)); [by rewrite decide_True by lia|by rewrite decide_False by lia].
Qed.

Lemma mappages_loop_S n pt a last pa perm :
  @mappages_loop C D (S n) pt a last pa perm =
    (pte ← walk pt a true;
     if pte =? 0 then ret (-1)
     else
       e ← load 8 pte;
       if flag e PTE_V then panic "mappages: remap"
       else
         store 8 pte (Z.lor (Z.lor (PA2PTE pa) perm) PTE_V);;
         if a =? last then ret 0 else mappages_loop n pt (u64 (a + PGSIZE)) last (u64 (pa + PGSIZE)) perm).
Proof. done. Qed.

Lemma wp_mappages_loop pt n s N L v last pa perm (Q : Z → machine D → Prop) :
  vm_ok pt s N L → 0 ≤ v → last = (v + Z.of_nat n) * PGSIZE → last < MAXVA → 0 ≤ pa → pa + Z.of_nat n * PGSIZE < 2 ^ 56 →
  (∀ va, valid va → v ≤ page_no va ≤ v + Z.of_nat n → tr (phys s) pt va = None) →
  (∀ s' N' L', vm_ok pt s' N' L' → mapped_range pt (phys s) (phys s') v (Z.of_nat n + 1) pa perm → Q 0 s') →
  (∀ s' N' k, vm_ok pt s' N' [] → 0 ≤ k ≤ Z.of_nat n → mapped_range pt (phys s) (phys s') v k pa perm → Q (-1) s') →
  wp (mappages_loop (S n) pt (v * PGSIZE) last pa perm) Q s.
Proof.
  revert s N L v pa Q. induction n as [|n IH]; intros s N L v pa Q H Hv El Hl Hpa Hpm Hnone HQ0 HQ1;
    (assert (valid (v * PGSIZE)) as Hvalid by (split; unfold PGSIZE in *; lia));
    (assert (page_no (v * PGSIZE) = v) as Epn by (unfold page_no; by rewrite Z.div_mul));
    rewrite mappages_loop_S; apply (wp_map_page pt s N L); [done|done|by apply Hnone; [|lia]| | |done|done|by apply Hnone; [|lia]| | ].
  1,3: intros s' N' H' E; apply (HQ1 s' N' 0); [done|lia|]; intros va Hva; cbv zeta; rewrite decide_False by lia; apply E.
  - intros s' N' L' H' M'. destruct (Z.eqb_spec (v * PGSIZE) last); [|unfold PGSIZE in *; lia]. wp_step. by apply (HQ0 s' N' L').
  - intros s' N' L' H' M'. destruct (Z.eqb_spec (v * PGSIZE) last); [unfold PGSIZE in *; lia|].
    assert (MAXVA < 2 ^ 64) as HM by done. assert (PGSIZE = 4096) as EP by done.
    unfold u64. rewrite !Z.mod_small by lia. replace (v * PGSIZE + PGSIZE) with ((v + 1) * PGSIZE) by lia.
    apply (IH s' N' L' (v + 1) (pa + PGSIZE)); [done|lia|lia|done|lia|lia|..].
    + intros va Hva Hr. rewrite M' by done. cbv zeta. rewrite decide_False by lia. apply Hnone; [done|lia].
    + intros s2 N2 L2 H2 M2. apply (HQ0 s2 N2 L2); [done|]. replace (Z.of_nat (S n) + 1) with (Z.of_nat n + 1 + 1) by lia.
      apply (mapped_range_next pt (phys s) (phys s')); [lia|done|done].
    + intros s2 N2 k H2 Hk M2. apply (HQ1 s2 N2 (k + 1)); [done|lia|]. apply (mapped_range_next pt (phys s) (phys s')); [lia|done|done].
Qed.

Lemma wp_mappages pt s N L va size pa perm (Q : Z → machine D → Prop) :
  let v := page_no va in
  let n := page_no (va + size - 1) - v + 1 in
  vm_ok pt s N L → 0 ≤ va → 0 < size → va + size ≤ MAXVA → 0 ≤ pa → pa + size + PGSIZE ≤ 2 ^ 56 →
  (∀ va', valid va' → v ≤ page_no va' < v + n → tr (phys s) pt va' = None) →
  (∀ s' N' L', vm_ok pt s' N' L' → mapped_range pt (phys s) (phys s') v n pa perm → Q 0 s') →
  (∀ s' N' k, vm_ok pt s' N' [] → 0 ≤ k < n → mapped_range pt (phys s) (phys s') v k pa perm → Q (-1) s') →
  wp (mappages pt va size pa perm) Q s.
Proof.
  intros v n H Hva Hsz Hmax Hpa Hpm Hnone HQ0 HQ1. assert (MAXVA < 2 ^ 64) as HM by done. assert (PGSIZE = 4096) as EP by done.
  unfold mappages. destruct (Z.eqb_spec size 0); [lia|]. unfold u64. rewrite Z.mod_small by lia. rewrite !PGROUNDDOWN_eq by lia.
  fold (page_no va). fold (page_no (va + size - 1)). fold v. set (w := page_no (va + size - 1)) in *.
  assert (0 ≤ v ≤ w ∧ w * 4096 ≤ va + size - 1 < w * 4096 + 4096 ∧ v * 4096 ≤ va < v * 4096 + 4096) as (Hvw & Hw & Hv) by (unfold v, w, page_no; rewrite EP; dlia).
  rewrite (proj2 (Z.leb_le (v * PGSIZE) (w * PGSIZE))) by lia.
  assert (Z.to_nat ((w * PGSIZE - v * PGSIZE) / PGSIZE + 1) = S (Z.to_nat (w - v))) as ->.
  { replace (w * PGSIZE - v * PGSIZE) with ((w - v) * PGSIZE) by lia. rewrite Z.div_mul by lia. lia. }
  apply (wp_mappages_loop pt (Z.to_nat (w - v)) s N L v); rewrite ?Z2Nat.id by lia; [done|lia|lia|lia|lia|lia|..].
  - intros va' Hv' Hr. apply Hnone; [done|lia].
  - intros s' N' L' H' M. apply (HQ0 s' N' L'); [done|]. by replace n with (w - v + 1) by lia.
  - intros s' N' k H' Hk M. apply (HQ1 s' N' k); [done|lia|done].
Qed.

Definition cleared_range (pt : Z) (m m' : mem) (v n : Z) : Prop :=
  ∀ va, valid va → tr m' pt va = if decide (v ≤ page_no va < v + n) then None else tr m pt va.

Lemma wp_uvmunmap_loop pt n s N L v (Q : unit → machine D → Prop) :
  vm_ok pt s N L → 0 ≤ v → (v + Z.of_nat n) * PGSIZE ≤ MAXVA →
  (∀ va, valid va → v ≤ page_no va < v + Z.of_nat n → ∃ e, tr (phys s) pt va = Some e ∧ PTE_FLAGS e ≠ PTE_V) →
  (∀ s', vm_ok pt s' N L → cleared_range pt (phys s) (phys s') v (Z.of_nat n) → Q tt s') →
  wp (uvmunmap_loop n pt (v * PGSIZE) ((v + Z.of_nat n) * PGSIZE) false) Q s.
Proof.
  assert (PGSIZE = 4096) as EP by done. revert s v Q. induction n as [|n IH]; intros s v Q H Hv Hmax Hall HQ; cbn [uvmunmap_loop].
  - rewrite (proj2 (Z.ltb_ge _ _)) by lia. wp_step. apply HQ; [done|]. intros va Hva. by rewrite decide_False by lia.
  - rewrite (proj2 (Z.ltb_lt _ _)) by lia. assert (valid (v * PGSIZE)) as Hvalid by (split; lia).
    assert (page_no (v * PGSIZE) = v) as Epn by (unfold page_no; by rewrite Z.div_mul). destruct (Hall (v * PGSIZE) Hvalid) as (e & Ee & Ef); [lia|].
    wp_step. apply (wp_walk pt s N L); [done|intros; lia|..].
    { intros s' N' L' _ G Hn _ HE. destruct (HE eq_refl) as (-> & -> & ->). rewrite (tr_leaf pt s N L) in Ee by done. unfold leaf in Ee. by rewrite Hn in Ee. }
    intros s' N' L' d _ _ Hd HE. destruct (HE eq_refl) as (-> & -> & ->). destruct (leaf_found pt s N L _ d H Hd) as (E1 & E2 & E3 & E4).
    destruct (Z.eqb_spec (d + 8 * PX 0 (v * PGSIZE)) 0); [done|]. wp_step. apply wp_load; [exact E2|]. rewrite Ee in E4.
    destruct (flag (ld 8 (phys s) (d + 8 * PX 0 (v * PGSIZE))) PTE_V); [|done]. injection E4 as <-. change (negb true) with false. cbv iota.
    destruct (Z.eqb_spec (PTE_FLAGS e) PTE_V); [done|]. wp_step. unfold when. wp_step. wp_step. apply wp_store; [exact E3|].
    destruct (store_leaf pt s N L (v * PGSIZE) d 0 H Hd Hvalid) as [H2 T2]. replace (v * PGSIZE + PGSIZE) with ((v + 1) * PGSIZE) by lia.
    replace (v + Z.of_nat (S n)) with (v + 1 + Z.of_nat n) by lia. set (s2 := set_phys _ s) in *. apply (IH s2 (v + 1)); [exact H2|lia|lia|..].
    + intros va Hva Hr. rewrite T2, decide_False by (done || lia). apply Hall; [done|lia].
    + intros s3 H3 C3. apply HQ; [exact H3|]. intros va Hva. rewrite C3, T2 by done. rewrite Epn.
      destruct (decide (v + 1 ≤ page_no va < v + 1 + Z.of_nat n)); [by rewrite decide_True by lia|].
      destruct (decide (page_no va = v)); [by rewrite decide_True by lia|by rewrite decide_False by lia].
Qed.

Lemma wp_walkaddr pt s N L va (Q : Z → machine D → Prop) :
  vm_ok pt s N L →
  Q (if va <? MAXVA then match tr (phys s) pt va with Some e => if flag e PTE_U then PTE2PA e else 0 | None => 0 end else 0) s →
  wp (walkaddr pt va) Q s.
Proof.
  intros H HQ. unfold walkaddr. destruct (Z.geb_spec va MAXVA) as [Hge|Hlt]; [rewrite (proj2 (Z.ltb_ge _ _)) in HQ by lia; by wp_step|].
  rewrite (proj2 (Z.ltb_lt _ _)) in HQ by lia. wp_step. apply (wp_walk pt s N L); [done|intros; lia|..].
  - intros s' N' L' _ _ Hn _ HE. destruct (HE eq_refl) as (-> & -> & ->). change (0 =? 0) with true. cbv iota. wp_step.
    rewrite (tr_leaf pt s N L) in HQ by done. unfold leaf in HQ. by rewrite Hn in HQ.
  - intros s' N' L' d _ _ Hd HE. destruct (HE eq_refl) as (-> & -> & ->). destruct (leaf_found pt s N L _ d H Hd) as (E1 & E2 & E3 & E4).
    destruct (Z.eqb_spec (d + 8 * PX 0 va) 0); [done|]. wp_step. apply wp_load; [exact E2|]. rewrite E4 in HQ.
    destruct (flag (ld 8 (phys s) (d + 8 * PX 0 va)) PTE_V); cbn [negb]; [|by wp_step]. destruct (flag _ PTE_U); cbn [negb]; by wp_step.
Qed.

(** A new table maps nothing. *)
Lemma wp_uvmcreate s L (Q : Z → machine D → Prop) :
  kmem_ok s L → mem_ok (phys s) → (L = [] → Q 0 s) →
  (∀ pt s' N' L', vm_ok pt s' N' L' → pt ≠ 0 → (∀ va, tr (phys s') pt va = None) → Q pt s') → wp uvmcreate Q s.
Proof.
  intros K M HQ0 HQ. unfold uvmcreate. wp_step. destruct L as [|q L].
  { eapply wp_done; [apply kalloc_empty, K|]. change (0 =? 0) with true. cbv iota. wp_step. by apply HQ0. }
  destruct (kalloc_spec s q L K M) as (s1 & E1 & _ & K1 & M1 & Hn1 & Hq). eapply wp_done; [exact E1|].
  destruct (page_ok_pos q Hq) as (B1 & B2 & B3). assert (q ≠ 0) as Hq0 by (unfold KERNBASE in *; lia). destruct (Z.eqb_spec q 0); [done|].
  wp_step. apply wp_memset; [apply writable_true; lia|done|]. wp_step. set (m2 := write_bytes (phys s1) q (replicate (Z.to_nat PGSIZE) (u8 0))).
  assert (∀ i, idx i → child m2 q i = None) as Hz by (intros i Hi; unfold child, m2; by rewrite ent_zero).
  assert (∀ k p, ({[ [] := q ]} : nodes) !! k = Some p → k = [] ∧ p = q) as Hs by (intros k p [<- <-]%lookup_singleton_Some; done).
  apply (HQ q (set_phys m2 s1) {[ [] := q ]} L); [|exact Hq0|].
  - split.
    + apply mem_ok_write_bytes; [exact M1|]. apply Forall_replicate. split; [by vm_compute|reflexivity].
    + apply kmem_frame; [|exact K1]. intros r Hr. unfold m2. apply ld_write_page; [exact Hq|by apply (kmem_pages s1 L)| |by rewrite length_replicate].
      intros <-. exact (Hn1 Hr).
    + apply lookup_singleton_eq.
    + intros k p i [-> ->]%Hs _ Hi. cbn [phys set_phys app]. rewrite Hz by exact Hi. symmetry. by apply lookup_singleton_ne.
    + intros k p [-> ->]%Hs. by split.
    + intros k i p [E _]%Hs. by destruct k.
    + intros k k' p [-> _]%Hs [-> _]%Hs. done.
  - intros va. unfold tr. cbn [phys set_phys]. by rewrite Hz by by apply PX_idx.
Qed.

(** ** Any sequence of operations on a table *)

Inductive vm_op :=
  | MapPages (va size pa perm : Z)
  | Unmap (va npages : Z)
  | WalkAddr (va : Z).

Definition do_vm (pt : Z) (o : vm_op) : M (machine D) Z :=
  match o with
  | MapPages va size pa perm => mappages pt va size pa perm
  | Unmap va npages => uvmunmap pt va npages false;; ret 0
  | WalkAddr va => walkaddr pt va
  end.

(** The pages from that of [va] to that of the last of [size] bytes. *)
Definition npages (va size : Z) : Z := page_no (va + size - 1) - page_no va + 1.

(** What the caller must respect: ranges below MAXVA, no page mapped twice, and only
    mapped leaf pages unmapped. *)
Definition vm_legal (m : mem) (pt : Z) (o : vm_op) : Prop :=
  match o with
  | MapPages va size pa perm =>
      0 ≤ va ∧ 0 < size ∧ va + size ≤ MAXVA ∧ 0 ≤ pa ∧ pa + size + PGSIZE ≤ 2 ^ 56 ∧
      ∀ va', valid va' → page_no va ≤ page_no va' < page_no va + npages va size → tr m pt va' = None
  | Unmap va n =>
      0 ≤ va ∧ va mod PGSIZE = 0 ∧ 0 ≤ n ∧ va + n * PGSIZE ≤ MAXVA ∧
      ∀ va', valid va' → page_no va ≤ page_no va' < page_no va + n → ∃ e, tr m pt va' = Some e ∧ PTE_FLAGS e ≠ PTE_V
  | WalkAddr va => True
  end.

(** The answer, and the change of the map. *)
Definition vm_spec (pt : Z) (o : vm_op) (s : machine D) (r : Z) (s' : machine D) : Prop :=
  match o with
  | MapPages va size pa perm =>
      ∃ k, 0 ≤ k ≤ npages va size ∧ mapped_range pt (phys s) (phys s') (page_no va) k pa perm ∧
        (r = 0 ∧ k = npages va size ∨ r = -1 ∧ k < npages va size ∧ freelist s' = 0)
  | Unmap va n => r = 0 ∧ cleared_range pt (phys s) (phys s') (page_no va) n
  | WalkAddr va =>
      s' = s ∧ r = if va <? MAXVA then match tr (phys s) pt va with Some e => if flag e PTE_U then PTE2PA e else 0 | None => 0 end else 0
  end.

(** The states of a table from its creation on. *)
Inductive vm_reach (s0 : machine D) (pt : Z) : machine D → Prop :=
  | reach_create s : uvmcreate s0 = Done (pt, s) → pt ≠ 0 → vm_reach s0 pt s
  | reach_op s o r s' : vm_reach s0 pt s → vm_legal (phys s) pt o → do_vm pt o s = Done (r, s') → vm_reach s0 pt s'.

Lemma vm_op_ok pt s N L o : vm_ok pt s N L → vm_legal (phys s) pt o → wp (do_vm pt o) (λ r s', vm_spec pt o s r s' ∧ ∃ N' L', vm_ok pt s' N' L') s.
Proof.
  intros H. destruct o as [va size pa perm|va n|va]; cbn [do_vm vm_legal vm_spec].
  - intros (H1 & H2 & H3 & H4 & H5 & H6). apply (wp_mappages pt s N L); try done.
    + intros s' N' L' H' M'. split; [|by exists N', L']. exists (npages va size). assert (0 ≤ npages va size).
      { unfold npages, page_no, PGSIZE. dlia. }
      split_and!; [lia|lia|done|]. by left.
    + intros s' N' k H' Hk M'. split; [|by exists N', []]. exists k. unfold npages. split_and!; [lia|lia|done|]. right. split_and!; [done|lia|].
      apply (vm_kmem _ _ _ _ H').
  - intros (H1 & H2 & H3 & H4 & H5). wp_step. unfold uvmunmap. rewrite (proj2 (Z.eqb_eq _ _) H2). cbn [negb].
    assert (MAXVA < 2 ^ 64) as HM by done. assert (PGSIZE = 4096) as EP by done. assert (va = page_no va * PGSIZE) as Ev by (unfold page_no; rewrite EP in *; dlia).
    assert (u64 (va + n * PGSIZE) = (page_no va + Z.of_nat (Z.to_nat n)) * PGSIZE) as ->.
    { unfold u64. rewrite Z.mod_small, Z2Nat.id by lia. rewrite Ev at 1. lia. }
    assert (0 ≤ page_no va) by (unfold page_no; rewrite EP; dlia). rewrite Ev at 1.
    apply (wp_uvmunmap_loop pt _ s N L); rewrite ?Z2Nat.id by lia; [done|done|lia|done|]. intros s' H' C'. wp_step. split; [done|]. by exists N, L.
  - intros _. apply (wp_walkaddr pt s N L); [done|]. split; [done|]. by exists N, L.
Qed.

Lemma vm_reach_ok s0 L0 pt s : kmem_ok s0 L0 → mem_ok (phys s0) → vm_reach s0 pt s → ∃ N L, vm_ok pt s N L.
Proof.
  intros K M. induction 1 as [s E Hne|s o r s' _ (N & L & IH) Hl E].
  - assert (wp uvmcreate (λ pt' s', pt' ≠ 0 → ∃ N L, vm_ok pt' s' N L) s0) as W.
    { apply (wp_uvmcreate s0 L0); [done|done|done|]. intros pt' s' N' L' H' _ _ _. by exists N', L'. }
    unfold wp in W. rewrite E in W. by apply W.
  - pose proof (vm_op_ok pt s N L o IH Hl) as W. unfold wp in W. rewrite E in W. apply W.
Qed.

(** C8: a page table refines a finite map from pages to entries.  From the
    creation of a table on, in physical memory and with the pages of the allocator,
    every legal operation completes: [mappages] adds the entries of its range, with
    the address and the permissions it was given, and nothing else, or returns -1
    with the allocator empty and a prefix of the range mapped; [uvmunmap] removes its
    range and nothing else; [walkaddr] returns the page of the map if the user may
    access it. *)
Theorem page_table_refines_map s0 L0 pt s o :
  kmem_ok s0 L0 → mem_ok (phys s0) → vm_reach s0 pt s → vm_legal (phys s) pt o →
  ∃ r s', do_vm pt o s = Done (r, s') ∧ vm_spec pt o s r s'.
Proof.
  intros K M R Hl. destruct (vm_reach_ok s0 L0 pt s K M R) as (N & L & H).
  destruct (wp_inv _ _ _ (vm_op_ok pt s N L o H Hl)) as (r & s' & E & Hs & _). by exists r, s'.
Qed.
End tree.

(** Four free pages. *)
Definition demo_pages : list Z := [0x80030000; 0x80031000; 0x80032000; 0x80033000].
Definition demo_phys : mem := st 8 (st 8 (st 8 (st 8 ∅ 0x80030000 0x80031000) 0x80031000 0x80032000) 0x80032000 0x80033000) 0x80033000 0.
Definition demo_machine : machine unit := Machine demo_phys 0x80030000 0 ∅ tt.

Lemma demo_machine_ok : kmem_ok (C := default_config) demo_machine demo_pages ∧ mem_ok (phys demo_machine).
Proof.
  split.
  - split; [|by apply (bool_decide_unpack _); vm_compute]. cbn. unfold demo_phys.
    repeat (split; [first [reflexivity|(rewrite ?ld_st_ne by lia; by rewrite ld_st_eq)]|split; [by vm_compute|]]). by rewrite ld_st_eq.
  - unfold demo_machine, demo_phys. cbn [phys]. repeat apply mem_ok_st. intros a. rewrite lookup_total_empty. by vm_compute.
Qed.

(** The page of a program's first instructions, for the user to read and execute. *)
Definition demo_op : vm_op := MapPages 0 4096 0x80100000 (PTE_R + PTE_X + PTE_U).

Lemma page_table_refines_map_witness :
  ∃ pt s r s', uvmcreate (C := default_config) demo_machine = Done (pt, s) ∧
    do_vm (C := default_config) pt demo_op s = Done (r, s') ∧ vm_spec pt demo_op s r s'.
Proof.
  destruct demo_machine_ok as [K M]. assert (wp (uvmcreate (C := default_config)) (λ pt s, pt ≠ 0 ∧ ∀ va, tr (phys s) pt va = None) demo_machine) as W.
  { apply (wp_uvmcreate demo_machine demo_pages); [exact K|exact M|intros [=]|]. intros pt s N L _ Hne Ht. split; [exact Hne|exact Ht]. }
  destruct (wp_inv _ _ _ W) as (pt & s & E & Hne & Ht).
  destruct (page_table_refines_map (C := default_config) demo_machine demo_pages pt s demo_op K M) as (r & s' & E' & Hs).
  - apply reach_create; [exact E|exact Hne].
  - clear - Ht. cbn [vm_legal demo_op]. split_and!; [lia|lia|by vm_compute|lia|by vm_compute|]. intros va' _ _. apply Ht.
  - exists pt, s, r, s'. split; [exact E|]. split; [exact E'|exact Hs].
Defined.
